(* ===== verification/_CoqProject ===== *)
-Q . S2P
Prelude.v
System.v
Debts.v
FtpParse.v
CmdParse.v
Retr.v
Store.v
Sha1.v
PackageFormat.v
Package.v
FtpState.v
FtpCmds.v
FtpSafe.v
FtpTransfer.v
FtpList.v
ClientList.v
CmdDefs.v
CmdServer.v
FtpServer.v
FtpDebts.v
FtpControl.v
Interlock.v
Net.v
Log.v
