(* ===== verification/Prelude.v ===== *)
(** * VitaCompanion: a verification development

    The program is a plugin of the PlayStation Vita's shell. It runs two servers
    while the console is connected: an FTP server on port 1337
    (libftpvita/ftpvita.c and its headers) and a command server on port 1338
    (src/cmd.c) that launches and kills applications, takes screenshots, installs
    packages and resets the console.

    ** The parts of the program and how they interact

    - The entry points (src/main.c) set up the memory pool and start the network
      thread (src/net.c), which starts both servers when the console is connected
      and stops them when it is not: Net.
    - The FTP server has an accepting thread, and a thread for each client:
      FtpServer. The clients are on a doubly linked list, under a mutex:
      ClientList. A client's thread reads a line, splits it (ftpvita_parse.h:
      FtpParse) and runs the command that the table gives for its first word:
      FtpCmds. The statics and the small operations on them are in FtpState. RETR
      and STOR move their bytes through two loops with callbacks
      (ftpvita_retr.h: Retr, ftpvita_store.h: Store).
    - The command server has one thread and one connection at a time: CmdServer.
      A request is split in place (src/parser.c: CmdParse) and its command run
      (src/cmd_definitions.c: CmdDefs). One command installs a VPK archive
      (src/package_installer.c: the formats are in PackageFormat, what touches the
      system in Package), with SHA-1 checksums (src/sha1.c: Sha1).
    - Two statics of the FTP server tie the two servers together: [transfer_active]
      admits one data transfer at a time, and [reboot_quiesce_requested] keeps
      clients and transfers out while the command server resets the console.
      Interlock models the accesses to them one by one.

    ** Conventions

    - System holds the calls to the console's SDK, taiHEN and zlib, which are not
      part of the repository, as the type [call]; the environment that answers them
      is an arbitrary function of the calls made so far and their answers, the
      history of the run. A property for every environment is one for every
      behaviour of the network, the peer and the file system. What the code relies
      on is a named hypothesis on the environment: that a count is not above what
      was asked for ([io_counts]), that a string fits its array, that zlib makes
      progress ([zlib_progress]); see [ftp_io_ok] in FtpSafe, [io_ok] in Package,
      [console_ok] in CmdDefs. The constants of the SDK headers are the class [Sdk].
    - A stateful function is in the monad [M] of System. It ends in [Done] with a
      result, in [Undefined] where the C code has undefined behaviour (an access out
      of an object, a null pointer, freed memory, a string that does not fit), or in
      [NoFuel] where a loop was cut. [wp] is total correctness: no undefined
      behaviour and the run ends. [wlp] says the same of every run that its bounds
      do not cut; it still excludes undefined behaviour. [returns] speaks of the
      runs that return.
    - What a run holds (sockets, files, directories, blocks, threads, mutexes,
      streams, modules) is read off its history, so no ghost state is added to the
      program. Where the whole run is known, the theorem gives its calls and their
      answers one after the other: [traced], [connection_opened], [interleaved].
      Debts adds up what is still to be given back.
    - A pointer into an array is the list of the bytes from there to its end; a
      machine integer is a [Z] with its wrap-around written out ([u32], [s32],
      [u64]); a client's structure is a node in a heap.
    - What other threads do while one waits in the system is an argument, [others]:
      in CmdServer and Net a computation in the same history, so that it can also
      make calls; in FtpServer a function on the statics and the client list, each
      FTP thread having its own history. A command, or a function run under the
      mutex, is one step there. Interlock, where one access to a static is one
      step, covers the finer interleavings, and [functions_are_paths] ties its
      steps to the functions. The teardown is not one of its threads: the network
      thread stops the command server before it stops the FTP server.

    ** The files

    - Prelude: integers, bytes, C strings, checked loads and stores, formatting.
    - System: calls, answers, histories, the monad, its proof rules, the resources.
    - Debts: what a run acquired and did not give back, as a multiset. FtpDebts: the
      debts of the FTP server's start and end.
    - FtpParse: [ftpvita_parse_command_line], [ftpvita_copy_command_argument],
      [ftpvita_parse_rest_offset], [ftpvita_parse_port_tuple].
    - CmdParse: [parse_cmd]. Sha1: [sha1_init], [sha1_update], [sha1_final] and the
      reference of FIPS 180-4.
    - Retr, Store: [ftpvita_retr_extent], [ftpvita_store_stream], over any callbacks.
    - PackageFormat, Package: [is_safe_archive_path], the end record, [sfo_string],
      [patch_head]; [extract_zip_data], [extract_vpk], [make_head_bin],
      [promote_stage], [install_vpk].
    - FtpState, FtpCmds: the statics, device and custom command tables, transfer and
      reboot flags; the data connection and every command with its dispatch.
    - FtpSafe, FtpTransfer, FtpList: the theorems on the commands: what all of them
      preserve, what the transfers move, what a listing sends.
    - ClientList: nodes, links, and the refinement to the registry, a plain list.
    - CmdDefs, CmdServer: the commands of the command server and [cmd_handle],
      [receive_command], [send_response], [cmd_thread], [cmd_start], [cmd_end].
    - FtpServer: [ftpvita_init], [ftpvita_fini], [server_thread], [client_thread].
    - FtpControl: the conversation that a client's session is.
    - Interlock: the interlock in small steps. Net: [net_thread], [start_services],
      [stop_services], [module_start], [module_stop]; the class [Service] is what
      the network thread needs of a server, its debts included, with an instance
      for each.
    - Log: [LOG], [log_func], the callbacks, with the formats they read.

    ** What the theorems show

    - The FTP commands: from any argument and any answers, no undefined behaviour,
      nothing leaked, the session kept ([builtin_commands_keep_session]). For a
      download, an upload or a listing that reports success the whole run is given,
      from the allocation of the buffer to the reply: a download seeks to the restore
      point and sends exactly the bytes from there ([retr_delivers_file]), an upload
      writes exactly the bytes received until the peer ended the stream
      ([stor_stores_stream]), on top of the accounting of the two loops, and a listing
      has a line for each entry that the directory gave ([list_sends_listing]). The
      custom command table ([custom_command_roundtrip]).
    - The FTP threads: a client's session is a conversation in lines, words and
      commands by name ([session_is_conversation]); its thread gives everything back,
      and deletes itself exactly when it took its client off the list
      ([client_thread_releases]); a turn of the accepting thread and the start of the
      server are all or nothing ([accept_turn_all_or_nothing],
      [ftpvita_init_all_or_nothing]), and the end aborts, waits for and deletes every
      client that is left when the accepting thread has ended
      ([ftpvita_fini_teardown]); the pointer list refines the registry
      ([client_list_refines]).
    - The interlock: at most one transfer, no client or transfer while a reboot is
      prepared ([reboot_interlock_safe]), and a reboot stays possible
      ([reboot_stays_possible]); [prepare_for_reboot_correct] for the function and
      [reboot_only_when_idle] for the command.
    - The command server: a request is handled by its words and always answered, and
      no socket stays open ([cmd_handle_correct], [serve_client_answers],
      [cmd_thread_releases_sockets]); a launch is reported when it was seen.
    - The installer: it writes only in its staging directory ([install_vpk_contained]),
      an extracted entry has the declared size and checksum, extraction ends, the
      header is made from the bytes read from the param.sfo ([make_head_bin_correct])
      and signed with the checksums SHA-1 gives, promotion is balanced.
    - The network thread and the module: whatever order the events come in, the thread
      owes nothing when it ends: the threads of both servers were waited for and
      deleted, and the mutexes, the network layers and the callback given back
      ([net_thread_stops_services]); the module starts and stops as a whole, call by
      call ([module_start_all_or_nothing]).
    - Logging does nothing as built ([logging_off]); in a build with it, a message is
      read as a format a second time ([info_is_formatted_twice]).
    - The parsers: each is in bounds on every input and equal to a specification of
      the text it accepts.

    Some smaller facts are kept as theorems of their own files: round trips of the
    REST offset, the end record and the device table, [sha1_in_bounds], [ensure_directory_makes],
    [read_at_complete], [write_all_complete], [begin_transfer_correct],
    [dispatch_correct], [del_unknown_custom_command].

    ** Bounds

    - The loops of the installer have bounds that are part of the definitions and are
      enough: copying a stored entry takes a turn for each chunk ([stored_fuel]),
      inflating one takes at most a turn for each byte of output that deflate can make
      of the input, 1033 for one ([inflate_fuel]), when zlib makes progress;
      [extract_vpk] takes a turn for an entry. Removing the staging directory goes as
      deep as the file system makes it and takes a bound from outside, so
      [install_vpk_contained] is a [wlp].
    - A listing and an upload go on for as long as the directory and the peer do:
      [builtin_commands_keep_session] says which bounds are enough ([enough],
      [loops_end]). The walks over the client list are bounded by the heap and by
      [MAX_CLIENTS], and [client_list_refines] shows that they end.
    - The loops of the threads (a client's, the accepting thread's, the command
      server's, the network thread's) run until the other side ends them and take a
      bound on their turns. The bodies of the accepting loop, and the start and the
      end of the FTP server, are total.

    ** Not modelled

    The messages that the servers log: the repository is built without logging
    ([ENABLE_LOGGING] is 0), where [LOG] is empty and the callbacks are null, so the
    calls of [LOG], [INFO] and [DEBUG] do nothing ([logging_off] in Log). Log models
    them in both builds. The tests and fixtures that run on the host are not modelled.
    Timing is not modelled: a delay is a call like any other. The bytes of the modules
    outside the repository, such as SceShell's screenshot routine, are calls. *)

From stdpp Require Export base numbers list option strings.
From Stdlib Require Export ZArith Lia ZifyBool ZifyNat.

#[global] Open Scope Z_scope.

#[global] Arguments Z.eqb _ _ : simpl never.
#[global] Arguments Z.ltb _ _ : simpl never.
#[global] Arguments Z.leb _ _ : simpl never.

(** * Machine integers

    The console is a 32-bit ARM: [int], [unsigned int] and [size_t] are 32 bits
    wide, [SceOff], [uint64_t] and [unsigned long long] 64 bits.  A machine
    integer is a [Z]; every operation that can leave the range of its type is
    wrapped by one of these functions at the place where C wraps it. *)

Definition u8 (z : Z) : Z := z mod 2 ^ 8.
Definition u16 (z : Z) : Z := z mod 2 ^ 16.
Definition u32 (z : Z) : Z := z mod 2 ^ 32.
Definition u64 (z : Z) : Z := z mod 2 ^ 64.

(** Conversion to [int]: two's complement. *)
Definition s32 (z : Z) : Z := (z + 2 ^ 31) mod 2 ^ 32 - 2 ^ 31.

Definition INT_MAX : Z := 2147483647.

(** * Outcomes

    A C function either returns, or reaches an operation the language does not
    define (an access outside an object, a null dereference), or, for the loops
    that the environment can keep going for ever, runs past the number of
    iterations the model was given. *)

Inductive outcome (A : Type) : Type :=
| Done (a : A)
| Undefined
| NoFuel.
Arguments Done {A} a.
Arguments Undefined {A}.
Arguments NoFuel {A}.

#[export] Instance outcome_ret : MRet outcome := fun A a => Done a.
#[export] Instance outcome_bind : MBind outcome := fun A B k m =>
  match m with
  | Done a => k a
  | Undefined => Undefined
  | NoFuel => NoFuel
  end.

(** * Bytes and C strings

    A byte is a [Z] between 0 and 255.  Every comparison the code makes on a
    [char] is an equality or a test against an ASCII range, so the signedness of
    [char] does not matter. *)

Abbreviation bytes := (list Z).

Definition is_byte (c : Z) : Prop := 0 <= c < 256.

Definition NUL : Z := 0.
Definition TAB : Z := 9.
Definition LF : Z := 10.
Definition CR : Z := 13.
Definition SP : Z := 32.

(** The bytes of a string literal, without its terminator. *)
Fixpoint lit (s : string) : bytes :=
  match s with
  | EmptyString => []
  | String a s => Z.of_N (Ascii.N_of_ascii a) :: lit s
  end.

(** The C string stored at the start of a buffer: the bytes before the first
    terminator.  It is undefined to look for the terminator of a buffer that
    holds none. *)
Fixpoint cstr (p : bytes) : outcome bytes :=
  match p with
  | [] => Undefined
  | c :: p => if c =? NUL then Done [] else s ← cstr p; Done (c :: s)
  end.

(** Reading and writing one element of an object, given its contents. *)
Definition load (buf : bytes) (i : Z) : outcome Z :=
  if 0 <=? i then match buf !! Z.to_nat i with Some c => Done c | None => Undefined end
  else Undefined.

Definition store (buf : bytes) (i c : Z) : outcome bytes :=
  if (0 <=? i) && (i <? Z.of_nat (length buf)) then Done (<[Z.to_nat i := c]> buf)
  else Undefined.

(** A pointer that may be null, with what it points to. *)
Abbreviation ptr A := (option A).
Abbreviation NULL := None (only parsing).

(** * Searching a list *)

Section while.
Context {A : Type} (f : A -> bool).

Fixpoint take_while (l : list A) : list A :=
  match l with
  | [] => []
  | x :: l => if f x then x :: take_while l else []
  end.

Fixpoint drop_while (l : list A) : list A :=
  match l with
  | [] => []
  | x :: l' => if f x then drop_while l' else l
  end.
End while.

(** * Decimal numbers *)

Definition is_digit (c : Z) : bool := (48 <=? c) && (c <=? 57).

(** The value of a digit string, most significant digit first. *)
Definition decimal_value (ds : bytes) : Z :=
  foldl (fun v c => v * 10 + (c - 48)) 0 ds.

(** What printf's [%u] writes: the digits of a non-negative number. The fuel
    bounds the number of digits: 20 are enough for 64 bits. *)
Fixpoint decimal_digits (fuel : nat) (z : Z) : bytes :=
  match fuel with
  | O => []
  | S fuel => if z <? 10 then [48 + z] else decimal_digits fuel (z / 10) ++ [48 + z mod 10]
  end.

Definition fmt_u (z : Z) : bytes := decimal_digits 20 z.
Definition fmt_d (z : Z) : bytes := if z <? 0 then 45 :: fmt_u (- z) else fmt_u z.

(** What [%08X] writes. *)
Definition hex_digit (d : Z) : Z := if d <? 10 then 48 + d else 55 + d.
Definition fmt_08X (z : Z) : bytes :=
  (fun i => hex_digit (Z.land (Z.shiftr (u32 z) (4 * i)) 15)) <$> [7; 6; 5; 4; 3; 2; 1; 0].

(** * snprintf

    [snprintf buf size text]: what the call leaves in [buf] for the formatted
    [text], as the C string that can be read back: at most [size - 1] bytes.
    The value returned is the length of the whole text. *)
Definition snprintf_ret (text : bytes) : Z := Z.of_nat (length text).
Definition snprintf (size : Z) (text : bytes) : bytes := take (Z.to_nat (size - 1)) text.

(** * Tactics and automation *)

Create HintDb vita discriminated.
Create HintDb vita_rw.

(** Splits the conditions of [if]s and [match]es, turning boolean comparisons
    into facts [lia] reads. *)
Ltac split_ifs :=
  repeat match goal with
  | |- context [if ?b then _ else _] =>
      lazymatch type of b with bool => destruct b eqn:?; try lia end
  | H : context [if ?b then _ else _] |- _ =>
      lazymatch type of b with bool => destruct b eqn:?; try lia end
  end.

(** Runs a definition one bind at a time. *)
Ltac run := cbn [mbind outcome_bind mret outcome_ret] in *.

(** * Machine integers *)

Lemma u32_small z : 0 <= z < 2 ^ 32 -> u32 z = z.
Proof. intros. unfold u32. by rewrite Z.mod_small. Qed.

Lemma u32_range z : 0 <= u32 z < 2 ^ 32.
Proof. unfold u32. apply Z.mod_pos_bound. lia. Qed.

Lemma u64_small z : 0 <= z < 2 ^ 64 -> u64 z = z.
Proof. intros. unfold u64. by rewrite Z.mod_small. Qed.

Lemma u64_range z : 0 <= u64 z < 2 ^ 64.
Proof. unfold u64. apply Z.mod_pos_bound. lia. Qed.

Lemma s32_small z : - 2 ^ 31 <= z < 2 ^ 31 -> s32 z = z.
Proof. intros. unfold s32. rewrite Z.mod_small; lia. Qed.

Lemma s32_range z : - 2 ^ 31 <= s32 z < 2 ^ 31.
Proof. unfold s32. pose proof (Z.mod_pos_bound (z + 2 ^ 31) (2 ^ 32)). lia. Qed.

(** * Lists *)

Section while_lemmas.
Context {A : Type} (f : A -> bool).
Implicit Types l k : list A.

Lemma take_drop_while l : take_while f l ++ drop_while f l = l.
Proof. induction l as [|x l IH]; simpl; [done|]. destruct (f x); simpl; congruence. Qed.

Lemma take_while_all l : Forall (fun x => f x = true) (take_while f l).
Proof. induction l as [|x l IH]; simpl; [done|]. destruct (f x) eqn:E; auto. Qed.

Lemma drop_while_head l x k : drop_while f l = x :: k -> f x = false.
Proof.
  induction l as [|y l IH]; simpl; [done|].
  destruct (f y) eqn:E; [done|]. intros [= -> _]. done.
Qed.

Lemma while_app l k :
  Forall (fun x => f x = true) l ->
  take_while f (l ++ k) = l ++ take_while f k /\ drop_while f (l ++ k) = drop_while f k.
Proof.
  induction 1 as [|x l Hx _ [IH1 IH2]]; simpl; [done|].
  rewrite Hx, IH1, IH2. done.
Qed.

Lemma Forall_drop_while P l : Forall P l -> Forall P (drop_while f l).
Proof. rewrite <-(take_drop_while l) at 1. rewrite Forall_app. tauto. Qed.

Lemma Forall_take_while P l : Forall P l -> Forall P (take_while f l).
Proof. rewrite <-(take_drop_while l) at 1. rewrite Forall_app. tauto. Qed.

Lemma length_while l : (length (take_while f l) + length (drop_while f l) = length l)%nat.
Proof. rewrite <-length_app. by rewrite take_drop_while. Qed.
End while_lemmas.

#[export] Hint Resolve Forall_drop_while Forall_take_while : vita.

(** * C strings *)

(** [terminated p s]: the buffer at [p] holds the C string [s]. *)
Definition terminated (p s : bytes) : Prop :=
  Forall (fun c => c <> NUL) s /\ exists t, p = s ++ NUL :: t.

Lemma cstr_terminated p s : cstr p = Done s <-> terminated p s.
Proof.
  revert s. induction p as [|c p IH]; intros s; simpl.
  - split; [done|]. intros [_ [t Ht]]. by destruct s.
  - destruct (Z.eqb_spec c NUL) as [->|Hc].
    + split.
      * intros [= <-]. split; [done|]. by exists p.
      * intros [Hs [t Ht]]. destruct s as [|x s]; [done|].
        apply Forall_cons in Hs as [Hx _]. simplify_eq/=.
    + split.
      * destruct (cstr p) as [s'| |] eqn:E; run; try done. intros [= <-].
        destruct (proj1 (IH s') eq_refl) as [Hs [t ->]].
        split; [by constructor|]. by exists t.
      * intros [Hs [t Ht]]. destruct s as [|x s]; simplify_eq/=.
        apply Forall_cons in Hs as [Hx Hs].
        rewrite (proj2 (IH s)); [done|]. split; [done|]. by exists t.
Qed.

Lemma cstr_lit s t : Forall (fun c => c <> NUL) s -> cstr (s ++ NUL :: t) = Done s.
Proof. intros H. apply cstr_terminated. split; [done|]. by exists t. Qed.

(** A buffer with a terminator holds a string. *)
Lemma cstr_at (p : bytes) i : p !! i = Some NUL -> exists s, cstr p = Done s /\ (length s <= i)%nat.
Proof.
  revert i. induction p as [|c p IH]; intros i Hi; [done|]. cbn [cstr]. destruct (Z.eqb_spec c NUL) as [|Hc].
  - exists []. split; [done|cbn; lia].
  - destruct i as [|i]; [by injection Hi as ->|]. destruct (IH i Hi) as (s & E & Hl).
    exists (c :: s). rewrite E. split; [done|cbn; lia].
Qed.

Lemma terminated_app a s t :
  Forall (fun c => c <> NUL) s -> terminated (a ++ s ++ NUL :: t) (a ++ s) <-> Forall (fun c => c <> NUL) a.
Proof.
  intros Hs. split.
  - intros [H _]. by apply Forall_app in H as [? _].
  - intros Ha. split; [by apply Forall_app|]. exists t. by rewrite <-app_assoc.
Qed.

(** * Buffers *)

Lemma store_in (buf : bytes) i c :
  0 <= i < Z.of_nat (length buf) -> store buf i c = Done (<[Z.to_nat i := c]> buf).
Proof. intros. unfold store. split_ifs. done. Qed.

Lemma load_in (buf : bytes) i c :
  0 <= i -> buf !! Z.to_nat i = Some c -> load buf i = Done c.
Proof. intros ? E. unfold load. rewrite E. by split_ifs. Qed.

Lemma load_head c (buf : bytes) : load (c :: buf) 0 = Done c.
Proof. done. Qed.

(** Writing [k] at [i] after writing the byte before it. *)
Lemma inserts_cons (buf : bytes) i c k :
  list_inserts (S i) k (<[i := c]> buf) = list_inserts i (c :: k) buf.
Proof. simpl. symmetry. apply list_insert_inserts_lt. lia. Qed.

Lemma inserts_snoc (buf : bytes) i c k :
  <[(i + length k)%nat := c]> (list_inserts i k buf) = list_inserts i (k ++ [c]) buf.
Proof. rewrite list_inserts_app_l. simpl. by rewrite Nat.add_comm. Qed.

(** A buffer that was overwritten from its start. *)
Lemma inserts_0 (buf k : bytes) :
  (length k <= length buf)%nat -> list_inserts 0 k buf = k ++ drop (length k) buf.
Proof.
  intros Hlen. rewrite <-(take_drop (length k) buf) at 1.
  apply list_inserts_0_r. rewrite length_take. lia.
Qed.

(** Deciding that a concrete list holds bytes. *)
Lemma bytes_ok (l : bytes) : forallb (fun c => (0 <=? c) && (c <? 256)) l = true -> Forall is_byte l.
Proof.
  intros H. apply Forall_forall. intros c Hc. apply list_elem_of_In in Hc.
  rewrite forallb_forall in H. specialize (H c Hc). unfold is_byte. lia.
Qed.
Ltac solve_bytes := apply bytes_ok; vm_compute; reflexivity.

(** * Decimal numbers *)

Abbreviation all_digits ds := (Forall (fun c => is_digit c = true) ds).

Lemma is_digit_range c : is_digit c = true <-> 48 <= c <= 57.
Proof. unfold is_digit. lia. Qed.

Lemma digits_mono ds v :
  all_digits ds -> 0 <= v -> v <= foldl (fun v c => v * 10 + (c - 48)) v ds.
Proof.
  revert v. induction ds as [|d ds IH]; intros v H Hv; simpl; [lia|].
  apply Forall_cons in H as [Hd H]. apply is_digit_range in Hd.
  specialize (IH (v * 10 + (d - 48)) H). lia.
Qed.

Lemma decimal_value_snoc ds c : decimal_value (ds ++ [c]) = decimal_value ds * 10 + (c - 48).
Proof. unfold decimal_value. by rewrite foldl_app. Qed.

Lemma decimal_value_nonneg ds : all_digits ds -> 0 <= decimal_value ds.
Proof. intros. by apply (digits_mono ds 0). Qed.

Lemma digits_NUL_free ds : all_digits ds -> Forall (fun c => c <> NUL) ds.
Proof. intros H. eapply Forall_impl; [exact H|]. intros c Hc%is_digit_range. unfold NUL. lia. Qed.

Lemma decimal_digits_spec fuel z :
  0 <= z < 10 ^ Z.of_nat fuel ->
  all_digits (decimal_digits fuel z) /\ decimal_value (decimal_digits fuel z) = z.
Proof.
  revert z. induction fuel as [|fuel IH]; intros z Hz.
  - change (10 ^ Z.of_nat 0) with 1 in Hz. simpl. split; [done|]. cbv. lia.
  - cbn [decimal_digits]. destruct (Z.ltb_spec z 10) as [Hlt|Hge].
    + split; [repeat constructor; apply is_digit_range; lia|]. unfold decimal_value. simpl. lia.
    + rewrite Nat2Z.inj_succ, Z.pow_succ_r in Hz by lia.
      destruct (IH (z / 10)) as [Hd Hv]; [split; [lia|]; apply Z.div_lt_upper_bound; lia|].
      split.
      * apply Forall_app. split; [done|]. repeat constructor. apply is_digit_range. lia.
      * rewrite decimal_value_snoc, Hv. lia.
Qed.

Lemma decimal_digits_nonempty fuel z : fuel <> O -> decimal_digits fuel z <> [].
Proof. destruct fuel; [done|]. intros _. cbn [decimal_digits]. case_match; [done|]. by destruct (decimal_digits fuel (z / 10)). Qed.

Lemma fmt_u_spec z :
  0 <= z < 2 ^ 64 -> all_digits (fmt_u z) /\ decimal_value (fmt_u z) = z /\ fmt_u z <> [].
Proof.
  intros Hz. destruct (decimal_digits_spec 20 z) as [Hd Hv]; [simpl; lia|].
  split; [done|]. split; [done|]. by apply decimal_digits_nonempty.
Qed.
