(* ===== verification/System.v ===== *)
(** The machine under the program: the calls it makes to the console's SDK, the
    environment that answers them, and the monad in which the stateful parts of
    the program are written.

    The SDK is not part of the repository.  A call is a value of [call], the
    environment is an arbitrary function from the history of the run and a call
    to an answer, so a theorem for every environment covers every behaviour of
    the SDK, the peer and the file system.  The run records the calls it made
    and their answers, newest first. *)

From S2P Require Import Prelude.

(** Constants of the SDK and zlib headers the program names. *)
Class Sdk := {
  SCE_NET_SO_SNDTIMEO : Z;
  SCE_NET_SO_RCVTIMEO : Z;
  SCE_NET_INADDR_ANY : Z;
  SCE_NET_ERROR_EINTR : Z;
  SCE_NET_ERROR_ENOTINIT : Z;
  SCE_NET_SOCKET_ABORT_FLAG_RCV_PRESERVATION : Z;
  SCE_NET_SOCKET_ABORT_FLAG_SND_PRESERVATION : Z;
  SCE_O_RDONLY : Z;
  SCE_O_RDWR : Z;
  SCE_O_CREAT : Z;
  SCE_O_APPEND : Z;
  SCE_O_TRUNC : Z;
  SCE_O_WRONLY : Z;
  SCE_SEEK_SET : Z;
  SCE_SEEK_END : Z;
  SCE_APPMGR_MAX_APP_NAME_LENGTH : Z;
  SCE_APPMGR_ERROR_INVALID : Z;
  SCE_KERNEL_START_SUCCESS : Z;
  SCE_KERNEL_START_FAILED : Z;
  SCE_KERNEL_STOP_SUCCESS : Z;
  SCE_SYSMODULE_INTERNAL_PAF : Z;
  SCE_SYSMODULE_INTERNAL_PROMOTER_UTIL : Z;
  MAX_WBITS : Z;
  Z_OK : Z;
  Z_STREAM_END : Z;
  (* zlib's checksum: the initial value and the update *)
  crc32_initial : Z;
  crc32 : Z -> bytes -> Z
}.

(** * Answers with several parts *)

(** The fields of [SceIoStat] the program reads: whether the entry is a
    directory, its size and its modification time. *)
Record SceIoStat := IoStat {
  st_isdir : bool;
  st_size : Z;
  st_year : Z; st_month : Z; st_day : Z; st_hour : Z; st_minute : Z
}.

Definition empty_stat : SceIoStat := IoStat false 0 0 0 0 0 0.

(** The fields of [tai_module_info_t] and of [SceKernelModuleInfo] the program
    reads: the module and its fingerprint, and the size and the address of each
    of its four segments. *)
Record tai_module_info_t := TaiModuleInfo { modid : Z; module_nid : Z }.
Record segment := Segment { memsz : Z; vaddr : Z }.

Record SceIoDirent := IoDirent { d_name : bytes; d_stat : SceIoStat }.

(** [struct SceNetSockaddrIn]: the address and the port, in network order. *)
Record SceNetSockaddrIn := SockaddrIn { s_addr : Z; sin_port : Z }.

(** * The calls *)

Inductive call :=
(* psp2/net *)
| sceNetSocket (name : bytes)
| sceNetBind (fd : Z) (addr : SceNetSockaddrIn)
| sceNetListen (fd backlog : Z)
| sceNetAccept (fd : Z)
| sceNetConnect (fd : Z) (addr : SceNetSockaddrIn)
| sceNetSend (fd : Z) (data : bytes)
| sceNetRecv (fd len : Z)
| sceNetErrnoLoc
| sceNetSetsockopt (fd option value : Z)
| sceNetGetsockname (fd : Z)
| sceNetSocketClose (fd : Z)
| sceNetSocketAbort (fd flags : Z)
| sceNetInetPton (text : bytes)
| sceNetHtonl (v : Z)
| sceNetHtons (v : Z)
| sceNetInetNtop (addr : Z)
| sceNetShowNetstat
| sceNetInit (size : Z)
| sceNetTerm
(* psp2/netctl *)
| sceNetCtlInit
| sceNetCtlTerm
| sceNetCtlInetGetInfo
| sceNetCtlInetGetState
| sceNetCtlInetRegisterCallback
| sceNetCtlInetUnregisterCallback (id : Z)
| sceNetCtlCheckCallback
(* psp2/io *)
| sceIoOpen (path : ptr bytes) (flags mode : Z)
| sceIoClose (fd : Z)
| sceIoRead (fd len : Z)
| sceIoWrite (fd : Z) (data : bytes)
| sceIoLseek (fd offset whence : Z)
| sceIoGetstat (path : ptr bytes)
| sceIoRemove (path : ptr bytes)
| sceIoRename (from to : ptr bytes)
| sceIoMkdir (path : ptr bytes) (mode : Z)
| sceIoRmdir (path : ptr bytes)
| sceIoDopen (path : ptr bytes)
| sceIoDread (fd : Z)
| sceIoDclose (fd : Z)
| sceRtcGetCurrentClockLocalTime
(* memory *)
| malloc (size : Z)
| free (block : bool)                      (* whether the pointer is not null *)
| taipool_init (size : Z)
| taipool_term
(* psp2/kernel *)
| sceKernelDelayThread (us : Z)
| sceKernelCreateThread (name : bytes)
| sceKernelStartThread (thid : Z)
| sceKernelDeleteThread (thid : Z)
| sceKernelWaitThreadEnd (thid : Z)
| sceKernelExitThread
| sceKernelExitDeleteThread
| sceKernelCreateMutex (name : bytes)
| sceKernelDeleteMutex (uid : Z)
| sceKernelLockMutex (uid : Z)
| sceKernelUnlockMutex (uid : Z)
(* psp2/kernel/modulemgr, taihen *)
| sceKernelGetModuleInfo (modid : Z)
| taiGetModuleInfo (module : bytes)
| call_shellShot (address : Z)             (* a call of the screenshot routine of SceShell *)
(* psp2/appmgr, power *)
| sceAppMgrGetAppIdByAppId (id : Z)
| sceAppMgrGetProcessIdByAppIdForShell (id : Z)
| sceAppMgrGetNameById (pid : Z)
| sceAppMgrDestroyAppByName (name : bytes)
| sceAppMgrDestroyOtherApp
| sceAppMgrLaunchAppByUri (flags : Z) (uri : bytes)
| scePowerRequestColdReset
| scePowerRequestDisplayOn
| scePowerRequestDisplayOff
| scePowerGetBatteryLifePercent
| scePowerIsBatteryCharging
(* psp2/sysmodule, promoterutil *)
| sceSysmoduleLoadModuleInternalWithArg (id : Z)
| sceSysmoduleUnloadModuleInternalWithArg (id : Z)
| sceSysmoduleLoadModuleInternal (id : Z)
| sceSysmoduleUnloadModuleInternal (id : Z)
| scePromoterUtilityInit
| scePromoterUtilityPromotePkgWithRif (path : bytes) (sync : Z)
| scePromoterUtilityExit
(* zlib: the state of the stream lives in the history *)
| inflateInit2 (window_bits : Z)
| inflate (next_in : bytes) (avail_out : Z)
| inflateEnd.

(** The type of an answer.  Calls that return a status and fill an object answer
    with both. *)
Definition answer (c : call) : Type :=
  match c with
  | sceNetAccept _ => Z * SceNetSockaddrIn
  | sceNetRecv _ _ | sceIoRead _ _ => Z * bytes
  | sceNetGetsockname _ => Z * SceNetSockaddrIn
  | sceIoGetstat _ => Z * SceIoStat
  | sceIoDread _ => Z * SceIoDirent
  | malloc _ => bool                       (* whether it is not null *)
  | sceAppMgrGetNameById _ | sceNetCtlInetGetInfo => Z * bytes
  | sceNetCtlInetGetState | sceNetCtlInetRegisterCallback => Z * Z
  | taiGetModuleInfo _ => Z * tai_module_info_t
  | sceKernelGetModuleInfo _ => Z * list segment
  | inflate _ _ => Z * Z * bytes           (* result, bytes left of the input, output *)
  | _ => Z
  end.

Inductive event := Ev (c : call) (a : answer c).

Abbreviation history := (list event).

(** The environment. *)
Abbreviation environment := (forall (h : history) (c : call), answer c).

(** Whether an event is a call of a given kind. *)
Definition ev_call (e : event) : call := let 'Ev c _ := e in c.

(** The calls made since [h0], oldest first. *)
Definition calls_since (h0 h : history) : list call :=
  ev_call <$> rev (take (length h - length h0) h).

Lemma calls_since_app es h : calls_since h (es ++ h) = ev_call <$> rev es.
Proof. unfold calls_since. rewrite length_app, take_app_length' by lia. done. Qed.

(** [traced l h h']: between [h] and [h'] exactly the calls [l] were made. *)
Definition traced (l : list call) (h h' : history) : Prop :=
  exists es, h' = es ++ h /\ ev_call <$> rev es = l.

Lemma traced_nil h : traced [] h h.
Proof. by exists []. Qed.

Lemma traced_call c a h : traced [c] h (Ev c a :: h).
Proof. by exists [Ev c a]. Qed.

Lemma traced_app l1 l2 h1 h2 h3 : traced l1 h1 h2 -> traced l2 h2 h3 -> traced (l1 ++ l2) h1 h3.
Proof.
  intros (e1 & -> & <-) (e2 & -> & <-). exists (e2 ++ e1). by rewrite app_assoc, rev_app_distr, fmap_app.
Qed.

Lemma traced_snoc l c a h h' : traced l h h' -> traced (l ++ [c]) h (Ev c a :: h').
Proof. intros H. eapply traced_app; [done|]. apply traced_call. Qed.

Lemma traced_cons c a l h h' : traced l (Ev c a :: h) h' -> traced (c :: l) h h'.
Proof. intros H. eapply (traced_app [c]); [apply traced_call|done]. Qed.

Lemma calls_since_traced l h h' : traced l h h' <-> (exists es, h' = es ++ h) /\ calls_since h h' = l.
Proof.
  split.
  - intros (es & -> & <-). split; [eauto|]. apply calls_since_app.
  - intros [[es ->] <-]. exists es. split; [done|]. by rewrite calls_since_app.
Qed.

(** * The monad *)

Definition M (S A : Type) : Type := environment -> S -> history -> outcome (A * S * history).

#[export] Instance M_ret S : MRet (M S) := fun A a env s h => Done (a, s, h).
#[export] Instance M_bind S : MBind (M S) := fun A B f m env s h =>
  match m env s h with
  | Done (a, s, h) => f a env s h
  | Undefined => Undefined
  | NoFuel => NoFuel
  end.

Section operations.
Context {S : Type}.

Definition sys (c : call) : M S (answer c) := fun env s h =>
  let a := env h c in Done (a, s, Ev c a :: h).
Definition get : M S S := fun env s h => Done (s, s, h).
Definition gets {A} (f : S -> A) : M S A := fun env s h => Done (f s, s, h).
Definition modify (f : S -> S) : M S unit := fun env s h => Done (tt, f s, h).
Definition lift {A} (o : outcome A) : M S A := fun env s h =>
  match o with Done a => Done (a, s, h) | Undefined => Undefined | NoFuel => NoFuel end.
End operations.

(** A computation on a part of the state. *)
Definition zoom {S T A} (view : S -> T) (update : T -> S -> S) (m : M T A) : M S A := fun env s h =>
  match m env (view s) h with
  | Done (a, t, h) => Done (a, update t s, h)
  | Undefined => Undefined
  | NoFuel => NoFuel
  end.


(** * Reasoning

    [run_spec nofuel m Q env s h]: run from [s] and [h] in [env], [m] ends without
    undefined behaviour and its result satisfies [Q]; a loop may exceed its
    bound only if [nofuel] holds.  [wp] is total correctness, [wlp] speaks of the
    runs that end. *)

Definition run_spec {S A} (nofuel : Prop) (m : M S A) (Q : A -> S -> history -> Prop)
    (env : environment) (s : S) (h : history) : Prop :=
  match m env s h with
  | Done (a, s, h) => Q a s h
  | Undefined => False
  | NoFuel => nofuel
  end.

Abbreviation wp := (run_spec False).
Abbreviation wlp := (run_spec True).

Section rules.
Context {S : Type} {nofuel : Prop}.
Implicit Types (env : environment) (s : S) (h : history).
Abbreviation spec := (run_spec nofuel).

Lemma wp_ret {A} (a : A) Q env s h : Q a s h -> spec (mret (M := M S) a) Q env s h.
Proof. done. Qed.

Lemma wp_bind {A B} (m : M S A) (f : A -> M S B) Q env s h :
  spec m (fun a s h => spec (f a) Q env s h) env s h -> spec (m ≫= f) Q env s h.
Proof.
  unfold run_spec, mbind, M_bind. by destruct (m env s h) as [[[a s'] h']| |].
Qed.

(** The same, with the run of the first part at hand. *)
Lemma wp_bind_run {A B} (m : M S A) (f : A -> M S B) Q Q' env s h :
  spec m Q env s h -> (forall a s' h', m env s h = Done (a, s', h') -> Q a s' h' -> spec (f a) Q' env s' h') ->
  spec (m ≫= f) Q' env s h.
Proof.
  unfold run_spec, mbind, M_bind. destruct (m env s h) as [[[a s'] h']| |]; [|done..]. intros HQ Hf. by apply Hf.
Qed.

Lemma wp_sys c Q env s h :
  (forall a, a = env h c -> Q a s (Ev c a :: h)) -> spec (sys (S := S) c) Q env s h.
Proof. intros H. by apply H. Qed.

Lemma wp_get Q env s h : Q s s h -> spec (get (S := S)) Q env s h.
Proof. done. Qed.

Lemma wp_gets {A} (f : S -> A) Q env s h : Q (f s) s h -> spec (gets f) Q env s h.
Proof. done. Qed.

Lemma wp_modify f Q env s h : Q tt (f s) h -> spec (modify (S := S) f) Q env s h.
Proof. done. Qed.

Lemma wp_lift {A} (o : outcome A) a Q env s h : o = Done a -> Q a s h -> spec (lift (S := S) o) Q env s h.
Proof. by intros ->. Qed.

Lemma wp_mono {A} (m : M S A) (Q Q' : A -> S -> history -> Prop) env s h :
  spec m Q env s h -> (forall a s h, Q a s h -> Q' a s h) -> spec m Q' env s h.
Proof. unfold run_spec. destruct (m env s h) as [[[a s'] h']| |]; auto. Qed.

Lemma wp_nofuel {A} Q env s h : nofuel -> spec (lift (S := S) (A := A) NoFuel) Q env s h.
Proof. done. Qed.
End rules.

Lemma wp_done {S A} (m : M S A) Q env s h :
  wp m Q env s h -> exists a s' h', m env s h = Done (a, s', h') /\ Q a s' h'.
Proof. unfold run_spec. destruct (m env s h) as [[[a s'] h']| |]; [|done..]. eauto. Qed.

Lemma wlp_done {S A} (m : M S A) (Q : A -> S -> history -> Prop) env s h a s' h' :
  wlp m Q env s h -> m env s h = Done (a, s', h') -> Q a s' h'.
Proof. unfold run_spec. intros HQ E. by rewrite E in HQ. Qed.

Lemma run_spec_done {S A} nofuel (m : M S A) (Q : A -> S -> history -> Prop) env s h a s' h' :
  run_spec nofuel m Q env s h -> m env s h = Done (a, s', h') -> Q a s' h'.
Proof. unfold run_spec. intros HQ E. by rewrite E in HQ. Qed.

Lemma wp_wlp {S A} (m : M S A) Q env s h : wp m Q env s h -> wlp m Q env s h.
Proof. unfold run_spec. by destruct (m env s h) as [[[a s'] h']| |]. Qed.

Lemma wp_any {S A nofuel} (m : M S A) Q env s h : wp m Q env s h -> run_spec nofuel m Q env s h.
Proof. unfold run_spec. by destruct (m env s h) as [[[a s'] h']| |]. Qed.

Lemma wp_zoom {S T A nofuel} (view : S -> T) update (m : M T A) (Q : A -> S -> history -> Prop) env s h :
  run_spec nofuel m (fun a t h => Q a (update t s) h) env (view s) h ->
  run_spec nofuel (zoom view update m) Q env s h.
Proof. unfold run_spec, zoom. by destruct (m env (view s) h) as [[[a t] h']| |]. Qed.

(** One step of symbolic execution: the answer of a call is an arbitrary value. *)
Ltac wp_step :=
  lazymatch goal with
  | |- run_spec _ (mbind _ _) _ _ _ _ => apply wp_bind
  | |- run_spec _ (mret _) _ _ _ _ => apply wp_ret
  | |- @run_spec ?S _ ?nofuel (sys ?c) ?Q ?env ?s ?h =>
      refine (@wp_sys S nofuel c Q env s h _); let a := fresh "a" in intros a ?; cbn [answer] in *
  | |- run_spec _ get _ _ _ _ => apply wp_get
  | |- run_spec _ (gets _) _ _ _ _ => apply wp_gets
  | |- run_spec _ (modify _) _ _ _ _ => apply wp_modify
  | |- run_spec _ (zoom _ _ _) _ _ _ _ => apply wp_zoom
  | |- run_spec _ (lift (Done _)) _ _ _ _ => eapply wp_lift; [reflexivity|]
  | |- run_spec _ (lift NoFuel) _ _ _ _ => apply wp_nofuel; try exact I
  | |- run_spec _ (if ?b then _ else _) _ _ _ _ =>
      lazymatch b with true => cbv iota | false => cbv iota | _ => destruct b eqn:? end
  | |- run_spec _ (let '(_, _) := ?p in _) _ _ _ _ => destruct p
  | |- run_spec _ (match ?p with _ => _ end) _ _ _ _ => destruct p eqn:?
  end; cbn beta.
Ltac wp_steps := repeat wp_step.

(** * What a run adds to the history

    A relation between the history before and after, reflexive and transitive,
    that every call of a computation respects is respected by the computation. *)

Definition respects {S A} (nofuel : Prop) (R : history -> history -> Prop) (m : M S A) (env : environment) : Prop :=
  forall s h, run_spec nofuel m (fun _ _ h' => R h h') env s h.

Section respects.
Context {S : Type} {nofuel : Prop} (R : history -> history -> Prop) `{!PreOrder R} (env : environment).

Lemma respects_ret {A} (a : A) : respects nofuel R (mret (M := M S) a) env.
Proof using All. intros s h. apply wp_ret. reflexivity. Qed.

Lemma respects_bind {A B} (m : M S A) (f : A -> M S B) :
  respects nofuel R m env -> (forall a, respects nofuel R (f a) env) -> respects nofuel R (m ≫= f) env.
Proof using All.
  intros Hm Hf s h. apply wp_bind. eapply wp_mono; [apply Hm|]. intros a s1 h1 H1.
  eapply wp_mono; [apply Hf|]. intros b s2 h2 H2. by transitivity h1.
Qed.

(** The continuation may use a fact about the result. *)
Lemma respects_bind_post {A B} (P : A -> Prop) (m : M S A) (f : A -> M S B) :
  (forall s h, run_spec nofuel m (fun a _ h' => P a /\ R h h') env s h) ->
  (forall a, P a -> respects nofuel R (f a) env) -> respects nofuel R (m ≫= f) env.
Proof using All.
  intros Hm Hf s h. apply wp_bind. eapply wp_mono; [apply Hm|]. intros a s1 h1 [HP H1].
  eapply wp_mono; [by apply Hf|]. intros b s2 h2 H2. by transitivity h1.
Qed.

Lemma respects_if {A} (b : bool) (m1 m2 : M S A) :
  respects nofuel R m1 env -> respects nofuel R m2 env -> respects nofuel R (if b then m1 else m2) env.
Proof using Type. by destruct b. Qed.

Lemma respects_get : respects nofuel R (get (S := S)) env.
Proof using All. intros s h. apply wp_get. reflexivity. Qed.

Lemma respects_gets {A} (f : S -> A) : respects nofuel R (gets f) env.
Proof using All. intros s h. apply wp_gets. reflexivity. Qed.

Lemma respects_modify (f : S -> S) : respects nofuel R (modify f) env.
Proof using All. intros s h. apply wp_modify. reflexivity. Qed.

Lemma respects_lift {A} (a : A) : respects nofuel R (lift (S := S) (Done a)) env.
Proof using All.
  intros s h. eapply wp_lift; [done|reflexivity].
Qed.

Lemma respects_sys c : (forall a h, a = env h c -> R h (Ev c a :: h)) -> respects nofuel R (sys (S := S) c) env.
Proof using All. intros H s h. apply wp_sys. auto. Qed.
End respects.

Lemma respects_any {S A} nofuel R (m : M S A) env : respects False R m env -> respects nofuel R m env.
Proof. intros Hm s h. apply wp_any, Hm. Qed.

(** The calls a run adds all satisfy [P]. *)
Definition adds (P : call -> Prop) (h h' : history) : Prop :=
  exists es, h' = es ++ h /\ Forall (fun e => P (ev_call e)) es.

#[export] Instance adds_preorder P : PreOrder (adds P).
Proof.
  split.
  - intros h. by exists [].
  - intros h1 h2 h3 [es [-> He]] [es' [-> He']]. exists (es' ++ es).
    rewrite app_assoc. split; [done|]. by apply Forall_app.
Qed.

Lemma adds_call (P : call -> Prop) c a h : P c -> adds P h (Ev c a :: h).
Proof. intros. exists [Ev c a]. split; [done|]. by repeat constructor. Qed.

Lemma adds_mono (P Q : call -> Prop) h h' : (forall c, P c -> Q c) -> adds P h h' -> adds Q h h'.
Proof. intros HPQ [es [-> He]]. exists es. split; [done|]. eapply Forall_impl; [done|]. auto. Qed.

Lemma adds_cons (P : call -> Prop) c a h0 h : P c -> adds P h0 h -> adds P h0 (Ev c a :: h).
Proof. intros Hc Ha. transitivity h; [done|]. by apply adds_call. Qed.

(** The same for the runs that return, whatever else they can do. *)
Definition only {S A} (R : history -> history -> Prop) (m : M S A) (env : environment) : Prop :=
  forall s h a s' h', m env s h = Done (a, s', h') -> R h h'.

Section only.
Context {S : Type} (R : history -> history -> Prop) `{!PreOrder R} (env : environment).

Lemma only_ret {A} (a : A) : only R (mret (M := M S) a) env.
Proof using All. intros s h b s' h' [= _ _ <-]. reflexivity. Qed.

Lemma only_bind {A B} (m : M S A) (f : A -> M S B) :
  only R m env -> (forall a, only R (f a) env) -> only R (m ≫= f) env.
Proof using All.
  intros Hm Hf s h b s' h'. unfold mbind, M_bind. destruct (m env s h) as [[[a s1] h1]| |] eqn:E; [|done..].
  intros Hb. transitivity h1; [by eapply Hm|by eapply Hf].
Qed.

Lemma only_get : only R (get (S := S)) env.
Proof using All. intros s h b s' h' [= _ _ <-]. reflexivity. Qed.

Lemma only_gets {A} (f : S -> A) : only R (gets f) env.
Proof using All. intros s h b s' h' [= _ _ <-]. reflexivity. Qed.

Lemma only_modify (f : S -> S) : only R (modify f) env.
Proof using All. intros s h b s' h' [= _ _ <-]. reflexivity. Qed.

Lemma only_lift {A} (o : outcome A) : only R (lift (S := S) o) env.
Proof using All. intros s h b s' h'. destruct o; [|done..]. intros [= _ _ <-]. reflexivity. Qed.

Lemma only_sys c : (forall a h, R h (Ev c a :: h)) -> only R (sys (S := S) c) env.
Proof using Type. intros HR s h b s' h' [= _ _ <-]. apply HR. Qed.

Lemma only_zoom {T A} (view : S -> T) update (m : M T A) : only R m env -> only R (zoom view update m) env.
Proof using Type.
  intros Hm s h b s' h'. unfold zoom. destruct (m env (view s) h) as [[[a t] h1]| |] eqn:E; [|done..].
  intros [= _ _ <-]. by eapply Hm.
Qed.
End only.

Lemma only_run {S A} nofuel R (m : M S A) (Q : A -> S -> history -> Prop) env s h :
  only R m env -> run_spec nofuel m Q env s h -> run_spec nofuel m (fun a s' h' => Q a s' h' /\ R h h') env s h.
Proof.
  intros Hm. unfold run_spec. destruct (m env s h) as [[[a s'] h']| |] eqn:E; [|done..].
  intros HQ. split; [done|]. by eapply Hm.
Qed.

Lemma only_wlp {S A} R (m : M S A) env : (forall s h, wlp m (fun _ _ h' => R h h') env s h) -> only R m env.
Proof. intros Hm s h a s' h' E. by apply (wlp_done _ _ _ _ _ _ _ _ (Hm s h) E). Qed.

(** * The runs that return

    [returns] speaks of the result alone: undefined behaviour is not excluded, which
    is left to a theorem on the same computation that does. *)

Definition returns {S A} (m : M S A) (Q : A -> S -> history -> Prop) (env : environment) (s : S) (h : history) : Prop :=
  forall a s' h', m env s h = Done (a, s', h') -> Q a s' h'.

Section returns.
Context {S : Type}.

Lemma returns_run {A} nofuel (m : M S A) Q env s h : run_spec nofuel m Q env s h -> returns m Q env s h.
Proof. intros Hm a s' h' E. by eapply run_spec_done. Qed.

Lemma returns_mono {A} (m : M S A) (Q Q' : A -> S -> history -> Prop) env s h :
  returns m Q env s h -> (forall a s' h', Q a s' h' -> Q' a s' h') -> returns m Q' env s h.
Proof. intros Hm HQ a s' h' E. apply HQ. by apply Hm. Qed.

Lemma returns_and {A} (m : M S A) (Q Q' : A -> S -> history -> Prop) env s h :
  returns m Q env s h -> returns m Q' env s h -> returns m (fun a s' h' => Q a s' h' /\ Q' a s' h') env s h.
Proof. intros HQ HQ' a s' h' E. split; [by apply HQ|by apply HQ']. Qed.

Lemma returns_ret {A} (a : A) (Q : A -> S -> history -> Prop) env s h : Q a s h -> returns (mret (M := M S) a) Q env s h.
Proof. by intros HQ b s' h' [= <- <- <-]. Qed.

Lemma returns_bind {A B} (m : M S A) (f : A -> M S B) Q env s h :
  returns m (fun a s' h' => returns (f a) Q env s' h') env s h -> returns (m ≫= f) Q env s h.
Proof.
  intros Hm b s' h'. unfold mbind, M_bind. destruct (m env s h) as [[[a s1] h1]| |] eqn:E; [|done..].
  intros E'. by eapply (Hm a s1 h1).
Qed.

Lemma returns_sys c (Q : answer c -> S -> history -> Prop) env s h :
  (forall a, Q a s (Ev c a :: h)) -> returns (sys c) Q env s h.
Proof. by intros HQ a s' h' [= <- <- <-]. Qed.

Lemma returns_get (Q : S -> S -> history -> Prop) env s h : Q s s h -> returns get Q env s h.
Proof. by intros HQ a s' h' [= <- <- <-]. Qed.

Lemma returns_gets {A} (f : S -> A) (Q : A -> S -> history -> Prop) env s h : Q (f s) s h -> returns (gets f) Q env s h.
Proof. by intros HQ a s' h' [= <- <- <-]. Qed.

Lemma returns_modify (f : S -> S) (Q : unit -> S -> history -> Prop) env s h : Q tt (f s) h -> returns (modify f) Q env s h.
Proof. by intros HQ a s' h' [= <- <- <-]. Qed.

Lemma returns_lift {A} (o : outcome A) (Q : A -> S -> history -> Prop) env s h : (forall a, Q a s h) -> returns (lift o) Q env s h.
Proof. intros HQ a s' h'. destruct o; [|done..]. by intros [= <- <- <-]. Qed.

Lemma returns_zoom {T A} (view : S -> T) update (m : M T A) Q env s h :
  returns m (fun a t h' => Q a (update t s) h') env (view s) h -> returns (zoom view update m) Q env s h.
Proof.
  intros Hm a s' h'. unfold zoom. destruct (m env (view s) h) as [[[b t] h1]| |] eqn:E; [|done..].
  intros [= <- <- <-]. by apply Hm.
Qed.

(** What a run that returns does is added to what the run is known to do. *)
Lemma run_spec_returns {A} nofuel (m : M S A) (Q Q' : A -> S -> history -> Prop) env s h :
  run_spec nofuel m Q env s h -> returns m Q' env s h -> run_spec nofuel m (fun a s' h' => Q a s' h' /\ Q' a s' h') env s h.
Proof.
  unfold run_spec, returns. destruct (m env s h) as [[[a s'] h']| |]; [|done..]. intros HQ HQ'. split; [done|by apply HQ'].
Qed.
End returns.

Ltac returns_step :=
  lazymatch goal with
  | |- returns (mbind _ _) _ _ _ _ => apply returns_bind
  | |- returns (mret _) _ _ _ _ => apply returns_ret
  | |- @returns ?S _ (sys ?c) ?Q ?env ?s ?h => refine (@returns_sys S c Q env s h _); intros ?; cbn [answer] in *
  | |- returns get _ _ _ _ => apply returns_get
  | |- returns (gets _) _ _ _ _ => apply returns_gets
  | |- returns (modify _) _ _ _ _ => apply returns_modify
  | |- returns (lift _) _ _ _ _ => apply returns_lift; intros ?
  | |- returns (zoom _ _ _) _ _ _ _ => apply returns_zoom
  | |- returns (if ?b then _ else _) _ _ _ _ => destruct b eqn:?
  | |- returns (let '(_, _) := ?p in _) _ _ _ _ => destruct p
  | |- returns (match ?p with _ => _ end) _ _ _ _ => destruct p eqn:?
  end; cbn beta.

(** * What a run holds *)

(** The open files and directories, and the numbers of blocks and of inflate
    streams allocated. *)
Record held := Held { files : list Z; dirs : list Z; blocks : Z; streams : Z }.

Fixpoint remove_one (x : Z) (l : list Z) : list Z :=
  match l with
  | [] => []
  | y :: l => if x =? y then l else y :: remove_one x l
  end.

Definition track `{Sdk} (e : event) (r : held) : held :=
  let 'Ev c a := e in
  match c return answer c -> held with
  | sceIoOpen _ _ _ => fun a => if a <? 0 then r else Held (a :: files r) (dirs r) (blocks r) (streams r)
  | sceIoClose fd => fun _ => Held (remove_one fd (files r)) (dirs r) (blocks r) (streams r)
  | sceIoDopen _ => fun a => if a <? 0 then r else Held (files r) (a :: dirs r) (blocks r) (streams r)
  | sceIoDclose fd => fun _ => Held (files r) (remove_one fd (dirs r)) (blocks r) (streams r)
  | malloc _ => fun a => if a then Held (files r) (dirs r) (blocks r + 1) (streams r) else r
  | free b => fun _ => if b then Held (files r) (dirs r) (blocks r - 1) (streams r) else r
  | inflateInit2 _ => fun a => if a =? Z_OK then Held (files r) (dirs r) (blocks r) (streams r + 1) else r
  | inflateEnd => fun _ => Held (files r) (dirs r) (blocks r) (streams r - 1)
  | _ => fun _ => r
  end a.

Definition holds `{Sdk} (h : history) : held := foldr track (Held [] [] 0 0) h.

Lemma holds_cons `{Sdk} e h : holds (e :: h) = track e (holds h).
Proof. done. Qed.

Lemma held_eta r : Held (files r) (dirs r) (blocks r) (streams r) = r.
Proof. by destruct r. Qed.

(** The open sockets of a run, the newest first. *)
Definition track_socket (e : event) (l : list Z) : list Z :=
  let 'Ev c a := e in
  match c return answer c -> list Z with
  | sceNetSocket _ => fun a => if a <? 0 then l else a :: l
  | sceNetAccept _ => fun '(fd, _) => if fd <? 0 then l else fd :: l
  | sceNetSocketClose fd => fun _ => remove_one fd l
  | _ => fun _ => l
  end a.

Definition sockets (h : history) : list Z := foldr track_socket [] h.

Lemma sockets_cons e h : sockets (e :: h) = track_socket e (sockets h).
Proof. done. Qed.

(** The threads and mutexes of a run, and how often it started the network layers. *)
Record kernel := Kernel { threads : list Z; mutexes : list Z; nets : Z; netctls : Z }.

Definition track_kernel (e : event) (k : kernel) : kernel :=
  let 'Ev c a := e in
  match c return answer c -> kernel with
  | sceKernelCreateThread _ => fun a => if a <? 0 then k else Kernel (a :: threads k) (mutexes k) (nets k) (netctls k)
  | sceKernelDeleteThread thid => fun _ => Kernel (remove_one thid (threads k)) (mutexes k) (nets k) (netctls k)
  | sceKernelCreateMutex _ => fun a => if a <? 0 then k else Kernel (threads k) (a :: mutexes k) (nets k) (netctls k)
  | sceKernelDeleteMutex uid => fun _ => Kernel (threads k) (remove_one uid (mutexes k)) (nets k) (netctls k)
  | sceNetInit _ => fun a => if a =? 0 then Kernel (threads k) (mutexes k) (nets k + 1) (netctls k) else k
  | sceNetTerm => fun _ => Kernel (threads k) (mutexes k) (nets k - 1) (netctls k)
  | sceNetCtlInit => fun a => if a =? 0 then Kernel (threads k) (mutexes k) (nets k) (netctls k + 1) else k
  | sceNetCtlTerm => fun _ => Kernel (threads k) (mutexes k) (nets k) (netctls k - 1)
  | _ => fun _ => k
  end a.

Definition kernel_of (h : history) : kernel := foldr track_kernel (Kernel [] [] 0 0) h.

Lemma kernel_cons e h : kernel_of (e :: h) = track_kernel e (kernel_of h).
Proof. done. Qed.

Lemma remove_one_head x l : remove_one x (x :: l) = l.
Proof. simpl. by rewrite Z.eqb_refl. Qed.

Lemma remove_one_second x y l : remove_one x (y :: x :: l) = y :: l.
Proof. simpl. destruct (Z.eqb_spec x y) as [->|]; [done|]. by rewrite Z.eqb_refl. Qed.

(** * The bytes a run moved *)

Definition read_bytes (fd : Z) (e : event) : bytes :=
  let 'Ev c a := e in
  match c return answer c -> bytes with
  | sceIoRead fd' _ => fun '(n, data) => if fd =? fd' then take (Z.to_nat n) data else []
  | _ => fun _ => []
  end a.

Definition written_bytes (fd : Z) (e : event) : bytes :=
  let 'Ev c a := e in
  match c return answer c -> bytes with
  | sceIoWrite fd' data => fun n => if fd =? fd' then take (Z.to_nat n) data else []
  | _ => fun _ => []
  end a.

Definition sent_bytes (fd : Z) (e : event) : bytes :=
  let 'Ev c a := e in
  match c return answer c -> bytes with
  | sceNetSend fd' data => fun n => if fd =? fd' then take (Z.to_nat n) data else []
  | _ => fun _ => []
  end a.

Definition received_bytes (fd : Z) (e : event) : bytes :=
  let 'Ev c a := e in
  match c return answer c -> bytes with
  | sceNetRecv fd' _ => fun '(n, data) => if fd =? fd' then take (Z.to_nat n) data else []
  | _ => fun _ => []
  end a.

(** In the order they were moved: the newest event is first. *)
Fixpoint moved (f : event -> bytes) (h : history) : bytes :=
  match h with [] => [] | e :: h => moved f h ++ f e end.

(** The last thing sent. *)
Fixpoint last_sent (h : history) : option (Z * bytes) :=
  match h with
  | [] => None
  | Ev (sceNetSend fd data) _ :: _ => Some (fd, data)
  | _ :: h => last_sent h
  end.

(** The contract of the calls that move bytes: the count is an [int], at most what was
    asked, and a read or a receive stores that many bytes. *)
Definition count_ok (n asked : Z) : Prop := - 2 ^ 31 <= n <= INT_MAX /\ n <= Z.max 0 asked.

Record io_counts (env : environment) : Prop := {
  read_count : forall h fd len, let '(n, data) := env h (sceIoRead fd len) in
    count_ok n len /\ length data = Z.to_nat n;
  recv_count : forall h fd len, let '(n, data) := env h (sceNetRecv fd len) in
    count_ok n len /\ length data = Z.to_nat n;
  send_count : forall h fd data, count_ok (env h (sceNetSend fd data)) (Z.of_nat (length data));
  write_count : forall h fd data, count_ok (env h (sceIoWrite fd data)) (Z.of_nat (length data))
}.

Lemma moved_app f es es' : moved f (es ++ es') = moved f es' ++ moved f es.
Proof. induction es as [|e es IH]; cbn; [by rewrite app_nil_r|]. by rewrite IH, app_assoc. Qed.

(** Constants for the examples, and a checksum that is the sum of the bytes. *)
Definition demo_sdk : Sdk := Build_Sdk 1 2 0 4 5 1 2 1 2 0x200 0x100 0x400 2 0 2 31 (-1) 0 2 0 8 19 15 0 1 0 (fun c l => foldl Z.add c l).

(** An environment in which every call answers zero and nothing. *)
Definition silent : environment := fun h c =>
  match c return answer c with
  | sceNetAccept _ | sceNetGetsockname _ => (0, SockaddrIn 0 0)
  | sceNetRecv _ _ | sceIoRead _ _ | sceAppMgrGetNameById _ | sceNetCtlInetGetInfo => (0, [])
  | sceNetCtlInetGetState | sceNetCtlInetRegisterCallback => (0, 0)
  | taiGetModuleInfo _ => (0, TaiModuleInfo 0 0)
  | sceKernelGetModuleInfo _ => (0, [])
  | sceIoGetstat _ => (0, empty_stat)
  | sceIoDread _ => (0, IoDirent [] empty_stat)
  | malloc _ => false
  | inflate _ _ => (0, 0, [])
  | _ => 0
  end.
