(* ===== verification/Debts.v ===== *)
(** What a run owes to the system: the threads of the two services and whether they
    run, the mutexes, the two network layers and the NetCtl callbacks that were
    acquired and not given back.

    A debt is read off the calls of the run and their answers, not off the program's
    statics, so a theorem on debts says that the calls that pay them were made. *)

From stdpp Require Import gmultiset.
From S2P Require Import Prelude System.

Implicit Types (h : history).

Inductive debt :=
| Thread (thid : Z)          (* created, to be deleted *)
| Running (thid : Z)         (* started, to be waited for *)
| Mutex (uid : Z)
| NetLayer
| NetCtlLayer
| Callback (id : Z).

#[export] Instance debt_eq_dec : EqDecision debt.
Proof. solve_decision. Defined.

#[export] Instance debt_countable : Countable debt.
Proof.
  refine (inj_countable'
    (fun d => match d with
     | Thread t => (0%nat, t) | Running t => (1%nat, t) | Mutex u => (2%nat, u)
     | NetLayer => (3%nat, 0%Z) | NetCtlLayer => (4%nat, 0%Z) | Callback i => (5%nat, i) end)
    (fun '(n, z) => match n with
     | 0%nat => Thread z | 1%nat => Running z | 2%nat => Mutex z
     | 3%nat => NetLayer | 4%nat => NetCtlLayer | _ => Callback z end) _).
  by intros [].
Defined.

(** The threads of the services, by the names they are created with; the threads of
    the clients have other names and belong to the FTP server's own thread. *)
Definition service_threads : list bytes := [lit "FTPVita_server_thread"; lit "vitacompanion_cmd_thread"].

(** What a call acquired, by its answer. A thread runs for the account of a service
    only if it is a thread of one. *)
Definition gained (e : event) (D : gmultiset debt) : gmultiset debt :=
  let 'Ev c a := e in
  match c return answer c -> gmultiset debt with
  | sceKernelCreateThread name => fun a => if bool_decide (name ∈ service_threads) && (0 <=? a) then {[+ Thread a +]} else ∅
  | sceKernelStartThread thid => fun a => if bool_decide (Thread thid ∈ D) && (0 <=? a) then {[+ Running thid +]} else ∅
  | sceKernelCreateMutex _ => fun a => if 0 <=? a then {[+ Mutex a +]} else ∅
  | sceNetInit _ => fun a => if a =? 0 then {[+ NetLayer +]} else ∅
  | sceNetCtlInit => fun a => if a =? 0 then {[+ NetCtlLayer +]} else ∅
  | sceNetCtlInetRegisterCallback => fun '(ret, id) => if 0 <=? ret then {[+ Callback id +]} else ∅
  | _ => fun _ => ∅
  end a.

(** What a call gives back. *)
Definition paid (c : call) : gmultiset debt :=
  match c with
  | sceKernelDeleteThread thid => {[+ Thread thid +]}
  | sceKernelWaitThreadEnd thid => {[+ Running thid +]}
  | sceKernelDeleteMutex uid => {[+ Mutex uid +]}
  | sceNetTerm => {[+ NetLayer +]}
  | sceNetCtlTerm => {[+ NetCtlLayer +]}
  | sceNetCtlInetUnregisterCallback id => {[+ Callback id +]}
  | _ => ∅
  end.

Definition track_debt (e : event) (D : gmultiset debt) : gmultiset debt := gained e D ⊎ D ∖ paid (ev_call e).

Definition owed h : gmultiset debt := foldr track_debt ∅ h.
#[global] Arguments owed _ : simpl never.

Lemma owed_cons e h : owed (e :: h) = gained e (owed h) ⊎ owed h ∖ paid (ev_call e).
Proof. done. Qed.

(** A call that acquires nothing. *)
Definition frugal (c : call) : bool :=
  match c with
  | sceKernelCreateThread _ | sceKernelStartThread _ | sceKernelCreateMutex _ | sceNetInit _ | sceNetCtlInit
  | sceNetCtlInetRegisterCallback => false
  | _ => true
  end.

Lemma gained_frugal c a D : frugal c = true -> gained (Ev c a) D = ∅.
Proof. by destruct c. Qed.

(** A debt is paid by the call for it; other calls that acquire nothing add none. *)
Lemma owed_paid c a h D : frugal c = true -> owed h ⊆ paid c ⊎ D -> owed (Ev c a :: h) ⊆ D.
Proof. intros Hc Ho. rewrite owed_cons, gained_frugal by done. cbn [ev_call]. multiset_solver. Qed.

Lemma owed_frugal c a h D : frugal c = true -> owed h ⊆ D -> owed (Ev c a :: h) ⊆ D.
Proof. intros Hc Ho. apply owed_paid; [done|]. multiset_solver. Qed.

(** What a call acquired is owed. *)
Lemma owed_gained c a h D : owed h ⊆ D -> owed (Ev c a :: h) ⊆ gained (Ev c a) (owed h) ⊎ D.
Proof. intros Ho. rewrite owed_cons. multiset_solver. Qed.

Lemma owed_started thid (a : Z) h D : 0 <= a -> owed h ⊆ D -> owed (Ev (sceKernelStartThread thid) a :: h) ⊆ {[+ Running thid +]} ⊎ D.
Proof.
  intros Ha Ho. etrans; [by apply owed_gained|]. cbn [gained]. destruct (bool_decide _ && _); [done|]. rewrite (left_id_L ∅ (⊎)). apply gmultiset_disj_union_subseteq_r.
Qed.

Lemma owed_not_started thid (a : Z) h D : a < 0 -> owed h ⊆ D -> owed (Ev (sceKernelStartThread thid) a :: h) ⊆ D.
Proof.
  intros Ha Ho. etrans; [by apply owed_gained|]. cbn. replace (0 <=? a) with false by lia. rewrite andb_false_r, (left_id_L ∅ (⊎)). done.
Qed.

(** Calls that acquire nothing, one after the other: what they pay is due before them. *)
Ltac settle := repeat (apply owed_paid; [reflexivity|]); cbn [paid] in *; multiset_solver.
