(* ===== verification/FtpParse.v ===== *)
(** The bounded parsers of the FTP control channel: libftpvita/ftpvita_parse.h.

    A pointer into a buffer is the list of the bytes from it to the end of the
    buffer, so [cursor++] is the tail and reading through the pointer past the
    end is [Undefined].  An output buffer is the list of its bytes and every
    write is checked against its length. *)

From S2P Require Import Prelude.

Definition is_blank (c : Z) : bool := (c =? SP) || (c =? TAB).
Definition is_eol (c : Z) : bool := (c =? NUL) || (c =? CR) || (c =? LF).

(** [while ( *cursor == ' ' || *cursor == '\t') cursor++;] *)
Fixpoint skip_blanks (cursor : bytes) : outcome bytes :=
  match cursor with
  | [] => Undefined
  | c :: rest => if is_blank c then skip_blanks rest else Done cursor
  end.

(** * ftpvita_parse_command_line *)

Record command_line := CommandLine {
  cl_ret : Z;              (* the value returned *)
  cl_command : ptr bytes;  (* the caller's [command] buffer afterwards *)
  cl_arguments : ptr bytes (* the caller's [*arguments] afterwards *)
}.

(** The loop that copies the command word. [inl] leaves the function early with
    the buffer as it is, [inr] goes on with the cursor after the word. *)
Fixpoint copy_command (cursor command : bytes) (length command_size : Z)
    : outcome (bytes + bytes * bytes * Z) :=
  match cursor with
  | [] => Undefined
  | c :: rest =>
      if is_blank c || is_eol c then Done (inr (cursor, command, length))
      else if command_size <=? u32 (length + 1) then Done (inl command)
      else command ← store command length c;
           copy_command rest command (u32 (length + 1)) command_size
  end.

(** [arguments] is [NULL] when the caller passes no place for the pointer. *)
Definition ftpvita_parse_command_line (line command : ptr bytes) (command_size : Z)
    (arguments : ptr (ptr bytes)) : outcome command_line :=
  match line, command, arguments with
  | Some line, Some command, Some old =>
      if command_size <? 2 then Done (CommandLine 0 (Some command) old)
      else
        cursor ← skip_blanks line;
        r ← copy_command cursor command 0 command_size;
        match r with
        | inl command => Done (CommandLine 0 (Some command) old)
        | inr (cursor, command, length) =>
            if length =? 0 then Done (CommandLine 0 (Some command) old)
            else
              command ← store command length NUL;
              cursor ← skip_blanks cursor;
              Done (CommandLine 1 (Some command) (Some cursor))
        end
  | _, _, _ => Done (CommandLine 0 command (default None arguments))
  end.

(** * ftpvita_copy_command_argument *)

Definition ends_argument (c : Z) : bool := is_eol c || (c =? TAB).

Fixpoint copy_argument (arguments output : bytes) (length output_size : Z)
    : outcome (Z * bytes) :=
  match arguments with
  | [] => Undefined
  | c :: rest =>
      if ends_argument c then
        if length =? 0 then output ← store output 0 NUL; Done (0, output)
        else output ← store output length NUL; Done (1, output)
      else if output_size <=? u32 (length + 1) then
        output ← store output 0 NUL; Done (0, output)
      else
        output ← store output length c;
        copy_argument rest output (u32 (length + 1)) output_size
  end.

Definition ftpvita_copy_command_argument (arguments output : ptr bytes) (output_size : Z)
    : outcome (Z * ptr bytes) :=
  match arguments, output with
  | Some arguments, Some output =>
      if output_size =? 0 then Done (0, Some output)
      else '(ret, output) ← copy_argument arguments output 0 output_size; Done (ret, Some output)
  | _, _ => Done (0, output)
  end.

(** * ftpvita_parse_rest_offset *)

Definition rest_maximum : Z := 2147483647.

(** The digits: [None] is the early return on a value above the maximum. *)
Fixpoint rest_digits (cursor : bytes) (value : Z) : outcome (option (bytes * Z)) :=
  match cursor with
  | [] => Undefined
  | c :: rest =>
      if is_digit c then
        let digit := c - 48 in
        if u32 (rest_maximum - digit) `div` 10 <? value then Done None
        else rest_digits rest (u32 (u32 (value * 10) + digit))
      else Done (Some (cursor, value))
  end.

(** The result is the value returned and [*offset] afterwards. *)
Definition ftpvita_parse_rest_offset (arguments : ptr bytes) (offset : ptr Z)
    : outcome (Z * ptr Z) :=
  match arguments, offset with
  | Some cursor, Some old =>
      cursor ← skip_blanks cursor;
      c ← load cursor 0;
      if negb (is_digit c) then Done (0, offset)
      else
        r ← rest_digits cursor 0;
        match r with
        | None => Done (0, offset)
        | Some (cursor, value) =>
            cursor ← skip_blanks cursor;
            c ← load cursor 0;
            if is_eol c then Done (1, Some value) else Done (0, offset)
        end
  | _, _ => Done (0, offset)
  end.

(** * ftpvita_parse_port_tuple *)

(** The digits of one field: [None] is the early return on a value above 255. *)
Fixpoint port_digits (cursor : bytes) (value digits : Z) : outcome (option (bytes * Z * Z)) :=
  match cursor with
  | [] => Undefined
  | c :: rest =>
      if is_digit c then
        let value := u32 (u32 (value * 10) + (c - 48)) in
        if 255 <? value then Done None else port_digits rest value (u32 (digits + 1))
      else Done (Some (cursor, value, digits))
  end.

(** The fields from [index] on, [fields] of them; [inl] is an early return. *)
Fixpoint port_fields (fields : nat) (index : Z) (cursor values : bytes)
    : outcome (bytes + bytes * bytes) :=
  match fields with
  | O => Done (inr (cursor, values))
  | S fields =>
      r ← port_digits cursor 0 0;
      match r with
      | None => Done (inl values)
      | Some (cursor, value, digits) =>
          if digits =? 0 then Done (inl values)
          else
            values ← store values index value;
            if index =? 5 then port_fields fields (index + 1) cursor values
            else
              c ← load cursor 0;
              if c =? 44 then port_fields fields (index + 1) (drop 1 cursor) values
              else Done (inl values)
      end
  end.

(** The result is the value returned and the caller's [values] afterwards. *)
Definition ftpvita_parse_port_tuple (arguments values : ptr bytes) : outcome (Z * ptr bytes) :=
  match arguments, values with
  | Some cursor, Some values =>
      r ← port_fields 6 0 cursor values;
      match r with
      | inl values => Done (0, Some values)
      | inr (cursor, values) =>
          cursor ← skip_blanks cursor;
          c ← load cursor 0;
          Done (if is_eol c then 1 else 0, Some values)
      end
  | _, _ => Done (0, values)
  end.

(** * Reference definitions

    What the parsers mean, on the C string they are given. *)

Definition ends_word (c : Z) : bool := is_blank c || is_eol c.

(** The command word of a line, and the text of its arguments. *)
Definition command_word (s : bytes) : bytes :=
  take_while (fun c => negb (ends_word c)) (drop_while is_blank s).
Definition command_arguments (s : bytes) : bytes :=
  drop_while is_blank (drop_while (fun c => negb (ends_word c)) (drop_while is_blank s)).

(** The argument text of a command: up to the end of the line or a tab. *)
Definition argument_text (s : bytes) : bytes :=
  take_while (fun c => negb (ends_argument c)) s.

(** The number a REST argument denotes, [None] when it is malformed: blanks,
    digits, blanks, end of line. *)
Definition rest_number (s : bytes) : option Z :=
  let s1 := drop_while is_blank s in
  let ds := take_while is_digit s1 in
  let s2 := drop_while is_blank (drop_while is_digit s1) in
  if decide (ds = []) then None
  else if forallb is_eol (take 1 s2) then Some (decimal_value ds) else None.

(** The six fields of a PORT argument, joined with commas. *)
Fixpoint port_text (fields : list bytes) : bytes :=
  match fields with
  | [] => []
  | [ds] => ds
  | ds :: fields => ds ++ 44 :: port_text fields
  end.

(** A field is a non-empty digit string that denotes one byte. *)
Definition port_field (ds : bytes) : Prop :=
  ds <> [] /\ all_digits ds /\ decimal_value ds <= 255.

(** What may follow the last field: blanks up to the end of the line. *)
Definition port_tail (tail : bytes) : Prop :=
  take_while is_digit tail = [] /\ forallb is_eol (take 1 (drop_while is_blank tail)) = true.

(** * Lemmas *)

Lemma skip_blanks_run s t :
  skip_blanks (s ++ NUL :: t) = Done (drop_while is_blank s ++ NUL :: t).
Proof. induction s as [|c s IH]; simpl; [done|]. destruct (is_blank c); done. Qed.

(** The copy loop writes the command word and stops after it, or leaves when the
    word and its terminator do not fit. *)
Lemma copy_command_run s t command n size :
  0 <= size < 2 ^ 32 -> size <= Z.of_nat (length command) -> Z.of_nat n < size ->
  let word := take_while (fun c => negb (ends_word c)) s in
  if Z.of_nat (n + length word) <? size then
    copy_command (s ++ NUL :: t) command (Z.of_nat n) size =
      Done (inr (drop_while (fun c => negb (ends_word c)) s ++ NUL :: t,
                 list_inserts n word command, Z.of_nat (n + length word)))
  else exists command', length command' = length command /\
    copy_command (s ++ NUL :: t) command (Z.of_nat n) size = Done (inl command').
Proof.
  intros Hsize. revert n command. induction s as [|c s IH]; intros n command Hbuf Hn; simpl.
  - rewrite Nat.add_0_r. by split_ifs.
  - unfold ends_word at 1 4. fold (ends_word c).
    destruct (ends_word c) eqn:Ec; simpl.
    + rewrite Nat.add_0_r. replace (is_blank c || is_eol c) with true by done. by split_ifs.
    + replace (is_blank c || is_eol c) with false by done.
      rewrite u32_small by lia.
      destruct (Z.leb_spec size (Z.of_nat n + 1)) as [Hfull|Hroom].
      * split_ifs. eauto.
      * rewrite store_in by lia. run.
        replace (Z.of_nat n + 1) with (Z.of_nat (S n)) by lia.
        rewrite Nat2Z.id.
        specialize (IH (S n) (<[n:=c]> command)).
        rewrite length_insert in IH. specialize (IH ltac:(lia) ltac:(lia)). simpl in IH.
        rewrite inserts_cons in IH. simpl in IH. rewrite <-plus_n_Sm. exact IH.
Qed.

(** Same for the argument copy loop. *)
Lemma copy_argument_run s t output n size :
  0 <= size < 2 ^ 32 -> size <= Z.of_nat (length output) -> Z.of_nat n < size ->
  let text := argument_text s in
  exists output', length output' = length output /\
    copy_argument (s ++ NUL :: t) output (Z.of_nat n) size =
      Done (if (0 <? Z.of_nat (n + length text)) && (Z.of_nat (n + length text) <? size)
            then (1, list_inserts n (text ++ [NUL]) output) else (0, output')).
Proof.
  intros Hsize. unfold argument_text. revert n output.
  induction s as [|c s IH]; intros n output Hbuf Hn; simpl.
  - rewrite Nat.add_0_r. destruct n as [|n]; simpl.
    + rewrite store_in by lia. run. eexists. split; [|done]. by rewrite length_insert.
    + rewrite store_in by lia. run. rewrite Nat2Z.id. exists output. split; [done|].
      by split_ifs.
  - destruct (ends_argument c) eqn:Ec; simpl.
    + rewrite Nat.add_0_r. destruct n as [|n]; simpl.
      * rewrite store_in by lia. run. eexists. split; [|done]. by rewrite length_insert.
      * rewrite store_in by lia. run. rewrite Nat2Z.id. exists output. split; [done|].
        by split_ifs.
    + rewrite u32_small by lia.
      destruct (Z.leb_spec size (Z.of_nat n + 1)) as [Hfull|Hroom].
      * rewrite store_in by lia. run.
        eexists. split; [by rewrite length_insert|]. by split_ifs.
      * rewrite store_in by lia. run. rewrite Nat2Z.id.
        replace (Z.of_nat n + 1) with (Z.of_nat (S n)) by lia.
        destruct (IH (S n) (<[n:=c]> output)) as (o' & Ho' & E);
          [rewrite length_insert; lia | lia |].
        rewrite length_insert in Ho'. exists o'. split; [done|].
        simpl in E. rewrite E, inserts_cons. simpl.
        replace (n + S (length (take_while (fun c => negb (ends_argument c)) s)))%nat
          with (S (n + length (take_while (fun c => negb (ends_argument c)) s))) by lia.
        done.
Qed.

(** The digit loop of REST computes the decimal value, or stops at the first
    digit that would take it above the maximum. *)
Lemma rest_digits_run s t v :
  0 <= v <= rest_maximum ->
  let ds := take_while is_digit s in
  let w := foldl (fun v c => v * 10 + (c - 48)) v ds in
  v <= w /\
  rest_digits (s ++ NUL :: t) v =
    Done (if w <=? rest_maximum then Some (drop_while is_digit s ++ NUL :: t, w) else None).
Proof.
  unfold rest_maximum. revert v. induction s as [|c s IH]; intros v Hv; simpl.
  - split; [lia|]. by split_ifs.
  - destruct (is_digit c) eqn:Ec; simpl; [|split; [lia|]; by split_ifs].
    assert (0 <= c - 48 <= 9) as Hc by (unfold is_digit in Ec; lia).
    pose proof (digits_mono (take_while is_digit s) (v * 10 + (c - 48)) (take_while_all _ _)) as Hm.
    split; [lia|].
    rewrite u32_small by (unfold rest_maximum; lia).
    destruct (_ <? v) eqn:Eo.
    + unfold rest_maximum in *. by split_ifs.
    + assert (v * 10 + (c - 48) <= 2147483647).
      { unfold rest_maximum in *. lia. }
      rewrite !u32_small by (rewrite ?u32_small by lia; lia).
      destruct (IH (v * 10 + (c - 48))) as [_ E]; [lia|]. exact E.
Qed.

Lemma NUL_free_arguments s : Forall (fun c => c <> NUL) s -> Forall (fun c => c <> NUL) (command_arguments s).
Proof. intros. unfold command_arguments. auto with vita. Qed.
#[export] Hint Resolve NUL_free_arguments : vita.

(** The word and the buffer it is written to never overlap their ends. *)
Lemma parse_command_line_run line s command size old :
  cstr line = Done s -> 0 <= size < 2 ^ 32 -> size <= Z.of_nat (length command) ->
  let word := command_word s in
  let args := command_arguments s ++ drop (length s) line in
  exists command', length command' = length command /\
    cstr args = Done (command_arguments s) /\
    ftpvita_parse_command_line (Some line) (Some command) size (Some old) =
      Done (if (0 <? Z.of_nat (length word)) && (Z.of_nat (length word) <? size)
            then CommandLine 1 (Some (word ++ NUL :: drop (S (length word)) command)) (Some args)
            else CommandLine 0 (Some command') old).
Proof.
  intros [Hs [t ->]]%cstr_terminated Hsize Hbuf. rewrite drop_app_length. simpl.
  unfold ftpvita_parse_command_line, command_word.
  destruct (Z.ltb_spec size 2) as [Htwo|Htwo].
  { exists command.
    split; [done|]. split; [apply cstr_lit; auto with vita|]. by split_ifs. }
  rewrite skip_blanks_run. run.
  pose proof (copy_command_run (drop_while is_blank s) t command 0 size Hsize Hbuf ltac:(lia)) as H.
  simpl in H. change (Z.of_nat 0) with 0 in H.
  set (word := take_while (fun c => negb (ends_word c)) (drop_while is_blank s)) in *.
  destruct (Z.ltb_spec (Z.of_nat (length word)) size) as [Hfit|Hfit].
  - exists command.
    split; [done|]. split; [apply cstr_lit; auto with vita|]. rewrite H. run.
    destruct word as [|x w] eqn:Ew; [done|]. rewrite <-Ew in *.
    replace (Z.of_nat (length word) =? 0) with false by (rewrite Ew; simpl; lia).
    replace (0 <? Z.of_nat (length word)) with true by (rewrite Ew; simpl; lia).
    rewrite store_in by (rewrite length_inserts; lia). run.
    rewrite skip_blanks_run. run. rewrite Nat2Z.id.
    change (<[length word := NUL]> (list_inserts 0 word command))
      with (<[(0 + length word)%nat := NUL]> (list_inserts 0 word command)).
    rewrite inserts_snoc, inserts_0 by (rewrite length_app; simpl; lia).
    rewrite length_app, <-app_assoc. simpl. by rewrite Nat.add_1_r.
  - destruct H as (command' & Hlen & E). exists command'.
    split; [done|]. split; [apply cstr_lit; auto with vita|].
    rewrite E. run. by split_ifs.
Qed.

Lemma copy_command_argument_run args s output size :
  cstr args = Done s -> 0 <= size < 2 ^ 32 -> size <= Z.of_nat (length output) ->
  let text := argument_text s in
  exists output', length output' = length output /\
    ftpvita_copy_command_argument (Some args) (Some output) size =
      Done (if (0 <? Z.of_nat (length text)) && (Z.of_nat (length text) <? size)
            then (1, Some (text ++ NUL :: drop (S (length text)) output))
            else (0, Some output')).
Proof.
  intros [Hs [t ->]]%cstr_terminated Hsize Hbuf. simpl.
  unfold ftpvita_copy_command_argument.
  destruct (Z.eqb_spec size 0) as [->|Hz].
  { exists output. split; [done|]. by split_ifs. }
  destruct (copy_argument_run s t output 0 size) as (o' & Ho' & E); [lia..|].
  change (Z.of_nat 0) with 0 in E. exists o'. split; [done|]. rewrite E. simpl. run.
  destruct (_ && _) eqn:Hfit; [|done]. 
  rewrite inserts_0 by (rewrite length_app; simpl; lia).
  rewrite length_app, <-app_assoc. simpl. by rewrite Nat.add_1_r.
Qed.

Lemma load_after (s t : bytes) :
  load (s ++ NUL :: t) 0 = Done (default NUL (head s)).
Proof. by destruct s. Qed.

Lemma rest_number_nonneg s v : rest_number s = Some v -> 0 <= v.
Proof.
  unfold rest_number. destruct (decide _); [done|]. destruct (forallb _ _); [|done]. intros [= <-].
  apply decimal_value_nonneg, take_while_all.
Qed.

Lemma parse_rest_offset_run args s old :
  cstr args = Done s ->
  ftpvita_parse_rest_offset (Some args) (Some old) =
    Done (match rest_number s with
          | Some v => if v <=? rest_maximum then (1, Some v) else (0, Some old)
          | None => (0, Some old)
          end).
Proof.
  intros [Hs [t ->]]%cstr_terminated. unfold ftpvita_parse_rest_offset, rest_number.
  rewrite skip_blanks_run. run. rewrite load_after. run.
  set (s1 := drop_while is_blank s).
  destruct s1 as [|c s1'] eqn:E1; [done|]. simpl (default _ _).
  destruct (is_digit c) eqn:Ec; simpl negb; cbv iota.
  2: { simpl. rewrite Ec. by destruct (decide _). }
  destruct (rest_digits_run (c :: s1') t 0) as [_ E]; [unfold rest_maximum; lia|].
  rewrite E. run. unfold decimal_value.
  set (w := foldl _ 0 _). 
  destruct (decide (take_while is_digit (c :: s1') = [])) as [H0|_].
  { simpl in H0. by rewrite Ec in H0. }
  destruct (Z.leb_spec w rest_maximum) as [Hw|Hw].
  - rewrite skip_blanks_run. run. rewrite load_after. run.
    cbn [drop_while]. rewrite Ec.
    destruct (drop_while is_blank (drop_while is_digit s1')) as [|d s2]; simpl; [by split_ifs|].
    destruct (is_eol d); simpl; by split_ifs.
  - destruct (forallb _ _); by split_ifs.
Qed.

Lemma digit_prefix (s ds k : bytes) :
  all_digits ds -> take_while is_digit k = [] -> s = ds ++ k ->
  take_while is_digit s = ds /\ drop_while is_digit s = k.
Proof.
  intros Hds Hk ->. destruct (while_app is_digit ds k Hds) as [-> ->].
  rewrite Hk, app_nil_r. split; [done|].
  pose proof (take_drop_while is_digit k) as E. by rewrite Hk in E.
Qed.

Lemma port_digits_run s t v n :
  0 <= v <= 255 -> 0 <= n -> n + Z.of_nat (length s) < 2 ^ 32 ->
  let ds := take_while is_digit s in
  let w := foldl (fun v c => v * 10 + (c - 48)) v ds in
  port_digits (s ++ NUL :: t) v n =
    Done (if w <=? 255 then
            Some (drop_while is_digit s ++ NUL :: t, w, n + Z.of_nat (length ds))
          else None).
Proof.
  revert v n. induction s as [|c s IH]; intros v n Hv Hn Hlen; simpl in *.
  - rewrite Z.add_0_r. by split_ifs.
  - destruct (is_digit c) eqn:Ec; simpl; [|rewrite Z.add_0_r; by split_ifs].
    pose proof (digits_mono (take_while is_digit s) (v * 10 + (c - 48)) (take_while_all _ _)) as Hm.
    apply is_digit_range in Ec.
    rewrite !u32_small by (rewrite ?u32_small by lia; lia).
    destruct (Z.ltb_spec 255 (v * 10 + (c - 48))); [by split_ifs|].
    rewrite IH by lia. split_ifs; [|done]. do 3 f_equal. lia.
Qed.

(** One field, read from its start. *)
Lemma port_digits_field s t :
  Z.of_nat (length s) < 2 ^ 32 ->
  port_digits (s ++ NUL :: t) 0 0 =
    Done (if decimal_value (take_while is_digit s) <=? 255 then
            Some (drop_while is_digit s ++ NUL :: t, decimal_value (take_while is_digit s),
                  Z.of_nat (length (take_while is_digit s)))
          else None).
Proof. intros. rewrite port_digits_run by lia. done. Qed.

Lemma port_text_cons ds fields :
  port_text (ds :: fields) = ds ++ match fields with [] => [] | _ => 44 :: port_text fields end.
Proof. destruct fields; simpl; by rewrite ?app_nil_r. Qed.

(** Reading one field and its comma. *)
Lemma port_fields_step fields index s t values :
  Z.of_nat (length s) < 2 ^ 32 -> 0 <= index < 6 -> length values = 6%nat ->
  let ds := take_while is_digit s in
  let rest := drop_while is_digit s in
  port_fields (S fields) index (s ++ NUL :: t) values =
    (if negb (decimal_value ds <=? 255) || bool_decide (ds = []) then Done (inl values)
     else
       let values := <[Z.to_nat index := decimal_value ds]> values in
       if index =? 5 then port_fields fields (index + 1) (rest ++ NUL :: t) values
       else match rest with
            | c :: rest => if c =? 44 then port_fields fields (index + 1) (rest ++ NUL :: t) values
                           else Done (inl values)
            | [] => Done (inl values)
            end).
Proof.
  intros Hlen Hi Hv. cbn [port_fields]. rewrite port_digits_field by done. run.
  destruct (Z.leb_spec (decimal_value (take_while is_digit s)) 255) as [Hle|]; [|done]. simpl.
  case_bool_decide as Hds; [by rewrite Hds|].
  destruct (Z.eqb_spec (Z.of_nat (length (take_while is_digit s))) 0) as [H0|_].
  { destruct Hds. by apply nil_length_inv; lia. }
  rewrite store_in by lia. run.
  destruct (index =? 5); [done|]. rewrite load_after. run.
  by destruct (drop_while is_digit s).
Qed.

Lemma port_fields_sound fields s t values :
  Z.of_nat (length s) < 2 ^ 32 -> (fields <= 6)%nat -> length values = 6%nat ->
  (exists values', length values' = 6%nat /\
     port_fields fields (6 - Z.of_nat fields) (s ++ NUL :: t) values = Done (inl values')) \/
  (exists fs tail, length fs = fields /\ Forall port_field fs /\ s = port_text fs ++ tail /\
     (fs <> [] -> take_while is_digit tail = []) /\
     port_fields fields (6 - Z.of_nat fields) (s ++ NUL :: t) values =
       Done (inr (tail ++ NUL :: t, list_inserts (6 - fields) (decimal_value <$> fs) values))).
Proof.
  revert s values. induction fields as [|fields IH]; intros s values Hlen Hk Hv.
  { right. by exists [], s. }
  rewrite port_fields_step by (done || lia).
  set (ds := take_while is_digit s). set (rest := drop_while is_digit s).
  pose proof (take_drop_while is_digit s) as Hs. fold ds rest in Hs.
  pose proof (take_while_all is_digit s) as Hall. fold ds in Hall.
  destruct (negb _ || bool_decide _) eqn:Hbad; [left; eauto|].
  apply orb_false_iff in Hbad as [Hle Hne].
  assert (port_field ds) as Hf by (split; [by case_bool_decide|split; [done|lia]]). cbv zeta.
  set (values1 := <[_ := _]> values).
  assert (length values1 = 6%nat) as Hv1 by (unfold values1; by rewrite length_insert).
  replace (6 - Z.of_nat (S fields) + 1) with (6 - Z.of_nat fields) by lia.
  pose proof (length_while is_digit s) as Hlens. fold ds rest in Hlens.
  assert (values1 = <[(6 - S fields)%nat := decimal_value ds]> values) as Hvals
    by (unfold values1; f_equal; lia).
  destruct (Z.eqb_spec (6 - Z.of_nat (S fields)) 5) as [H5|H5].
  - assert (fields = O) as -> by lia. right. exists [ds], rest.
    split_and!; [done|auto|done| |].
    + intros _. destruct rest as [|c k] eqn:Er; [done|]. simpl.
      by rewrite (drop_while_head _ _ _ _ Er).
    + simpl. by rewrite Hvals.
  - destruct rest as [|c k] eqn:Er; [left; eauto|].
    destruct (Z.eqb_spec c 44) as [->|]; [|left; eauto].
    destruct (IH k values1) as [(v' & Hv' & E)|(fs & tail & Hfs & HF & -> & Ht & E)];
      [simpl in Hlens; lia | lia | done | left; by exists v' | right].
    exists (ds :: fs), tail. split_and!.
    + simpl. lia.
    + auto.
    + rewrite port_text_cons. destruct fs as [|d fs]; [simpl in Hfs; lia|].
      by rewrite <-Hs, <-app_assoc.
    + intros _. apply Ht. intros ->. simpl in Hfs. lia.
    + rewrite E, Hvals. simpl.
      replace (6 - fields)%nat with (S (6 - S fields)) by lia. by rewrite inserts_cons.
Qed.

Lemma port_fields_complete fs tail t values :
  Z.of_nat (length (port_text fs ++ tail)) < 2 ^ 32 -> (length fs <= 6)%nat ->
  length values = 6%nat -> Forall port_field fs -> take_while is_digit tail = [] ->
  port_fields (length fs) (6 - Z.of_nat (length fs)) ((port_text fs ++ tail) ++ NUL :: t) values =
    Done (inr (tail ++ NUL :: t, list_inserts (6 - length fs) (decimal_value <$> fs) values)).
Proof.
  intros Hlen Hk Hv HF Htail. revert values Hlen Hk Hv.
  induction HF as [|ds fs [Hne [Hd Hle]] HF IH]; intros values Hlen Hk Hv; [done|].
  set (next := match fs with [] => tail | _ => 44 :: port_text fs ++ tail end).
  assert (port_text (ds :: fs) ++ tail = ds ++ next) as Eq.
  { rewrite port_text_cons, <-app_assoc. f_equal. unfold next. by destruct fs. }
  assert (take_while is_digit next = []) as Hnext by (unfold next; by destruct fs).
  destruct (digit_prefix _ ds next Hd Hnext Eq) as [E1 E2].
  cbn [length] in *. rewrite port_fields_step by (done || lia). rewrite E1, E2. cbv zeta.
  replace (negb _ || bool_decide _) with false
    by (rewrite bool_decide_eq_false_2 by done; lia).
  replace (6 - Z.of_nat (S (length fs)) + 1) with (6 - Z.of_nat (length fs)) by lia.
  replace (Z.to_nat (6 - Z.of_nat (S (length fs)))) with (6 - S (length fs))%nat by lia.
  destruct fs as [|d fs].
  - simpl. by unfold next.
  - destruct (Z.eqb_spec (6 - Z.of_nat (S (length (d :: fs)))) 5); [simpl in *; lia|].
    unfold next. rewrite Z.eqb_refl. rewrite IH.
    + replace (6 - length (d :: fs))%nat with (S (6 - S (length (d :: fs)))) by (simpl in *; lia).
      by rewrite inserts_cons.
    + rewrite Eq in Hlen. unfold next in Hlen. rewrite length_app in Hlen. simpl in *. lia.
    + simpl in *. lia.
    + by rewrite length_insert.
Qed.

Lemma parse_port_tuple_run args s values :
  cstr args = Done s -> Z.of_nat (length s) < 2 ^ 32 -> length values = 6%nat ->
  exists ret values', length values' = 6%nat /\
    ftpvita_parse_port_tuple (Some args) (Some values) = Done (ret, Some values') /\
    (ret = 0 \/ ret = 1) /\
    (ret = 1 -> exists fs tail, length fs = 6%nat /\ Forall port_field fs /\ port_tail tail /\
       s = port_text fs ++ tail /\ values' = decimal_value <$> fs).
Proof.
  intros [Hs [t ->]]%cstr_terminated Hlen Hv. unfold ftpvita_parse_port_tuple.
  destruct (port_fields_sound 6 s t values) as [(v' & Hv' & E)|(fs & tail & Hfs & HF & -> & Ht & E)];
    [done|lia|done| |]; change (6 - Z.of_nat 6) with 0 in E; rewrite E; run.
  { exists 0, v'. by split_and!; [| |left|]. }
  rewrite skip_blanks_run. run. rewrite load_after. run. rewrite Nat.sub_diag.
  rewrite inserts_0 by (rewrite length_fmap; lia).
  rewrite length_fmap, drop_ge, app_nil_r by lia.
  eexists _, _. split_and!; [|done|by case_match; auto|].
  { rewrite length_fmap. lia. }
  intros Hret. exists fs, tail. split_and!; try done. split.
  - apply Ht. intros ->. simpl in Hfs. lia.
  - destruct (drop_while is_blank tail) as [|c r]; simpl in *; [done|].
    by destruct (is_eol c).
Qed.

Lemma parse_port_tuple_accepts args fs tail values :
  cstr args = Done (port_text fs ++ tail) -> Z.of_nat (length (port_text fs ++ tail)) < 2 ^ 32 ->
  length values = 6%nat -> length fs = 6%nat -> Forall port_field fs -> port_tail tail ->
  ftpvita_parse_port_tuple (Some args) (Some values) = Done (1, Some (decimal_value <$> fs)).
Proof.
  intros [Hs [t ->]]%cstr_terminated Hlen Hv Hfs HF [Ht1 Ht2]. unfold ftpvita_parse_port_tuple.
  pose proof (port_fields_complete fs tail t values) as E. rewrite Hfs in E.
  change (6 - Z.of_nat 6) with 0 in E. rewrite E by (done || lia). run.
  rewrite skip_blanks_run. run. rewrite load_after. run. rewrite Nat.sub_diag.
  rewrite inserts_0 by (rewrite length_fmap; lia).
  rewrite length_fmap, drop_ge, app_nil_r by lia.
  destruct (drop_while is_blank tail) as [|c r]; simpl in *; [done|].
  by rewrite andb_true_r in Ht2; rewrite Ht2.
Qed.

(** * Properties *)

(** C26: for every NUL-terminated line and every command buffer of the announced
    size, [ftpvita_parse_command_line] stays inside its buffers and returns 1
    exactly when the command word is non-empty and fits with its terminator; it
    then leaves that word in the buffer, the rest of the buffer untouched, and
    points [arguments] at the text after the blanks; otherwise it returns 0 and
    leaves [arguments] alone. *)
Theorem parse_command_line_correct line s command size old :
  cstr line = Done s -> 0 <= size < 2 ^ 32 -> size <= Z.of_nat (length command) ->
  exists r, ftpvita_parse_command_line (Some line) (Some command) size (Some old) = Done r /\
    (cl_ret r = 1 <-> 0 < Z.of_nat (length (command_word s)) < size) /\
    (cl_ret r = 1 -> exists buf args,
       cl_command r = Some buf /\ length buf = length command /\
       cstr buf = Done (command_word s) /\
       drop (S (length (command_word s))) buf = drop (S (length (command_word s))) command /\
       cl_arguments r = Some args /\ cstr args = Done (command_arguments s)) /\
    (cl_ret r <> 1 -> cl_ret r = 0 /\ cl_arguments r = old).
Proof.
  intros Hs Hsize Hbuf.
  destruct (parse_command_line_run line s command size old Hs Hsize Hbuf)
    as (command' & Hlen & Hargs & E).
  pose proof (proj1 (cstr_terminated _ _) Hs) as [Hfree _].
  destruct (_ && _) eqn:Hfit; eexists; (split; [exact E|]); simpl.
  - split; [lia|]. split; [|done]. intros _.
    eexists _, _. split_and!; try done.
    + rewrite length_app. simpl. rewrite length_drop. lia.
    + apply cstr_lit. unfold command_word. auto with vita.
    + rewrite <-Nat.add_1_r, drop_app_add. by rewrite Nat.add_1_r.
  - split; [lia|]. split; [lia|done].
Qed.

Lemma parse_command_line_correct_witness :
  exists r, ftpvita_parse_command_line (Some (lit "REST 1091" ++ [CR; LF; NUL]))
              (Some (replicate 16 7)) 16 (Some None) = Done r /\ cl_ret r = 1.
Proof.
  destruct (parse_command_line_correct (lit "REST 1091" ++ [CR; LF; NUL])
    (lit "REST 1091" ++ [CR; LF]) (replicate 16 7) 16 None) as (r & E & H & _);
    [reflexivity | lia | simpl; lia |].
  exists r. split; [exact E|]. apply H. simpl. lia.
Defined.

(** C27: [ftpvita_copy_command_argument] never leaves its buffers, and returns 1
    exactly when the argument text (up to the end of the line or a tab) is
    non-empty and fits, in which case the output buffer holds that text as a C
    string; when it does not fit the output is not one byte too long: the call
    returns 0 and the buffer keeps its size. *)
Theorem copy_command_argument_correct args s output size :
  cstr args = Done s -> 0 <= size < 2 ^ 32 -> size <= Z.of_nat (length output) ->
  exists ret output',
    ftpvita_copy_command_argument (Some args) (Some output) size = Done (ret, Some output') /\
    length output' = length output /\ (ret = 0 \/ ret = 1) /\
    (ret = 1 <-> 0 < Z.of_nat (length (argument_text s)) < size) /\
    (ret = 1 -> cstr output' = Done (argument_text s)).
Proof.
  intros Hs Hsize Hbuf.
  destruct (copy_command_argument_run args s output size Hs Hsize Hbuf) as (o' & Ho' & E).
  pose proof (proj1 (cstr_terminated _ _) Hs) as [Hfree _].
  destruct (_ && _) eqn:Hfit; eexists _, _; (split; [exact E|]).
  - split_and!; [|auto|lia|].
    + rewrite length_app. simpl. rewrite length_drop. lia.
    + intros _. apply cstr_lit. unfold argument_text. auto with vita.
  - split_and!; [done|auto|lia|lia].
Qed.

Lemma copy_command_argument_correct_witness :
  exists ret o, ftpvita_copy_command_argument (Some (lit "ux0:/data/file name" ++ [CR; LF; NUL]))
    (Some (replicate 32 0)) 32 = Done (ret, Some o) /\ length o = 32%nat.
Proof.
  destruct (copy_command_argument_correct (lit "ux0:/data/file name" ++ [CR; LF; NUL])
    (lit "ux0:/data/file name" ++ [CR; LF]) (replicate 32 0) 32) as (ret & o & E & H & _);
    [reflexivity | lia | simpl; lia |].
  exists ret, o. split; [exact E|]. exact H.
Defined.

(** C28: [ftpvita_parse_rest_offset] accepts exactly the well-formed decimal
    arguments whose value is at most 0x7fffffff, never overflowing on longer
    ones, and stores that value; on any other argument it returns 0 and the
    caller's offset keeps its value. *)
Theorem parse_rest_offset_correct args s old :
  cstr args = Done s ->
  (forall v, rest_number s = Some v -> v <= 2147483647 ->
     ftpvita_parse_rest_offset (Some args) (Some old) = Done (1, Some v)) /\
  ((forall v, rest_number s = Some v -> 2147483647 < v) ->
     ftpvita_parse_rest_offset (Some args) (Some old) = Done (0, Some old)).
Proof.
  intros Hs. rewrite (parse_rest_offset_run args s old Hs). unfold rest_maximum. split.
  - intros v -> Hv. by split_ifs.
  - intros H. destruct (rest_number s) as [v|]; [|done].
    specialize (H v eq_refl). by split_ifs.
Qed.

Lemma parse_rest_offset_correct_witness :
  ftpvita_parse_rest_offset (Some (lit "  99999999999" ++ [CR; LF; NUL])) (Some 5)
  = Done (0, Some 5).
Proof.
  apply (parse_rest_offset_correct (lit "  99999999999" ++ [CR; LF; NUL])
           (lit "  99999999999" ++ [CR; LF]) 5); [reflexivity|].
  intros v H. vm_compute in H. injection H as <-. reflexivity.
Defined.

(** A REST offset survives printing and parsing: the decimal digits [%u]
    writes for any 64-bit number are read back as that number when it is at most
    0x7fffffff and refused when it is larger. *)
Theorem parse_rest_offset_roundtrip n old :
  0 <= n < 2 ^ 64 ->
  ftpvita_parse_rest_offset (Some (fmt_u n ++ [CR; LF; NUL])) (Some old) =
    Done (if n <=? 2147483647 then (1, Some n) else (0, Some old)).
Proof.
  intros Hn. destruct (fmt_u_spec n Hn) as (Hd & Hv & Hne).
  rewrite (parse_rest_offset_run _ (fmt_u n ++ [CR; LF])).
  2: { change [CR; LF; NUL] with ([CR; LF] ++ NUL :: []). rewrite app_assoc. apply cstr_lit.
       apply Forall_app. split; [by apply digits_NUL_free|]. by repeat constructor. }
  unfold rest_number.
  assert (drop_while is_blank (fmt_u n ++ [CR; LF]) = fmt_u n ++ [CR; LF]) as ->.
  { destruct (fmt_u n) as [|c ds]; [done|]. apply Forall_cons in Hd as [Hc%is_digit_range _].
    simpl. unfold is_blank, SP, TAB. by split_ifs. }
  destruct (digit_prefix (fmt_u n ++ [CR; LF]) (fmt_u n) [CR; LF] Hd) as [-> ->]; [done..|].
  rewrite decide_False by done. simpl. by rewrite Hv.
Qed.

Lemma parse_rest_offset_roundtrip_witness :
  ftpvita_parse_rest_offset (Some (fmt_u 1091 ++ [CR; LF; NUL])) (Some 0) = Done (1, Some 1091).
Proof. rewrite parse_rest_offset_roundtrip by lia. reflexivity. Defined.

(** C29: [ftpvita_parse_port_tuple] accepts a PORT argument exactly when it is
    six decimal byte fields joined by commas and followed by blanks and the end
    of the line; the six values are then those of the fields, all at most 255,
    and the call is defined on every other argument. *)
Theorem parse_port_tuple_iff args s values out :
  cstr args = Done s -> Z.of_nat (length s) < 2 ^ 32 -> length values = 6%nat ->
  (exists ret out', ftpvita_parse_port_tuple (Some args) (Some values) = Done (ret, Some out') /\
     (ret = 0 \/ ret = 1)) /\
  (ftpvita_parse_port_tuple (Some args) (Some values) = Done (1, Some out) <->
   exists fs tail, s = port_text fs ++ tail /\ length fs = 6%nat /\ port_tail tail /\
     Forall port_field fs /\ out = decimal_value <$> fs).
Proof.
  intros Hs Hlen Hv.
  destruct (parse_port_tuple_run args s values Hs Hlen Hv) as (ret & out' & _ & E & Hret & H).
  split; [by exists ret, out'|]. split.
  - rewrite E. intros [= -> <-]. destruct (H eq_refl) as (fs & tail & ? & ? & ? & ? & ?).
    by exists fs, tail.
  - intros (fs & tail & -> & ? & ? & ? & ->). by apply parse_port_tuple_accepts with (tail := tail).
Qed.

Lemma parse_port_tuple_iff_witness :
  ftpvita_parse_port_tuple (Some (lit "192,168,0,155,5,57" ++ [CR; LF; NUL])) (Some (replicate 6 0))
  = Done (1, Some [192; 168; 0; 155; 5; 57]).
Proof.
  apply (parse_port_tuple_iff (lit "192,168,0,155,5,57" ++ [CR; LF; NUL])
    (lit "192,168,0,155,5,57" ++ [CR; LF]) (replicate 6 0)); [reflexivity|simpl; lia|reflexivity|].
  exists [lit "192"; lit "168"; lit "0"; lit "155"; lit "5"; lit "57"], [CR; LF].
  split_and!; [reflexivity | reflexivity | split; reflexivity | | reflexivity].
  repeat apply Forall_cons_2; [..|apply Forall_nil_2]; (split; [discriminate|]; split; [|vm_compute; discriminate]);
    repeat apply Forall_cons_2; first [reflexivity | apply Forall_nil_2].
Defined.
