(* ===== verification/CmdParse.v ===== *)
(** The tokenizer of the command channel: src/parser.c.

    [parse_cmd] works in place.  The command buffer is the list of its bytes, a
    pointer into it is the offset from its start, and the argument array holds
    such offsets.  Every read and write is checked against the object. *)

From S2P Require Import Prelude.

Definition PARSE_CMD_TOO_MANY_ARGS : Z := u32 (-1).

Definition is_separator (c : Z) : bool := (c =? SP) || (c =? TAB) || (c =? CR).
Definition is_terminal (c : Z) : bool := (c =? NUL) || (c =? LF).

(** Overwrites separators with terminators; [todo] is [end - cursor]. *)
Fixpoint blank_separators (todo : nat) (cmd : bytes) (cursor : Z) : outcome (nat * bytes * Z) :=
  match todo with
  | O => Done (O, cmd, cursor)
  | S todo' =>
      c ← load cmd cursor;
      if is_separator c then
        cmd ← store cmd cursor NUL; blank_separators todo' cmd (cursor + 1)
      else Done (todo, cmd, cursor)
  end.

(** Moves the cursor past a word. *)
Fixpoint scan_word (todo : nat) (cmd : bytes) (cursor : Z) : outcome (nat * Z) :=
  match todo with
  | O => Done (O, cursor)
  | S todo' =>
      c ← load cmd cursor;
      if is_terminal c || is_separator c then Done (todo, cursor)
      else scan_word todo' cmd (cursor + 1)
  end.

(** The main loop: the value returned, the buffer and the argument array. *)
Fixpoint parse_loop (fuel todo : nat) (cmd : bytes) (cursor : Z)
    (arg_list : list Z) (arg_count arg_max : Z) : outcome (Z * bytes * list Z) :=
  match fuel with
  | O => NoFuel
  | S fuel =>
      match todo with
      | O => Done (arg_count, cmd, arg_list)
      | S _ =>
          '(todo, cmd, cursor) ← blank_separators todo cmd cursor;
          match todo with
          | O => Done (arg_count, cmd, arg_list)
          | S _ =>
              c ← load cmd cursor;
              if is_terminal c then Done (arg_count, cmd, arg_list)
              else if arg_count =? arg_max then Done (PARSE_CMD_TOO_MANY_ARGS, cmd, arg_list)
              else
                arg_list ← store arg_list arg_count cursor;
                let arg_count := u32 (arg_count + 1) in
                '(todo, cursor) ← scan_word todo cmd cursor;
                match todo with
                | O => parse_loop fuel O cmd cursor arg_list arg_count arg_max
                | S todo =>
                    c ← load cmd cursor;
                    cmd ← store cmd cursor NUL;
                    if is_terminal c then Done (arg_count, cmd, arg_list)
                    else parse_loop fuel todo cmd (cursor + 1) arg_list arg_count arg_max
                end
          end
      end
  end.

(** The fuel is one more than the bytes to read: every iteration that goes on
    consumes a word. *)
Definition parse_cmd (cmd : ptr bytes) (cmd_size : Z) (arg_list : ptr (list Z)) (arg_max : Z)
    : outcome (Z * ptr bytes * ptr (list Z)) :=
  match cmd, arg_list with
  | Some buf, Some args =>
      if arg_max =? 0 then Done (0, cmd, arg_list)
      else
        '(ret, buf, args) ← parse_loop (S (Z.to_nat cmd_size)) (Z.to_nat cmd_size) buf 0 args 0 arg_max;
        Done (ret, Some buf, Some args)
  | _, _ => Done (0, cmd, arg_list)
  end.

(** * Reference definition: the words of the first line *)

Definition first_line (s : bytes) : bytes := take_while (fun c => negb (is_terminal c)) s.

Definition flush (word : bytes) : list bytes := if decide (word = []) then [] else [word].

Fixpoint words_from (word s : bytes) : list bytes :=
  match s with
  | [] => flush word
  | c :: s => if is_separator c then flush word ++ words_from [] s else words_from (word ++ [c]) s
  end.

Definition words (s : bytes) : list bytes := words_from [] s.

(** * Lemmas *)

Lemma words_word w s :
  Forall (fun c => is_separator c = false) w -> forall v,
  words_from v (w ++ s) = words_from (v ++ w) s.
Proof.
  induction 1 as [|c w Hc _ IH]; intros v; simpl; [by rewrite app_nil_r|].
  rewrite Hc, IH, <-app_assoc. done.
Qed.

Lemma words_separators bl s :
  Forall (fun c => is_separator c = true) bl -> words (bl ++ s) = words s.
Proof.
  unfold words. induction 1 as [|c bl Hc _ IH]; simpl; [done|]. by rewrite Hc.
Qed.

(** Reading and writing a buffer at the end of a known prefix. *)
Lemma load_mid (dn s : bytes) c : load (dn ++ c :: s) (Z.of_nat (length dn)) = Done c.
Proof. apply load_in; [lia|]. by rewrite Nat2Z.id, list_lookup_middle. Qed.

Lemma store_mid (dn s : bytes) c x :
  store (dn ++ c :: s) (Z.of_nat (length dn)) x = Done (dn ++ x :: s).
Proof.
  rewrite store_in by (rewrite length_app; simpl; lia).
  rewrite Nat2Z.id, insert_app_r_alt, Nat.sub_diag by done. done.
Qed.

Lemma blank_separators_run s dn t :
  let sep := take_while is_separator s in
  let rest := drop_while is_separator s in
  blank_separators (length s) (dn ++ s ++ t) (Z.of_nat (length dn)) =
    Done (length rest, (dn ++ replicate (length sep) NUL) ++ rest ++ t,
          Z.of_nat (length (dn ++ replicate (length sep) NUL))).
Proof.
  revert dn. induction s as [|c s IH]; intros dn; simpl.
  - by rewrite app_nil_r.
  - rewrite load_mid. run. destruct (is_separator c); simpl.
    + rewrite store_mid. run. specialize (IH (dn ++ [NUL])).
      rewrite <-app_assoc, length_app in IH. simpl in IH.
      replace (Z.of_nat (length dn + 1)) with (Z.of_nat (length dn) + 1) in IH by lia.
      rewrite IH. by rewrite <-!app_assoc.
    + by rewrite app_nil_r.
Qed.

Lemma scan_word_run s dn t :
  let wordc := fun c => negb (is_terminal c || is_separator c) in
  scan_word (length s) (dn ++ s ++ t) (Z.of_nat (length dn)) =
    Done (length (drop_while wordc s), Z.of_nat (length (dn ++ take_while wordc s))).
Proof.
  simpl. revert dn. induction s as [|c s IH]; intros dn; simpl.
  - by rewrite app_nil_r.
  - rewrite load_mid. run. destruct (is_terminal c || is_separator c); simpl.
    + by rewrite app_nil_r.
    + specialize (IH (dn ++ [c])). rewrite <-app_assoc, length_app in IH. simpl in IH.
      replace (Z.of_nat (length dn + 1)) with (Z.of_nat (length dn) + 1) in IH by lia.
      rewrite IH. by rewrite <-app_assoc.
Qed.

Definition is_word_char (c : Z) : bool := negb (is_terminal c || is_separator c).

Lemma word_char_facts w :
  Forall (fun c => is_word_char c = true) w ->
  Forall (fun c => is_separator c = false) w /\ Forall (fun c => negb (is_terminal c) = true) w /\
  Forall (fun c => c <> NUL) w.
Proof.
  intros H. split_and!; eapply Forall_impl; try exact H; intros c;
    unfold is_word_char, is_terminal, is_separator, NUL, LF, CR, SP, TAB; lia.
Qed.

Lemma first_line_app w s :
  Forall (fun c => negb (is_terminal c) = true) w -> first_line (w ++ s) = w ++ first_line s.
Proof. intros H. unfold first_line. by destruct (while_app _ w s H). Qed.

Lemma flush_nonempty w : w <> [] -> flush w = [w].
Proof. intros. unfold flush. by rewrite decide_False. Qed.

(** The words of a line that starts with a word. *)
Lemma words_cons w s :
  Forall (fun c => is_separator c = false) w -> w <> [] ->
  words w = [w] /\ forall c, is_separator c = true -> words (w ++ c :: s) = w :: words s.
Proof.
  intros Hw Hne. unfold words. split.
  - rewrite <-(app_nil_r w) at 1. rewrite words_word by done. simpl. by apply flush_nonempty.
  - intros c Hc. rewrite words_word by done. simpl. by rewrite Hc, flush_nonempty.
Qed.

(** What a run of the loop from [cursor] leaves: the bytes before the cursor are
    untouched, the words found from there on are recorded in order and end with a
    terminator, and too many of them is the only failure. *)
Definition loop_post (dn body tl : bytes) (args : list Z) (count max : Z)
    (r : outcome (Z * bytes * list Z)) : Prop :=
  let ws := words (first_line body) in
  exists ret rest args',
    r = Done (ret, dn ++ rest, args') /\ length rest = length (body ++ NUL :: tl) /\
    length args' = length args /\ take (Z.to_nat count) args' = take (Z.to_nat count) args /\
    if count + Z.of_nat (length ws) <=? max then
      ret = count + Z.of_nat (length ws) /\
      forall i w, ws !! i = Some w -> exists off,
        args' !! (Z.to_nat count + i)%nat = Some off /\ Z.of_nat (length dn) <= off /\
        cstr (drop (Z.to_nat off) (dn ++ rest)) = Done w
    else ret = PARSE_CMD_TOO_MANY_ARGS.

(** No word is left. *)
Lemma loop_post_none dn body tl args count max rest :
  words (first_line body) = [] -> count <= max -> length rest = length (body ++ NUL :: tl) ->
  loop_post dn body tl args count max (Done (count, dn ++ rest, args)).
Proof.
  intros Hws Hc Hl. eexists count, rest, args. rewrite Hws. split_and!; [done..|].
  simpl. rewrite Z.add_0_r. split_ifs. split; [done|]. intros i w. by rewrite lookup_nil.
Qed.

(** A word found at the end of [dn], followed by what [r] finds. *)
Lemma loop_post_cons dn bl w c body body' tl args count max r :
  0 <= count < max -> max <= Z.of_nat (length args) ->
  words (first_line body) = w :: words (first_line body') ->
  Forall (fun c => c <> NUL) w ->
  (length body = length bl + length w + S (length body'))%nat ->
  loop_post (dn ++ bl ++ w ++ [c]) body' tl
    (<[Z.to_nat count := Z.of_nat (length (dn ++ bl))]> args) (count + 1) max r ->
  c = NUL ->
  loop_post dn body tl args count max r.
Proof.
  intros Hc Hm Hws Hw Hl (ret & rest & args' & -> & Hlen & Hla & Hta & H) ->.
  exists ret, (bl ++ w ++ [NUL] ++ rest), args'. rewrite length_insert in Hla.
  rewrite Hws. cbn [length].
  replace (count + Z.of_nat (S (length (words (first_line body')))))
    with (count + 1 + Z.of_nat (length (words (first_line body')))) by lia.
  assert (args' !! Z.to_nat count = Some (Z.of_nat (length (dn ++ bl)))) as Hhere.
  { rewrite <-(lookup_take_lt _ (Z.to_nat (count + 1))) by lia. rewrite Hta.
    rewrite lookup_take_lt by lia. apply list_lookup_insert_eq. lia. }
  split_and!.
  - by rewrite <-!app_assoc.
  - rewrite !length_app in *. simpl in *. lia.
  - done.
  - apply (f_equal (take (Z.to_nat count))) in Hta. rewrite !take_take in Hta.
    rewrite !Nat.min_l in Hta by lia. by rewrite take_insert_ge in Hta by lia.
  - destruct (_ <=? max); [|done]. destruct H as [-> H]. split; [done|].
    intros [|i] w' Hi; simpl in Hi.
    + injection Hi as <-. exists (Z.of_nat (length (dn ++ bl))).
      rewrite Nat.add_0_r. split; [done|]. split; [rewrite length_app; lia|].
      rewrite Nat2Z.id, app_assoc, drop_app_length. simpl. by apply cstr_lit.
    + destruct (H i w' Hi) as (off & Ho & Hle & Hs). exists off.
      replace (Z.to_nat count + S i)%nat with (Z.to_nat (count + 1) + i)%nat by lia.
      split; [done|]. split; [rewrite !length_app in Hle; lia|].
      by rewrite <-!app_assoc in Hs.
Qed.

(** A word found at the end of [dn], the last of the line. *)
Lemma loop_post_last dn bl w k body tl args count max :
  0 <= count < max -> max <= Z.of_nat (length args) ->
  words (first_line body) = [w] -> Forall (fun c => c <> NUL) w ->
  length (bl ++ w ++ NUL :: k) = length (body ++ NUL :: tl) ->
  loop_post dn body tl args count max
    (Done (count + 1, dn ++ bl ++ w ++ NUL :: k,
           <[Z.to_nat count := Z.of_nat (length (dn ++ bl))]> args)).
Proof.
  intros Hc Hm Hws Hw Hl. eexists _, _, _. rewrite Hws.
  split_and!; [done|done|by rewrite length_insert|by rewrite take_insert_ge by lia|].
  simpl. split_ifs. split; [done|]. intros [|i] w' Hi; simpl in Hi; [|done].
  injection Hi as <-. exists (Z.of_nat (length (dn ++ bl))).
  rewrite Nat.add_0_r. split; [apply list_lookup_insert_eq; lia|].
  split; [rewrite length_app; lia|].
  rewrite Nat2Z.id, app_assoc, drop_app_length. by apply cstr_lit.
Qed.

(** The first word of a text that starts with one, and what follows it. *)
Lemma first_word s :
  let w := take_while is_word_char s in
  let rest := drop_while is_word_char s in
  w <> [] ->
  match rest with
  | [] => words (first_line s) = [w]
  | c :: k => if is_terminal c then words (first_line s) = [w]
              else words (first_line s) = w :: words (first_line k)
  end.
Proof.
  intros w rest Hne.
  destruct (word_char_facts w) as (Hw1 & Hw2 & _); [apply take_while_all|].
  rewrite <-(take_drop_while is_word_char s). fold w rest.
  rewrite first_line_app by done. destruct rest as [|c k] eqn:Er; simpl.
  { rewrite app_nil_r. by apply (words_cons w []). }
  destruct (is_terminal c) eqn:Ht; simpl.
  { rewrite app_nil_r. by apply (words_cons w []). }
  apply (words_cons w (first_line k)); [done..|].
  pose proof (drop_while_head is_word_char s c k Er) as Hh.
  unfold is_word_char in Hh. rewrite Ht in Hh. by destruct (is_separator c).
Qed.

(** One iteration of the loop, in terms of the text from the cursor on. *)
Lemma parse_loop_step fuel body dn tl args count max :
  0 <= count <= max -> max <= Z.of_nat (length args) -> max < 2 ^ 32 ->
  let bl := replicate (length (take_while is_separator body)) NUL in
  let body1 := drop_while is_separator body in
  let w := take_while is_word_char body1 in
  let args1 := <[Z.to_nat count := Z.of_nat (length (dn ++ bl))]> args in
  parse_loop (S (S fuel)) (length body) (dn ++ body ++ NUL :: tl) (Z.of_nat (length dn)) args count max =
    if decide (w = []) then Done (count, dn ++ bl ++ body1 ++ NUL :: tl, args)
    else if count =? max then Done (PARSE_CMD_TOO_MANY_ARGS, dn ++ bl ++ body1 ++ NUL :: tl, args)
    else match drop_while is_word_char body1 with
         | [] => Done (count + 1, dn ++ bl ++ w ++ NUL :: tl, args1)
         | c :: k =>
             if is_terminal c then Done (count + 1, dn ++ bl ++ w ++ NUL :: k ++ NUL :: tl, args1)
             else parse_loop (S fuel) (length k) ((dn ++ bl ++ w ++ [NUL]) ++ k ++ NUL :: tl)
                    (Z.of_nat (length (dn ++ bl ++ w ++ [NUL]))) args1 (count + 1) max
         end.
Proof.
  intros Hc Hm H32 bl body1 w args1.
  remember (S fuel) as fuel1 eqn:Hf1. cbn [parse_loop].
  destruct (length body) as [|n] eqn:Hn.
  { apply nil_length_inv in Hn as ->. done. }
  rewrite <-Hn, blank_separators_run. run. fold bl body1.
  assert (w = take_while is_word_char body1) as Hwd by done. clearbody w.
  assert (body1 = drop_while is_separator body) as Hb1 by done. clearbody body1.
  destruct (length body1) as [|n1] eqn:Hn1.
  { apply nil_length_inv in Hn1. rewrite Hwd, Hn1. by rewrite <-app_assoc. }
  pose proof (take_drop_while is_word_char body1) as Hwb. rewrite <-Hwd in Hwb.
  destruct body1 as [|c body1'] eqn:Eb; [done|]. rewrite <-Eb in *.
  assert (is_separator c = false) as Hsep
    by (apply (drop_while_head is_separator body c body1'); by rewrite <-Hb1).
  replace (load _ _) with (Done c) by (rewrite Eb; symmetry; apply load_mid). run.
  assert (is_terminal c = bool_decide (w = [])) as ->.
  { rewrite Hwd, Eb. simpl. unfold is_word_char. rewrite Hsep, orb_false_r.
    by destruct (is_terminal c). }
  case_bool_decide as Hw; [by rewrite decide_True, <-app_assoc|]. rewrite decide_False by done.
  destruct (Z.eqb_spec count max) as [->|Hroom]; [by rewrite <-app_assoc|].
  rewrite store_in by lia. run. rewrite u32_small by lia. fold args1.
  rewrite <-Hn1, scan_word_run. run. fold is_word_char. rewrite <-Hwd.
  destruct (drop_while is_word_char body1) as [|c2 k]; simpl; rewrite <-Hwb.
  { subst fuel1. simpl. by rewrite app_nil_r, <-!app_assoc. }
  replace ((dn ++ bl) ++ (w ++ c2 :: k) ++ NUL :: tl)
    with (((dn ++ bl) ++ w) ++ c2 :: k ++ NUL :: tl) by (by rewrite <-!app_assoc).
  rewrite load_mid. run. rewrite store_mid. run.
  destruct (is_terminal c2); [by rewrite <-!app_assoc|].
  f_equal; [by rewrite <-!app_assoc|]. rewrite !length_app. simpl. lia.
Qed.

Lemma words_skip_separators body :
  words (first_line body) = words (first_line (drop_while is_separator body)).
Proof.
  rewrite <-(take_drop_while is_separator body) at 1. rewrite first_line_app.
  - apply words_separators, take_while_all.
  - eapply Forall_impl; [apply take_while_all|]. intros c.
    unfold is_separator, is_terminal, SP, TAB, CR, NUL, LF. lia.
Qed.

(** A text whose first byte is not a separator and that starts with no word has
    no word on its first line. *)
Lemma words_none body :
  take_while is_word_char (drop_while is_separator body) = [] -> words (first_line body) = [].
Proof.
  rewrite words_skip_separators. destruct (drop_while is_separator body) as [|c k] eqn:E; [done|].
  pose proof (drop_while_head _ _ _ _ E) as Hsep.
  simpl. unfold is_word_char. rewrite Hsep, orb_false_r. unfold first_line. simpl.
  by destruct (is_terminal c).
Qed.

Lemma parse_loop_run fuel body dn tl args count max :
  (length body < fuel)%nat -> 0 <= count <= max -> max <= Z.of_nat (length args) -> max < 2 ^ 32 ->
  loop_post dn body tl args count max
    (parse_loop fuel (length body) (dn ++ body ++ NUL :: tl) (Z.of_nat (length dn)) args count max).
Proof.
  revert body dn args count. induction fuel as [|[|fuel] IH]; intros body dn args count Hf Hc Hm H32;
    [lia| |].
  { assert (body = []) as -> by (apply nil_length_inv; lia).
    simpl. apply loop_post_none; [done|lia|done]. }
  rewrite parse_loop_step by done.
  set (bl := replicate _ NUL). set (body1 := drop_while is_separator body).
  set (w := take_while is_word_char body1).
  pose proof (length_while is_separator body) as Hlen1. fold body1 in Hlen1.
  assert (length bl = length (take_while is_separator body)) as Hbl by apply length_replicate.
  assert (length (bl ++ body1 ++ NUL :: tl) = length (body ++ NUL :: tl)) as Hlen2
    by (rewrite !length_app; simpl; lia).
  destruct (decide (w = [])) as [Hw|Hw].
  { apply loop_post_none; [by apply words_none|lia|done]. }
  pose proof (first_word body1 Hw) as Hfw. fold w in Hfw. unfold body1 in Hfw.
  rewrite <-words_skip_separators in Hfw. fold body1 in Hfw.
  destruct (Z.eqb_spec count max) as [->|Hroom].
  { exists PARSE_CMD_TOO_MANY_ARGS, (bl ++ body1 ++ NUL :: tl), args. split_and!; [done..|].
    enough (words (first_line body) <> []).
    { destruct (words (first_line body)); [done|]. simpl. by split_ifs. }
    destruct (drop_while is_word_char body1) as [|c k]; [by rewrite Hfw|].
    destruct (is_terminal c); by rewrite Hfw. }
  destruct (word_char_facts w) as (_ & _ & Hw3); [apply take_while_all|].
  pose proof (length_while is_word_char body1) as Hlen3. fold w in Hlen3.
  destruct (drop_while is_word_char body1) as [|c k]; simpl in Hlen3.
  { apply loop_post_last; [lia..|done|done|]. rewrite !length_app. simpl. lia. }
  destruct (is_terminal c).
  { apply loop_post_last; [lia..|done|done|]. rewrite !length_app. simpl. rewrite length_app. simpl. lia. }
  apply loop_post_cons with bl w NUL k; [lia..|done|done|lia| |done].
  apply IH; [lia..|by rewrite length_insert|done].
Qed.

Lemma parse_cmd_run body tl args max :
  0 < max -> max <= Z.of_nat (length args) -> max < 2 ^ 32 ->
  let ws := words (first_line body) in
  exists ret cmd args',
    parse_cmd (Some (body ++ NUL :: tl)) (Z.of_nat (length body)) (Some args) max
      = Done (ret, Some cmd, Some args') /\
    length cmd = length (body ++ NUL :: tl) /\ length args' = length args /\
    if Z.of_nat (length ws) <=? max then
      ret = Z.of_nat (length ws) /\
      forall i w, ws !! i = Some w -> exists off,
        args' !! i = Some off /\ 0 <= off /\ cstr (drop (Z.to_nat off) cmd) = Done w
    else ret = PARSE_CMD_TOO_MANY_ARGS.
Proof.
  intros H0 Hm H32 ws. unfold parse_cmd. destruct (Z.eqb_spec max 0); [lia|]. rewrite Nat2Z.id.
  destruct (parse_loop_run (S (length body)) body [] tl args 0 max)
    as (ret & rest & args' & E & Hlen & Hla & _ & H); [lia..|].
  simpl app in *. change (Z.of_nat (length [])) with 0 in E. rewrite E. run.
  exists ret, rest, args'. split_and!; [done..|]. rewrite Z.add_0_l in H. exact H.
Qed.

(** * Properties *)

(** C30: [parse_cmd], given a request of [cmd_size] bytes followed by the
    terminator [receive_command] writes, stays inside the buffer and the
    argument array, and splits the first line in place into exactly its words:
    it returns their number, and each entry of the array points at a C string
    equal to the word. More words than the array holds is reported as
    [PARSE_CMD_TOO_MANY_ARGS]. *)
Theorem parse_cmd_words body tl args max :
  0 < max -> max <= Z.of_nat (length args) -> max < 2 ^ 32 ->
  let ws := words (first_line body) in
  exists ret cmd args',
    parse_cmd (Some (body ++ NUL :: tl)) (Z.of_nat (length body)) (Some args) max
      = Done (ret, Some cmd, Some args') /\
    length cmd = length (body ++ NUL :: tl) /\ length args' = length args /\
    (Z.of_nat (length ws) <= max -> ret = Z.of_nat (length ws) /\
      forall i w, ws !! i = Some w -> exists off,
        args' !! i = Some off /\ cstr (drop (Z.to_nat off) cmd) = Done w) /\
    (max < Z.of_nat (length ws) -> ret = PARSE_CMD_TOO_MANY_ARGS).
Proof.
  intros H0 Hm H32 ws.
  destruct (parse_cmd_run body tl args max H0 Hm H32) as (ret & cmd & args' & E & Hl & Ha & H).
  fold ws in H. exists ret, cmd, args'.
  split_and!; [done..| |]; intros Hle; destruct (Z.leb_spec (Z.of_nat (length ws)) max); try lia.
  destruct H as [-> H]. split; [done|]. intros i w Hi.
  destruct (H i w Hi) as (off & ? & _ & ?). by exists off.
Qed.

Lemma parse_cmd_words_witness :
  exists ret cmd args',
    parse_cmd (Some (lit "launch  ABCD00001" ++ [LF] ++ NUL :: [])) 18 (Some (replicate 20 0)) 20
      = Done (ret, Some cmd, Some args') /\ ret = 2.
Proof.
  destruct (parse_cmd_words (lit "launch  ABCD00001" ++ [LF]) [] (replicate 20 0) 20)
    as (ret & cmd & args' & E & _ & _ & H & _); [lia | simpl; lia | lia |].
  exists ret, cmd, args'. split; [exact E|].
  apply H. vm_compute. discriminate.
Defined.
