(* ===== verification/Retr.v ===== *)
(** The bounded download loop: libftpvita/ftpvita_retr.h.

    The two callbacks and their context are the arguments of the C function and
    stay arguments here: [C] is the type of what the [context] pointer reaches,
    and a callback maps it to its next value.  [read_file] also returns the
    buffer it filled, [send_data] the error number it stored.  A callback returns
    an [int], so its result goes through [s32]. *)

From S2P Require Import Prelude.

Inductive retr_stage := complete | range | early_eof | read | send.

Record ftpvita_retr_result_t := RetrResult {
  stage : retr_stage;
  code : Z;
  net_errno : Z;
  bytes_read : Z;
  bytes_sent : Z
}.

#[export] Instance retr_stage_eq_dec : EqDecision retr_stage.
Proof. solve_decision. Defined.

Definition fail (s : retr_stage) (code net_errno : Z) (r : ftpvita_retr_result_t) :=
  RetrResult s code net_errno (bytes_read r) (bytes_sent r).

Section retr.
Context {C : Type}.

Definition ftpvita_retr_read_fn : Type := C -> bytes -> Z -> C * bytes * Z.
Definition ftpvita_retr_send_fn : Type := C -> bytes -> Z -> C * Z * Z.

Variable read_file : ftpvita_retr_read_fn.
Variable send_data : ftpvita_retr_send_fn.

(** [while (position < (unsigned int)bytes_read)]: sends the [n] bytes at the
    start of the buffer. [inl] leaves the function. A range of the buffer is
    handed to the callback only if it lies inside the buffer. *)
Fixpoint send_loop (fuel : nat) (ctx : C) (buffer : bytes) (n position : Z)
    (result : ftpvita_retr_result_t)
    : outcome (C * ftpvita_retr_result_t + C * ftpvita_retr_result_t) :=
  if position <? u32 n then
    match fuel with
    | O => NoFuel
    | S fuel =>
        let pending := u32 (u32 n - position) in
        if Z.of_nat (length buffer) <? position + pending then Undefined
        else
          let '(ctx, sent, net_error) := send_data ctx (drop (Z.to_nat position) buffer) pending in
          let sent := s32 sent in
          if (sent <=? 0) || (pending <? u32 sent) then
            Done (inl (ctx, fail send sent (if sent <? 0 then net_error else 0) result))
          else
            send_loop fuel ctx buffer n (u32 (position + u32 sent))
              (RetrResult (stage result) (code result) (net_errno result)
                 (bytes_read result) (u64 (bytes_sent result + u32 sent)))
    end
  else Done (inr (ctx, result)).

(** [while (remaining > 0)] *)
Fixpoint extent_loop (fuel : nat) (ctx : C) (buffer : bytes) (buffer_size remaining : Z)
    (result : ftpvita_retr_result_t) : outcome (C * ftpvita_retr_result_t) :=
  if 0 <? remaining then
    match fuel with
    | O => NoFuel
    | S fuel =>
        let requested := if remaining <? buffer_size then u32 remaining else buffer_size in
        if Z.of_nat (length buffer) <? requested then Undefined
        else
          let '(ctx, buffer, n) := read_file ctx buffer requested in
          let n := s32 n in
          if (n <=? 0) || (requested <? u32 n) then
            Done (ctx, fail (if n =? 0 then early_eof else read) n (net_errno result) result)
          else
            let result := RetrResult (stage result) (code result) (net_errno result)
                            (u64 (bytes_read result + u32 n)) (bytes_sent result) in
            let remaining := u64 (remaining - u32 n) in
            r ← send_loop (Z.to_nat n) ctx buffer n 0 result;
            match r with
            | inl (ctx, result) => Done (ctx, result)
            | inr (ctx, result) => extent_loop fuel ctx buffer buffer_size remaining result
            end
    end
  else Done (ctx, result).
End retr.
Arguments ftpvita_retr_read_fn : clear implicits.
Arguments ftpvita_retr_send_fn : clear implicits.

(** The fuel of both loops is the number of bytes left: each iteration that goes
    on moves at least one. *)
Definition ftpvita_retr_extent {C : Type} (context : C)
    (read_file : ptr (ftpvita_retr_read_fn C)) (send_data : ptr (ftpvita_retr_send_fn C))
    (buffer : ptr bytes) (buffer_size start extent : Z)
    : outcome (C * ftpvita_retr_result_t) :=
  let result := RetrResult complete 0 0 0 0 in
  match read_file, send_data, buffer with
  | Some read_file, Some send_data, Some buffer =>
      if (buffer_size =? 0) || (INT_MAX <? buffer_size) || (extent <? start) then
        Done (context, fail range 0 0 result)
      else
        let remaining := u64 (extent - start) in
        extent_loop read_file send_data (Z.to_nat remaining) context buffer buffer_size remaining result
  | _, _, _ => Done (context, fail range 0 0 result)
  end.

(** * Observing the transfer

    The same callbacks, with the bytes they moved recorded next to the context:
    first everything read from the file, then everything the peer accepted. *)
Section logged.
Context {C : Type} (read_file : ftpvita_retr_read_fn C) (send_data : ftpvita_retr_send_fn C).

Definition accepted (asked answered : Z) : Z :=
  let n := s32 answered in if (0 <? n) && (n <=? asked) then n else 0.

Definition logged_read : ftpvita_retr_read_fn (C * bytes * bytes) :=
  fun '(ctx, rd, sn) buffer asked =>
    let '(ctx, buffer, n) := read_file ctx buffer asked in
    ((ctx, rd ++ take (Z.to_nat (accepted asked n)) buffer, sn), buffer, n).

Definition logged_send : ftpvita_retr_send_fn (C * bytes * bytes) :=
  fun '(ctx, rd, sn) data asked =>
    let '(ctx, n, e) := send_data ctx data asked in
    ((ctx, rd, sn ++ take (Z.to_nat (accepted asked n)) data), n, e).

(** The callback contract: a read writes inside the buffer it is given. *)
Definition keeps_buffer : Prop :=
  forall ctx buffer asked, length (read_file ctx buffer asked).1.2 = length buffer.
End logged.

(** * Lemmas *)

Lemma accepted_range asked n : 0 <= asked -> 0 <= accepted asked n <= asked.
Proof. unfold accepted. intros. split_ifs. Qed.

Section logged_lemmas.
Context {C : Type} (read_file : ftpvita_retr_read_fn C) (send_data : ftpvita_retr_send_fn C).
Implicit Types (ctx : C) (rd sn buffer : bytes).

Definition add_sent (r : ftpvita_retr_result_t) (k : Z) : ftpvita_retr_result_t :=
  RetrResult (stage r) (code r) (net_errno r) (bytes_read r) (bytes_sent r + k).

Lemma add_sent_add r j k : add_sent (add_sent r j) k = add_sent r (j + k).
Proof. unfold add_sent. simpl. f_equal. lia. Qed.

Lemma add_sent_0 r : add_sent r 0 = r.
Proof. unfold add_sent. rewrite Z.add_0_r. by destruct r. Qed.

(** The send loop hands over the bytes of the buffer from [position] on, in
    order, up to where it stops. *)
Lemma send_loop_logged fuel ctx rd sn buffer n position result :
  0 <= position <= n -> n <= INT_MAX -> n <= Z.of_nat (length buffer) ->
  (Z.to_nat (n - position) <= fuel)%nat ->
  0 <= bytes_sent result -> bytes_sent result + (n - position) < 2 ^ 64 ->
  exists ctx' k c e, 0 <= k <= n - position /\
    (k < n - position -> c <= 0 \/ n - position - k < c) /\
    let log := (ctx', rd, sn ++ take (Z.to_nat k) (drop (Z.to_nat position) buffer)) in
    send_loop (logged_send send_data) fuel (ctx, rd, sn) buffer n position result =
      Done (if k =? n - position then inr (log, add_sent result k)
            else inl (log, fail send c (if c <? 0 then e else 0) (add_sent result k))).
Proof.
  unfold INT_MAX. revert ctx sn position result.
  assert (forall ctx sn position result, n - position = 0 ->
    exists ctx' k c e, 0 <= k <= n - position /\ (k < n - position -> c <= 0 \/ n - position - k < c) /\
      let log := (ctx', rd, sn ++ take (Z.to_nat k) (drop (Z.to_nat position) buffer)) in
      Done (inr (ctx, rd, sn, result)) =
        Done (if k =? n - position then inr (log, add_sent result k)
              else inl (log, fail send c (if c <? 0 then e else 0) (add_sent result k)))) as stop.
  { intros ctx sn position result ->. exists ctx, 0, 0, 0. simpl.
    rewrite app_nil_r, add_sent_0. split_and!; [lia..|done]. }
  induction fuel as [|fuel IH]; intros ctx sn position result Hp Hn Hb Hf H0 H64; cbn [send_loop];
    rewrite (u32_small n) by lia; (destruct (Z.ltb_spec position n) as [Hlt|Hge]; [|apply stop; lia]);
    [lia|].
  rewrite u32_small by lia. replace (Z.of_nat (length buffer) <? _) with false by lia.
  unfold logged_send at 1. unfold accepted.
  destruct (send_data ctx _ _) as [[ctx1 sent] e].
  pose proof (s32_range sent) as Hr. set (s := s32 sent) in *.
  destruct (Z.leb_spec s 0) as [Hs|Hs]; simpl.
  { exists ctx1, 0, s, e. replace (0 <? s) with false by lia. simpl. rewrite add_sent_0.
    split_and!; [lia..|]. destruct (Z.eqb_spec 0 (n - position)); [lia|done]. }
  rewrite (u32_small s) by lia. replace (0 <? s) with true by lia. simpl.
  destruct (Z.ltb_spec (n - position) s) as [Hmore|Hle].
  { exists ctx1, 0, s, e. replace (s <=? n - position) with false by lia. simpl. rewrite add_sent_0.
    split_and!; [lia..|]. destruct (Z.eqb_spec 0 (n - position)); [lia|done]. }
  replace (s <=? n - position) with true by lia.
  rewrite u32_small, u64_small by lia. fold (add_sent result s).
  destruct (IH ctx1 (sn ++ take (Z.to_nat s) (drop (Z.to_nat position) buffer)) (position + s)
    (add_sent result s)) as (ctx' & k & c & e' & Hk & Hc & E); [simpl; lia..|].
  exists ctx', (s + k), c, e'. split_and!; [lia..|]. rewrite E, add_sent_add.
  rewrite <-app_assoc, Z2Nat.inj_add, <-drop_drop, take_take_drop, <-Z2Nat.inj_add by lia.
  destruct (Z.eqb_spec k (n - (position + s))), (Z.eqb_spec (s + k) (n - position)); done || lia.
Qed.

(** What the loop over the file adds to the logs, with its result. *)
Definition extent_post (rd sn : bytes) (remaining : Z) (result : ftpvita_retr_result_t)
    (out : outcome ((C * bytes * bytes) * ftpvita_retr_result_t)) : Prop :=
  exists ctx rdk snk r, out = Done ((ctx, rd ++ rdk, sn ++ snk), r) /\
    bytes_read r = bytes_read result + Z.of_nat (length rdk) /\
    bytes_sent r = bytes_sent result + Z.of_nat (length snk) /\
    Z.of_nat (length rdk) <= remaining /\ snk `prefix_of` rdk /\
    match stage r with
    | complete => Z.of_nat (length rdk) = remaining /\ snk = rdk /\ code r = 0 /\ net_errno r = 0
    | range => False
    | early_eof => Z.of_nat (length rdk) < remaining /\ snk = rdk /\ code r = 0 /\ net_errno r = 0
    | read => Z.of_nat (length rdk) < remaining /\ snk = rdk /\ code r <> 0 /\ net_errno r = 0
    | send => (length snk < length rdk)%nat /\ (0 <= code r -> net_errno r = 0)
    end.

(** A block that was read and sent in full, followed by the rest. *)
Lemma extent_post_block rd sn block remaining result out :
  Z.of_nat (length block) <= remaining ->
  extent_post (rd ++ block) (sn ++ block) (remaining - Z.of_nat (length block))
    (RetrResult (stage result) (code result) (net_errno result)
       (bytes_read result + Z.of_nat (length block)) (bytes_sent result + Z.of_nat (length block))) out ->
  extent_post rd sn remaining result out.
Proof.
  intros Hb (ctx & rdk & snk & r & -> & Hr & Hs & Hl & Hp & H). simpl in *.
  exists ctx, (block ++ rdk), (block ++ snk), r. rewrite !length_app.
  split_and!; [by rewrite <-!app_assoc|lia|lia|lia|by apply prefix_app|].
  destruct (stage r); [|done|..]; try lia;
    destruct H as (? & -> & ? & ?); split_and!; done || lia.
Qed.

Lemma extent_loop_logged fuel ctx rd sn buffer buffer_size remaining result :
  keeps_buffer read_file ->
  0 < buffer_size <= INT_MAX -> buffer_size <= Z.of_nat (length buffer) ->
  0 <= remaining -> (Z.to_nat remaining <= fuel)%nat ->
  0 <= bytes_read result -> 0 <= bytes_sent result ->
  bytes_read result + remaining < 2 ^ 64 -> bytes_sent result + remaining < 2 ^ 64 ->
  stage result = complete -> code result = 0 -> net_errno result = 0 ->
  extent_post rd sn remaining result
    (extent_loop (logged_read read_file) (logged_send send_data) fuel (ctx, rd, sn) buffer
       buffer_size remaining result).
Proof.
  unfold INT_MAX. intros Hkeep Hbs. revert ctx rd sn buffer remaining result.
  induction fuel as [|fuel IH]; intros ctx rd sn buffer remaining result
    Hb Hrem Hf Hr0 Hs0 Hr64 Hs64 Hst Hco Hne; cbn [extent_loop];
    (destruct (Z.ltb_spec 0 remaining) as [Hpos|Hz]; [|
      exists ctx, [], [], result; rewrite !app_nil_r, Hst; simpl; split_and!; done || lia]); [lia|].
  set (requested := if remaining <? buffer_size then u32 remaining else buffer_size).
  assert (0 < requested <= buffer_size /\ requested <= remaining) as Hreq.
  { unfold requested. destruct (Z.ltb_spec remaining buffer_size); [rewrite u32_small by lia|]; lia. }
  replace (Z.of_nat (length buffer) <? requested) with false by lia.
  unfold logged_read at 1. unfold accepted.
  pose proof (Hkeep ctx buffer requested) as Hlen.
  destruct (read_file ctx buffer requested) as [[ctx1 buffer1] n0]. simpl in Hlen.
  pose proof (s32_range n0) as Hn. set (n := s32 n0) in *.
  destruct (Z.leb_spec n 0) as [Hn0|Hn0]; simpl.
  { replace (0 <? n) with false by lia. simpl. rewrite app_nil_r.
    eexists ctx1, [], [], _. rewrite !app_nil_r. split; [done|]. simpl.
    destruct (Z.eqb_spec n 0); split_and!; done || lia. }
  rewrite (u32_small n) by lia. replace (0 <? n) with true by lia. simpl.
  destruct (Z.ltb_spec requested n) as [Hmore|Hle].
  { replace (n <=? requested) with false by lia. simpl. rewrite app_nil_r.
    eexists ctx1, [], [], _. rewrite !app_nil_r. split; [done|]. simpl.
    destruct (Z.eqb_spec n 0); split_and!; done || lia. }
  replace (n <=? requested) with true by lia.
  rewrite !u64_small by lia.
  set (block := take (Z.to_nat n) buffer1).
  assert (length block = Z.to_nat n) as Hblock by (unfold block; rewrite length_take; lia).
  match goal with |- context [send_loop _ _ _ _ _ _ ?res] => set (result1 := res) end.
  destruct (send_loop_logged (Z.to_nat n) ctx1 (rd ++ block) sn buffer1 n 0 result1)
    as (ctx2 & k & c & e & Hk & Hc & E); [simpl; unfold INT_MAX; lia..|].
  rewrite E. run. rewrite Z.sub_0_r in *. change (Z.to_nat 0) with 0%nat. rewrite drop_0.
  destruct (Z.eqb_spec k n) as [->|Hkn]; run.
  - fold block. apply (extent_post_block rd sn block remaining); [lia|].
    replace (Z.of_nat (length block)) with n by lia.
    apply IH; simpl; lia || done.
  - eexists ctx2, block, (take (Z.to_nat k) buffer1), _. split; [done|]. simpl.
    rewrite length_take. split_and!; [lia..| |lia|].
    + unfold block. exists (take (Z.to_nat n - Z.to_nat k) (drop (Z.to_nat k) buffer1)).
      rewrite take_take_drop. f_equal. lia.
    + intros. by destruct (Z.ltb_spec c 0); [lia|].
Qed.
End logged_lemmas.

(** A property of the context that both callbacks keep holds at the end. *)
Section invariant.
Context {C : Type} (read_file : ftpvita_retr_read_fn C) (send_data : ftpvita_retr_send_fn C).
Context (I : C -> Prop).
Hypothesis read_keeps : forall ctx buffer asked,
  asked <= Z.of_nat (length buffer) -> I ctx -> I (read_file ctx buffer asked).1.1.
Hypothesis send_keeps : forall ctx data asked, I ctx -> I (send_data ctx data asked).1.1.

Lemma send_loop_inv fuel ctx buffer n position result :
  I ctx ->
  match send_loop send_data fuel ctx buffer n position result with
  | Done (inl (ctx, _)) | Done (inr (ctx, _)) => I ctx
  | _ => True
  end.
Proof.
  revert ctx position result. induction fuel as [|fuel IH]; intros ctx position result HI;
    cbn [send_loop]; (destruct (_ <? u32 n); [|done]); [done|].
  destruct (Z.of_nat (length buffer) <? _); [done|].
  pose proof (send_keeps ctx (drop (Z.to_nat position) buffer) (u32 (u32 n - position)) HI) as HI'.
  destruct (send_data _ _ _) as [[ctx1 sent] e]. simpl in HI'.
  destruct (_ || _); [done|]. by apply IH.
Qed.

Lemma extent_loop_inv fuel ctx buffer buffer_size remaining result ctx' r :
  I ctx ->
  extent_loop read_file send_data fuel ctx buffer buffer_size remaining result = Done (ctx', r) ->
  I ctx'.
Proof.
  revert ctx buffer remaining result. induction fuel as [|fuel IH];
    intros ctx buffer remaining result HI; cbn [extent_loop];
    (destruct (0 <? remaining); [|by intros [= <- _]]); [done|].
  match goal with |- context [Z.of_nat (length buffer) <? ?r] => destruct (Z.ltb_spec (Z.of_nat (length buffer)) r) as [|Hroom] end;
    [done|].
  match goal with |- context [read_file ?c ?b ?a] =>
    pose proof (read_keeps c b a Hroom HI) as HI'; destruct (read_file c b a) as [[ctx1 buffer1] n] end.
  simpl in HI'. destruct (_ || _); [by intros [= <- _]|].
  match goal with |- context [send_loop _ ?f ?c ?b ?m ?p ?s] =>
    pose proof (send_loop_inv f c b m p s HI') as HI'';
    destruct (send_loop send_data f c b m p s) as [[[c1 r1]|[c1 r1]]| |] end; run; try done.
  - by intros [= <- _].
  - by apply IH.
Qed.

(** Both loops end inside the buffer. *)
Lemma send_loop_ends fuel ctx buffer n position result :
  0 <= position <= n -> n <= INT_MAX -> n <= Z.of_nat (length buffer) -> (Z.to_nat (n - position) <= fuel)%nat ->
  exists r, send_loop send_data fuel ctx buffer n position result = Done r.
Proof using Type.
  unfold INT_MAX. revert ctx position result. induction fuel as [|fuel IH]; intros ctx position result Hp Hn Hb Hf;
    cbn [send_loop]; rewrite (u32_small n) by lia;
    (destruct (Z.ltb_spec position n); [|by eexists]); [lia|].
  rewrite u32_small by lia. replace (Z.of_nat (length buffer) <? _) with false by lia.
  destruct (send_data _ _ _) as [[ctx1 sent] e]. pose proof (s32_range sent).
  destruct (Z.leb_spec (s32 sent) 0); cbn [orb]; [by eexists|]. rewrite (u32_small (s32 sent)) by lia.
  destruct (Z.ltb_spec (n - position) (s32 sent)); [by eexists|].
  rewrite u32_small by lia. apply IH; lia.
Qed.

Lemma extent_loop_ends fuel ctx buffer buffer_size remaining result :
  keeps_buffer read_file -> 0 < buffer_size <= INT_MAX -> buffer_size <= Z.of_nat (length buffer) ->
  0 <= remaining < 2 ^ 63 -> (Z.to_nat remaining <= fuel)%nat ->
  exists r, extent_loop read_file send_data fuel ctx buffer buffer_size remaining result = Done r.
Proof using Type.
  unfold INT_MAX. intros Hkeep Hbs. revert ctx buffer remaining result.
  induction fuel as [|fuel IH]; intros ctx buffer remaining result Hb Hr Hf; cbn [extent_loop];
    (destruct (Z.ltb_spec 0 remaining); [|by eexists]); [lia|].
  set (requested := if remaining <? buffer_size then u32 remaining else buffer_size).
  assert (0 < requested <= buffer_size /\ requested <= remaining) as [Hreq Hreq'].
  { unfold requested. destruct (Z.ltb_spec remaining buffer_size); [rewrite u32_small by lia|]; lia. }
  replace (Z.of_nat (length buffer) <? requested) with false by lia.
  pose proof (Hkeep ctx buffer requested) as Hlen.
  destruct (read_file ctx buffer requested) as [[ctx1 buffer1] n0]. simpl in Hlen.
  pose proof (s32_range n0). set (n := s32 n0) in *.
  destruct (Z.leb_spec n 0); cbn [orb]; [by eexists|]. rewrite (u32_small n) by lia.
  destruct (Z.ltb_spec requested n); [by eexists|].
  match goal with |- context [send_loop _ _ ?c ?b ?m ?p ?s] =>
    destruct (send_loop_ends (Z.to_nat n) c b m p s) as [[[c1 r1]|[c1 r1]] ->] end;
    [lia|unfold INT_MAX; lia|lia|lia|run; by eexists|run].
  rewrite u64_small by lia. apply IH; lia.
Qed.

Lemma retr_ends ctx buffer buffer_size start extent :
  keeps_buffer read_file -> 0 <= buffer_size -> buffer_size <= Z.of_nat (length buffer) ->
  0 <= start -> extent < 2 ^ 63 -> I ctx ->
  exists ctx' r, ftpvita_retr_extent ctx (Some read_file) (Some send_data) (Some buffer) buffer_size start extent =
    Done (ctx', r) /\ I ctx'.
Proof using All.
  intros Hkeep Hbs Hb Hs He HI. unfold ftpvita_retr_extent.
  destruct ((buffer_size =? 0) || (INT_MAX <? buffer_size) || (extent <? start)) eqn:E; [by eexists _, _|].
  unfold INT_MAX in *. rewrite u64_small by lia.
  destruct (extent_loop_ends (Z.to_nat (extent - start)) ctx buffer buffer_size (extent - start)
    (RetrResult complete 0 0 0 0)) as [[ctx' r] Er]; [done|unfold INT_MAX; lia|lia|lia|lia|].
  exists ctx', r. split; [done|]. by eapply extent_loop_inv.
Qed.
End invariant.

(** Callbacks that agree through a map of their contexts make the same run. *)
Section simulation.
Context {C1 C2 : Type} (view : C1 -> C2).
Context (read1 : ftpvita_retr_read_fn C1) (send1 : ftpvita_retr_send_fn C1).
Context (read2 : ftpvita_retr_read_fn C2) (send2 : ftpvita_retr_send_fn C2).
Hypothesis read_agrees : forall ctx buffer asked, read2 (view ctx) buffer asked =
  let '(ctx, buffer, n) := read1 ctx buffer asked in (view ctx, buffer, n).
Hypothesis send_agrees : forall ctx data asked, send2 (view ctx) data asked =
  let '(ctx, n, e) := send1 ctx data asked in (view ctx, n, e).

Definition view_exit (r : C1 * ftpvita_retr_result_t + C1 * ftpvita_retr_result_t) :=
  match r with inl (ctx, r) => inl (view ctx, r) | inr (ctx, r) => inr (view ctx, r) end.

Lemma send_loop_view fuel ctx buffer n position result :
  send_loop send2 fuel (view ctx) buffer n position result =
    r ← send_loop send1 fuel ctx buffer n position result; Done (view_exit r).
Proof using send_agrees.
  revert ctx position result. induction fuel as [|fuel IH]; intros ctx position result; cbn [send_loop];
    (destruct (position <? u32 n); [|done]); [done|].
  destruct (Z.of_nat (length buffer) <? _); [done|]. rewrite send_agrees. destruct (send1 _ _ _) as [[ctx1 sent] e].
  destruct (_ || _); [done|]. apply IH.
Qed.

Lemma extent_loop_view fuel ctx buffer buffer_size remaining result :
  extent_loop read2 send2 fuel (view ctx) buffer buffer_size remaining result =
    r ← extent_loop read1 send1 fuel ctx buffer buffer_size remaining result; Done (view r.1, r.2).
Proof using All.
  revert ctx buffer remaining result. induction fuel as [|fuel IH]; intros ctx buffer remaining result; cbn [extent_loop];
    (destruct (0 <? remaining); [|done]); [done|].
  destruct (Z.of_nat (length buffer) <? _); [done|]. rewrite read_agrees. destruct (read1 _ _ _) as [[ctx1 buffer1] n].
  destruct (_ || _); [done|]. rewrite send_loop_view. run.
  destruct (send_loop send1 _ _ _ _ _ _) as [[[c1 r1]|[c1 r1]]| |]; run; cbn [view_exit]; [done| |done..]. apply IH.
Qed.

Lemma retr_extent_view ctx buffer buffer_size start extent :
  ftpvita_retr_extent (view ctx) (Some read2) (Some send2) buffer buffer_size start extent =
    r ← ftpvita_retr_extent ctx (Some read1) (Some send1) buffer buffer_size start extent; Done (view r.1, r.2).
Proof using All.
  unfold ftpvita_retr_extent. destruct buffer as [buffer|]; [|done]. destruct (_ || _); [done|]. apply extent_loop_view.
Qed.
End simulation.

(** The logs do not change the run. *)
Lemma retr_logged_view {C : Type} (read_file : ftpvita_retr_read_fn C) send_data ctx rd sn buffer size start extent :
  ftpvita_retr_extent ctx (Some read_file) (Some send_data) (Some buffer) size start extent =
    r ← ftpvita_retr_extent (ctx, rd, sn) (Some (logged_read read_file)) (Some (logged_send send_data))
          (Some buffer) size start extent;
    Done (r.1.1.1, r.2).
Proof.
  apply (retr_extent_view (fun c : C * bytes * bytes => c.1.1)) with (ctx := (ctx, rd, sn)).
  - intros [[c rd1] sn1] b asked. cbn. by destruct (read_file c b asked) as [[c' b'] n].
  - intros [[c rd1] sn1] data asked. cbn. by destruct (send_data c data asked) as [[c' n] e].
Qed.

(** * Properties *)

Lemma retr_run {C : Type} (read_file : ftpvita_retr_read_fn C) send_data ctx buffer buffer_size start extent :
  keeps_buffer read_file -> 0 < buffer_size <= INT_MAX -> buffer_size <= Z.of_nat (length buffer) ->
  0 <= start <= extent -> extent < 2 ^ 63 ->
  extent_post [] [] (extent - start) (RetrResult complete 0 0 0 0)
    (ftpvita_retr_extent (ctx, [], []) (Some (logged_read read_file)) (Some (logged_send send_data))
       (Some buffer) buffer_size start extent).
Proof.
  intros Hkeep Hbs Hlen Hse H63. unfold ftpvita_retr_extent.
  replace (_ || _) with false by lia. rewrite u64_small by lia.
  apply extent_loop_logged; simpl; done || lia.
Qed.

(** C23: [ftpvita_retr_extent] ends for all callbacks, whatever they answer, and
    its account is exact: the peer was handed a prefix of the bytes read, in
    order and without loss or repetition; the two counters are the lengths of
    what was read and accepted; no more than [extent - start] bytes are read;
    and the stage is [complete] exactly when all of them were accepted. *)
Theorem retr_extent_accounting {C : Type} (read_file : ftpvita_retr_read_fn C)
    (send_data : ftpvita_retr_send_fn C) ctx buffer buffer_size start extent :
  keeps_buffer read_file -> 0 < buffer_size <= INT_MAX -> buffer_size <= Z.of_nat (length buffer) ->
  0 <= start <= extent -> extent < 2 ^ 63 ->
  exists ctx' rd sn r,
    ftpvita_retr_extent (ctx, [], []) (Some (logged_read read_file)) (Some (logged_send send_data))
      (Some buffer) buffer_size start extent = Done ((ctx', rd, sn), r) /\
    bytes_read r = Z.of_nat (length rd) /\ bytes_sent r = Z.of_nat (length sn) /\
    sn `prefix_of` rd /\ Z.of_nat (length rd) <= extent - start /\
    (stage r = complete <-> Z.of_nat (length sn) = extent - start) /\
    (stage r = early_eof -> code r = 0 /\ sn = rd) /\ (stage r = read -> code r <> 0 /\ sn = rd) /\
    (stage r = send -> (length sn < length rd)%nat) /\ stage r <> range.
Proof.
  intros Hkeep Hbs Hlen Hse H63.
  destruct (retr_run read_file send_data ctx buffer buffer_size start extent)
    as (ctx' & rd & sn & r & E & Hr & Hs & Hl & Hp & H); [done..|].
  pose proof (prefix_length _ _ Hp) as Hpl.
  exists ctx', rd, sn, r. simpl in *.
  destruct (stage r) eqn:Est; [|done|..]; repeat match goal with H : _ /\ _ |- _ => destruct H end;
    subst; split_and!; first [done | lia | split; intros; (done || lia)].
Qed.

(** A file that may be appended to while it is read: [content] is what it holds
    now, [grow] is appended before every read. *)
Record file := File { content : bytes; position : Z; grow : bytes }.

(** Reads at most 3 bytes at a time, sends at most 2. *)
Definition file_read : ftpvita_retr_read_fn file := fun f buffer asked =>
  let now := content f ++ grow f in
  let data := take (Z.to_nat (Z.min 3 asked)) (drop (Z.to_nat (position f)) now) in
  let data := take (length buffer) data in
  (File now (position f + Z.of_nat (length data)) (grow f), data ++ drop (length data) buffer,
   Z.of_nat (length data)).
Definition peer_send : ftpvita_retr_send_fn file := fun f data asked => (f, Z.min 2 asked, 0).

Lemma file_read_keeps : keeps_buffer file_read.
Proof.
  intros f buffer asked. simpl. rewrite length_app, length_drop, !length_take, length_drop. lia.
Qed.

Lemma retr_extent_accounting_witness :
  exists ctx' rd sn r,
    ftpvita_retr_extent (File (lit "0123456789") 2 (lit "xy"), [], [])
      (Some (logged_read file_read)) (Some (logged_send peer_send))
      (Some (replicate 8 0)) 8 2 10 = Done ((ctx', rd, sn), r) /\
    bytes_read r = Z.of_nat (length rd).
Proof.
  destruct (retr_extent_accounting file_read peer_send (File (lit "0123456789") 2 (lit "xy"))
    (replicate 8 0) 8 2 10) as (ctx' & rd & sn & r & E & H & _);
    [apply file_read_keeps | unfold INT_MAX; lia | simpl; lia | lia | lia |].
  exists ctx', rd, sn, r. split; [exact E | exact H].
Defined.

(** The contract of a read that follows a file: it hands over consecutive bytes
    from the position on, and the send does not move the position. [byte_at] is
    the content of the file where it is not overwritten; appending to it does not
    change [byte_at] below the old end. *)
Definition reads_file {C : Type} (pos : C -> Z) (byte_at : Z -> Z)
    (read_file : ftpvita_retr_read_fn C) (send_data : ftpvita_retr_send_fn C) : Prop :=
  (forall ctx buffer asked,
     let '(ctx', buffer', n) := read_file ctx buffer asked in
     let k := accepted asked n in
     take (Z.to_nat k) buffer' = byte_at <$> seqZ (pos ctx) k /\ pos ctx' = pos ctx + k) /\
  (forall ctx data asked, pos (send_data ctx data asked).1.1 = pos ctx).

(** The bytes logged as read are those of the file, from the start position. *)
Lemma retr_log_is_file {C : Type} (pos : C -> Z) byte_at (read_file : ftpvita_retr_read_fn C) send_data
    ctx buffer buffer_size start extent ctx' rd sn r :
  reads_file pos byte_at read_file send_data -> pos ctx = start ->
  ftpvita_retr_extent (ctx, [], []) (Some (logged_read read_file)) (Some (logged_send send_data))
    (Some buffer) buffer_size start extent = Done ((ctx', rd, sn), r) ->
  rd = byte_at <$> seqZ start (Z.of_nat (length rd)).
Proof.
  intros [Hread Hsend] Hpos E.
  set (I := fun c : C * bytes * bytes => let '(c, rd, _) := c in
    rd = byte_at <$> seqZ start (Z.of_nat (length rd)) /\ pos c = start + Z.of_nat (length rd)).
  enough (I (ctx', rd, sn)) as [? _] by done.
  assert (I (ctx, [], [])) as HI by (split; [done|simpl; lia]).
  unfold ftpvita_retr_extent in E. destruct (_ || _); [by injection E as <- <- <- _|].
  revert E. apply (extent_loop_inv _ _ I); [| |done].
  - clear - Hread. intros [[c rd] sn] buffer asked _ [Hrd Hpos].
    specialize (Hread c buffer asked). unfold logged_read.
    destruct (read_file c buffer asked) as [[c1 buffer1] n]. simpl in *.
    set (k := accepted asked n) in *. destruct Hread as [Ht Hp].
    assert (Z.of_nat (length (take (Z.to_nat k) buffer1)) = Z.max 0 k) as Hl.
    { rewrite Ht, length_fmap, length_seqZ. lia. }
    rewrite length_app, Nat2Z.inj_add, Hl, seqZ_app, fmap_app, <-Hrd by lia.
    rewrite Ht, Hpos. destruct (Z.leb_spec 0 k) as [Hk|Hk].
    + rewrite Z.max_r by done. split; [done|lia].
    + rewrite Z.max_l, (seqZ_nil _ k) by lia. split; [done|].
      unfold k, accepted in *. destruct (_ && _) eqn:?; lia.
  - clear - Hsend. intros [[c rd] sn] data asked HI.
    specialize (Hsend c data asked). unfold logged_send.
    destruct (send_data c data asked) as [[c1 n] e]. simpl in *. by rewrite Hsend.
Qed.

(** C24: a completed RETR delivers the file: when the read callback hands over
    the bytes of a file from its position on, and the position is [start], the
    bytes the peer accepted in a completed transfer are exactly those between
    [start] and [extent], even when the file is appended to meanwhile; in a failed
    one they are a prefix of them. *)
Theorem retr_serves_file {C : Type} (pos : C -> Z) byte_at (read_file : ftpvita_retr_read_fn C)
    send_data ctx buffer buffer_size start extent :
  reads_file pos byte_at read_file send_data -> pos ctx = start ->
  keeps_buffer read_file -> 0 < buffer_size <= INT_MAX -> buffer_size <= Z.of_nat (length buffer) ->
  0 <= start <= extent -> extent < 2 ^ 63 ->
  exists ctx' rd sn r,
    ftpvita_retr_extent (ctx, [], []) (Some (logged_read read_file)) (Some (logged_send send_data))
      (Some buffer) buffer_size start extent = Done ((ctx', rd, sn), r) /\
    sn `prefix_of` (byte_at <$> seqZ start (extent - start)) /\
    (stage r = complete -> sn = byte_at <$> seqZ start (extent - start)).
Proof.
  intros Hfile Hpos Hkeep Hbs Hlen Hse H63.
  destruct (retr_run read_file send_data ctx buffer buffer_size start extent)
    as (ctx' & rd & sn & r & E & _ & _ & Hl & Hp & H); [done..|]. simpl in *.
  pose proof (retr_log_is_file _ _ _ _ _ _ _ _ _ _ _ _ _ Hfile Hpos E) as Hrd.
  exists ctx', rd, sn, r. split; [done|]. split.
  - etrans; [exact Hp|]. rewrite Hrd.
    replace (extent - start) with (Z.of_nat (length rd) + (extent - start - Z.of_nat (length rd))) by lia.
    rewrite seqZ_app, fmap_app by lia. by apply prefix_app_r.
  - intros Hst. rewrite Hst in H. destruct H as (<- & -> & _). done.
Qed.

(** An endless file whose byte number [i] is [i mod 256]; the context is the
    position, a read returns at most 3 bytes and the peer takes at most 2. *)
Definition ramp (i : Z) : Z := i mod 256.
Definition ramp_read : ftpvita_retr_read_fn Z := fun p buffer asked =>
  let k := Z.max 0 (Z.min (Z.min 3 asked) (Z.of_nat (length buffer))) in
  (p + k, (ramp <$> seqZ p k) ++ drop (Z.to_nat k) buffer, k).
Definition ramp_send : ftpvita_retr_send_fn Z := fun p data asked => (p, Z.min 2 asked, 0).

Lemma ramp_reads_file : reads_file (fun p => p) ramp ramp_read ramp_send.
Proof.
  split; [|done]. intros p buffer asked. simpl.
  set (k := Z.max 0 _). assert (accepted asked k = k) as ->.
  { unfold accepted. rewrite s32_small by lia. destruct (_ && _) eqn:?; lia. }
  split; [|done]. apply take_app_length'. rewrite length_fmap, length_seqZ. done.
Qed.

Lemma ramp_keeps_buffer : keeps_buffer ramp_read.
Proof.
  intros p buffer asked. simpl. rewrite length_app, length_drop, length_fmap, length_seqZ. lia.
Qed.

Lemma retr_serves_file_witness :
  exists ctx' rd sn r,
    ftpvita_retr_extent (250, [], []) (Some (logged_read ramp_read)) (Some (logged_send ramp_send))
      (Some (replicate 8 0)) 8 250 260 = Done ((ctx', rd, sn), r) /\ stage r = complete /\
    sn = [250; 251; 252; 253; 254; 255; 0; 1; 2; 3].
Proof.
  destruct (retr_serves_file (fun p => p) ramp ramp_read ramp_send 250 (replicate 8 0) 8 250 260)
    as (ctx' & rd & sn & r & E & _ & H);
    [apply ramp_reads_file | reflexivity | apply ramp_keeps_buffer | unfold INT_MAX; lia
    | simpl; lia | lia | lia |].
  exists ctx', rd, sn, r. split; [exact E|].
  assert (stage r = complete) as Hst by (vm_compute in E; injection E as _ _ _ <-; reflexivity).
  split; [exact Hst | rewrite (H Hst); reflexivity].
Defined.
