(* ===== verification/Store.v ===== *)
(** The upload loop: libftpvita/ftpvita_store.h.

    As in Retr, the callbacks and their context are arguments. The loop runs
    until the peer closes, so it takes a bound on the number of receives; the
    theorems say that a bound above what the peer sends is enough. *)

From S2P Require Import Prelude.

Inductive store_stage := complete | range | receive | write.

Record ftpvita_store_result_t := StoreResult {
  stage : store_stage;
  code : Z;
  net_errno : Z;
  bytes_received : Z;
  bytes_written : Z
}.

#[export] Instance store_stage_eq_dec : EqDecision store_stage.
Proof. solve_decision. Defined.

Definition fail (s : store_stage) (code net_errno : Z) (r : ftpvita_store_result_t) :=
  StoreResult s code net_errno (bytes_received r) (bytes_written r).

Section store.
Context {C : Type}.

(** context, buffer and length to context, buffer, result and error number *)
Definition ftpvita_store_receive_fn : Type := C -> bytes -> Z -> C * bytes * Z * Z.
Definition ftpvita_store_write_fn : Type := C -> bytes -> Z -> C * Z.

Variable receive_data : ftpvita_store_receive_fn.
Variable write_file : ftpvita_store_write_fn.

(** [while (position < (unsigned int)received)]; [inl] leaves the function. *)
Fixpoint write_loop (fuel : nat) (ctx : C) (buffer : bytes) (n position : Z)
    (result : ftpvita_store_result_t)
    : outcome (C * ftpvita_store_result_t + C * ftpvita_store_result_t) :=
  if position <? u32 n then
    match fuel with
    | O => NoFuel
    | S fuel =>
        let pending := u32 (u32 n - position) in
        if Z.of_nat (length buffer) <? position + pending then Undefined
        else
          let '(ctx, written) := write_file ctx (drop (Z.to_nat position) buffer) pending in
          let written := s32 written in
          if (written <=? 0) || (pending <? u32 written) then
            Done (inl (ctx, fail write written (net_errno result) result))
          else
            write_loop fuel ctx buffer n (u32 (position + u32 written))
              (StoreResult (stage result) (code result) (net_errno result)
                 (bytes_received result) (u64 (bytes_written result + u32 written)))
    end
  else Done (inr (ctx, result)).

(** [for (;;)] *)
Fixpoint stream_loop (fuel : nat) (ctx : C) (buffer : bytes) (buffer_size : Z)
    (result : ftpvita_store_result_t) : outcome (C * ftpvita_store_result_t) :=
  match fuel with
  | O => NoFuel
  | S fuel =>
      if Z.of_nat (length buffer) <? buffer_size then Undefined
      else
        let '(ctx, buffer, n, net_error) := receive_data ctx buffer buffer_size in
        let n := s32 n in
        if n =? 0 then Done (ctx, result)
        else if (n <? 0) || (buffer_size <? u32 n) then
          Done (ctx, fail receive n (if n <? 0 then net_error else 0) result)
        else
          let result := StoreResult (stage result) (code result) (net_errno result)
                          (u64 (bytes_received result + u32 n)) (bytes_written result) in
          r ← write_loop (Z.to_nat n) ctx buffer n 0 result;
          match r with
          | inl (ctx, result) => Done (ctx, result)
          | inr (ctx, result) => stream_loop fuel ctx buffer buffer_size result
          end
  end.
End store.
Arguments ftpvita_store_receive_fn : clear implicits.
Arguments ftpvita_store_write_fn : clear implicits.

Definition ftpvita_store_stream {C : Type} (fuel : nat) (context : C)
    (receive_data : ptr (ftpvita_store_receive_fn C)) (write_file : ptr (ftpvita_store_write_fn C))
    (buffer : ptr bytes) (buffer_size : Z) : outcome (C * ftpvita_store_result_t) :=
  let result := StoreResult complete 0 0 0 0 in
  match receive_data, write_file, buffer with
  | Some receive_data, Some write_file, Some buffer =>
      if (buffer_size =? 0) || (INT_MAX <? buffer_size) then Done (context, fail range 0 0 result)
      else stream_loop receive_data write_file fuel context buffer buffer_size result
  | _, _, _ => Done (context, fail range 0 0 result)
  end.

(** * Observing the transfer

    The callbacks with the bytes received and the bytes the file took recorded
    next to the context. *)
Section logged.
Context {C : Type} (receive_data : ftpvita_store_receive_fn C) (write_file : ftpvita_store_write_fn C).

Definition accepted (asked answered : Z) : Z :=
  let n := s32 answered in if (0 <? n) && (n <=? asked) then n else 0.

Definition logged_receive : ftpvita_store_receive_fn (C * bytes * bytes) :=
  fun '(ctx, rc, wr) buffer asked =>
    let '(ctx, buffer, n, e) := receive_data ctx buffer asked in
    ((ctx, rc ++ take (Z.to_nat (accepted asked n)) buffer, wr), buffer, n, e).

Definition logged_write : ftpvita_store_write_fn (C * bytes * bytes) :=
  fun '(ctx, rc, wr) data asked =>
    let '(ctx, n) := write_file ctx data asked in
    ((ctx, rc, wr ++ take (Z.to_nat (accepted asked n)) data), n).

(** The callback contract: a receive writes inside the buffer it is given. *)
Definition keeps_buffer : Prop :=
  forall ctx buffer asked, length (receive_data ctx buffer asked).1.1.2 = length buffer.

(** [left ctx] bounds the receives that still bring bytes: the peer closes. *)
Definition peer_closes (left : C -> nat) : Prop :=
  (forall ctx buffer asked,
     let '(ctx', _, n, _) := receive_data ctx buffer asked in
     0 < accepted asked n -> (left ctx' < left ctx)%nat) /\
  (forall ctx data asked, (left (write_file ctx data asked).1 <= left ctx)%nat).
End logged.

(** * Lemmas *)

Section logged_lemmas.
Context {C : Type} (receive_data : ftpvita_store_receive_fn C) (write_file : ftpvita_store_write_fn C).
Implicit Types (ctx : C) (rc wr buffer : bytes).

Definition add_written (r : ftpvita_store_result_t) (k : Z) : ftpvita_store_result_t :=
  StoreResult (stage r) (code r) (net_errno r) (bytes_received r) (u64 (bytes_written r + k)).

Lemma add_written_add r j k : add_written (add_written r j) k = add_written r (j + k).
Proof.
  unfold add_written. simpl. f_equal. unfold u64. rewrite Z.add_mod_idemp_l by lia. f_equal. lia.
Qed.

Lemma write_loop_logged fuel ctx rc wr buffer n position result :
  0 <= position <= n -> n <= INT_MAX -> n <= Z.of_nat (length buffer) ->
  (Z.to_nat (n - position) <= fuel)%nat -> bytes_written result = u64 (bytes_written result) ->
  exists ctx' k c, 0 <= k <= n - position /\
    (k < n - position -> c <= 0 \/ n - position - k < c) /\
    let log := (ctx', rc, wr ++ take (Z.to_nat k) (drop (Z.to_nat position) buffer)) in
    write_loop (logged_write write_file) fuel (ctx, rc, wr) buffer n position result =
      Done (if k =? n - position then inr (log, add_written result k)
            else inl (log, fail write c (net_errno result) (add_written result k))).
Proof.
  unfold INT_MAX. intros Hp Hn Hb Hf Hu. revert ctx wr position result Hp Hf Hu.
  assert (forall result, bytes_written result = u64 (bytes_written result) ->
    add_written result 0 = result) as add0.
  { intros [] Hu. unfold add_written. simpl in *. by rewrite Z.add_0_r, <-Hu. }
  induction fuel as [|fuel IH]; intros ctx wr position result Hp Hf Hu; cbn [write_loop];
    rewrite (u32_small n) by lia; (destruct (Z.ltb_spec position n) as [Hlt|Hge]; [|
      replace (n - position) with 0 by lia; exists ctx, 0, 0; rewrite add0, app_nil_r by done;
      split_and!; lia || done]); [lia|].
  rewrite u32_small by lia. replace (Z.of_nat (length buffer) <? _) with false by lia.
  unfold logged_write at 1. unfold accepted.
  destruct (write_file ctx _ _) as [ctx1 sent].
  pose proof (s32_range sent) as Hr. set (s := s32 sent) in *.
  destruct (Z.leb_spec s 0) as [Hs|Hs]; simpl.
  { exists ctx1, 0, s. replace (0 <? s) with false by lia. rewrite add0 by done.
    replace (0 =? n - position) with false by lia. split_and!; lia || done. }
  rewrite (u32_small s) by lia. replace (0 <? s) with true by lia. simpl.
  destruct (Z.ltb_spec (n - position) s) as [Hmore|Hle].
  { exists ctx1, 0, s. replace (s <=? n - position) with false by lia. rewrite add0 by done.
    replace (0 =? n - position) with false by lia. split_and!; lia || done. }
  replace (s <=? n - position) with true by lia.
  rewrite u32_small by lia. fold (add_written result s).
  destruct (IH ctx1 (wr ++ take (Z.to_nat s) (drop (Z.to_nat position) buffer)) (position + s)
    (add_written result s)) as (ctx' & k & c & Hk & Hc & E);
    [lia..|simpl; symmetry; apply Z.mod_mod; lia|].
  exists ctx', (s + k), c. split_and!; [lia..|]. rewrite E, add_written_add.
  rewrite <-app_assoc, Z2Nat.inj_add, <-drop_drop, take_take_drop, <-Z2Nat.inj_add by lia.
  destruct (Z.eqb_spec k (n - (position + s))), (Z.eqb_spec (s + k) (n - position)); done || lia.
Qed.

Definition stream_post (rc wr : bytes) (size : Z) (result : ftpvita_store_result_t)
    (out : outcome ((C * bytes * bytes) * ftpvita_store_result_t)) : Prop :=
  exists ctx rck wrk r, out = Done ((ctx, rc ++ rck, wr ++ wrk), r) /\
    bytes_received r = u64 (bytes_received result + Z.of_nat (length rck)) /\
    bytes_written r = u64 (bytes_written result + Z.of_nat (length wrk)) /\
    wrk `prefix_of` rck /\ Z.of_nat (length rck) <= Z.of_nat (length wrk) + size /\
    match stage r with
    | complete => wrk = rck /\ code r = 0 /\ net_errno r = 0
    | range => False
    | receive => wrk = rck /\ code r <> 0 /\ (0 < code r -> net_errno r = 0)
    | write => (length wrk < length rck)%nat /\ net_errno r = 0
    end.

(** The same, or the bound was too small. *)
Definition stream_ended rc wr size result out : Prop := out = NoFuel \/ stream_post rc wr size result out.

Lemma stream_post_block rc wr size block result result' out :
  bytes_received result' = u64 (bytes_received result + Z.of_nat (length block)) ->
  bytes_written result' = u64 (bytes_written result + Z.of_nat (length block)) ->
  stream_post (rc ++ block) (wr ++ block) size result' out -> stream_post rc wr size result out.
Proof.
  intros Hr' Hw' (ctx & rck & wrk & r & -> & Hr & Hw & Hp & Hl & H).
  exists ctx, (block ++ rck), (block ++ wrk), r.
  rewrite Hr' in Hr. rewrite Hw' in Hw. unfold u64 in Hr, Hw.
  rewrite Z.add_mod_idemp_l in Hr, Hw by lia. rewrite !length_app.
  split_and!; [by rewrite <-!app_assoc|rewrite Hr; unfold u64; f_equal; lia
    |rewrite Hw; unfold u64; f_equal; lia|by apply prefix_app|lia|].
  destruct (stage r); [|done|..]; try lia; destruct H as (-> & ?); done.
Qed.

(** Whatever the bound, a run that ends has an exact account. *)
Lemma stream_loop_logged fuel ctx rc wr buffer buffer_size result :
  keeps_buffer receive_data ->
  0 < buffer_size <= INT_MAX -> buffer_size <= Z.of_nat (length buffer) ->
  stage result = complete -> code result = 0 -> net_errno result = 0 ->
  bytes_received result = u64 (bytes_received result) -> bytes_written result = u64 (bytes_written result) ->
  stream_ended rc wr buffer_size result
    (stream_loop (logged_receive receive_data) (logged_write write_file) fuel (ctx, rc, wr) buffer
       buffer_size result).
Proof.
  unfold INT_MAX. intros Hkeep Hbs.
  revert ctx rc wr buffer result. induction fuel as [|fuel IH];
    intros ctx rc wr buffer result Hb Hst Hco Hne Hr0 Hw0; cbn [stream_loop]; [by left|].
  replace (Z.of_nat (length buffer) <? buffer_size) with false by lia.
  unfold logged_receive at 1.
  pose proof (Hkeep ctx buffer buffer_size) as Hlen.
  destruct (receive_data ctx buffer buffer_size) as [[[ctx1 buffer1] n0] e]. simpl in Hlen.
  unfold accepted in *. pose proof (s32_range n0) as Hn. set (n := s32 n0) in *.
  assert (forall r, bytes_received r = bytes_received result -> bytes_written r = bytes_written result ->
    stage r = complete /\ code r = 0 /\ net_errno r = 0 \/
    stage r = receive /\ code r <> 0 /\ (0 < code r -> net_errno r = 0) ->
    stream_ended rc wr buffer_size result (Done ((ctx1, rc ++ [], wr), r))) as stop.
  { intros r E1 E2 Hs. right. exists ctx1, [], [], r. simpl. rewrite !app_nil_r, !Z.add_0_r, E1, E2.
    split_and!; try done; [lia|]. by destruct Hs as [(-> & ? & ?)|(-> & ? & ?)]. }
  destruct (Z.eqb_spec n 0) as [Hz|Hz].
  { replace (0 <? n) with false by lia. simpl. apply stop; auto. }
  destruct (Z.ltb_spec n 0) as [Hneg|Hpos]; simpl.
  { replace (0 <? n) with false by lia. simpl. apply stop; simpl; try done. right. split_and!; done || lia. }
  rewrite (u32_small n) by lia. replace (0 <? n) with true by lia. simpl.
  destruct (Z.ltb_spec buffer_size n) as [Hmore|Hle].
  { replace (n <=? buffer_size) with false by lia. simpl. apply stop; simpl; try done. right. done. }
  replace (n <=? buffer_size) with true by lia. 
  set (block := take (Z.to_nat n) buffer1).
  assert (length block = Z.to_nat n) as Hblock by (unfold block; rewrite length_take; lia).
  match goal with |- context [write_loop _ _ _ _ _ _ ?res] => set (result1 := res) end.
  destruct (write_loop_logged (Z.to_nat n) ctx1 (rc ++ block) wr buffer1 n 0 result1)
    as (ctx2 & k & c & Hk & Hc & E); [unfold INT_MAX; lia..|done|].
  rewrite E. run. rewrite Z.sub_0_r in *. change (Z.to_nat 0) with 0%nat. rewrite drop_0.
  destruct (Z.eqb_spec k n) as [->|Hkn]; run.
  - fold block. destruct (IH ctx2 (rc ++ block) (wr ++ block) buffer1 (add_written result1 n)) as [->|IH'];
      [first [lia | done | simpl; unfold u64; rewrite Z.mod_mod; done || lia]..|by left|right].
    apply (stream_post_block rc wr _ block result (add_written result1 n)); [simpl; f_equal; lia..|done].
  - right. eexists ctx2, block, (take (Z.to_nat k) buffer1), _. split; [done|]. simpl.
    rewrite length_take. split_and!; [f_equal; lia|f_equal; lia| |lia|lia|done].
    unfold block. exists (take (Z.to_nat n - Z.to_nat k) (drop (Z.to_nat k) buffer1)).
    rewrite take_take_drop. f_equal. lia.
Qed.
End logged_lemmas.

(** A property of the context that both callbacks keep holds at the end, and no
    bound leads to undefined behaviour. *)
Section invariant.
Context {C : Type} (receive_data : ftpvita_store_receive_fn C) (write_file : ftpvita_store_write_fn C).
Context (I : C -> Prop).
Hypothesis receive_keeps : forall ctx buffer asked,
  asked <= Z.of_nat (length buffer) -> I ctx -> I (receive_data ctx buffer asked).1.1.1.
Hypothesis write_keeps : forall ctx data asked, I ctx -> I (write_file ctx data asked).1.

Lemma write_loop_ends fuel ctx buffer n position result :
  0 <= position <= n -> n <= INT_MAX -> n <= Z.of_nat (length buffer) -> (Z.to_nat (n - position) <= fuel)%nat ->
  I ctx ->
  exists r, write_loop write_file fuel ctx buffer n position result = Done r /\
    match r with inl (ctx, _) | inr (ctx, _) => I ctx end.
Proof using write_keeps.
  unfold INT_MAX. revert ctx position result. induction fuel as [|fuel IH]; intros ctx position result Hp Hn Hb Hf HI;
    cbn [write_loop]; rewrite (u32_small n) by lia;
    (destruct (Z.ltb_spec position n); [|by eexists]); [lia|].
  rewrite u32_small by lia. replace (Z.of_nat (length buffer) <? _) with false by lia.
  pose proof (write_keeps ctx (drop (Z.to_nat position) buffer) (n - position) HI) as HI'.
  destruct (write_file _ _ _) as [ctx1 w]. simpl in HI'. pose proof (s32_range w).
  destruct (Z.leb_spec (s32 w) 0); cbn [orb]; [by eexists|]. rewrite (u32_small (s32 w)) by lia.
  destruct (Z.ltb_spec (n - position) (s32 w)); [by eexists|].
  rewrite u32_small by lia. apply IH; (done || lia).
Qed.

Lemma stream_loop_safe fuel ctx buffer buffer_size result :
  keeps_buffer receive_data -> 0 < buffer_size <= INT_MAX -> buffer_size <= Z.of_nat (length buffer) -> I ctx ->
  match stream_loop receive_data write_file fuel ctx buffer buffer_size result with
  | Done (ctx, _) => I ctx | Undefined => False | NoFuel => True
  end.
Proof using All.
  unfold INT_MAX. intros Hkeep Hbs. revert ctx buffer result.
  induction fuel as [|fuel IH]; intros ctx buffer result Hb HI; cbn [stream_loop]; [done|].
  replace (Z.of_nat (length buffer) <? buffer_size) with false by lia.
  pose proof (Hkeep ctx buffer buffer_size) as Hlen. pose proof (receive_keeps ctx buffer buffer_size Hb HI) as HI'.
  destruct (receive_data ctx buffer buffer_size) as [[[ctx1 buffer1] n0] e]. simpl in Hlen, HI'.
  pose proof (s32_range n0). set (n := s32 n0) in *.
  destruct (n =? 0); [done|]. destruct (Z.ltb_spec n 0); cbn [orb]; [done|]. rewrite (u32_small n) by lia.
  destruct (Z.ltb_spec buffer_size n); [done|].
  match goal with |- context [write_loop _ _ ?c ?b ?m ?p ?s] =>
    destruct (write_loop_ends (Z.to_nat n) c b m p s) as ([[c1 r1]|[c1 r1]] & -> & HI'') end;
    [lia|unfold INT_MAX; lia|lia|lia|done|run; done|run].
  apply IH; [lia|done].
Qed.

Lemma store_safe fuel ctx buffer buffer_size :
  keeps_buffer receive_data -> 0 <= buffer_size -> buffer_size <= Z.of_nat (length buffer) -> I ctx ->
  match ftpvita_store_stream fuel ctx (Some receive_data) (Some write_file) (Some buffer) buffer_size with
  | Done (ctx, _) => I ctx | Undefined => False | NoFuel => True
  end.
Proof using All.
  intros Hkeep Hbs Hb HI. unfold ftpvita_store_stream.
  destruct ((buffer_size =? 0) || (INT_MAX <? buffer_size)) eqn:E; [done|].
  apply stream_loop_safe; (done || lia).
Qed.
End invariant.

(** A stream that is complete ended with a receive that brought nothing. *)
Lemma stream_loop_last {C : Type} (receive_data : ftpvita_store_receive_fn C) write_file (I : C -> Prop) fuel ctx buffer buffer_size result ctx' r :
  (forall ctx buffer asked, I ctx -> I (receive_data ctx buffer asked).1.1.1) ->
  (forall ctx data asked, I ctx -> I (write_file ctx data asked).1) -> I ctx ->
  stream_loop receive_data write_file fuel ctx buffer buffer_size result = Done (ctx', r) -> stage r = complete ->
  exists ctx0 buffer0 buffer1 n e, I ctx0 /\ receive_data ctx0 buffer0 buffer_size = (ctx', buffer1, n, e) /\ s32 n = 0.
Proof.
  intros Hreceive Hwrite. revert ctx buffer result. induction fuel as [|fuel IH]; intros ctx buffer result HI; cbn [stream_loop]; [done|].
  destruct (_ <? buffer_size); [done|]. pose proof (Hreceive ctx buffer buffer_size HI) as HI1.
  destruct (receive_data ctx buffer buffer_size) as [[[ctx1 buffer1] n] e] eqn:E. cbn [fst] in HI1.
  destruct (Z.eqb_spec (s32 n) 0) as [Hz|Hz]; [intros [= <- <-] _; by exists ctx, buffer, buffer1, n, e|].
  destruct (_ || _); [by intros [= <- <-]|].
  match goal with |- context [write_loop _ _ _ ?b ?m _ _] =>
    assert (forall k c p s, I c -> match write_loop write_file k c b m p s with
      | Done (inl (_, r)) => stage r <> complete | Done (inr (c, _)) => I c | _ => True end) as Hloop end.
  { clear -Hwrite. induction k as [|k IH]; intros c p s HI; cbn [write_loop]; (destruct (_ <? _); [|done]); [done|].
    destruct (_ <? _); [done|]. match goal with |- context [write_file ?c ?d ?a] => pose proof (Hwrite c d a HI) as HI2;
      destruct (write_file c d a) as [c2 w] end. cbn [fst] in HI2. destruct (_ || _); [done|by apply IH]. }
  match goal with |- context [write_loop _ ?k ?c ?b ?m ?p ?s] => specialize (Hloop k c p s HI1);
    destruct (write_loop write_file k c b m p s) as [[[c1 r1]|[c1 r1]]| |] end; run; [by intros [= <- <-]|by apply IH|done..].
Qed.

(** A bound above what the peer sends is enough. *)
Lemma stream_loop_closes {C : Type} (receive_data : ftpvita_store_receive_fn C) write_file (left : C -> nat) fuel ctx buffer buffer_size result :
  keeps_buffer receive_data -> peer_closes receive_data write_file left -> (left ctx < fuel)%nat ->
  0 < buffer_size <= INT_MAX -> buffer_size <= Z.of_nat (length buffer) ->
  stream_loop receive_data write_file fuel ctx buffer buffer_size result <> NoFuel.
Proof.
  unfold INT_MAX. intros Hkeep [Hleft1 Hleft2] Hf Hbs.
  revert ctx buffer result Hf. induction fuel as [|fuel IH]; intros ctx buffer result Hf Hb; cbn [stream_loop]; [lia|].
  replace (Z.of_nat (length buffer) <? buffer_size) with false by lia.
  pose proof (Hkeep ctx buffer buffer_size) as Hlen. specialize (Hleft1 ctx buffer buffer_size).
  destruct (receive_data ctx buffer buffer_size) as [[[ctx1 buffer1] n0] e]. cbn [fst snd] in Hlen.
  unfold accepted in Hleft1. pose proof (s32_range n0). set (n := s32 n0) in *.
  destruct (Z.eqb_spec n 0); [done|]. destruct (Z.ltb_spec n 0); cbn [orb]; [done|]. rewrite (u32_small n) by lia.
  destruct (Z.ltb_spec buffer_size n); [done|].
  replace ((0 <? n) && (n <=? buffer_size)) with true in Hleft1 by lia.
  match goal with |- context [write_loop _ _ ?c ?b ?m ?p ?s] =>
    destruct (write_loop_ends write_file (fun c => (left c <= left ctx1)%nat)) with (fuel := Z.to_nat n) (ctx := c) (buffer := b) (n := m)
      (position := p) (result := s) as ([[c1 r1]|[c1 r1]] & -> & Hc) end;
    [|lia|unfold INT_MAX; lia|lia|lia|done|run; done|run; apply IH; lia].
  intros c data asked Hc. specialize (Hleft2 c data asked). lia.
Qed.

(** Callbacks that agree through a map of their contexts make the same run. *)
Section simulation.
Context {C1 C2 : Type} (view : C1 -> C2).
Context (receive1 : ftpvita_store_receive_fn C1) (write1 : ftpvita_store_write_fn C1).
Context (receive2 : ftpvita_store_receive_fn C2) (write2 : ftpvita_store_write_fn C2).
Hypothesis receive_agrees : forall ctx buffer asked, receive2 (view ctx) buffer asked =
  let '(ctx, buffer, n, e) := receive1 ctx buffer asked in (view ctx, buffer, n, e).
Hypothesis write_agrees : forall ctx data asked, write2 (view ctx) data asked =
  let '(ctx, n) := write1 ctx data asked in (view ctx, n).

Definition view_exit (r : C1 * ftpvita_store_result_t + C1 * ftpvita_store_result_t) :=
  match r with inl (ctx, r) => inl (view ctx, r) | inr (ctx, r) => inr (view ctx, r) end.

Lemma write_loop_view fuel ctx buffer n position result :
  write_loop write2 fuel (view ctx) buffer n position result =
    r ← write_loop write1 fuel ctx buffer n position result; Done (view_exit r).
Proof using write_agrees.
  revert ctx position result. induction fuel as [|fuel IH]; intros ctx position result; cbn [write_loop];
    (destruct (position <? u32 n); [|done]); [done|].
  destruct (Z.of_nat (length buffer) <? _); [done|]. rewrite write_agrees. destruct (write1 _ _ _) as [ctx1 w].
  destruct (_ || _); [done|]. apply IH.
Qed.

Lemma stream_loop_view fuel ctx buffer buffer_size result :
  stream_loop receive2 write2 fuel (view ctx) buffer buffer_size result =
    r ← stream_loop receive1 write1 fuel ctx buffer buffer_size result; Done (view r.1, r.2).
Proof using All.
  revert ctx buffer result. induction fuel as [|fuel IH]; intros ctx buffer result; cbn [stream_loop]; [done|].
  destruct (Z.of_nat (length buffer) <? _); [done|]. rewrite receive_agrees.
  destruct (receive1 _ _ _) as [[[ctx1 buffer1] n] e].
  destruct (s32 n =? 0); [done|]. destruct (_ || _); [done|]. rewrite write_loop_view. run.
  destruct (write_loop write1 _ _ _ _ _ _) as [[[c1 r1]|[c1 r1]]| |]; run; cbn [view_exit]; [done| |done..]. apply IH.
Qed.

Lemma store_stream_view fuel ctx buffer buffer_size :
  ftpvita_store_stream fuel (view ctx) (Some receive2) (Some write2) buffer buffer_size =
    r ← ftpvita_store_stream fuel ctx (Some receive1) (Some write1) buffer buffer_size; Done (view r.1, r.2).
Proof using All.
  unfold ftpvita_store_stream. destruct buffer as [buffer|]; [|done]. destruct (_ || _); [done|]. apply stream_loop_view.
Qed.
End simulation.

Lemma store_run {C : Type} (receive_data : ftpvita_store_receive_fn C) write_file fuel ctx buffer buffer_size :
  keeps_buffer receive_data -> 0 < buffer_size <= INT_MAX -> buffer_size <= Z.of_nat (length buffer) ->
  stream_ended [] [] buffer_size (StoreResult complete 0 0 0 0)
    (ftpvita_store_stream fuel (ctx, [], []) (Some (logged_receive receive_data))
      (Some (logged_write write_file)) (Some buffer) buffer_size).
Proof.
  intros Hkeep Hbs Hlen. unfold ftpvita_store_stream.
  destruct ((buffer_size =? 0) || (INT_MAX <? buffer_size)) eqn:?; [lia|]. by apply stream_loop_logged.
Qed.

(** The logs do not change the run. *)
Lemma store_logged_view {C : Type} (receive_data : ftpvita_store_receive_fn C) write_file fuel ctx rc wr buffer size :
  ftpvita_store_stream fuel ctx (Some receive_data) (Some write_file) (Some buffer) size =
    r ← ftpvita_store_stream fuel (ctx, rc, wr) (Some (logged_receive receive_data)) (Some (logged_write write_file))
          (Some buffer) size;
    Done (r.1.1.1, r.2).
Proof.
  apply (store_stream_view (fun c : C * bytes * bytes => c.1.1)) with (ctx := (ctx, rc, wr)).
  - intros [[c rc1] wr1] b asked. cbn. by destruct (receive_data c b asked) as [[[c' b'] n] e].
  - intros [[c rc1] wr1] data asked. cbn. by destruct (write_file c data asked) as [c' n].
Qed.

(** * Properties *)

(** C25: [ftpvita_store_stream] ends whenever the peer eventually stops sending,
    and loses nothing silently: what the file took is a prefix, in order and
    without repetition, of what was received; it is all of it unless a write
    failed, which the stage and the counters report; a completed upload wrote
    every byte received. *)
Theorem store_stream_accounting {C : Type} (receive_data : ftpvita_store_receive_fn C)
    (write_file : ftpvita_store_write_fn C) left fuel ctx buffer buffer_size :
  keeps_buffer receive_data -> peer_closes receive_data write_file left -> (left ctx < fuel)%nat ->
  0 < buffer_size <= INT_MAX -> buffer_size <= Z.of_nat (length buffer) ->
  exists ctx' rc wr r,
    ftpvita_store_stream fuel (ctx, [], []) (Some (logged_receive receive_data))
      (Some (logged_write write_file)) (Some buffer) buffer_size = Done ((ctx', rc, wr), r) /\
    bytes_received r = u64 (Z.of_nat (length rc)) /\ bytes_written r = u64 (Z.of_nat (length wr)) /\
    wr `prefix_of` rc /\ Z.of_nat (length rc) <= Z.of_nat (length wr) + buffer_size /\
    (stage r = complete -> wr = rc) /\ (stage r = receive -> wr = rc /\ code r <> 0) /\
    (stage r = write -> (length wr < length rc)%nat) /\ stage r <> range.
Proof.
  intros Hkeep Hcloses Hfuel Hbs Hlen.
  destruct (store_run receive_data write_file fuel ctx buffer buffer_size Hkeep Hbs Hlen)
    as [E|(ctx' & rc & wr & r & E & Hr & Hw & Hp & Hl & H)].
  { exfalso. pose proof (store_logged_view receive_data write_file fuel ctx [] [] buffer buffer_size) as Hv.
    rewrite E in Hv. run. revert Hv. unfold ftpvita_store_stream.
    destruct ((buffer_size =? 0) || (INT_MAX <? buffer_size)); [done|]. by apply (stream_loop_closes _ _ left). }
  exists ctx', rc, wr, r. simpl in *.
  destruct (stage r); [|done|..]; split_and!; try done; intros; tauto.
Qed.

(** A peer that sends the bytes of a list, 3 at a time, to a file that takes 2 at
    a time. *)
Definition list_receive : ftpvita_store_receive_fn bytes := fun todo buffer asked =>
  let data := take (length buffer) (take (Z.to_nat (Z.min 3 asked)) todo) in
  (drop (length data) todo, data ++ drop (length data) buffer, Z.of_nat (length data), 0).
Definition list_write : ftpvita_store_write_fn bytes := fun todo data asked => (todo, Z.min 2 asked).

Lemma list_keeps : keeps_buffer list_receive.
Proof.
  intros todo buffer asked. simpl. rewrite length_app, length_drop, !length_take. lia.
Qed.

Lemma list_closes : peer_closes list_receive list_write length.
Proof.
  split; [|done]. intros todo buffer asked. simpl. unfold accepted.
  rewrite length_drop, !length_take, s32_small by lia.
  destruct (_ && _) eqn:?; lia.
Qed.

Lemma store_stream_accounting_witness :
  exists ctx' rc wr r,
    ftpvita_store_stream 20 (lit "partial I/O", [], []) (Some (logged_receive list_receive))
      (Some (logged_write list_write)) (Some (replicate 8 0)) 8 = Done ((ctx', rc, wr), r) /\
    stage r = complete /\ wr = rc.
Proof.
  destruct (store_stream_accounting list_receive list_write length 20 (lit "partial I/O")
    (replicate 8 0) 8) as (ctx' & rc & wr & r & E & _ & _ & _ & _ & H & _);
    [apply list_keeps | apply list_closes | simpl; lia | unfold INT_MAX; lia | simpl; lia |].
  exists ctx', rc, wr, r. split; [exact E|].
  assert (stage r = complete) as Hst by (vm_compute in E; injection E as _ _ _ <-; reflexivity).
  split; [exact Hst | exact (H Hst)].
Defined.
