(* ===== verification/Sha1.v ===== *)
(** SHA-1 as the package installer computes it: src/sha1.c and src/sha1.h.

    A [WORD] is a [Z] reduced modulo 2^32 at every operation that can leave its
    range.  The arrays are lists; [sha1_wf] is the invariant under which every
    index the code uses is inside its array. *)

From S2P Require Import Prelude.

Definition SHA1_BLOCK_SIZE : Z := 20.

Record SHA1_CTX := Sha1Ctx {
  data : bytes;     (* BYTE data[64] *)
  datalen : Z;      (* WORD *)
  bitlen : Z;       (* unsigned long long *)
  state : list Z;   (* WORD state[5] *)
  k : list Z        (* WORD k[4] *)
}.

Definition ROTLEFT (a b : Z) : Z := Z.lor (u32 (Z.shiftl a b)) (Z.shiftr a (32 - b)).

(** [m[0..15]]: the block as big-endian words. The shifts are done in [int];
    their sum is taken modulo 2^32 when it is stored in a [WORD]. *)
Definition block_word (d : bytes) (j : nat) : Z :=
  u32 (Z.shiftl (d !!! j) 24 + Z.shiftl (d !!! (j + 1)%nat) 16 +
       Z.shiftl (d !!! (j + 2)%nat) 8 + d !!! (j + 3)%nat).

(** One step of the loop that extends [m] to 80 words, which hold [i] of them. *)
Definition extend_word (m : list Z) (i : nat) : list Z :=
  let x := Z.lxor (Z.lxor (Z.lxor (m !!! (i - 3)%nat) (m !!! (i - 8)%nat)) (m !!! (i - 14)%nat))
                  (m !!! (i - 16)%nat) in
  m ++ [Z.lor (u32 (Z.shiftl x 1)) (Z.shiftr x 31)].

Definition message_words (d : bytes) : list Z :=
  foldl extend_word ((fun i => block_word d (4 * i)) <$> seq 0 16) (seq 16 64).

(** The working variables. *)
Record vars := Vars { va : Z; vb : Z; vc : Z; vd : Z; ve : Z }.

(** The body the four round loops share: [f] is the mixed term of [b], [c], [d]. *)
Definition round (f : Z -> Z -> Z -> Z) (kt : Z) (m : list Z) (v : vars) (i : nat) : vars :=
  let t := u32 (ROTLEFT (va v) 5 + f (vb v) (vc v) (vd v) + ve v + kt + m !!! i) in
  Vars t (va v) (ROTLEFT (vb v) 30) (vc v) (vd v).

Definition sha1_transform (ctx : SHA1_CTX) (d : bytes) : SHA1_CTX :=
  let m := message_words d in
  let s := state ctx in
  let v := Vars (s !!! 0%nat) (s !!! 1%nat) (s !!! 2%nat) (s !!! 3%nat) (s !!! 4%nat) in
  let v := foldl (round (fun b c d => Z.lxor (Z.land b c) (Z.land (u32 (Z.lnot b)) d))
                    (k ctx !!! 0%nat) m) v (seq 0 20) in
  let v := foldl (round (fun b c d => Z.lxor (Z.lxor b c) d) (k ctx !!! 1%nat) m) v (seq 20 20) in
  let v := foldl (round (fun b c d => Z.lxor (Z.lxor (Z.land b c) (Z.land b d)) (Z.land c d))
                    (k ctx !!! 2%nat) m) v (seq 40 20) in
  let v := foldl (round (fun b c d => Z.lxor (Z.lxor b c) d) (k ctx !!! 3%nat) m) v (seq 60 20) in
  Sha1Ctx (data ctx) (datalen ctx) (bitlen ctx)
    [u32 (s !!! 0%nat + va v); u32 (s !!! 1%nat + vb v); u32 (s !!! 2%nat + vc v);
     u32 (s !!! 3%nat + vd v); u32 (s !!! 4%nat + ve v)] (k ctx).

(** [sha1_init] leaves [data] as it is. *)
Definition sha1_init (ctx : SHA1_CTX) : SHA1_CTX :=
  Sha1Ctx (data ctx) 0 0 [0x67452301; 0xEFCDAB89; 0x98BADCFE; 0x10325476; 0xc3d2e1f0]
    [0x5a827999; 0x6ed9eba1; 0x8f1bbcdc; 0xca62c1d6].

(** The body of the loop of [sha1_update]. *)
Definition sha1_update_byte (ctx : SHA1_CTX) (b : Z) : SHA1_CTX :=
  let ctx := Sha1Ctx (<[Z.to_nat (datalen ctx) := b]> (data ctx)) (u32 (datalen ctx + 1))
               (bitlen ctx) (state ctx) (k ctx) in
  if datalen ctx =? 64 then
    let ctx := sha1_transform ctx (data ctx) in
    Sha1Ctx (data ctx) 0 (u64 (bitlen ctx + 512)) (state ctx) (k ctx)
  else ctx.

Definition sha1_update (ctx : SHA1_CTX) (d : bytes) : SHA1_CTX := foldl sha1_update_byte ctx d.

(** [while (i < limit) ctx->data[i++] = 0x00;] *)
Definition zero_fill (d : bytes) (i limit : Z) : bytes :=
  foldl (fun d j => <[j := 0]> d) d (seq (Z.to_nat i) (Z.to_nat (limit - i))).

(** The digest bytes, most significant byte of each word first. *)
Definition sha1_hash (s : list Z) : bytes :=
  w ← s; (fun i => Z.land (Z.shiftr w (24 - i * 8)) 255) <$> [0; 1; 2; 3].

Definition sha1_final (ctx : SHA1_CTX) : SHA1_CTX * bytes :=
  let i := datalen ctx in
  let d := <[Z.to_nat i := 0x80]> (data ctx) in
  let ctx :=
    if datalen ctx <? 56 then
      Sha1Ctx (zero_fill d (u32 (i + 1)) 56) (datalen ctx) (bitlen ctx) (state ctx) (k ctx)
    else
      let ctx := Sha1Ctx (zero_fill d (u32 (i + 1)) 64) (datalen ctx) (bitlen ctx) (state ctx) (k ctx) in
      let ctx := sha1_transform ctx (data ctx) in
      Sha1Ctx (list_inserts 0 (replicate 56 0) (data ctx)) (datalen ctx) (bitlen ctx) (state ctx) (k ctx) in
  let len := u64 (bitlen ctx + u32 (datalen ctx * 8)) in
  let d := list_inserts 56 ((fun i => u8 (Z.shiftr len (8 * i))) <$> [7; 6; 5; 4; 3; 2; 1; 0]) (data ctx) in
  let ctx := Sha1Ctx d (datalen ctx) len (state ctx) (k ctx) in
  let ctx := sha1_transform ctx (data ctx) in
  (ctx, sha1_hash (state ctx)).

(** A digest, from a context whose contents do not matter. *)
Definition sha1 (ctx : SHA1_CTX) (msg : bytes) : bytes :=
  (sha1_final (sha1_update (sha1_init ctx) msg)).2.

(** * Reference definition: FIPS 180-4, section 6.1

    The functions and constants are indexed by the round number, the message
    schedule is a function of it, and a message is padded and cut into blocks
    before anything is hashed. *)

Definition ROTL (n x : Z) : Z := Z.lor (u32 (Z.shiftl x n)) (Z.shiftr x (32 - n)).

Definition fips_f (t : nat) (x y z : Z) : Z :=
  if (t <? 20)%nat then Z.lxor (Z.land x y) (Z.land (u32 (Z.lnot x)) z)
  else if (t <? 40)%nat then Z.lxor (Z.lxor x y) z
  else if (t <? 60)%nat then Z.lxor (Z.lxor (Z.land x y) (Z.land x z)) (Z.land y z)
  else Z.lxor (Z.lxor x y) z.

Definition fips_K (t : nat) : Z :=
  if (t <? 20)%nat then 0x5a827999 else if (t <? 40)%nat then 0x6ed9eba1
  else if (t <? 60)%nat then 0x8f1bbcdc else 0xca62c1d6.

(** Word [t] of a block, big endian. *)
Definition fips_M (d : bytes) (t : nat) : Z :=
  d !!! (4 * t)%nat * 2 ^ 24 + d !!! (4 * t + 1)%nat * 2 ^ 16 +
  d !!! (4 * t + 2)%nat * 2 ^ 8 + d !!! (4 * t + 3)%nat.

Fixpoint fips_W_fuel (fuel : nat) (d : bytes) (t : nat) : Z :=
  match fuel with
  | O => 0
  | S fuel =>
      if (t <? 16)%nat then fips_M d t
      else ROTL 1 (Z.lxor (Z.lxor (Z.lxor (fips_W_fuel fuel d (t - 3)) (fips_W_fuel fuel d (t - 8)))
                                  (fips_W_fuel fuel d (t - 14))) (fips_W_fuel fuel d (t - 16)))
  end.
Definition fips_W (d : bytes) (t : nat) : Z := fips_W_fuel (S t) d t.

Definition fips_step (W : nat -> Z) (v : vars) (t : nat) : vars :=
  Vars (u32 (ROTL 5 (va v) + fips_f t (vb v) (vc v) (vd v) + ve v + fips_K t + W t))
    (va v) (ROTL 30 (vb v)) (vc v) (vd v).

Definition fips_compress (H : list Z) (d : bytes) : list Z :=
  let v := foldl (fips_step (fips_W d))
             (Vars (H !!! 0%nat) (H !!! 1%nat) (H !!! 2%nat) (H !!! 3%nat) (H !!! 4%nat)) (seq 0 80) in
  [u32 (H !!! 0%nat + va v); u32 (H !!! 1%nat + vb v); u32 (H !!! 2%nat + vc v);
   u32 (H !!! 3%nat + vd v); u32 (H !!! 4%nat + ve v)].

Definition fips_H0 : list Z := [0x67452301; 0xEFCDAB89; 0x98BADCFE; 0x10325476; 0xc3d2e1f0].

(** The hash value after the first [n] blocks of 64 bytes. *)
Fixpoint fips_blocks (n : nat) (H : list Z) (bs : bytes) : list Z :=
  match n with
  | O => H
  | S n => fips_blocks n (fips_compress H (take 64 bs)) (drop 64 bs)
  end.

Definition be64 (z : Z) : bytes := (fun i => u8 (Z.shiftr z (8 * i))) <$> [7; 6; 5; 4; 3; 2; 1; 0].

Definition fips_pad (msg : bytes) : bytes :=
  msg ++ [0x80] ++ replicate (Z.to_nat ((55 - Z.of_nat (length msg)) mod 64)) 0 ++
  be64 (8 * Z.of_nat (length msg)).

Definition fips_sha1 (msg : bytes) : bytes :=
  sha1_hash (fips_blocks (length (fips_pad msg) / 64) fips_H0 (fips_pad msg)).

(** * The block function *)

Lemma lookup_byte (d : bytes) i : Forall is_byte d -> is_byte (d !!! i).
Proof.
  intros H. destruct (d !! i) as [x|] eqn:E.
  - rewrite (list_lookup_total_correct _ _ _ E). by eapply Forall_lookup_1 in E.
  - rewrite list_lookup_total_alt, E. unfold is_byte. simpl. lia.
Qed.

Lemma block_word_fips d i : Forall is_byte d -> block_word d (4 * i) = fips_M d i.
Proof.
  intros H. unfold block_word, fips_M.
  pose proof (lookup_byte d (4 * i) H). pose proof (lookup_byte d (4 * i + 1) H).
  pose proof (lookup_byte d (4 * i + 2) H). pose proof (lookup_byte d (4 * i + 3) H).
  unfold is_byte in *. rewrite !Z.shiftl_mul_pow2 by lia.
  change (2 ^ 24) with 16777216. change (2 ^ 16) with 65536. change (2 ^ 8) with 256.
  rewrite u32_small; lia.
Qed.

Lemma fips_W_irrel f1 f2 d t : (t < f1)%nat -> (t < f2)%nat -> fips_W_fuel f1 d t = fips_W_fuel f2 d t.
Proof.
  revert f2 t. induction f1 as [|f1 IH]; intros [|f2] t H1 H2; try lia. cbn [fips_W_fuel].
  destruct (Nat.ltb_spec t 16); [done|].
  by rewrite (IH f2 (t - 3)%nat), (IH f2 (t - 8)%nat), (IH f2 (t - 14)%nat), (IH f2 (t - 16)%nat) by lia.
Qed.

Lemma fips_W_eq d t :
  fips_W d t = if (t <? 16)%nat then fips_M d t
    else ROTL 1 (Z.lxor (Z.lxor (Z.lxor (fips_W d (t - 3)) (fips_W d (t - 8))) (fips_W d (t - 14)))
                        (fips_W d (t - 16))).
Proof.
  unfold fips_W at 1. cbn [fips_W_fuel]. destruct (Nat.ltb_spec t 16); [done|].
  unfold fips_W. by rewrite (fips_W_irrel t (S (t - 3)) d (t - 3)), (fips_W_irrel t (S (t - 8)) d (t - 8)),
    (fips_W_irrel t (S (t - 14)) d (t - 14)), (fips_W_irrel t (S (t - 16)) d (t - 16)) by lia.
Qed.

(** The array the code extends holds the schedule. *)
Lemma extend_words_fips d n :
  Forall is_byte d ->
  foldl extend_word ((fun i => block_word d (4 * i)) <$> seq 0 16) (seq 16 n) = fips_W d <$> seq 0 (16 + n).
Proof.
  intros Hd. induction n as [|n IH].
  - change (seq 16 0) with (@nil nat). cbn [foldl]. apply list_fmap_ext. intros i x [-> Hi]%lookup_seq.
    rewrite block_word_fips by done. rewrite fips_W_eq. destruct (Nat.ltb_spec (0 + i) 16); [done|lia].
  - rewrite (seq_S n 16), foldl_app, IH. cbn [foldl]. unfold extend_word.
    replace (16 + S n)%nat with (S (16 + n)) by lia. rewrite (seq_S (16 + n) 0), fmap_app.
    f_equal. change (0 + (16 + n))%nat with (16 + n)%nat. cbn [fmap list_fmap]. f_equal.
    rewrite (fips_W_eq d (16 + n)). destruct (Nat.ltb_spec (16 + n) 16); [lia|].
    assert (forall j, (j < 16 + n)%nat -> (fips_W d <$> seq 0 (16 + n)) !!! j = fips_W d j) as Hj.
    { intros j Hj. apply list_lookup_total_correct.
      by rewrite list_lookup_fmap, lookup_seq_lt by lia. }
    rewrite !Hj by lia. unfold ROTL. change (32 - 1) with 31. reflexivity.
Qed.

Lemma message_words_fips d t : Forall is_byte d -> (t < 80)%nat -> message_words d !!! t = fips_W d t.
Proof.
  intros Hd Ht. unfold message_words. rewrite extend_words_fips by done.
  apply list_lookup_total_correct. by rewrite list_lookup_fmap, lookup_seq_lt by lia.
Qed.

Lemma foldl_ext_seq {A} (f g : A -> nat -> A) a i n :
  (forall x j, (i <= j < i + n)%nat -> f x j = g x j) -> foldl f a (seq i n) = foldl g a (seq i n).
Proof.
  revert a i. induction n as [|n IH]; intros a i H; [done|]. simpl. rewrite H by lia.
  apply IH. intros. apply H. lia.
Qed.

Definition sha1_ks : list Z := [0x5a827999; 0x6ed9eba1; 0x8f1bbcdc; 0xca62c1d6].

(** [sha1_transform] is the compression function of the standard. *)
Lemma sha1_transform_fips ctx d :
  Forall is_byte d -> k ctx = sha1_ks ->
  sha1_transform ctx d = Sha1Ctx (data ctx) (datalen ctx) (bitlen ctx) (fips_compress (state ctx) d) (k ctx).
Proof.
  intros Hd Hk. unfold sha1_transform, fips_compress. rewrite Hk. cbv zeta.
  set (v0 := Vars _ _ _ _ _).
  assert (forall f kt v i n, (i + n <= 80)%nat ->
    (forall j, (i <= j < i + n)%nat -> f = fips_f j /\ kt = fips_K j) ->
    foldl (round f kt (message_words d)) v (seq i n) = foldl (fips_step (fips_W d)) v (seq i n)) as Hround.
  { intros f kt v i n Hn Hfk. apply foldl_ext_seq. intros x j Hj.
    destruct (Hfk j Hj) as [-> ->]. unfold round, fips_step, ROTLEFT, ROTL.
    by rewrite message_words_fips by (done || lia). }
  do 4 rewrite Hround by (lia || (intros j Hj; unfold fips_f, fips_K;
    destruct (Nat.ltb_spec j 20), (Nat.ltb_spec j 40), (Nat.ltb_spec j 60); try lia; done)).
  rewrite <-!foldl_app. change (seq 0 20 ++ seq 20 20) with (seq 0 40).
  by change (((seq 0 20 ++ seq 20 20) ++ seq 40 20) ++ seq 60 20) with (seq 0 80).
Qed.

(** * Streaming and padding *)

Lemma fips_blocks_app n H bs tl :
  (64 * n <= length bs)%nat -> fips_blocks n H (bs ++ tl) = fips_blocks n H bs.
Proof.
  revert H bs. induction n as [|n IH]; intros H bs Hlen; [done|]. cbn [fips_blocks].
  rewrite take_app_le, drop_app_le by lia. apply IH. rewrite length_drop. lia.
Qed.

Lemma fips_blocks_S n H bs :
  fips_blocks (S n) H bs = fips_compress (fips_blocks n H bs) (take 64 (drop (64 * n) bs)).
Proof.
  revert H bs. induction n as [|n IH]; intros H bs; [done|].
  change (fips_blocks (S (S n)) H bs) with (fips_blocks (S n) (fips_compress H (take 64 bs)) (drop 64 bs)).
  rewrite IH, drop_drop. cbn [fips_blocks].
  replace (64 + 64 * n)%nat with (64 * S n)%nat by lia. reflexivity.
Qed.

(** The invariant of a context: every index is inside its array. *)
Definition sha1_wf (ctx : SHA1_CTX) : Prop :=
  length (data ctx) = 64%nat /\ Forall is_byte (data ctx) /\ 0 <= datalen ctx < 64 /\ k ctx = sha1_ks.

(** What a context means: the bytes fed to it so far are [msg]. *)
Definition sha1_repr (ctx : SHA1_CTX) (msg : bytes) : Prop :=
  sha1_wf ctx /\ exists n, length msg = (64 * n + Z.to_nat (datalen ctx))%nat /\
    take (Z.to_nat (datalen ctx)) (data ctx) = drop (64 * n) msg /\
    bitlen ctx = u64 (512 * Z.of_nat n) /\ state ctx = fips_blocks n fips_H0 msg.

Lemma sha1_init_repr ctx :
  length (data ctx) = 64%nat -> Forall is_byte (data ctx) -> sha1_repr (sha1_init ctx) [].
Proof. intros Hl Hb. split; [done|]. by exists O. Qed.

Lemma take_insert_snoc (d : bytes) i x :
  (i < length d)%nat -> take (S i) (<[i := x]> d) = take i d ++ [x].
Proof.
  intros Hi. rewrite (take_S_r _ _ x) by (by apply list_lookup_insert_eq).
  by rewrite take_insert_ge by lia.
Qed.

Lemma sha1_update_byte_repr ctx msg b :
  sha1_repr ctx msg -> is_byte b -> sha1_repr (sha1_update_byte ctx b) (msg ++ [b]).
Proof.
  intros [(Hl & Hb & Hd & Hk) (n & Hm & Ht & Hbit & Hst)] Hbyte.
  unfold sha1_update_byte. cbn [datalen data bitlen state k].
  rewrite u32_small by lia.
  set (d := <[Z.to_nat (datalen ctx) := b]> (data ctx)).
  assert (length d = 64%nat) as Hdl by (unfold d; by rewrite length_insert).
  assert (Forall is_byte d) as Hdb by (by apply Forall_insert).
  assert (take (S (Z.to_nat (datalen ctx))) d = drop (64 * n) (msg ++ [b])) as Hd'.
  { unfold d. rewrite take_insert_snoc, Ht, drop_app_le by lia. done. }
  destruct (Z.eqb_spec (datalen ctx + 1) 64) as [Hfull|Hpart].
  - rewrite sha1_transform_fips by done. cbn [data datalen bitlen state k].
    split; [done|]. exists (S n). cbn [datalen data bitlen state].
    rewrite length_app, Hm. split_and!.
    + simpl. lia.
    + rewrite drop_ge by (rewrite length_app; simpl; lia). done.
    + rewrite Hbit. unfold u64. rewrite Z.add_mod_idemp_l by lia. f_equal. lia.
    + rewrite fips_blocks_S, <-Hd', Hst, fips_blocks_app by lia.
      f_equal. rewrite take_take, take_ge by lia. done.
  - split; [split_and!; done || (cbn; lia)|]. exists n. cbn [datalen data bitlen state].
    replace (Z.to_nat (datalen ctx + 1)) with (S (Z.to_nat (datalen ctx))) by lia.
    rewrite length_app, Hm. split_and!; [simpl; lia|done|done|].
    by rewrite fips_blocks_app by lia.
Qed.

Lemma sha1_update_repr ctx msg d :
  sha1_repr ctx msg -> Forall is_byte d -> sha1_repr (sha1_update ctx d) (msg ++ d).
Proof.
  intros Hr Hd. revert ctx msg Hr. induction Hd as [|b d Hb Hd IH]; intros ctx msg Hr.
  - by rewrite app_nil_r.
  - change (b :: d) with ([b] ++ d). rewrite app_assoc. simpl. apply IH.
    by apply sha1_update_byte_repr.
Qed.

Lemma zero_fill_spec d n m :
  (n + m <= length d)%nat ->
  foldl (fun d j => <[j := 0]> d) d (seq n m) = take n d ++ replicate m 0 ++ drop (n + m) d.
Proof.
  intros Hlen. induction m as [|m IH].
  - rewrite Nat.add_0_r. simpl. by rewrite take_drop.
  - rewrite seq_S, foldl_app, IH by lia. cbn [foldl].
    rewrite insert_app_r_alt by (rewrite length_take; lia).
    rewrite length_take, Nat.min_l, (Nat.add_comm n m), Nat.add_sub by lia.
    rewrite insert_app_r_alt by (by rewrite length_replicate).
    rewrite length_replicate, Nat.sub_diag.
    destruct (drop (m + n) d) as [|x r] eqn:E.
    { apply (f_equal length) in E. rewrite length_drop in E. simpl in E. lia. }
    cbn [insert list_insert]. f_equal.
    rewrite replicate_S_end, <-app_assoc. do 2 f_equal.
    replace (n + S m)%nat with (m + n + 1)%nat by lia. by rewrite <-drop_drop, E.
Qed.

(** The marker and the zeros the code writes after the last bytes. *)
Lemma zero_fill_marker d i limit :
  length d = 64%nat -> 0 <= i < limit -> limit <= 64 ->
  zero_fill (<[Z.to_nat i := 0x80]> d) (u32 (i + 1)) limit =
    take (Z.to_nat i) d ++ [0x80] ++ replicate (Z.to_nat limit - S (Z.to_nat i)) 0 ++
    drop (Z.to_nat limit) d.
Proof.
  intros Hl Hr Hlim. unfold zero_fill. rewrite u32_small by lia.
  replace (Z.to_nat (i + 1)) with (S (Z.to_nat i)) by lia.
  replace (Z.to_nat (limit - (i + 1))) with (Z.to_nat limit - S (Z.to_nat i))%nat by lia.
  rewrite zero_fill_spec by (rewrite length_insert; lia).
  rewrite take_insert_snoc, <-app_assoc by lia. do 3 f_equal.
  rewrite drop_insert_lt by lia. f_equal. lia.
Qed.

(** Overwriting the tail of a block. *)
Lemma inserts_tail i (d e t : bytes) :
  length d = i -> length t = length e -> list_inserts i t (d ++ e) = d ++ t.
Proof.
  intros <- H. rewrite <-(Nat.add_0_r (length d)), list_inserts_app_r.
  by rewrite inserts_0, H, drop_all, app_nil_r by lia.
Qed.

Lemma be64_u64 z : be64 (u64 z) = be64 z.
Proof.
  unfold be64, u64, u8. apply list_fmap_ext. intros i x Hx.
  assert (0 <= x <= 7) as Hr.
  { apply list_elem_of_lookup_2 in Hx. repeat (apply elem_of_cons in Hx as [->|Hx]; [lia|]).
    by apply not_elem_of_nil in Hx. }
  rewrite <-!Z.land_ones by lia. apply Z.bits_inj'. intros j Hj.
  rewrite !Z.land_spec, !Z.shiftr_spec, Z.land_spec by lia.
  destruct (Z.ltb_spec j 8).
  - rewrite (Z.ones_spec_low 64) by lia. by rewrite andb_true_r.
  - by rewrite (Z.ones_spec_high 8), !andb_false_r by lia.
Qed.

Lemma be64_bytes z : Forall is_byte (be64 z).
Proof.
  unfold be64. apply Forall_fmap, Forall_forall. intros x _. unfold is_byte, u8. simpl.
  apply Z.mod_pos_bound. lia.
Qed.

Lemma zeros_bytes n : Forall is_byte (replicate n 0).
Proof. apply Forall_replicate. unfold is_byte. lia. Qed.

Lemma marker_byte : is_byte 0x80.
Proof. unfold is_byte. lia. Qed.
#[local] Hint Resolve be64_bytes zeros_bytes marker_byte : vita.

(** The blocks of a padded message, from what the context holds. *)
Lemma fips_pad_blocks msg n r block :
  length msg = (64 * n + r)%nat -> (r < 64)%nat ->
  fips_pad msg = take (64 * n) msg ++ block -> forall m, length block = (64 * m)%nat ->
  fips_sha1 msg = sha1_hash (fips_blocks m (fips_blocks n fips_H0 msg) block).
Proof.
  intros Hm Hr Hpad m Hb. unfold fips_sha1. rewrite Hpad. f_equal.
  rewrite length_app, length_take, Hb, Nat.min_l by lia.
  replace (64 * n + 64 * m)%nat with ((n + m) * 64)%nat by lia. rewrite Nat.div_mul by lia.
  assert (forall n H bs tl, length bs = (64 * n)%nat ->
    fips_blocks (n + m) H (bs ++ tl) = fips_blocks m (fips_blocks n H bs) tl) as Hsplit.
  { clear. induction n as [|n IH]; intros H bs tl Hl.
    - by apply nil_length_inv in Hl as ->.
    - cbn [Nat.add fips_blocks]. rewrite take_app_le, drop_app_le by lia.
      apply IH. rewrite length_drop. lia. }
  rewrite Hsplit by (rewrite length_take; lia). f_equal.
  rewrite <-(take_drop (64 * n) msg) at 2. by rewrite fips_blocks_app by (rewrite length_take; lia).
Qed.

Lemma sha1_final_fips ctx msg :
  sha1_repr ctx msg -> (sha1_final ctx).2 = fips_sha1 msg.
Proof.
  intros [(Hl & Hb & Hd & Hk) (n & Hm & Ht & Hbit & Hst)].
  set (r := Z.to_nat (datalen ctx)) in *.
  assert (datalen ctx = Z.of_nat r) as Hr by lia.
  assert (be64 (u64 (bitlen ctx + u32 (datalen ctx * 8))) = be64 (8 * Z.of_nat (length msg))) as Hlen.
  { rewrite be64_u64, <-(be64_u64 (8 * _)), <-be64_u64, u32_small by lia. f_equal.
    rewrite Hbit, Hm. unfold u64. rewrite Z.add_mod_idemp_l by lia. f_equal. lia. }
  unfold sha1_final. cbv zeta.
  assert (fips_pad msg = take (64 * n) msg ++ take r (data ctx) ++ [0x80] ++
    replicate (if datalen ctx <? 56 then 55 - r else 119 - r) 0 ++ be64 (8 * Z.of_nat (length msg))) as Hpad.
  { unfold fips_pad. rewrite Ht, (app_assoc (take _ _)), take_drop. do 4 f_equal.
    destruct (Z.ltb_spec (datalen ctx) 56); lia. }
  assert (Forall is_byte (take r (data ctx))) as Hrest by (by apply Forall_take).
  destruct (Z.ltb_spec (datalen ctx) 56) as [Hshort|Hlong]; cbn [data datalen bitlen state k];
    fold (be64 (u64 (bitlen ctx + u32 (datalen ctx * 8)))).
  - rewrite zero_fill_marker by lia. fold r. change (Z.to_nat 56) with 56%nat.
    set (blk := take r (data ctx) ++ [0x80] ++ replicate (56 - S r) 0).
    replace (take r (data ctx) ++ [0x80] ++ replicate (56 - S r) 0 ++ drop 56 (data ctx))
      with (blk ++ drop 56 (data ctx)) by (unfold blk; by rewrite <-!app_assoc).
    assert (length blk = 56%nat) as Hblk
      by (unfold blk; rewrite !length_app, length_take, length_replicate; simpl; lia).
    rewrite (inserts_tail 56 blk) by (rewrite ?length_drop; simpl; lia).
    rewrite sha1_transform_fips; [|unfold blk; rewrite !Forall_app; auto with vita|done].
    cbn [state snd]. rewrite Hlen, Hst.
    rewrite (fips_pad_blocks msg n r (blk ++ be64 (8 * Z.of_nat (length msg)))) with (m := 1%nat).
    + cbn [fips_blocks]. by rewrite take_ge by (rewrite length_app; simpl; lia).
    + done.
    + lia.
    + rewrite Hpad. unfold blk. rewrite <-!app_assoc. by do 3 f_equal.
    + rewrite length_app. simpl. lia.
  - rewrite zero_fill_marker by lia. fold r. change (Z.to_nat 64) with 64%nat.
    set (blk := take r (data ctx) ++ [0x80] ++ replicate (64 - S r) 0 ++ drop 64 (data ctx)).
    assert (length blk = 64%nat) as Hblk
      by (unfold blk; rewrite !length_app, length_take, length_replicate, length_drop; simpl; lia).
    rewrite (sha1_transform_fips (Sha1Ctx blk (datalen ctx) (bitlen ctx) (state ctx) (k ctx)) blk);
      [|unfold blk; rewrite !Forall_app; split_and!; auto with vita; by apply Forall_drop|done].
    cbn [data datalen bitlen state k]. fold (be64 (u64 (bitlen ctx + u32 (datalen ctx * 8)))).
    rewrite inserts_0 by (rewrite length_replicate; lia). rewrite length_replicate.
    rewrite (inserts_tail 56 (replicate 56 0)) by (rewrite ?length_drop; simpl; lia).
    rewrite sha1_transform_fips; [|rewrite Forall_app; auto with vita|done].
    cbn [state snd]. rewrite Hlen, Hst.
    rewrite (fips_pad_blocks msg n r (blk ++ replicate 56 0 ++ be64 (8 * Z.of_nat (length msg)))) with (m := 2%nat).
    + cbn [fips_blocks]. by rewrite take_app_length', drop_app_length', take_ge.
    + done.
    + lia.
    + rewrite Hpad. unfold blk. rewrite drop_ge, app_nil_r by lia.
      replace (119 - r)%nat with (64 - S r + 56)%nat by lia.
      by rewrite replicate_add, <-!app_assoc.
    + rewrite !length_app. simpl. lia.
Qed.

(** Overwriting a block with bytes leaves a block. *)
Definition block_ok (d : bytes) : Prop := length d = 64%nat /\ Forall is_byte d.

Lemma Forall_inserts (P : Z -> Prop) i k d : Forall P k -> Forall P d -> Forall P (list_inserts i k d).
Proof.
  intros Hk Hd. revert i. induction Hk as [|c k Hc _ IH]; intros i; simpl; [done|].
  by apply Forall_insert.
Qed.

Lemma block_ok_insert d i c : block_ok d -> is_byte c -> block_ok (<[i := c]> d).
Proof. intros [Hl Hb] Hc. split; [by rewrite length_insert|by apply Forall_insert]. Qed.

Lemma block_ok_inserts d i k : block_ok d -> Forall is_byte k -> block_ok (list_inserts i k d).
Proof. intros [Hl Hb] Hk. split; [by rewrite length_inserts|by apply Forall_inserts]. Qed.

Lemma block_ok_zero_fill d i limit : block_ok d -> block_ok (zero_fill d i limit).
Proof.
  unfold zero_fill. generalize (seq (Z.to_nat i) (Z.to_nat (limit - i))) as js.
  intros js. revert d. induction js as [|j js IH]; intros d Hd; simpl; [done|].
  apply IH, block_ok_insert; [done|]. unfold is_byte. lia.
Qed.

(** The context can be used again after [sha1_final]. *)
Lemma sha1_final_block ctx msg : sha1_repr ctx msg -> block_ok (data (sha1_final ctx).1).
Proof.
  intros [(Hl & Hb & _) _]. unfold sha1_final. cbn [fst data sha1_transform].
  apply block_ok_inserts; [|apply (be64_bytes (u64 _))].
  assert (block_ok (<[Z.to_nat (datalen ctx) := 0x80]> (data ctx))) by (apply block_ok_insert; [done|apply marker_byte]).
  destruct (datalen ctx <? 56); cbn [data sha1_transform].
  - by apply block_ok_zero_fill.
  - apply block_ok_inserts; [by apply block_ok_zero_fill|apply zeros_bytes].
Qed.

Lemma fips_sha1_bytes msg : Forall is_byte (fips_sha1 msg).
Proof.
  unfold fips_sha1, sha1_hash. apply Forall_bind, Forall_true. intros w. apply Forall_fmap, Forall_true. intros i.
  unfold is_byte. simpl. change 255 with (Z.ones 8). rewrite ?Z.land_ones by lia. lia.
Qed.

Lemma fips_blocks_length n H bs : length H = 5%nat -> length (fips_blocks n H bs) = 5%nat.
Proof. revert H bs. induction n as [|n IH]; intros H bs HH; simpl; [done|]. by apply IH. Qed.

Lemma fips_sha1_length msg : length (fips_sha1 msg) = 20%nat.
Proof.
  unfold fips_sha1.
  pose proof (fips_blocks_length (length (fips_pad msg) / 64) fips_H0 (fips_pad msg) eq_refl) as H.
  by destruct (fips_blocks _ _ _) as [|a [|b [|c [|d [|e [|? ?]]]]]].
Qed.

(** * Properties *)

(** C31: whatever the context held before, [sha1_init], [sha1_update] and
    [sha1_final] compute the SHA-1 of FIPS 180-4 on every message of bytes: the
    streaming through a 64-byte buffer, the in-place padding, the 64-bit length
    and the unrolled rounds agree with the reference definition. *)
Theorem sha1_is_fips180 ctx msg :
  length (data ctx) = 64%nat -> Forall is_byte (data ctx) -> Forall is_byte msg ->
  (sha1_final (sha1_update (sha1_init ctx) msg)).2 = fips_sha1 msg.
Proof.
  intros Hl Hb Hm. apply sha1_final_fips.
  apply (sha1_update_repr _ []); [by apply sha1_init_repr|done].
Qed.

(** The one-block test vector of the standard. *)
Lemma sha1_is_fips180_witness :
  fips_sha1 (lit "abc") =
  [0xa9; 0x99; 0x3e; 0x36; 0x47; 0x06; 0x81; 0x6a; 0xba; 0x3e;
   0x25; 0x71; 0x78; 0x50; 0xc2; 0x6c; 0x9c; 0xd0; 0xd8; 0x9d].
Proof.
  rewrite <-(sha1_is_fips180 (Sha1Ctx (replicate 64 0xAA) 7 9 [] []) (lit "abc")).
  - vm_compute. reflexivity.
  - reflexivity.
  - apply Forall_replicate. unfold is_byte. lia.
  - repeat (apply Forall_cons_2; [unfold is_byte; simpl; lia|]). apply Forall_nil_2.
Defined.

(** The buffer indices of [sha1_update] stay inside the 64-byte block for
    every message, fed in any number of pieces, and the digest has 20 bytes. *)
Theorem sha1_in_bounds ctx pieces :
  length (data ctx) = 64%nat -> Forall is_byte (data ctx) -> Forall (Forall is_byte) pieces ->
  let ctx' := foldl sha1_update (sha1_init ctx) pieces in
  length (data ctx') = 64%nat /\ 0 <= datalen ctx' < 64 /\
  Z.of_nat (length (sha1_final ctx').2) = SHA1_BLOCK_SIZE.
Proof.
  intros Hl Hb Hp. assert (sha1_repr (foldl sha1_update (sha1_init ctx) pieces) (concat pieces)) as Hr.
  { pose proof (sha1_init_repr ctx Hl Hb) as H0. change (concat pieces) with ([] ++ concat pieces).
    revert H0. generalize (sha1_init ctx) as c, (@nil Z) as m.
    induction Hp as [|p ps Hp _ IH]; intros c m H0; simpl; [by rewrite app_nil_r|].
    rewrite app_assoc. apply IH. by apply sha1_update_repr. }
  destruct Hr as [(? & ? & ? & ?) _]. split_and!; done || lia.
Qed.

Lemma sha1_in_bounds_witness :
  length (data (foldl sha1_update (sha1_init (Sha1Ctx (replicate 64 0) 0 0 [] [])) [[97]; [98; 99]]))
  = 64%nat.
Proof.
  apply (sha1_in_bounds (Sha1Ctx (replicate 64 0) 0 0 [] []) [[97]; [98; 99]]).
  - reflexivity.
  - apply Forall_replicate. unfold is_byte. lia.
  - repeat (apply Forall_cons_2 || apply Forall_nil_2 || (unfold is_byte; lia)).
Defined.
