(* ===== verification/PackageFormat.v ===== *)
(** The formats the package installer reads and writes: src/package_installer.c
    and the template src/vita_shell_head_bin.h.

    These are the functions that only compute: archive path validation, the
    little- and big-endian readers, the search for the end of the central
    directory, the lookup in a [param.sfo], the title id check, the package
    checksum and the patching of the package header.  A pointer into an object
    is the list of the bytes from there to the end of the object, so a read past
    the end is [Undefined]. *)

From S2P Require Import Prelude Sha1.

Definition INSTALL_STAGE : bytes := lit "ux0:data/vitacompanion-package".
Definition INSTALL_HEAD : bytes := INSTALL_STAGE ++ lit "/sce_sys/package/head.bin".
Definition INSTALL_SFO : bytes := INSTALL_STAGE ++ lit "/sce_sys/param.sfo".
Definition INSTALL_PATH_MAX : Z := 1024.
Definition INSTALL_IO_BUFFER : Z := 64 * 1024.
Definition INSTALL_SFO_MAX : Z := 1024 * 1024.
Definition INSTALL_TOTAL_MAX : Z := 4 * 1024 * 1024 * 1024.

Definition INSTALL_ERROR_ARGUMENT : Z := -0x7101.
Definition INSTALL_ERROR_ARCHIVE : Z := -0x7102.
Definition INSTALL_ERROR_ARCHIVE_PATH : Z := -0x7103.
Definition INSTALL_ERROR_ARCHIVE_TYPE : Z := -0x7104.
Definition INSTALL_ERROR_ARCHIVE_SIZE : Z := -0x7105.
Definition INSTALL_ERROR_SFO : Z := -0x7106.
Definition INSTALL_ERROR_TITLE_ID : Z := -0x7107.
Definition INSTALL_ERROR_MEMORY : Z := -0x7108.
Definition INSTALL_ERROR_IO : Z := -0x7109.

Definition SLASH : Z := 47.
Definition COLON : Z := 58.
Definition BACKSLASH : Z := 92.
Definition not_slash (c : Z) : bool := negb (c =? SLASH).

(** * Archive paths *)

(** The loop over the components; [component] is not empty.  [slash] is null when
    [rest] is empty. *)
Fixpoint safe_components (fuel : nat) (component : bytes) : outcome bool :=
  match fuel with
  | O => NoFuel
  | S fuel =>
      match component with
      | [] => Done true
      | _ =>
          let name := take_while not_slash component in
          let rest := drop_while not_slash component in
          if bool_decide (name = []) || bool_decide (name = lit ".") || bool_decide (name = lit "..")
          then Done false
          else match rest with
               | [] | [_] => Done true
               | _ :: component => safe_components fuel component
               end
      end
  end.

Definition is_safe_archive_path (path : ptr bytes) : outcome bool :=
  match path with
  | NULL => Done false
  | Some path =>
      if match path with [] => true | c :: _ => (c =? SLASH) || (c =? BACKSLASH) end
         || existsb (Z.eqb COLON) path || existsb (Z.eqb BACKSLASH) path
      then Done false
      else safe_components (S (length path)) path
  end.

(** * Reading integers *)

Definition read_le16 (data : bytes) (i : Z) : outcome Z :=
  a ← load data i; b ← load data (i + 1);
  Done (Z.lor a (Z.shiftl b 8)).

Definition read_le32 (data : bytes) (i : Z) : outcome Z :=
  a ← load data i; b ← load data (i + 1); c ← load data (i + 2); d ← load data (i + 3);
  Done (Z.lor (Z.lor (Z.lor a (Z.shiftl b 8)) (Z.shiftl c 16)) (Z.shiftl d 24)).

(** The word in memory order, then [__builtin_bswap32]. *)
Definition bswap32 (v : Z) : Z :=
  Z.lor (Z.lor (Z.lor (Z.shiftl (Z.land v 255) 24) (Z.shiftl (Z.land (Z.shiftr v 8) 255) 16))
               (Z.shiftl (Z.land (Z.shiftr v 16) 255) 8)) (Z.land (Z.shiftr v 24) 255).

Definition read_be32 (data : bytes) (i : Z) : outcome Z :=
  v ← read_le32 data i; Done (bswap32 v).

Fixpoint bounded_string_length (value : bytes) (limit : nat) {struct limit} : outcome nat :=
  match limit with
  | O => Done O
  | S limit =>
      match value with
      | [] => Undefined
      | c :: value => if c =? NUL then Done O else n ← bounded_string_length value limit; Done (S n)
      end
  end.

(** [memchr(p, 0, n) != NULL]. *)
Fixpoint memchr_nul (p : bytes) (n : nat) {struct n} : outcome bool :=
  match n with
  | O => Done false
  | S n =>
      match p with
      | [] => Undefined
      | c :: p => if c =? NUL then Done true else memchr_nul p n
      end
  end.

(** [p + offset], for an offset inside the object. *)
Definition at_offset (p : bytes) (offset : Z) : bytes := drop (Z.to_nat offset) p.

(** [memcpy(buf + offset, src, length of src)]. *)
Definition memcpy (buf : bytes) (offset : Z) (src : bytes) : outcome bytes :=
  if (0 <=? offset) && (offset + Z.of_nat (length src) <=? Z.of_nat (length buf))
  then Done (list_inserts (Z.to_nat offset) src buf) else Undefined.

(** * The end of the central directory *)

Definition EOCD_SIGNATURE : Z := 0x06054B50.

(** The fields of the record at [index] and the checks made on them: the offset
    and the number of entries of the central directory, or an error. *)
Definition read_eocd (tail : bytes) (index file_size : Z) : outcome (Z + Z * Z) :=
  disk ← read_le16 tail (index + 4);
  central_disk ← read_le16 tail (index + 6);
  entries_on_disk ← read_le16 tail (index + 8);
  entries ← read_le16 tail (index + 10);
  central_size ← read_le32 tail (index + 12);
  central_offset ← read_le32 tail (index + 16);
  if (disk =? 0) && (central_disk =? 0) && (entries =? entries_on_disk) && negb (entries =? 0xFFFF)
     && (u64 (central_offset + central_size) <=? u64 file_size)
  then Done (inr (central_offset, entries)) else Done (inl INSTALL_ERROR_ARCHIVE).

(** The backward search: [index] counts down to 0. *)
Fixpoint scan_eocd (tail : bytes) (file_size : Z) (index : nat) : outcome (Z + Z * Z) :=
  signature ← read_le32 tail (Z.of_nat index);
  if signature =? EOCD_SIGNATURE then read_eocd tail (Z.of_nat index) file_size
  else match index with
       | O => Done (inl INSTALL_ERROR_ARCHIVE)
       | S index => scan_eocd tail file_size index
       end.

(** * param.sfo *)

Definition sizeof_SfoHeader : Z := 20.
Definition sizeof_SfoEntry : Z := 16.

Record SfoHeader := Header { magic : Z; version : Z; key_offset : Z; value_offset : Z; count : Z }.

Record SfoEntry := Entry {
  name_offset : Z; alignment : Z; type : Z; value_size : Z; total_size : Z; data_offset : Z
}.

Definition read_SfoHeader (buffer : bytes) : outcome SfoHeader :=
  m ← read_le32 buffer 0; v ← read_le32 buffer 4; k ← read_le32 buffer 8;
  o ← read_le32 buffer 12; c ← read_le32 buffer 16; Done (Header m v k o c).

(** [entries[index]]. *)
Definition read_SfoEntry (buffer : bytes) (index : Z) : outcome SfoEntry :=
  let e := sizeof_SfoHeader + sizeof_SfoEntry * index in
  n ← read_le16 buffer e; a ← load buffer (e + 2); t ← load buffer (e + 3);
  v ← read_le32 buffer (e + 4); s ← read_le32 buffer (e + 8); d ← read_le32 buffer (e + 12);
  Done (Entry n a t v s d).

(** The loop over the entries from [index], [remaining] of them: the result and what
    is written to [value], if anything is. *)
Fixpoint sfo_entries (buffer : bytes) (size : Z) (h : SfoHeader) (key : bytes) (vsize : Z)
    (remaining : nat) (index : Z) : outcome (Z * option bytes) :=
  match remaining with
  | O => Done (INSTALL_ERROR_SFO, None)
  | S remaining =>
      e ← read_SfoEntry buffer index;
      let koff := u64 (key_offset h + name_offset e) in
      let doff := u64 (value_offset h + data_offset e) in
      if (size <=? koff) || (size <=? doff) || (value_size e =? 0) || (u64 (size - doff) <? value_size e)
      then Done (INSTALL_ERROR_SFO, None)
      else
        key_nul ← memchr_nul (at_offset buffer koff) (Z.to_nat (size - koff));
        data_nul ← (if key_nul then memchr_nul (at_offset buffer doff) (Z.to_nat (value_size e)) else Done false);
        if negb key_nul || negb data_nul then Done (INSTALL_ERROR_SFO, None)
        else
          k ← cstr (at_offset buffer koff);
          if negb (bool_decide (k = key)) then sfo_entries buffer size h key vsize remaining (index + 1)
          else
            length ← bounded_string_length (at_offset buffer doff) (Z.to_nat (value_size e));
            let length := if vsize <=? Z.of_nat length then vsize - 1 else Z.of_nat length in
            Done (0, Some (take (Z.to_nat length) (at_offset buffer doff)))
  end.

(** [value_size] is the parameter [vsize]; [value] is an array of that size. *)
Definition sfo_string (buffer : bytes) (size : Z) (key : bytes) (vsize : Z) : outcome (Z * option bytes) :=
  if (size <? sizeof_SfoHeader) || (vsize =? 0) then Done (INSTALL_ERROR_SFO, None)
  else
    h ← read_SfoHeader buffer;
    if negb (magic h =? 0x46535000) || ((size - sizeof_SfoHeader) / sizeof_SfoEntry <? count h)
    then Done (INSTALL_ERROR_SFO, None)
    else sfo_entries buffer size h key vsize (Z.to_nat (count h)) 0.

Definition valid_title_id (title_id : bytes) : bool :=
  if negb (Z.of_nat (length title_id) =? 9) then false
  else forallb (fun v => ((65 <=? v) && (v <=? 90)) || ((48 <=? v) && (v <=? 57))) title_id.

(** * The package header *)

(** [memcpy] out of an array. *)
Definition slice (p : bytes) (offset n : nat) : bytes := take n (drop offset p).

(** The 64-byte block made of the first digest. *)
Definition fpkg_block (sha1 : bytes) : outcome bytes :=
  buffer ← memcpy (replicate 64 0) 0 (slice sha1 4 8);
  buffer ← memcpy buffer 8 (slice sha1 4 8);
  buffer ← memcpy buffer 16 (slice sha1 12 4);
  s16 ← load sha1 16; buffer ← store buffer 20 s16;
  s1 ← load sha1 1; buffer ← store buffer 21 s1;
  s2 ← load sha1 2; buffer ← store buffer 22 s2;
  s3 ← load sha1 3; buffer ← store buffer 23 s3;
  memcpy buffer 24 (slice buffer 16 8).

(** [context] is what the uninitialised local holds. *)
Definition fpkg_hmac (context : SHA1_CTX) (d : bytes) (length : Z) : outcome bytes :=
  if Z.of_nat (List.length d) <? length then Undefined
  else
    let '(context, sha1) := sha1_final (sha1_update (sha1_init context) (take (Z.to_nat length) d)) in
    buffer ← fpkg_block sha1;
    let '(_, sha1) := sha1_final (sha1_update (sha1_init context) buffer) in
    Done (slice sha1 0 16).

Definition vita_shell_head_bin : bytes :=
  [
   127; 80; 75; 71; 0; 0; 0; 1; 0; 0; 2; 128; 0; 0; 0; 11; 0; 0; 1; 144; 0; 0; 0; 3;
   0; 0; 0; 0; 0; 1; 144; 0; 0; 0; 0; 0; 0; 0; 10; 144; 0; 0; 0; 0; 0; 0; 3; 16;
   0; 0; 0; 0; 0; 0; 0; 0; 0; 0; 0; 0; 0; 0; 0; 0; 0; 0; 0; 0; 0; 0; 0; 0;
   0; 0; 0; 0; 0; 0; 0; 0; 0; 0; 0; 0; 0; 0; 0; 0; 0; 0; 0; 0; 0; 0; 0; 0;
   166; 137; 148; 56; 25; 242; 221; 5; 135; 148; 176; 182; 127; 201; 48; 118; 220; 47; 34; 242; 37; 64; 198; 223;
   148; 203; 183; 120; 248; 162; 84; 149; 140; 230; 253; 116; 129; 12; 247; 157; 71; 178; 134; 96; 60; 46; 0; 187;
   162; 7; 89; 81; 231; 149; 164; 237; 131; 80; 53; 188; 101; 99; 254; 112; 139; 171; 12; 73; 115; 157; 163; 201;
   31; 116; 72; 34; 112; 147; 252; 233; 64; 202; 116; 151; 186; 241; 222; 28; 170; 103; 183; 65; 120; 215; 21; 104;
   127; 101; 120; 116; 0; 0; 0; 1; 0; 0; 0; 64; 0; 0; 1; 128; 0; 0; 1; 0; 0; 0; 4; 16;
   0; 0; 0; 0; 0; 0; 13; 224; 0; 0; 0; 0; 192; 0; 0; 2; 0; 0; 4; 32; 0; 0; 0; 0;
   0; 0; 0; 0; 0; 0; 0; 0; 0; 0; 0; 0; 0; 0; 0; 0; 255; 255; 255; 255; 255; 255; 255; 255;
   255; 255; 255; 255; 255; 255; 255; 255; 10; 162; 203; 33; 139; 55; 6; 45; 62; 5; 250; 17; 114; 114; 136; 133;
   201; 123; 3; 153; 160; 112; 156; 248; 207; 157; 65; 1; 214; 23; 159; 211; 87; 121; 103; 249; 182; 248; 86; 61;
   202; 252; 161; 152; 226; 199; 207; 214; 46; 27; 214; 27; 190; 111; 193; 146; 190; 224; 179; 194; 229; 101; 90; 69;
   217; 136; 180; 151; 94; 22; 49; 61; 162; 62; 22; 174; 212; 183; 213; 54; 227; 172; 128; 143; 24; 254; 173; 26;
   133; 32; 206; 238; 218; 93; 183; 149; 70; 52; 204; 73; 82; 9; 246; 235; 165; 10; 229; 124; 181; 127; 175; 111;
   76; 6; 140; 228; 216; 90; 3; 175; 146; 78; 149; 91; 188; 224; 194; 172; 255; 18; 149; 49; 146; 173; 6; 232;
   23; 44; 177; 220; 54; 164; 195; 155; 226; 62; 43; 236; 101; 83; 235; 88; 132; 73; 9; 11; 244; 198; 180; 2;
   112; 243; 100; 88; 117; 20; 0; 248; 104; 136; 70; 126; 92; 188; 190; 139; 95; 172; 224; 228; 166; 245; 119; 221;
   217; 229; 175; 5; 240; 93; 174; 34; 127; 180; 209; 28; 127; 204; 62; 152; 85; 185; 105; 210; 210; 16; 85; 69;
   75; 60; 149; 112; 183; 195; 219; 254; 35; 175; 205; 39; 162; 211; 172; 140; 17; 9; 191; 246; 178; 1; 98; 9;
   193; 218; 253; 167; 71; 169; 72; 244; 70; 38; 6; 242; 118; 77; 254; 111; 63; 16; 176; 28; 26; 222; 115; 139;
   20; 115; 60; 57; 182; 198; 27; 161; 101; 153; 184; 51; 172; 184; 22; 180; 230; 165; 236; 2; 11; 91; 112; 35;
   235; 36; 26; 247; 140; 218; 85; 150; 221; 75; 28; 133; 131; 73; 1; 178; 57; 188; 49; 59; 232; 241; 90; 73;
   204; 207; 15; 133; 95; 84; 121; 232; 49; 141; 87; 27; 177; 194; 147; 135; 226; 230; 86; 207; 146; 81; 252; 73;
   148; 205; 181; 4; 27; 4; 71; 247; 180; 210; 103; 49; 84; 240; 173; 58; 212; 37; 140; 237; 233; 155; 18; 252;
   71; 28; 252; 110; 129; 41; 139; 57; 171; 187; 240; 53; 0; 135; 136; 135; 0; 0; 0; 1; 0; 0; 0; 4;
   0; 0; 0; 2; 0; 0; 0; 2; 0; 0; 0; 4; 0; 0; 0; 21; 0; 0; 0; 3; 0; 0; 0; 4;
   0; 0; 0; 14; 0; 0; 0; 4; 0; 0; 0; 8; 0; 0; 0; 0; 0; 1; 144; 0; 0; 0; 0; 5;
   0; 0; 0; 4; 25; 103; 1; 0; 0; 0; 0; 8; 0; 0; 0; 8; 0; 0; 0; 0; 0; 0; 0; 0;
   0; 0; 0; 9; 0; 0; 0; 8; 0; 0; 0; 0; 0; 36; 0; 0; 0; 0; 0; 13; 0; 0; 0; 40;
   0; 0; 0; 0; 0; 0; 0; 176; 26; 146; 7; 4; 97; 12; 157; 20; 85; 142; 23; 116; 182; 68; 210; 92;
   147; 243; 193; 88; 15; 145; 34; 47; 253; 180; 66; 170; 100; 252; 138; 208; 0; 0; 0; 15; 0; 0; 0; 72;
   0; 0; 5; 144; 0; 0; 3; 32; 0; 0; 0; 0; 0; 0; 0; 0; 0; 0; 0; 0; 1; 1; 1; 1;
   0; 0; 0; 0; 0; 0; 0; 0; 0; 0; 0; 0; 0; 0; 0; 0; 190; 154; 7; 38; 26; 145; 214; 53;
   147; 205; 89; 244; 19; 35; 52; 5; 91; 196; 245; 195; 49; 243; 249; 241; 126; 219; 127; 83; 15; 26; 10; 121;
   0; 0; 0; 16; 0; 0; 0; 56; 0; 0; 10; 48; 0; 0; 0; 96; 194; 0; 0; 0; 0; 0; 0; 1;
   0; 0; 0; 0; 0; 0; 0; 0; 195; 42; 160; 247; 58; 65; 132; 124; 184; 102; 67; 123; 202; 205; 104; 94;
   68; 171; 217; 133; 201; 107; 173; 51; 169; 188; 136; 198; 117; 197; 35; 158; 0; 0; 0; 17; 0; 0; 0; 40;
   1; 114; 0; 0; 0; 0; 0; 0; 0; 0; 0; 0; 0; 0; 0; 0; 0; 0; 0; 0; 0; 0; 0; 0;
   0; 0; 0; 0; 0; 0; 0; 0; 0; 0; 0; 0; 0; 0; 0; 0; 122; 254; 245; 121; 48; 175; 118; 224;
   70; 252; 117; 223; 8; 78; 184; 69; 61; 79; 203; 244; 61; 155; 250; 95; 97; 153; 106; 222; 156; 46; 26; 156;
   25; 21; 16; 29; 113; 230; 192; 90; 132; 61; 32; 232; 174; 30; 28; 113; 148; 238; 188; 115; 77; 44; 70; 191;
   60; 243; 91; 48; 58; 195; 24; 32; 255; 255; 255; 255; 255; 255; 255; 255; 255; 255; 255; 255; 255; 255; 255; 255;
   255; 255; 255; 255; 255; 255; 255; 255; 255; 255; 255; 255; 255; 255; 255; 255].
Definition vita_shell_head_bin_len : Z := 1072.

(** The part of [make_head_bin] between the copy of the template and the writing
    of the file: the header, or nothing when a check of the template fails.
    [selected_content_id] is the 48-byte array selected. *)
Definition patch_head (context : SHA1_CTX) (selected_content_id : bytes) : outcome (option bytes) :=
  let head := vita_shell_head_bin in
  head ← memcpy head 0x30 (replicate 48 0);
  content_length ← bounded_string_length selected_content_id 48;
  head ← memcpy head 0x30 (take content_length selected_content_id);
  length ← read_be32 head 0xD0;
  if vita_shell_head_bin_len <? u64 (length + 16) then Done None
  else
    hmac ← fpkg_hmac context head length;
    head ← memcpy head length hmac;
    offset ← read_be32 head 0x8;
    length ← read_be32 head 0x10;
    output ← read_be32 head 0xD4;
    if (length <? 64) || (vita_shell_head_bin_len <? u64 (offset + length))
       || (vita_shell_head_bin_len <? u64 (output + 16)) then Done None
    else
      hmac ← fpkg_hmac context (at_offset head offset) (u32 (length - 64));
      head ← memcpy head output hmac;
      length ← read_be32 head 0xE8;
      if vita_shell_head_bin_len <? u64 (length + 16) then Done None
      else
        hmac ← fpkg_hmac context head length;
        head ← memcpy head length hmac;
        Done (Some head).

(** * Archive paths: what is accepted *)

(** A component that cannot leave the directory it is looked up in. *)
Definition good_name (c : bytes) : Prop :=
  c <> [] /\ c <> lit "." /\ c <> lit ".." /\ Forall (fun x => x <> SLASH /\ x <> COLON /\ x <> BACKSLASH) c.

(** [/c1/c2.../cn], with a final slash if [trail]. *)
Fixpoint slashed (cs : list bytes) (trail : bool) : bytes :=
  match cs with
  | [] => if trail then [SLASH] else []
  | c :: cs => SLASH :: c ++ slashed cs trail
  end.

(** A relative path of good components. *)
Definition safe_path (p : bytes) : Prop :=
  exists cs trail, cs <> [] /\ Forall good_name cs /\ SLASH :: p = slashed cs trail.

Section paths.
Implicit Types (p c : bytes) (cs : list bytes).

Definition no_slash (c : bytes) : Prop := Forall (fun x => not_slash x = true) c.

Lemma slashed_head cs trail : slashed cs trail = [] \/ exists t, slashed cs trail = SLASH :: t.
Proof. destruct cs; simpl; [destruct trail|]; eauto. Qed.

Lemma slashed_app cs cs' trail : slashed (cs ++ cs') trail = slashed cs false ++ slashed cs' trail.
Proof. induction cs as [|c cs IH]; simpl; [done|]. by rewrite <-app_assoc, IH. Qed.

(** Cutting a path at its first slash. *)
Lemma while_slashed c cs trail :
  no_slash c ->
  take_while not_slash (c ++ slashed cs trail) = c /\
  drop_while not_slash (c ++ slashed cs trail) = slashed cs trail.
Proof.
  intros Hc. destruct (while_app not_slash c (slashed cs trail) Hc) as [-> ->].
  destruct (slashed_head cs trail) as [->|[t ->]]; simpl; by rewrite app_nil_r.
Qed.

Lemma good_name_no_slash c : good_name c -> no_slash c.
Proof.
  intros (_ & _ & _ & H). eapply Forall_impl; [exact H|].
  intros x [Hx _]. unfold not_slash. lia.
Qed.

Definition safe_char (x : Z) : Prop := x <> COLON /\ x <> BACKSLASH.

Lemma good_name_intro c :
  c <> [] -> c <> lit "." -> c <> lit ".." -> no_slash c -> Forall safe_char c -> good_name c.
Proof.
  intros ? ? ? H1 H2. split_and!; try done. unfold no_slash in H1. rewrite Forall_forall in *. intros x Hx.
  specialize (H1 x Hx). specialize (H2 x Hx) as [? ?]. unfold not_slash in H1. split_and!; try done. lia.
Qed.

(** The loop on a path without [:] and [\]. *)
Lemma safe_components_spec fuel p :
  (length p < fuel)%nat -> p <> [] -> Forall safe_char p ->
  exists b, safe_components fuel p = Done b /\ (b = true <-> safe_path p).
Proof.
  revert p. induction fuel as [|fuel IH]; intros p Hlen Hp Hch; [lia|].
  destruct p as [|x p']; [done|]. cbn [safe_components]. set (p := x :: p') in *. clearbody p.
  set (name := take_while not_slash p). set (rest := drop_while not_slash p).
  assert (p = name ++ rest) as Hsplit by (symmetry; apply take_drop_while).
  assert (no_slash name) as Hns by apply take_while_all.
  assert (forall cs trail, cs <> [] -> Forall good_name cs -> SLASH :: p = slashed cs trail ->
            exists cs', cs = name :: cs' /\ rest = slashed cs' trail) as Hdet.
  { intros cs trail Hcs Hg E. destruct cs as [|c cs]; [done|]. apply Forall_cons in Hg as [Hg _].
    cbn [slashed] in E. injection E as E.
    destruct (while_slashed c cs trail (good_name_no_slash c Hg)) as [E1 E2].
    subst name rest. rewrite E, E1, E2. by exists cs. }
  destruct (bool_decide (name = []) || bool_decide (name = lit ".") || bool_decide (name = lit "..")) eqn:Hbad.
  - exists false. split; [done|]. split; [done|]. intros (cs & trail & Hcs & Hg & E).
    destruct (Hdet cs trail Hcs Hg E) as (cs' & -> & _). apply Forall_cons in Hg as [(? & ? & ? & _) _].
    rewrite !orb_true_iff, !bool_decide_eq_true in Hbad. tauto.
  - rewrite !orb_false_iff, !bool_decide_eq_false in Hbad. destruct Hbad as [[H1 H2] H3].
    assert (Forall safe_char name /\ Forall safe_char rest) as [Hsn Hsr]
      by (apply Forall_app; by rewrite <-Hsplit).
    assert (good_name name) as Hgood by (by apply good_name_intro).
    destruct rest as [|y [|z t]] eqn:Hrest.
    + exists true. split; [done|]. split; [|done]. intros _. exists [name], false. simpl.
      split_and!; [done|by constructor|]. by rewrite Hsplit.
    + exists true. split; [done|]. split; [|done]. intros _. exists [name], true. simpl.
      split_and!; [done|by constructor|]. rewrite Hsplit.
      apply drop_while_head in Hrest. unfold not_slash in Hrest. do 3 f_equal. unfold SLASH in *. lia.
    + assert (y = SLASH) as -> by (apply drop_while_head in Hrest; unfold not_slash in Hrest; unfold SLASH in *; lia).
      apply Forall_cons in Hsr as [_ Hsr].
      destruct (IH (z :: t)) as (b & -> & Hb); [|done|done|].
      { rewrite Hsplit, length_app in Hlen. destruct name; [done|]. simpl in *. lia. }
      exists b. split; [done|]. rewrite Hb. split.
      * intros (cs & trail & Hcs & Hg & E). exists (name :: cs), trail.
        split_and!; [done|by constructor|]. simpl. rewrite Hsplit. by rewrite E.
      * intros (cs & trail & Hcs & Hg & E). destruct (Hdet cs trail Hcs Hg E) as (cs' & -> & E').
        apply Forall_cons in Hg as [_ Hg]. exists cs', trail. split_and!; [|done|done].
        intros ->. by destruct trail.
Qed.

Lemma safe_path_chars p : safe_path p -> Forall safe_char p /\ p <> [].
Proof.
  intros (cs & trail & Hcs & Hg & E). assert (Forall safe_char (SLASH :: p)) as H.
  { rewrite E. clear E Hcs. induction Hg as [|c cs (_ & _ & _ & Hc) _ IH]; simpl.
    - destruct trail; repeat constructor; done.
    - constructor; [by split|]. apply Forall_app. split; [|done].
      eapply Forall_impl; [exact Hc|]. by intros x (_ & ? & ?). }
  apply Forall_cons in H as [_ H]. split; [done|].
  destruct cs as [|c cs]; [done|]. apply Forall_cons in Hg as [(Hc & _) _]. injection E as ->. by destruct c.
Qed.

Lemma existsb_eqb x p : existsb (Z.eqb x) p = false <-> Forall (fun y => y <> x) p.
Proof.
  induction p as [|y p IH]; simpl; [done|]. rewrite orb_false_iff, IH, Forall_cons. by rewrite Z.eqb_sym, Z.eqb_neq.
Qed.

Lemma is_safe_spec p : exists b, is_safe_archive_path (Some p) = Done b /\ (b = true <-> safe_path p).
Proof.
  unfold is_safe_archive_path.
  destruct (existsb (Z.eqb COLON) p) eqn:H1; [|destruct (existsb (Z.eqb BACKSLASH) p) eqn:H2].
  1,2: rewrite orb_true_r, ?orb_true_l; exists false; split; [done|]; split; [done|];
       intros [H _]%safe_path_chars; exfalso.
  - assert (existsb (Z.eqb COLON) p = false); [|congruence].
    apply existsb_eqb. eapply Forall_impl; [exact H|]. by intros x [? _].
  - assert (existsb (Z.eqb BACKSLASH) p = false); [|congruence].
    apply existsb_eqb. eapply Forall_impl; [exact H|]. by intros x [_ ?].
  - apply existsb_eqb in H1. apply existsb_eqb in H2. rewrite !orb_false_r.
    assert (Forall safe_char p) as Hch.
    { rewrite Forall_forall in *. intros x Hx. split; auto. }
    destruct p as [|c p].
    + exists false. split; [done|]. split; [done|]. intros [_ H]%safe_path_chars. done.
    + destruct ((c =? SLASH) || (c =? BACKSLASH)) eqn:Hc.
      * exists false. split; [done|]. split; [done|]. intros Hs. exfalso.
        apply Forall_cons in Hch as [[_ Hc2] _].
        destruct Hs as (cs & trail & Hcs & Hg & E). destruct cs as [|c' cs]; [done|].
        apply Forall_cons in Hg as [Hg _]. injection E as E.
        destruct Hg as (Hc' & _ & _ & Hf). destruct c' as [|y c']; [done|].
        apply Forall_cons in Hf as [(Hy & _) _]. injection E as -> _. lia.
      * apply (safe_components_spec _ (c :: p)); [lia|done|done].
Qed.
End paths.

(** * Integers *)

(** [l] as a little-endian number. *)
Definition little_endian (l : bytes) : Z := foldr (fun c v => c + 2 ^ 8 * v) 0 l.

(** [l] as a big-endian number. *)
Definition big_endian (l : bytes) : Z := foldl (fun v c => v * 2 ^ 8 + c) 0 l.

Section integers.
Implicit Types (data : bytes).

Lemma lor_shiftl a b n : 0 <= n -> 0 <= a < 2 ^ n -> Z.lor a (Z.shiftl b n) = a + 2 ^ n * b.
Proof.
  intros Hn Ha. assert (Z.land a (Z.shiftl b n) = 0) as H0.
  { apply Z.bits_inj'. intros i Hi. rewrite Z.land_spec, Z.bits_0.
    destruct (Z.lt_ge_cases i n) as [Hlt|Hge].
    - rewrite Z.shiftl_spec_low by done. apply andb_false_r.
    - destruct (Z.eq_dec a 0) as [->|Hz]; [by rewrite Z.bits_0|].
      rewrite (Z.bits_above_log2 a i); [done|lia|].
      apply Z.lt_le_trans with n; [|done]. apply Z.log2_lt_pow2; lia. }
  pose proof (Z.add_lor_land a (Z.shiftl b n)) as H. rewrite H0, Z.shiftl_mul_pow2 in H by done.
  rewrite Z.shiftl_mul_pow2 in * by done. lia.
Qed.

Lemma shiftl_lor a b n : 0 <= n -> 0 <= a < 2 ^ n -> Z.lor (Z.shiftl b n) a = a + 2 ^ n * b.
Proof. intros. rewrite Z.lor_comm. by apply lor_shiftl. Qed.

Lemma load_slice data i (n : nat) :
  0 <= i -> i + Z.of_nat n <= Z.of_nat (length data) ->
  forall j : nat, (j < n)%nat -> load data (i + Z.of_nat j) = Done (slice data (Z.to_nat i) n !!! j).
Proof.
  intros Hi Hn j Hj. unfold slice. rewrite lookup_total_take_lt by done. rewrite lookup_total_drop.
  apply load_in; [lia|]. replace (Z.to_nat (i + Z.of_nat j)) with (Z.to_nat i + j)%nat by lia.
  apply list_lookup_lookup_total_lt. lia.
Qed.

Lemma slice_bytes data i n : Forall is_byte data -> Forall is_byte (slice data i n).
Proof. intros. by apply Forall_take, Forall_drop. Qed.

Lemma slice_length data i n : (i + n <= length data)%nat -> length (slice data i n) = n.
Proof. intros. unfold slice. rewrite length_take, length_drop. lia. Qed.

Lemma little_endian_range l : Forall is_byte l -> 0 <= little_endian l < 2 ^ (8 * Z.of_nat (length l)).
Proof.
  induction 1 as [|c l Hc _ IH]; [simpl; lia|]. unfold is_byte in Hc.
  rewrite length_cons. replace (8 * Z.of_nat (S (length l))) with (8 + 8 * Z.of_nat (length l)) by lia.
  rewrite Z.pow_add_r by lia. change (little_endian (c :: l)) with (c + 2 ^ 8 * little_endian l). nia.
Qed.

Lemma read_le16_spec data i :
  Forall is_byte data -> 0 <= i -> i + 2 <= Z.of_nat (length data) ->
  read_le16 data i = Done (little_endian (slice data (Z.to_nat i) 2)).
Proof.
  intros Hb Hi Hn. pose proof (load_slice data i 2 Hi Hn) as HL.
  pose proof (slice_bytes data (Z.to_nat i) 2 Hb) as Hs.
  pose proof (slice_length data (Z.to_nat i) 2 ltac:(lia)) as Hl.
  destruct (slice data (Z.to_nat i) 2) as [|a [|b [|? ?]]]; try done.
  specialize (HL 0%nat ltac:(lia)) as H0. specialize (HL 1%nat ltac:(lia)) as H1.
  change (Z.of_nat 0) with 0 in H0. change (Z.of_nat 1) with 1 in H1. rewrite Z.add_0_r in H0.
  unfold read_le16. rewrite H0. run. rewrite H1. run. f_equal. simpl.
  rewrite !Forall_cons in Hs. unfold is_byte in Hs. rewrite lor_shiftl by lia. lia.
Qed.

Lemma read_le32_spec data i :
  Forall is_byte data -> 0 <= i -> i + 4 <= Z.of_nat (length data) ->
  read_le32 data i = Done (little_endian (slice data (Z.to_nat i) 4)).
Proof.
  intros Hb Hi Hn. pose proof (load_slice data i 4 Hi Hn) as HL.
  pose proof (slice_bytes data (Z.to_nat i) 4 Hb) as Hs.
  pose proof (slice_length data (Z.to_nat i) 4 ltac:(lia)) as Hl.
  destruct (slice data (Z.to_nat i) 4) as [|a [|b [|c [|d [|? ?]]]]]; try done.
  specialize (HL 0%nat ltac:(lia)) as H0. specialize (HL 1%nat ltac:(lia)) as H1.
  specialize (HL 2%nat ltac:(lia)) as H2. specialize (HL 3%nat ltac:(lia)) as H3.
  change (Z.of_nat 0) with 0 in H0. change (Z.of_nat 1) with 1 in H1.
  change (Z.of_nat 2) with 2 in H2. change (Z.of_nat 3) with 3 in H3. rewrite Z.add_0_r in H0.
  unfold read_le32. rewrite H0. run. rewrite H1. run. rewrite H2. run. rewrite H3. run. f_equal. simpl.
  rewrite !Forall_cons in Hs. unfold is_byte in Hs.
  rewrite (lor_shiftl a b 8), (lor_shiftl _ c 16), (lor_shiftl _ d 24) by lia. lia.
Qed.

Lemma bswap32_spec l : length l = 4%nat -> Forall is_byte l -> bswap32 (little_endian l) = big_endian l.
Proof.
  destruct l as [|a [|b [|c [|d [|? ?]]]]]; try done. intros _ Hs.
  rewrite !Forall_cons in Hs. unfold is_byte in Hs. destruct Hs as (Ha & Hb & Hc & Hd & _).
  unfold bswap32, little_endian, big_endian. cbn [foldr foldl].
  change 255 with (Z.ones 8). rewrite !Z.land_ones, !Z.shiftr_div_pow2 by lia.
  set (v := a + 2 ^ 8 * (b + 2 ^ 8 * (c + 2 ^ 8 * (d + 2 ^ 8 * 0)))).
  assert (v mod 2 ^ 8 = a) as -> by lia. assert (v / 2 ^ 8 mod 2 ^ 8 = b) as -> by lia.
  assert (v / 2 ^ 16 mod 2 ^ 8 = c) as -> by lia. assert (v / 2 ^ 24 mod 2 ^ 8 = d) as -> by lia.
  rewrite <-!Z.lor_assoc, (shiftl_lor d c 8), (shiftl_lor _ b 16), (shiftl_lor _ a 24) by lia. lia.
Qed.

Lemma read_be32_spec data i :
  Forall is_byte data -> 0 <= i -> i + 4 <= Z.of_nat (length data) ->
  read_be32 data i = Done (big_endian (slice data (Z.to_nat i) 4)).
Proof.
  intros. unfold read_be32. rewrite read_le32_spec by done. run.
  rewrite bswap32_spec; [done|apply slice_length; lia|by apply slice_bytes].
Qed.
End integers.

(** The unsigned fields of a buffer. *)
Definition le16_at (data : bytes) (i : Z) : Z := little_endian (slice data (Z.to_nat i) 2).
Definition le32_at (data : bytes) (i : Z) : Z := little_endian (slice data (Z.to_nat i) 4).

Lemma le16_range data i : Forall is_byte data -> 0 <= le16_at data i < 2 ^ 16.
Proof.
  intros Hb. pose proof (little_endian_range (slice data (Z.to_nat i) 2) (slice_bytes _ _ _ Hb)) as H.
  assert (2 ^ (8 * Z.of_nat (length (slice data (Z.to_nat i) 2))) <= 2 ^ 16).
  { apply Z.pow_le_mono_r; [lia|]. unfold slice. rewrite length_take. lia. }
  unfold le16_at. lia.
Qed.

Lemma le32_range data i : Forall is_byte data -> 0 <= le32_at data i < 2 ^ 32.
Proof.
  intros Hb. pose proof (little_endian_range (slice data (Z.to_nat i) 4) (slice_bytes _ _ _ Hb)) as H.
  assert (2 ^ (8 * Z.of_nat (length (slice data (Z.to_nat i) 4))) <= 2 ^ 32).
  { apply Z.pow_le_mono_r; [lia|]. unfold slice. rewrite length_take. lia. }
  unfold le32_at. lia.
Qed.

(** The readers inside the buffer. *)
Ltac read_fields :=
  repeat first [ rewrite read_le16_spec by (done || lia) | rewrite read_le32_spec by (done || lia) ];
  run; fold (le16_at); fold (le32_at).

(** * The end of the central directory: what is found *)

(** What the record at [i] gives. *)
Definition eocd_at (tail : bytes) (file_size i : Z) : Z + Z * Z :=
  if (le16_at tail (i + 4) =? 0) && (le16_at tail (i + 6) =? 0) &&
     (le16_at tail (i + 10) =? le16_at tail (i + 8)) && negb (le16_at tail (i + 10) =? 0xFFFF) &&
     (le32_at tail (i + 16) + le32_at tail (i + 12) <=? file_size)
  then inr (le32_at tail (i + 16), le16_at tail (i + 10)) else inl INSTALL_ERROR_ARCHIVE.

Definition signature_at (tail : bytes) (i : nat) : Prop := le32_at tail (Z.of_nat i) = EOCD_SIGNATURE.

(** [i] is the last place, up to [index], where the signature is. *)
Definition last_signature (tail : bytes) (index i : nat) : Prop :=
  (i <= index)%nat /\ signature_at tail i /\
  forall j, (i < j <= index)%nat -> ~ signature_at tail j.

Section eocd.
Implicit Types (tail : bytes).

Lemma read_eocd_spec tail i file_size :
  Forall is_byte tail -> 0 <= i -> i + 22 <= Z.of_nat (length tail) -> 0 <= file_size < 2 ^ 63 ->
  read_eocd tail i file_size = Done (eocd_at tail file_size i).
Proof.
  intros Hb Hi Hn Hf. unfold read_eocd.
  rewrite !read_le16_spec, !read_le32_spec by (done || lia). run.
  fold (le16_at tail (i + 4)) (le16_at tail (i + 6)) (le16_at tail (i + 8)) (le16_at tail (i + 10))
    (le32_at tail (i + 12)) (le32_at tail (i + 16)).
  pose proof (le32_range tail (i + 12) Hb). pose proof (le32_range tail (i + 16) Hb).
  rewrite !u64_small by lia. unfold eocd_at. by destruct (_ && _).
Qed.

Lemma scan_eocd_spec tail file_size index :
  Forall is_byte tail -> Z.of_nat index + 22 <= Z.of_nat (length tail) -> 0 <= file_size < 2 ^ 63 ->
  (exists i, last_signature tail index i /\
     scan_eocd tail file_size index = Done (eocd_at tail file_size (Z.of_nat i))) \/
  ((forall j, (j <= index)%nat -> ~ signature_at tail j) /\
     scan_eocd tail file_size index = Done (inl INSTALL_ERROR_ARCHIVE)).
Proof.
  intros Hb Hn Hf.
  assert (forall k, (k <= index)%nat ->
    read_le32 tail (Z.of_nat k) = Done (le32_at tail (Z.of_nat k))) as Hsig
    by (intros k Hk; apply read_le32_spec; (done || lia)).
  induction index as [|index IH]; cbn [scan_eocd]; rewrite Hsig by lia; run;
    destruct (_ =? EOCD_SIGNATURE) eqn:E; rewrite ?Z.eqb_eq, ?Z.eqb_neq in E.
  - left. exists O. split; [split_and!; [done|done|lia]|]. apply read_eocd_spec; (done || lia).
  - right. split; [|done]. intros j Hj. by replace j with O by lia.
  - left. exists (S index). split; [split_and!; [done|done|lia]|]. apply read_eocd_spec; (done || lia).
  - destruct IH as [(i & (H1 & H2 & H3) & ->)|[H ->]]; [lia|by auto|left|right].
    + exists i. split; [|done]. split_and!; [lia|done|]. intros j Hj.
      destruct (decide (j = S index)) as [->|]; [done|]. apply H3. lia.
    + split; [|done]. intros j Hj. destruct (decide (j = S index)) as [->|]; [done|]. apply H. lia.
Qed.
End eocd.

(** The bytes of the record an archiver writes at the end of an archive without
    comment. *)
Definition le_bytes (n : nat) (v : Z) : bytes := (fun i => v / 2 ^ (8 * Z.of_nat i) mod 2 ^ 8) <$> seq 0 n.
Definition eocd_bytes (entries size offset : Z) : bytes :=
  le_bytes 4 EOCD_SIGNATURE ++ le_bytes 2 0 ++ le_bytes 2 0 ++ le_bytes 2 entries ++
  le_bytes 2 entries ++ le_bytes 4 size ++ le_bytes 4 offset ++ le_bytes 2 0.

Lemma slice_app_r (p q : bytes) (i : Z) n :
  0 <= i -> slice (p ++ q) (Z.to_nat (Z.of_nat (length p) + i)) n = slice q (Z.to_nat i) n.
Proof.
  intros. unfold slice. replace (Z.to_nat (Z.of_nat (length p) + i)) with (length p + Z.to_nat i)%nat by lia.
  by rewrite drop_app_add.
Qed.

Lemma le_bytes_value2 v : 0 <= v < 2 ^ 16 -> little_endian (le_bytes 2 v) = v.
Proof. intros. unfold le_bytes. simpl. change (Z.of_nat 0) with 0. change (Z.of_nat 1) with 1. lia. Qed.

Lemma le_bytes_value4 v : 0 <= v < 2 ^ 32 -> little_endian (le_bytes 4 v) = v.
Proof.
  intros. unfold le_bytes. simpl. change (Z.of_nat 0) with 0. change (Z.of_nat 1) with 1.
  change (Z.of_nat 2) with 2. change (Z.of_nat 3) with 3. lia.
Qed.

Lemma le_bytes_byte n v : Forall is_byte (le_bytes n v).
Proof. apply Forall_fmap, Forall_true. intros i. simpl. unfold is_byte. apply Z.mod_pos_bound. lia. Qed.

Lemma le_bytes_length n v : length (le_bytes n v) = n.
Proof. unfold le_bytes. by rewrite length_fmap, length_seq. Qed.

(** Reading back a field of a concatenation. *)
Section concatenation.
Implicit Types (p q : bytes).

Lemma le16_head p q i : length p = 2%nat -> i = 0 -> le16_at (p ++ q) i = little_endian p.
Proof. intros H ->. unfold le16_at, slice. change (Z.to_nat 0) with O. rewrite drop_0. by rewrite take_app_length'. Qed.

Lemma le32_head p q i : length p = 4%nat -> i = 0 -> le32_at (p ++ q) i = little_endian p.
Proof. intros H ->. unfold le32_at, slice. change (Z.to_nat 0) with O. rewrite drop_0. by rewrite take_app_length'. Qed.

Lemma le16_skip p q i : Z.of_nat (length p) <= i -> le16_at (p ++ q) i = le16_at q (i - Z.of_nat (length p)).
Proof.
  intros H. unfold le16_at. rewrite <-(slice_app_r p q) by lia. do 2 f_equal. lia.
Qed.

Lemma le32_skip p q i : Z.of_nat (length p) <= i -> le32_at (p ++ q) i = le32_at q (i - Z.of_nat (length p)).
Proof.
  intros H. unfold le32_at. rewrite <-(slice_app_r p q) by lia. do 2 f_equal. lia.
Qed.
End concatenation.

Ltac read_back :=
  repeat first [ rewrite le16_head by lia | rewrite le32_head by lia
               | rewrite le16_skip by lia | rewrite le32_skip by lia ].

Lemma eocd_bytes_fields entries size offset :
  0 <= entries < 2 ^ 16 -> 0 <= size < 2 ^ 32 -> 0 <= offset < 2 ^ 32 ->
  let e := eocd_bytes entries size offset in
  le32_at e 0 = EOCD_SIGNATURE /\ le16_at e 4 = 0 /\ le16_at e 6 = 0 /\ le16_at e 8 = entries /\
  le16_at e 10 = entries /\ le32_at e 12 = size /\ le32_at e 16 = offset.
Proof.
  intros He Hs Ho. unfold eocd_bytes.
  pose proof (le_bytes_length 4 EOCD_SIGNATURE). pose proof (le_bytes_length 2 0).
  pose proof (le_bytes_length 2 entries). pose proof (le_bytes_length 4 size).
  pose proof (le_bytes_length 4 offset).
  assert (0 <= EOCD_SIGNATURE < 2 ^ 32) by (unfold EOCD_SIGNATURE; lia).
  split_and!; read_back; by rewrite ?le_bytes_value2, ?le_bytes_value4 by lia.
Qed.

Lemma eocd_bytes_length entries size offset : length (eocd_bytes entries size offset) = 22%nat.
Proof. unfold eocd_bytes. by rewrite !length_app, !le_bytes_length. Qed.

Lemma eocd_bytes_byte entries size offset : Forall is_byte (eocd_bytes entries size offset).
Proof. unfold eocd_bytes. rewrite !Forall_app. split_and!; apply le_bytes_byte. Qed.

#[export] Hint Resolve eocd_bytes_byte le_bytes_byte : vita.

(** * param.sfo: what is found *)

Definition not_NUL (c : Z) : bool := negb (c =? NUL).

(** The C string at the start of [p]. *)
Definition string_at (p : bytes) : bytes := take_while not_NUL p.
Definition has_NUL (p : bytes) : bool := existsb (Z.eqb NUL) p.

(** The key and the value of entry [i], when its offsets and its strings lie in
    the buffer. *)
Definition sfo_field (buffer : bytes) (i : nat) : option (bytes * bytes) :=
  let e := 20 + 16 * Z.of_nat i in
  let size := Z.of_nat (length buffer) in
  let k := le32_at buffer 8 + le16_at buffer e in
  let d := le32_at buffer 12 + le32_at buffer (e + 12) in
  let n := le32_at buffer (e + 4) in
  if (k <? size) && (d <? size) && (0 <? n) && (n <=? size - d) &&
     has_NUL (at_offset buffer k) && has_NUL (take (Z.to_nat n) (at_offset buffer d))
  then Some (string_at (at_offset buffer k), string_at (at_offset buffer d)) else None.

(** The entries of a file with a plausible header. *)
Definition sfo_fields (buffer : bytes) : list (option (bytes * bytes)) :=
  if (20 <=? Z.of_nat (length buffer)) && (le32_at buffer 0 =? 0x46535000) &&
     (le32_at buffer 16 <=? (Z.of_nat (length buffer) - 20) / 16)
  then sfo_field buffer <$> seq 0 (Z.to_nat (le32_at buffer 16)) else [].

(** The first value under [key], if no malformed entry comes before it. *)
Fixpoint sfo_lookup (fields : list (option (bytes * bytes))) (key : bytes) : option bytes :=
  match fields with
  | Some (k, v) :: fields => if decide (k = key) then Some v else sfo_lookup fields key
  | _ => None
  end.

Section strings.
Implicit Types (p : bytes).

Lemma memchr_nul_spec p n : (n <= length p)%nat -> memchr_nul p n = Done (has_NUL (take n p)).
Proof.
  revert p. induction n as [|n IH]; intros p Hn; [done|]. destruct p as [|c p]; simpl in *; [lia|].
  unfold has_NUL. simpl. rewrite (Z.eqb_sym NUL c). destruct (c =? NUL); [done|]. apply IH. lia.
Qed.

Lemma cstr_string_at p : has_NUL p = true -> cstr p = Done (string_at p).
Proof.
  unfold has_NUL, string_at. induction p as [|c p IH]; simpl; [done|].
  rewrite (Z.eqb_sym NUL c). unfold not_NUL. destruct (c =? NUL); simpl; [done|].
  intros H. rewrite IH by done. done.
Qed.

Lemma bounded_string_length_spec p n :
  has_NUL (take n p) = true -> bounded_string_length p n = Done (length (string_at p)).
Proof.
  unfold has_NUL, string_at. revert p. induction n as [|n IH]; intros p; [done|].
  destruct p as [|c p]; simpl; [done|]. rewrite (Z.eqb_sym NUL c). unfold not_NUL.
  destruct (c =? NUL); simpl; [done|]. intros H. rewrite IH by done. done.
Qed.

Lemma string_at_lt p n : has_NUL (take n p) = true -> (length (string_at p) < n)%nat.
Proof.
  unfold has_NUL, string_at. revert p. induction n as [|n IH]; intros p; [done|].
  destruct p as [|c p]; simpl; [done|]. rewrite (Z.eqb_sym NUL c). unfold not_NUL.
  destruct (c =? NUL); simpl; [lia|]. intros H. specialize (IH p H).
  change (S (length (take_while not_NUL p)) < S n)%nat. lia.
Qed.

Lemma take_string_at p n : (n <= length (string_at p))%nat -> take n p = take n (string_at p).
Proof.
  intros Hn. unfold string_at in *. rewrite <-(take_drop_while not_NUL p) at 1.
  by rewrite take_app_le.
Qed.
End strings.

(** The value copied: the string, cut to the size of the array. *)
Lemma sfo_value p vsize :
  0 < vsize ->
  let n := Z.of_nat (length (string_at p)) in
  take (Z.to_nat (if vsize <=? n then vsize - 1 else n)) p = take (Z.to_nat (vsize - 1)) (string_at p).
Proof.
  intros Hv n. subst n. destruct (Z.leb_spec vsize (Z.of_nat (length (string_at p)))).
  - rewrite take_string_at by lia. done.
  - rewrite take_string_at by lia. rewrite Nat2Z.id. by rewrite !take_ge by lia.
Qed.

Section sfo.
Context (buffer : bytes) (Hb : Forall is_byte buffer) (Hsize : Z.of_nat (length buffer) < 2 ^ 32).

Lemma at_offset_length o : 0 <= o -> Z.of_nat (length (at_offset buffer o)) = Z.max 0 (Z.of_nat (length buffer) - o).
Proof using Type. intros. unfold at_offset. rewrite length_drop. lia. Qed.

Lemma read_SfoEntry_spec i :
  0 <= i -> 20 + 16 * (i + 1) <= Z.of_nat (length buffer) ->
  exists n a t v s d, read_SfoEntry buffer i = Done (Entry n a t v s d) /\
    n = le16_at buffer (20 + 16 * i) /\ v = le32_at buffer (20 + 16 * i + 4) /\
    d = le32_at buffer (20 + 16 * i + 12).
Proof using Hb.
  intros Hi Hn. unfold read_SfoEntry, sizeof_SfoHeader, sizeof_SfoEntry.
  pose proof (load_slice buffer (20 + 16 * i + 2) 2 ltac:(lia) ltac:(lia)) as HL.
  pose proof (HL 0%nat ltac:(lia)) as H0. pose proof (HL 1%nat ltac:(lia)) as H1.
  replace (20 + 16 * i + 2 + Z.of_nat 0) with (20 + 16 * i + 2) in H0 by lia.
  replace (20 + 16 * i + 2 + Z.of_nat 1) with (20 + 16 * i + 3) in H1 by lia.
  rewrite read_le16_spec, !read_le32_spec by (done || lia). run. rewrite H0. run. rewrite H1. run.
  by repeat eexists.
Qed.

Lemma sfo_entries_spec h key vsize n i :
  key_offset h = le32_at buffer 8 -> value_offset h = le32_at buffer 12 -> 0 < vsize ->
  20 + 16 * Z.of_nat (i + n) <= Z.of_nat (length buffer) ->
  sfo_entries buffer (Z.of_nat (length buffer)) h key vsize n (Z.of_nat i) =
  Done (match sfo_lookup (sfo_field buffer <$> seq i n) key with
        | Some v => (0, Some (take (Z.to_nat (vsize - 1)) v))
        | None => (INSTALL_ERROR_SFO, None)
        end).
Proof using All.
  intros Hk Hv Hvs. revert i. induction n as [|n IH]; intros i Hn; [done|].
  cbn [sfo_entries seq fmap list_fmap sfo_lookup].
  destruct (read_SfoEntry_spec (Z.of_nat i)) as (no & a & t & vs & ts & d & -> & -> & -> & ->); [lia|lia|]. run.
  cbn [name_offset data_offset value_size]. rewrite Hk, Hv.
  pose proof (eq_refl (sfo_field buffer i)) as E. unfold sfo_field at 2 in E. rewrite E. clear E.
  pose proof (le32_range buffer 8 Hb). pose proof (le32_range buffer 12 Hb).
  pose proof (le16_range buffer (20 + 16 * Z.of_nat i) Hb).
  pose proof (le32_range buffer (20 + 16 * Z.of_nat i + 4) Hb).
  pose proof (le32_range buffer (20 + 16 * Z.of_nat i + 12) Hb).
  set (size := Z.of_nat (length buffer)) in *.
  set (kf := le32_at buffer 8 + le16_at buffer (20 + 16 * Z.of_nat i)) in *.
  set (df := le32_at buffer 12 + le32_at buffer (20 + 16 * Z.of_nat i + 12)) in *.
  set (nv := le32_at buffer (20 + 16 * Z.of_nat i + 4)) in *.
  rewrite (u64_small kf), (u64_small df) by lia.
  destruct (Z.leb_spec size kf); [by rewrite (proj2 (Z.ltb_ge kf size))|].
  destruct (Z.leb_spec size df); [by rewrite (proj2 (Z.ltb_ge df size)), andb_false_r|].
  rewrite (u64_small (size - df)) by lia. cbn [orb].
  rewrite (proj2 (Z.ltb_lt kf size)), (proj2 (Z.ltb_lt df size)) by done. cbn [andb].
  destruct (Z.eqb_spec nv 0) as [->|]; [done|].
  destruct (Z.ltb_spec (size - df) nv); [by rewrite (proj2 (Z.leb_gt nv (size - df))), andb_false_r|].
  cbn [orb]. rewrite (proj2 (Z.ltb_lt 0 nv)), (proj2 (Z.leb_le nv (size - df))) by lia. cbn [andb].
  pose proof (at_offset_length kf ltac:(lia)). pose proof (at_offset_length df ltac:(lia)).
  fold size in H7, H8. rewrite (memchr_nul_spec (at_offset buffer kf)), (take_ge (at_offset buffer kf)) by lia. run.
  destruct (has_NUL (at_offset buffer kf)) eqn:Hkn; cbn [andb negb orb]; run; [|done].
  rewrite memchr_nul_spec by lia. run.
  destruct (has_NUL (take (Z.to_nat nv) (at_offset buffer df))) eqn:Hdn; cbn [negb orb]; [|done].
  rewrite cstr_string_at by done. run.
  destruct (decide (string_at (at_offset buffer kf) = key)) as [E|E].
  - rewrite bool_decide_eq_true_2 by done. cbn [negb].
    rewrite bounded_string_length_spec by done. run. by rewrite sfo_value.
  - rewrite bool_decide_eq_false_2 by done. cbn [negb].
    replace (Z.of_nat i + 1) with (Z.of_nat (S i)) by lia. apply IH. lia.
Qed.

Lemma sfo_string_spec key vsize :
  0 < vsize ->
  sfo_string buffer (Z.of_nat (length buffer)) key vsize =
  Done (match sfo_lookup (sfo_fields buffer) key with
        | Some v => (0, Some (take (Z.to_nat (vsize - 1)) v))
        | None => (INSTALL_ERROR_SFO, None)
        end).
Proof using All.
  intros Hvs. unfold sfo_string, sfo_fields, sizeof_SfoHeader, sizeof_SfoEntry.
  destruct (Z.ltb_spec (Z.of_nat (length buffer)) 20).
  { rewrite (proj2 (Z.leb_gt _ _)) by done. done. }
  rewrite (proj2 (Z.eqb_neq vsize 0)) by lia. cbn [orb].
  unfold read_SfoHeader. rewrite !read_le32_spec by (done || lia). run. cbn [magic count].
  fold (le32_at buffer 0) (le32_at buffer 4) (le32_at buffer 8) (le32_at buffer 12) (le32_at buffer 16).
  rewrite (proj2 (Z.leb_le 20 _)) by lia. cbn [andb].
  destruct (le32_at buffer 0 =? 0x46535000); [|done]. cbn [negb orb andb].
  pose proof (le32_range buffer 16 Hb).
  destruct (Z.ltb_spec ((Z.of_nat (length buffer) - 20) / 16) (le32_at buffer 16)).
  { rewrite (proj2 (Z.leb_gt _ _)) by done. done. }
  rewrite (proj2 (Z.leb_le _ _)) by done.
  apply (sfo_entries_spec (Header _ _ _ _ _) key vsize _ 0); [done|done|done|].
  assert (16 * ((Z.of_nat (length buffer) - 20) / 16) <= Z.of_nat (length buffer) - 20) by (apply Z.mul_div_le; lia).
  lia.
Qed.
End sfo.

Lemma string_at_NUL_free p : Forall (fun c => c <> NUL) (string_at p).
Proof.
  eapply Forall_impl; [apply take_while_all|]. intros c. unfold not_NUL. simpl. lia.
Qed.

Lemma valid_title_id_spec t :
  valid_title_id t = true <->
  length t = 9%nat /\ Forall (fun c => 65 <= c <= 90 \/ 48 <= c <= 57) t.
Proof.
  unfold valid_title_id. destruct (Z.eqb_spec (Z.of_nat (length t)) 9) as [E|E]; cbn [negb].
  - rewrite forallb_forall, Forall_forall. split.
    + intros H. split; [lia|]. intros c Hc. specialize (H c). rewrite <-list_elem_of_In in H.
      specialize (H Hc). lia.
    + intros [_ H] c Hc. apply list_elem_of_In in Hc. specialize (H c Hc). simpl in H. lia.
  - split; [done|]. intros [? _]. lia.
Qed.

(** * The package header: what is written *)

(** The checksum of VitaShell's fake packages over [m], in terms of SHA-1. *)
Definition fpkg_block_of (h : bytes) : bytes :=
  let key := slice h 12 4 ++ [h !!! 16%nat] ++ slice h 1 3 in
  slice h 4 8 ++ slice h 4 8 ++ key ++ key ++ replicate 32 0.
Definition fpkg_mac (m : bytes) : bytes := take 16 (fips_sha1 (fpkg_block_of (fips_sha1 m))).

(** A header with [content] in its content id field. *)
Definition head_with (content : bytes) : bytes :=
  list_inserts 0x30 (content ++ replicate (48 - length content) 0) vita_shell_head_bin.

(** The header with its three checksums: of the first 256 bytes, of the 336 bytes
    from 640, and of everything before the last. *)
Definition signed_head (content : bytes) : bytes :=
  let head := head_with content in
  let head := list_inserts 256 (fpkg_mac (take 256 head)) head in
  let head := list_inserts 1040 (fpkg_mac (take 336 (drop 640 head))) head in
  list_inserts 1056 (fpkg_mac (take 1056 head)) head.

Section head.
Context (context : SHA1_CTX) (Hctx : block_ok (Sha1.data context)).

Lemma fpkg_block_spec h :
  length h = 20%nat -> fpkg_block h = Done (fpkg_block_of h) .
Proof using Type.
  intros Hh. do 20 (destruct h as [|? h]; [done|]). destruct h; [|done]. reflexivity.
Qed.

Lemma fpkg_block_of_bytes h : Forall is_byte h -> length h = 20%nat -> Forall is_byte (fpkg_block_of h).
Proof using Type.
  intros Hb Hl. unfold fpkg_block_of. rewrite !Forall_app. split_and!; try by apply slice_bytes.
  1,2: constructor; [|done]; by apply lookup_byte. apply zeros_bytes.
Qed.

Lemma fpkg_hmac_spec d n :
  Forall is_byte d -> (n <= length d)%nat -> fpkg_hmac context d (Z.of_nat n) = Done (fpkg_mac (take n d)).
Proof using All.
  intros Hb Hn. destruct Hctx as [Hcl Hcb]. unfold fpkg_hmac. rewrite Nat2Z.id.
  rewrite (proj2 (Z.ltb_ge _ _)) by lia.
  pose proof (sha1_update_repr _ [] (take n d) (sha1_init_repr context Hcl Hcb) (Forall_take _ _ _ Hb)) as Hr.
  pose proof (sha1_final_fips _ _ Hr) as E. destruct (sha1_final_block _ _ Hr) as [Hcl' Hcb'].
  destruct (sha1_final _) as [context' h]. cbn [fst snd] in *. subst h.
  rewrite fpkg_block_spec by apply fips_sha1_length. run.
  pose proof (sha1_update_repr _ [] _ (sha1_init_repr context' Hcl' Hcb')
    (fpkg_block_of_bytes _ (fips_sha1_bytes (take n d)) (fips_sha1_length _))) as Hr'.
  pose proof (sha1_final_fips _ _ Hr') as E. destruct (sha1_final _) as [context'' h]. cbn [fst snd] in *. subst h.
  done.
Qed.

Lemma fpkg_mac_ok m : length (fpkg_mac m) = 16%nat /\ Forall is_byte (fpkg_mac m).
Proof using Type.
  unfold fpkg_mac. split; [by rewrite length_take, fips_sha1_length|]. apply Forall_take, fips_sha1_bytes.
Qed.

Lemma memcpy_in buf (o : nat) src :
  (o + length src <= length buf)%nat -> memcpy buf (Z.of_nat o) src = Done (list_inserts o src buf).
Proof using Type.
  intros H. unfold memcpy. rewrite Nat2Z.id.
  rewrite (proj2 (Z.leb_le 0 _)), (proj2 (Z.leb_le _ (Z.of_nat (length buf)))) by lia. done.
Qed.

(** A field outside the bytes written. *)
Lemma slice_inserts_outside buf o src i n :
  (i + n <= o \/ o + length src <= i)%nat -> slice (list_inserts o src buf) i n = slice buf i n.
Proof using Type.
  intros H. unfold slice. apply list_eq. intros j.
  destruct (decide (j < n)%nat); [|by rewrite !lookup_take_ge by lia].
  rewrite !lookup_take_lt, !lookup_drop by done.
  destruct H; [by rewrite list_lookup_inserts_lt by lia|by rewrite list_lookup_inserts_ge by lia].
Qed.

(** Overwriting the start of what was just written. *)
Lemma inserts_over (buf c z : bytes) o :
  (length c <= length z)%nat -> (o + length z <= length buf)%nat ->
  list_inserts o c (list_inserts o z buf) = list_inserts o (c ++ drop (length c) z) buf.
Proof using Type.
  intros Hc Hz. apply list_eq. intros i.
  assert (length (c ++ drop (length c) z) = length z) as Hl by (rewrite length_app, length_drop; lia).
  destruct (decide (i < o)%nat); [by rewrite !list_lookup_inserts_lt by lia|].
  destruct (decide (i < o + length c)%nat).
  - rewrite !list_lookup_inserts by (rewrite ?length_inserts; lia). by rewrite lookup_app_l by lia.
  - rewrite list_lookup_inserts_ge by lia. destruct (decide (i < o + length z)%nat).
    + rewrite !list_lookup_inserts by lia. rewrite lookup_app_r, lookup_drop by lia. f_equal. lia.
    + by rewrite !list_lookup_inserts_ge by lia.
Qed.

Lemma template_bytes : Forall is_byte vita_shell_head_bin.
Proof using Type.
  solve_bytes.
Qed.

Lemma template_length : length vita_shell_head_bin = 1072%nat.
Proof using Type. reflexivity. Qed.

(** Reading a field of the template in a header whose changes are elsewhere. *)
Lemma read_head_field head o (v : Z) :
  Forall is_byte head -> length head = 1072%nat -> 0 <= o -> o + 4 <= 1072 ->
  slice head (Z.to_nat o) 4 = slice vita_shell_head_bin (Z.to_nat o) 4 ->
  big_endian (slice vita_shell_head_bin (Z.to_nat o) 4) = v -> read_be32 head o = Done v.
Proof using Type. intros Hb Hl ? ? E <-. rewrite read_be32_spec, E by (done || lia). done. Qed.

Lemma string_at_bytes p : Forall is_byte p -> Forall is_byte (string_at p).
Proof using Type. intros. by apply Forall_take_while. Qed.

Lemma bind_done {A B} (a : A) (f : A -> outcome B) : Done a ≫= f = f a.
Proof using Type. done. Qed.

Ltac bind_step := rewrite bind_done; cbv beta.

(** What every stage of the header is, and how a checksum is added to it. *)
Definition head_ok (head : bytes) : Prop := Forall is_byte head /\ length head = 1072%nat.

Lemma head_ok_inserts head o src : head_ok head -> Forall is_byte src -> head_ok (list_inserts o src head).
Proof using Type. intros [Hb Hl] Hs. split; [by apply Forall_inserts|by rewrite length_inserts]. Qed.

Lemma sign_spec {B} head d (n o : nat) (rest : bytes -> outcome B) :
  head_ok head -> Forall is_byte d -> (n <= length d)%nat -> (o + 16 <= 1072)%nat ->
  (hmac ← fpkg_hmac context d (Z.of_nat n); head ← memcpy head (Z.of_nat o) hmac; rest head) =
    rest (list_inserts o (fpkg_mac (take n d)) head) /\
  head_ok (list_inserts o (fpkg_mac (take n d)) head).
Proof using All.
  intros Hh Hd Hn Ho. destruct (fpkg_mac_ok (take n d)) as [Hm Hmb].
  rewrite fpkg_hmac_spec, bind_done by done. split; [|by apply head_ok_inserts].
  rewrite memcpy_in, bind_done; [done|]. destruct Hh as [_ ->]. lia.
Qed.

Ltac sign H := rewrite (proj1 (H _ _)); cbv beta.
Ltac check := match goal with
  | |- context [if ?b then Done None else _] => replace b with false by (vm_compute; reflexivity)
  end; cbv iota.

Lemma patch_head_spec sel :
  Forall is_byte sel -> has_NUL (take 48 sel) = true ->
  patch_head context sel = Done (Some (signed_head (string_at sel))).
Proof using All.
  intros Hsel Hnul. unfold patch_head.
  pose proof (string_at_lt _ _ Hnul) as Hc.
  assert (take (length (string_at sel)) sel = string_at sel) as Hts by (rewrite take_string_at by done; by apply take_ge).
  pose proof (string_at_bytes _ Hsel) as Hcb. set (c := string_at sel) in *.
  change 0x30 with (Z.of_nat 48). rewrite memcpy_in by (rewrite length_replicate, template_length; lia). bind_step.
  rewrite (bounded_string_length_spec _ _ Hnul). bind_step. fold c. rewrite Hts.
  rewrite memcpy_in by (rewrite length_inserts, template_length; lia). bind_step.
  rewrite inserts_over by (rewrite ?length_replicate, ?template_length; lia).
  rewrite drop_replicate.
  set (content := c ++ replicate (48 - length c) 0).
  assert (length content = 48%nat) as Hcl by (unfold content; rewrite length_app, length_replicate; lia).
  assert (Forall is_byte content) as Hcontent by (unfold content; apply Forall_app; split; [done|apply zeros_bytes]).
  remember (list_inserts 48 content vita_shell_head_bin) as head eqn:E0.
  assert (head_ok head) as H0
    by (rewrite E0; apply head_ok_inserts; [split; [apply template_bytes|done]|done]).
  assert (forall i n, (96 <= i \/ i + n <= 48)%nat -> slice head i n = slice vita_shell_head_bin i n) as Hs0
    by (intros i n Hi; rewrite E0; apply slice_inserts_outside; lia).
  rewrite (read_head_field head 0xD0 256) by (apply H0 || lia || (apply Hs0; lia) || done). bind_step. check.
  pose proof (fun B rest => sign_spec (B := B) head head 256 256 rest H0 (proj1 H0) ltac:(rewrite (proj2 H0); lia) ltac:(lia)) as S1.
  change 256 with (Z.of_nat 256). sign S1.
  remember (list_inserts 256 _ head) as head1 eqn:E1. pose proof (proj2 (S1 _ (fun h => Done h))) as H1.
  assert (forall i n, (272 <= i \/ 96 <= i /\ i + n <= 256 \/ i + n <= 48)%nat ->
    slice head1 i n = slice vita_shell_head_bin i n) as Hs1
    by (intros i n Hi; rewrite E1, slice_inserts_outside by (rewrite (proj1 (fpkg_mac_ok _)); lia); apply Hs0; lia).
  rewrite (read_head_field head1 0x8 640) by (apply H1 || lia || (apply Hs1; lia) || done). bind_step.
  rewrite (read_head_field head1 0x10 400) by (apply H1 || lia || (apply Hs1; lia) || done). bind_step.
  rewrite (read_head_field head1 0xD4 1040) by (apply H1 || lia || (apply Hs1; lia) || done). bind_step. check.
  change (u32 (400 - 64)) with (Z.of_nat 336). unfold at_offset. change (Z.to_nat 640) with 640%nat.
  pose proof (fun B rest => sign_spec (B := B) head1 (drop 640 head1) 336 1040 rest H1 (Forall_drop _ _ _ (proj1 H1))
    ltac:(rewrite length_drop, (proj2 H1); lia) ltac:(lia)) as S2.
  change 1040 with (Z.of_nat 1040). sign S2.
  remember (list_inserts 1040 _ head1) as head2 eqn:E2. pose proof (proj2 (S2 _ (fun h => Done h))) as H2.
  rewrite (read_head_field head2 0xE8 1056)
    by (apply H2 || lia || (rewrite E2, slice_inserts_outside by (rewrite (proj1 (fpkg_mac_ok _)); lia); apply Hs1; lia) || done).
  bind_step. check.
  pose proof (fun B rest => sign_spec (B := B) head2 head2 1056 1056 rest H2 (proj1 H2) ltac:(rewrite (proj2 H2); lia) ltac:(lia)) as S3.
  change 1056 with (Z.of_nat 1056). sign S3.
  unfold signed_head, head_with. cbv zeta. fold content. by rewrite <-E0, <-E1, <-E2.
Qed.
End head.

(** * Properties *)

(** C32: the archive path check ends on every string and accepts exactly the
    relative paths whose components, between slashes and with at most one slash at
    the end, are not empty, not [.], not [..] and hold no [:] and no [\]; a null
    path is refused. *)
Theorem is_safe_archive_path_correct (path : ptr bytes) :
  exists b, is_safe_archive_path path = Done b /\
    (b = true <-> exists p, path = Some p /\ safe_path p).
Proof.
  destruct path as [p|].
  - destruct (is_safe_spec p) as (b & -> & Hb). exists b. split; [done|]. rewrite Hb. split; [eauto|].
    by intros (p' & [= ->] & ?).
  - exists false. split; [done|]. split; [done|]. by intros (? & ? & _).
Qed.

(** C37: on every tail of an archive that can hold an end record, the search stays
    inside the tail and ends, and its result is that of the last signature in the
    tail: the offset and the count of that record if it describes a single-disk
    archive whose directory lies in the file, an error otherwise, and an error if
    there is no signature. *)
Theorem eocd_search_correct tail file_size :
  Forall is_byte tail -> (22 <= length tail)%nat -> 0 <= file_size < 2 ^ 63 ->
  (exists i, last_signature tail (length tail - 22) i /\
     scan_eocd tail file_size (length tail - 22) = Done (eocd_at tail file_size (Z.of_nat i))) \/
  ((forall j, (j <= length tail - 22)%nat -> ~ signature_at tail j) /\
     scan_eocd tail file_size (length tail - 22) = Done (inl INSTALL_ERROR_ARCHIVE)).
Proof. intros. apply scan_eocd_spec; (done || lia). Qed.

(** A tail with two records: the second counts. *)
Lemma eocd_search_correct_witness :
  let tail := eocd_bytes 1 2 3 ++ eocd_bytes 4 50 600 in
  last_signature tail 22 22 /\ scan_eocd tail 1000 22 = Done (inr (600, 4)).
Proof.
  intros tail. destruct (eocd_search_correct tail 1000) as [(i & (Hi & Hs & Hl) & E)|[H _]].
  - apply Forall_app. split; apply eocd_bytes_byte.
  - vm_compute. lia.
  - lia.
  - change (length tail - 22)%nat with 22%nat in *. assert (i = 22%nat) as ->.
    { destruct (decide (i = 22%nat)) as [|Hne]; [done|]. exfalso. apply (Hl 22%nat); [lia|]. vm_compute. reflexivity. }
    split; [done|]. rewrite E. vm_compute. reflexivity.
  - exfalso. apply (H 22%nat); [vm_compute; lia|]. vm_compute. reflexivity.
Defined.

(** The end record an archiver writes for a single-disk archive without
    comment is found, and its directory offset and entry count are read back. *)
Theorem eocd_roundtrip body entries size offset file_size :
  Forall is_byte body -> 0 <= entries < 0xFFFF -> 0 <= size < 2 ^ 32 -> 0 <= offset < 2 ^ 32 ->
  offset + size <= file_size < 2 ^ 63 ->
  scan_eocd (body ++ eocd_bytes entries size offset) file_size (length body) = Done (inr (offset, entries)).
Proof.
  intros Hb He Hs Ho Hf. set (tail := body ++ eocd_bytes entries size offset).
  assert (Forall is_byte tail) as Ht by (apply Forall_app; split; [done|apply eocd_bytes_byte]).
  assert (length tail = (length body + 22)%nat) as Hl by (unfold tail; by rewrite length_app, eocd_bytes_length).
  destruct (eocd_bytes_fields entries size offset) as (F0 & F4 & F6 & F8 & F10 & F12 & F16); [lia..|].
  assert (signature_at tail (length body)) as Hsig
    by (unfold signature_at, tail; rewrite le32_skip, Z.sub_diag by lia; done).
  destruct (scan_eocd_spec tail file_size (length body)) as [(i & (Hi & _ & Hmax) & ->)|[H _]]; [done|lia|lia| |].
  - assert (i = length body) as ->.
    { destruct (decide (i = length body)) as [|Hne]; [done|]. exfalso. apply (Hmax (length body)); [lia|done]. }
    unfold eocd_at, tail. rewrite !le16_skip, !le32_skip by lia.
    replace (Z.of_nat (length body) + 4 - Z.of_nat (length body)) with 4 by lia.
    replace (Z.of_nat (length body) + 6 - Z.of_nat (length body)) with 6 by lia.
    replace (Z.of_nat (length body) + 8 - Z.of_nat (length body)) with 8 by lia.
    replace (Z.of_nat (length body) + 10 - Z.of_nat (length body)) with 10 by lia.
    replace (Z.of_nat (length body) + 12 - Z.of_nat (length body)) with 12 by lia.
    replace (Z.of_nat (length body) + 16 - Z.of_nat (length body)) with 16 by lia.
    rewrite F4, F6, F8, F10, F12, F16, !Z.eqb_refl, (proj2 (Z.eqb_neq _ _)), (proj2 (Z.leb_le _ _)) by lia. done.
  - exfalso. by apply (H (length body)).
Qed.

Lemma eocd_roundtrip_witness :
  scan_eocd (lit "PK body" ++ eocd_bytes 2 100 40) 169 7 = Done (inr (40, 2)).
Proof.
  apply (eocd_roundtrip (lit "PK body") 2 100 40 169); [|lia..]. solve_bytes.
Defined.

(** C36: the lookup in a [param.sfo] reads only inside the buffer, whatever the
    buffer holds. It returns the value of the first entry with the key, cut to the
    size of the caller's array, provided the header is plausible and no entry up to
    that one has an offset or a string that leaves the buffer; otherwise it returns
    an error and writes nothing. *)
Theorem sfo_string_correct buffer key vsize :
  Forall is_byte buffer -> Z.of_nat (length buffer) < 2 ^ 32 -> 0 < vsize ->
  sfo_string buffer (Z.of_nat (length buffer)) key vsize =
  Done (match sfo_lookup (sfo_fields buffer) key with
        | Some v => (0, Some (take (Z.to_nat (vsize - 1)) v))
        | None => (INSTALL_ERROR_SFO, None)
        end).
Proof. intros. by apply sfo_string_spec. Qed.

(** One entry, [TITLE_ID] with the value [ABCD12345]. *)
Definition sfo_example : bytes :=
  le_bytes 4 0x46535000 ++ le_bytes 4 0x101 ++ le_bytes 4 36 ++ le_bytes 4 45 ++ le_bytes 4 1 ++
  le_bytes 2 0 ++ [4; 2] ++ le_bytes 4 10 ++ le_bytes 4 12 ++ le_bytes 4 0 ++
  lit "TITLE_ID" ++ [NUL] ++ lit "ABCD12345" ++ [NUL; NUL; NUL].

Lemma sfo_string_correct_witness :
  sfo_string sfo_example 57 (lit "TITLE_ID") 12 = Done (0, Some (lit "ABCD12345")) /\
  sfo_string sfo_example 57 (lit "CONTENT_ID") 48 = Done (INSTALL_ERROR_SFO, None).
Proof.
  assert (Forall is_byte sfo_example) as Hb.
  { solve_bytes. }
  change 57 with (Z.of_nat (length sfo_example)). split.
  - rewrite (sfo_string_correct sfo_example (lit "TITLE_ID") 12 Hb); [vm_compute; reflexivity|vm_compute; reflexivity|lia].
  - rewrite (sfo_string_correct sfo_example (lit "CONTENT_ID") 48 Hb); [vm_compute; reflexivity|vm_compute; reflexivity|lia].
Defined.

(** C35: for every content id, the template passes the three checks of
    [make_head_bin], no write leaves the 1072-byte header, and the result is the
    template with the content id padded to 48 bytes and the three checksums, each
    the truncated double SHA-1 of the FIPS 180-4 reference over the bytes it signs,
    computed after the previous one was stored. *)
Theorem patch_head_signs context selected :
  block_ok (data context) -> Forall is_byte selected -> has_NUL (take 48 selected) = true ->
  patch_head context selected = Done (Some (signed_head (string_at selected))) /\
  length (signed_head (string_at selected)) = 1072%nat.
Proof.
  intros Hc Hs Hn. split; [by apply patch_head_spec|].
  unfold signed_head, head_with. cbv zeta. rewrite !length_inserts. apply template_length.
Qed.

Lemma patch_head_signs_witness :
  let selected := lit "EP9000-ABCD12345_00-0000000000000000" ++ replicate 12 0 in
  patch_head (Sha1Ctx (replicate 64 7) 0 0 [] []) selected =
  Done (Some (signed_head (lit "EP9000-ABCD12345_00-0000000000000000"))).
Proof.
  intros selected.
  destruct (patch_head_signs (Sha1Ctx (replicate 64 7) 0 0 [] []) selected) as [H _].
  - split; [reflexivity|]. solve_bytes.
  - solve_bytes.
  - reflexivity.
  - exact H.
Defined.
