(* ===== verification/Package.v ===== *)
(** The package installer: src/package_installer.c.

    The operations that reach the file system, zlib and the promoter, in the monad
    of System; the installer keeps no state between calls.  A C string argument is
    the list of its bytes, an [int] result is a [Z], and results that come through
    pointers are returned beside it.  A file read is the list of the bytes stored;
    an answer that stores a number of bytes other than the one it reports, or more
    than the buffer holds, is undefined. *)

From S2P Require Import Prelude System Sha1 PackageFormat.

Abbreviation IO := (M unit).

(** 0777 and 0666. *)
Definition mode_dir : Z := 511.
Definition mode_file : Z := 438.

(** [strrchr(path, '/')], as the bytes before it. *)
Definition before_last_slash (path : bytes) : option bytes :=
  match drop_while not_slash (reverse path) with
  | [] => None
  | _ :: before => Some (reverse before)
  end.

(** * Directories *)

Definition is_dot (name : bytes) : bool := bool_decide (name = lit ".") || bool_decide (name = lit "..").

(** The tree and the loop over a directory. One unit of fuel is spent on every
    call and on every entry. *)
Fixpoint remove_tree (fuel : nat) (path : bytes) : IO Z :=
  match fuel with
  | O => lift NoFuel
  | S fuel =>
      '(result, stat) ← sys (sceIoGetstat (Some path));
      if result <? 0 then mret 0
      else if negb (st_isdir stat) then sys (sceIoRemove (Some path))
      else
        directory ← sys (sceIoDopen (Some path));
        if directory <? 0 then mret directory
        else
          result ← remove_entries fuel path directory;
          sys (sceIoDclose directory);;
          if result <? 0 then mret result else sys (sceIoRmdir (Some path))
  end
with remove_entries (fuel : nat) (path : bytes) (directory : Z) : IO Z :=
  match fuel with
  | O => lift NoFuel
  | S fuel =>
      '(result, entry) ← sys (sceIoDread directory);
      if result <=? 0 then mret result
      else if is_dot (d_name entry) then remove_entries fuel path directory
      else
        let child := path ++ lit "/" ++ d_name entry in
        if INSTALL_PATH_MAX <=? Z.of_nat (length child) then mret INSTALL_ERROR_ARCHIVE_PATH
        else
          result ← remove_tree fuel child;
          if result <? 0 then mret result else remove_entries fuel path directory
  end.

(** Making one directory; it may exist already. *)
Definition make_directory (path : bytes) : IO Z :=
  result ← sys (sceIoMkdir (Some path) mode_dir);
  if result <? 0 then
    '(stat_result, stat) ← sys (sceIoGetstat (Some path));
    if (stat_result <? 0) || negb (st_isdir stat) then mret result else mret 0
  else mret 0.

Definition not_colon (c : Z) : bool := negb (c =? COLON).

(** The loop: [before] is the part of [current] before the cursor. *)
Fixpoint make_prefixes (before rest : bytes) : IO Z :=
  match rest with
  | [] => mret 0
  | c :: rest =>
      result ← (if (c =? SLASH) && match last before with Some p => negb (p =? COLON) | None => false end
                then make_directory before else mret 0);
      if result <? 0 then mret result else make_prefixes (before ++ [c]) rest
  end.

Definition ensure_directory (path : bytes) : IO Z :=
  let length := Z.of_nat (length path) in
  if (length =? 0) || (INSTALL_PATH_MAX <=? length) then mret INSTALL_ERROR_ARCHIVE_PATH
  else
    result ← make_prefixes (take_while not_colon path) (drop_while not_colon path);
    if result <? 0 then mret result else make_directory path.

Definition ensure_parent_directory (path : bytes) : IO Z :=
  let length := Z.of_nat (length path) in
  if (length =? 0) || (INSTALL_PATH_MAX <=? length) then mret INSTALL_ERROR_ARCHIVE_PATH
  else match before_last_slash path with
       | NULL => mret INSTALL_ERROR_ARCHIVE_PATH
       | Some parent => ensure_directory parent
       end.

(** * Reading and writing *)

(** The bytes stored by a read into a buffer with [space] bytes left. *)
Definition stored (space n : Z) (data : bytes) : IO bytes :=
  if (Z.of_nat (length data) =? n) && (n <=? space) then mret data else lift Undefined.

(** The loop of [read_at] and [read_file]: [acc] holds the [done] bytes. *)
Fixpoint read_loop (fuel : nat) (file size : Z) (acc : bytes) : IO (Z + bytes) :=
  match fuel with
  | O => lift NoFuel
  | S fuel =>
      let space := size - Z.of_nat (length acc) in
      if 0 <? space then
        '(read, data) ← sys (sceIoRead file space);
        if read <=? 0 then mret (inl (if read <? 0 then read else INSTALL_ERROR_IO))
        else data ← stored space read data; read_loop fuel file size (acc ++ data)
      else mret (inr acc)
  end.

Section installer.
Context `{Sdk}.

Definition read_at (file offset size : Z) : IO (Z + bytes) :=
  position ← sys (sceIoLseek file offset SCE_SEEK_SET);
  if position <? 0 then mret (inl INSTALL_ERROR_IO)
  else read_loop (S (Z.to_nat size)) file size [].

Fixpoint write_loop (fuel : nat) (file : Z) (buffer : bytes) : IO Z :=
  match fuel with
  | O => lift NoFuel
  | S fuel =>
      match buffer with
      | [] => mret 0
      | _ =>
          written ← sys (sceIoWrite file buffer);
          if written <=? 0 then mret (if written <? 0 then written else INSTALL_ERROR_IO)
          else write_loop fuel file (drop (Z.to_nat written) buffer)
      end
  end.

Definition write_all (file : Z) (buffer : bytes) : IO Z :=
  write_loop (S (length buffer)) file buffer.

(** * Extraction of one entry *)

(** The locals the two loops of [extract_zip_data] update. *)
Record progress := Progress { result : Z; checksum : Z; produced_total : Z }.

Definition chunk_of (compressed_left : Z) : Z :=
  if compressed_left <? INSTALL_IO_BUFFER then compressed_left else INSTALL_IO_BUFFER.

(** Reading the next chunk: the bytes, or the error. *)
Definition read_chunk (input chunk_size : Z) : IO (Z + bytes) :=
  '(read, data) ← sys (sceIoRead input chunk_size);
  if negb (read =? chunk_size) then mret (inl (if read <? 0 then read else INSTALL_ERROR_IO))
  else data ← stored INSTALL_IO_BUFFER read data; mret (inr data).

(** Method 0. *)
Fixpoint copy_stored (fuel : nat) (input output compressed_left : Z) (p : progress) : IO progress :=
  match fuel with
  | O => lift NoFuel
  | S fuel =>
      if 0 <? compressed_left then
        let chunk_size := chunk_of compressed_left in
        chunk ← read_chunk input chunk_size;
        match chunk with
        | inl error => mret (Progress error (checksum p) (produced_total p))
        | inr data =>
            let sum := crc32 (checksum p) data in
            r ← write_all output data;
            if r <? 0 then mret (Progress r sum (produced_total p))
            else copy_stored fuel input output (compressed_left - chunk_size)
                   (Progress r sum (u32 (produced_total p + chunk_size)))
        end
      else mret p
  end.

(** Refilling the input of the stream, when it is empty: the input, what is left
    of the entry. *)
Definition refill (input : Z) (next_in : bytes) (compressed_left : Z) : IO (Z + bytes * Z) :=
  if bool_decide (next_in = []) && (0 <? compressed_left) then
    let chunk_size := chunk_of compressed_left in
    chunk ← read_chunk input chunk_size;
    mret (match chunk with
          | inl error => inl error
          | inr data => inr (data, compressed_left - chunk_size)
          end)
  else mret (inr (next_in, compressed_left)).

(** One call of [inflate] with an empty output buffer: the result, the input left
    and the output. *)
Definition inflate_step (next_in : bytes) : IO (Z * bytes * bytes) :=
  '(zresult, avail_in, out) ← sys (inflate next_in INSTALL_IO_BUFFER);
  if (Z.of_nat (length out) <=? INSTALL_IO_BUFFER) && (0 <=? avail_in)
     && (avail_in <=? Z.of_nat (length next_in))
  then mret (zresult, drop (length next_in - Z.to_nat avail_in) next_in, out)
  else lift Undefined.

(** Method 8. *)
Fixpoint inflate_loop (fuel : nat) (input output : Z) (next_in : bytes) (compressed_left : Z)
    (p : progress) : IO progress :=
  match fuel with
  | O => lift NoFuel
  | S fuel =>
      filled ← refill input next_in compressed_left;
      match filled with
      | inl error => mret (Progress error (checksum p) (produced_total p))
      | inr (next_in, compressed_left) =>
          '(zresult, next_in, out) ← inflate_step next_in;
          let produced := Z.of_nat (length out) in
          p ← (if 0 <? produced then
                 let sum := crc32 (checksum p) out in
                 r ← write_all output out;
                 mret (if r <? 0 then Progress r sum (produced_total p)
                       else Progress r sum (u32 (produced_total p + produced)))
               else mret p);
          if result p <? 0 then mret p
          else if zresult =? Z_STREAM_END then mret p
          else if negb (zresult =? Z_OK) ||
                  ((produced =? 0) && bool_decide (next_in = []) && (compressed_left =? 0))
          then mret (Progress INSTALL_ERROR_ARCHIVE (checksum p) (produced_total p))
          else inflate_loop fuel input output next_in compressed_left p
      end
  end.

(** Enough for both loops: a chunk each of the first; for the second, every
    iteration takes a byte of the input or gives a byte of output, and a deflate
    stream gives at most 1032 bytes per byte of input. *)
Definition stored_fuel (compressed_size : Z) : nat := S (S (Z.to_nat (compressed_size / INSTALL_IO_BUFFER))).
Definition inflate_fuel (compressed_size : Z) : nat := S (S (Z.to_nat (1033 * compressed_size))).

Definition extract_method (input output compressed_size uncompressed_size method : Z) (p : progress) : IO progress :=
  if method =? 0 then
    if negb (compressed_size =? uncompressed_size)
    then mret (Progress INSTALL_ERROR_ARCHIVE_SIZE (checksum p) (produced_total p))
    else copy_stored (stored_fuel compressed_size) input output compressed_size p
  else if method =? 8 then
    zresult ← sys (inflateInit2 (- MAX_WBITS));
    if negb (zresult =? Z_OK) then mret (Progress INSTALL_ERROR_ARCHIVE (checksum p) (produced_total p))
    else
      p ← inflate_loop (inflate_fuel compressed_size) input output [] compressed_size p;
      sys inflateEnd;; mret p
  else mret (Progress INSTALL_ERROR_ARCHIVE_TYPE (checksum p) (produced_total p)).

Definition extract_zip_data (input data_offset compressed_size uncompressed_size method expected_crc : Z)
    (destination : bytes) : IO Z :=
  r ← ensure_parent_directory destination;
  if r <? 0 then mret r
  else
    output ← sys (sceIoOpen (Some destination) (Z.lor (Z.lor SCE_O_WRONLY SCE_O_CREAT) SCE_O_TRUNC) mode_file);
    if output <? 0 then mret output
    else
      position ← sys (sceIoLseek input data_offset SCE_SEEK_SET);
      if position <? 0 then
        sys (sceIoClose output);; sys (sceIoRemove (Some destination));; mret INSTALL_ERROR_IO
      else
        input_buffer ← sys (malloc INSTALL_IO_BUFFER);
        output_buffer ← sys (malloc INSTALL_IO_BUFFER);
        if negb input_buffer || negb output_buffer then
          sys (free input_buffer);; sys (free output_buffer);;
          sys (sceIoClose output);; sys (sceIoRemove (Some destination));; mret INSTALL_ERROR_MEMORY
        else
          p ← extract_method input output compressed_size uncompressed_size method (Progress r crc32_initial 0);
          sys (free input_buffer);; sys (free output_buffer);; sys (sceIoClose output);;
          let r := if (0 <=? result p) && (negb (produced_total p =? uncompressed_size) ||
                                           negb (checksum p =? expected_crc))
                   then INSTALL_ERROR_ARCHIVE else result p in
          (if r <? 0 then sys (sceIoRemove (Some destination));; mret tt else mret tt);;
          mret r.

(** * The archive *)

Definition find_central_directory (file file_size : Z) : IO (Z + Z * Z) :=
  let tail_size := if file_size <? 0x10016 then file_size else 0x10016 in
  tail ← sys (malloc tail_size);
  if negb tail then mret (inl INSTALL_ERROR_MEMORY)
  else
    r ← read_at file (file_size - tail_size) tail_size;
    match r with
    | inl error => sys (free tail);; mret (inl error)
    | inr bytes =>
        found ← lift (scan_eocd bytes file_size (Z.to_nat (tail_size - 22)));
        sys (free tail);; mret found
    end.

(** The fields of a central directory header the code reads. *)
Record central_header := Central {
  flags : Z; method : Z; expected_crc : Z; compressed_size : Z; uncompressed_size : Z;
  name_size : Z; extra_size : Z; comment_size : Z; disk : Z; attributes : Z; local_offset : Z
}.

Definition sizeof_central : Z := 46.
Definition sizeof_local : Z := 30.

Definition read_central_header (central : bytes) : outcome central_header :=
  fl ← read_le16 central 8; me ← read_le16 central 10; cr ← read_le32 central 16;
  co ← read_le32 central 20; un ← read_le32 central 24; na ← read_le16 central 28;
  ex ← read_le16 central 30; cm ← read_le16 central 32; di ← read_le16 central 34;
  at_ ← read_le32 central 38; lo ← read_le32 central 42;
  Done (Central fl me cr co un na ex cm di at_ lo).

(** The header is refused. *)
Definition bad_central (c : central_header) (next file_size : Z) : bool :=
  negb (Z.land (flags c) 1 =? 0) || negb (disk c =? 0) || (name_size c =? 0) ||
  (INSTALL_PATH_MAX / 2 <=? name_size c) || (compressed_size c =? 0xFFFFFFFF) ||
  (uncompressed_size c =? 0xFFFFFFFF) || (local_offset c =? 0xFFFFFFFF) ||
  (negb (method c =? 0) && negb (method c =? 8)) || (file_size <? next).

(** The type of the entry, 0170000, 0100000 and 0040000 in octal, is refused. *)
Definition bad_type (attributes : Z) : bool :=
  let unix_type := Z.land (Z.shiftr attributes 16) 61440 in
  negb (unix_type =? 0) && negb (unix_type =? 32768) && negb (unix_type =? 16384).

(** The branch for an entry that is a file. *)
Definition extract_file (file file_size : Z) (c : central_header) (destination : bytes) : IO Z :=
  r ← read_at file (local_offset c) sizeof_local;
  match r with
  | inl _ => mret INSTALL_ERROR_ARCHIVE
  | inr local =>
      signature ← lift (read_le32 local 0);
      local_method ← lift (read_le16 local 8);
      if negb (signature =? 0x04034B50) || negb (local_method =? method c) then mret INSTALL_ERROR_ARCHIVE
      else
        local_name_size ← lift (read_le16 local 26);
        local_extra_size ← lift (read_le16 local 28);
        let data_offset := u64 (local_offset c + sizeof_local + local_name_size + local_extra_size) in
        if u64 file_size <? u64 (data_offset + compressed_size c) then mret INSTALL_ERROR_ARCHIVE
        else extract_zip_data file data_offset (compressed_size c) (uncompressed_size c) (method c)
               (expected_crc c) destination
  end.

(** The entry whose header is [c], from the reading of its name: an error, or the
    total size with this entry. *)
Definition extract_entry (file file_size cursor : Z) (c : central_header) (total_size : Z) : IO (Z * Z) :=
  r ← read_at file (cursor + sizeof_central) (name_size c);
  match r with
  | inl error => mret (error, total_size)
  | inr name =>
      entry_path ← lift (cstr (name ++ [NUL]));
      safe ← lift (is_safe_archive_path (Some entry_path));
      if negb safe then mret (INSTALL_ERROR_ARCHIVE_PATH, total_size)
      else
        last_char ← lift (load name (name_size c - 1));
        if bad_type (attributes c) then mret (INSTALL_ERROR_ARCHIVE_TYPE, total_size)
        else if u64 (INSTALL_TOTAL_MAX - total_size) <? uncompressed_size c
        then mret (INSTALL_ERROR_ARCHIVE_SIZE, total_size)
        else
          let total_size := u64 (total_size + uncompressed_size c) in
          let text := INSTALL_STAGE ++ lit "/" ++ entry_path in
          let length := snprintf_ret text in
          if INSTALL_PATH_MAX <=? length then mret (INSTALL_ERROR_ARCHIVE_PATH, total_size)
          else
            let destination := snprintf INSTALL_PATH_MAX text in
            r ← (if last_char =? SLASH then ensure_directory (take (Z.to_nat (length - 1)) destination)
                 else extract_file file file_size c destination);
            mret (r, total_size)
  end.

(** The loop, [remaining] entries from the end. *)
Fixpoint extract_entries (remaining : nat) (file file_size cursor total_size result : Z) : IO Z :=
  match remaining with
  | O => mret result
  | S remaining =>
      if result <? 0 then mret result
      else
        r ← read_at file cursor sizeof_central;
        match r with
        | inl _ => mret INSTALL_ERROR_ARCHIVE
        | inr central =>
            signature ← lift (read_le32 central 0);
            if negb (signature =? 0x02014B50) then mret INSTALL_ERROR_ARCHIVE
            else
              c ← lift (read_central_header central);
              let next := cursor + sizeof_central + name_size c + extra_size c + comment_size c in
              if bad_central c next file_size then mret INSTALL_ERROR_ARCHIVE
              else
                '(r, total_size) ← extract_entry file file_size cursor c total_size;
                if r <? 0 then mret r
                else extract_entries remaining file file_size next total_size r
        end
  end.

Definition extract_vpk (vpk_path : bytes) : IO Z :=
  file ← sys (sceIoOpen (Some vpk_path) SCE_O_RDONLY 0);
  if file <? 0 then mret file
  else
    file_size ← sys (sceIoLseek file 0 SCE_SEEK_END);
    if file_size <? 22 then sys (sceIoClose file);; mret INSTALL_ERROR_ARCHIVE
    else
      found ← find_central_directory file file_size;
      r ← match found with
          | inl error => mret error
          | inr (central_offset, entry_count) =>
              extract_entries (Z.to_nat entry_count) file file_size central_offset 0 0
          end;
      sys (sceIoClose file);; mret r.

(** * The package header *)

Definition read_file (path : bytes) : IO (Z + bytes) :=
  file ← sys (sceIoOpen (Some path) SCE_O_RDONLY 0);
  if file <? 0 then mret (inl file)
  else
    end_ ← sys (sceIoLseek file 0 SCE_SEEK_END);
    if (end_ <=? 0) || (INSTALL_SFO_MAX <? end_) then sys (sceIoClose file);; mret (inl INSTALL_ERROR_SFO)
    else
      position ← sys (sceIoLseek file 0 SCE_SEEK_SET);
      if position <? 0 then sys (sceIoClose file);; mret (inl INSTALL_ERROR_IO)
      else
        buffer ← sys (malloc end_);
        if negb buffer then sys (sceIoClose file);; mret (inl INSTALL_ERROR_MEMORY)
        else
          r ← read_loop (S (Z.to_nat end_)) file end_ [];
          match r with
          | inl error => sys (free buffer);; sys (sceIoClose file);; mret (inl error)
          | inr data => sys (sceIoClose file);; mret (inr data)
          end.

(** The contents of a zeroed array of 48 bytes after a string was stored in it. *)
Definition array48 (text : bytes) : bytes := text ++ replicate (48 - length text) 0.

Definition selected_content_id (content_id title_id : bytes) : bytes :=
  match content_id with
  | c :: _ => if c =? NUL then array48 (snprintf 48 (lit "EP9000-" ++ title_id ++ lit "_00-0000000000000000"))
              else array48 content_id
  | [] => array48 (snprintf 48 (lit "EP9000-" ++ title_id ++ lit "_00-0000000000000000"))
  end.

(** The writing of the header. *)
Definition write_head (head : bytes) : IO Z :=
  r ← ensure_parent_directory INSTALL_HEAD;
  if r <? 0 then mret r
  else
    output_file ← sys (sceIoOpen (Some INSTALL_HEAD) (Z.lor (Z.lor SCE_O_WRONLY SCE_O_CREAT) SCE_O_TRUNC) mode_file);
    if output_file <? 0 then mret output_file
    else
      written ← sys (sceIoWrite output_file head);
      sys (sceIoClose output_file);;
      mret (if negb (written =? vita_shell_head_bin_len)
            then if written <? 0 then written else INSTALL_ERROR_IO else r).

(** The result, and the text left in [title_id]. *)
Definition make_head_bin (context : SHA1_CTX) (title_id : bytes) (title_id_size : Z) : IO (Z * bytes) :=
  sfo ← read_file INSTALL_SFO;
  match sfo with
  | inl error => mret (error, title_id)
  | inr sfo =>
      let sfo_size := Z.of_nat (length sfo) in
      '(r, value) ← lift (sfo_string sfo sfo_size (lit "TITLE_ID") 12);
      let parsed_title_id := default [] value in
      let r := if (0 <=? r) && negb (valid_title_id parsed_title_id) then INSTALL_ERROR_TITLE_ID else r in
      content_id ← (if 0 <=? r then
                      '(_, value) ← lift (sfo_string sfo sfo_size (lit "CONTENT_ID") 48);
                      mret (default [] value)
                    else mret []);
      sys (free true);;
      if r <? 0 then mret (r, title_id)
      else
        head ← sys (malloc vita_shell_head_bin_len);
        if negb head then mret (INSTALL_ERROR_MEMORY, title_id)
        else
          patched ← lift (patch_head context (selected_content_id content_id parsed_title_id));
          match patched with
          | None => sys (free head);; mret (INSTALL_ERROR_SFO, title_id)
          | Some bytes =>
              r ← write_head bytes;
              sys (free head);;
              mret (if r <? 0 then (r, title_id) else (0, snprintf title_id_size parsed_title_id))
          end
  end.

(** * Promotion *)

Definition load_paf : IO Z := sys (sceSysmoduleLoadModuleInternalWithArg SCE_SYSMODULE_INTERNAL_PAF).
Definition unload_paf : IO Z := sys (sceSysmoduleUnloadModuleInternalWithArg SCE_SYSMODULE_INTERNAL_PAF).

(** A later error does not replace an earlier one. *)
Definition first_error (result later : Z) : Z := if (0 <=? result) && (later <? 0) then later else result.

Definition promote_stage : IO Z :=
  r ← load_paf;
  if r <? 0 then mret r
  else
    r ← sys (sceSysmoduleLoadModuleInternal SCE_SYSMODULE_INTERNAL_PROMOTER_UTIL);
    if r <? 0 then unload_paf;; mret r
    else
      r ← sys scePromoterUtilityInit;
      r ← (if 0 <=? r then
             r ← sys (scePromoterUtilityPromotePkgWithRif INSTALL_STAGE 1);
             exit_result ← sys scePromoterUtilityExit;
             mret (first_error r exit_result)
           else mret r);
      unload_result ← sys (sceSysmoduleUnloadModuleInternal SCE_SYSMODULE_INTERNAL_PROMOTER_UTIL);
      let r := first_error r unload_result in
      unload_result ← unload_paf;
      mret (first_error r unload_result).

(** * Installation *)

(** The checks of the arguments. *)
Definition bad_arguments (vpk_path : ptr bytes) (title_id : bool) (title_id_size : Z) : bool :=
  match vpk_path with
  | NULL => true
  | Some path =>
      negb title_id || (title_id_size <? 10) || (Z.of_nat (length path) <? 5) ||
      negb (bool_decide (drop (length path - 4) path = lit ".vpk"))
  end.

(** [title_id] says whether the pointer is not null; [fuel] bounds the walks of
    the staging tree. The text in [title_id] is returned unless the arguments are
    refused. *)
Definition install_vpk (fuel : nat) (context : SHA1_CTX) (vpk_path : ptr bytes) (title_id : bool)
    (title_id_size : Z) : IO (Z * option bytes) :=
  match vpk_path with
  | Some path =>
      if bad_arguments vpk_path title_id title_id_size then mret (INSTALL_ERROR_ARGUMENT, None)
      else
        remove_tree fuel INSTALL_STAGE;;
        r ← ensure_directory INSTALL_STAGE;
        r ← (if 0 <=? r then extract_vpk path else mret r);
        '(r, title) ← (if 0 <=? r then make_head_bin context [] title_id_size else mret (r, []));
        r ← (if 0 <=? r then promote_stage else mret r);
        cleanup_result ← remove_tree fuel INSTALL_STAGE;
        mret (first_error r cleanup_result, Some title)
  | NULL => mret (INSTALL_ERROR_ARGUMENT, None)
  end.
End installer.

(** * What the calls may touch *)

(** A name that stays in the directory it is looked up in. *)
Definition inner_name (c : bytes) : Prop := c <> [] /\ c <> lit "." /\ c <> lit ".." /\ no_slash c.

(** The staging directory or a path below it. *)
Definition staged (p : bytes) : Prop :=
  exists cs trail, Forall inner_name cs /\ p = INSTALL_STAGE ++ slashed cs trail.

(** A path [ensure_directory] may make: the parent of the staging directory, a
    staged path, or one that lost its last character. *)
Definition makeable (p : bytes) : Prop :=
  p = lit "ux0:data" \/ staged p \/ exists c, staged (p ++ [c]).

(** The calls on paths the installer may make for the archive [vpk]. *)
Definition allowed `{Sdk} (vpk : bytes) (c : call) : Prop :=
  match c with
  | sceIoOpen path flags _ =>
      exists p, path = Some p /\ (staged p \/ p = vpk /\ flags = SCE_O_RDONLY)
  | sceIoRemove path | sceIoRmdir path | sceIoDopen path => exists p, path = Some p /\ staged p
  | sceIoMkdir path _ | sceIoGetstat path => exists p, path = Some p /\ makeable p
  | scePromoterUtilityPromotePkgWithRif path _ => path = INSTALL_STAGE
  | sceIoClose _ | sceIoRead _ _ | sceIoWrite _ _ | sceIoLseek _ _ _ | sceIoDread _ | sceIoDclose _ => True
  | malloc _ | free _ | inflateInit2 _ | inflate _ _ | inflateEnd => True
  | sceSysmoduleLoadModuleInternalWithArg _ | sceSysmoduleUnloadModuleInternalWithArg _
  | sceSysmoduleLoadModuleInternal _ | sceSysmoduleUnloadModuleInternal _ => True
  | scePromoterUtilityInit | scePromoterUtilityExit => True
  | _ => False
  end.

(** The run between two histories made only allowed calls and holds afterwards
    what it held before. *)
Definition contained `{Sdk} (vpk : bytes) (h h' : history) : Prop :=
  adds (allowed vpk) h h' /\ holds h' = holds h.

(** * What the system promises *)

(** Reads store what they report and no more than asked, file positions fit
    [SceOff], directory entries have proper names, and zlib reports what it
    leaves of the input and stays within the output buffer. *)
Record io_ok (env : environment) : Prop := {
  read_ok : forall h fd len, let '(n, d) := env h (sceIoRead fd len) in
    (0 <= len -> n <= len) /\ (0 < n -> Z.of_nat (length d) = n) /\ Forall is_byte d;
  write_ok : forall h fd data, env h (sceIoWrite fd data) <= Z.of_nat (length data);
  lseek_ok : forall h fd offset whence, env h (sceIoLseek fd offset whence) < 2 ^ 63;
  dread_ok : forall h fd, let '(n, entry) := env h (sceIoDread fd) in
    0 < n -> d_name entry <> [] /\ no_slash (d_name entry);
  inflate_ok : forall h next_in avail_out, let '(_, avail_in, out) := env h (inflate next_in avail_out) in
    0 <= avail_out -> Z.of_nat (length out) <= avail_out /\ 0 <= avail_in <= Z.of_nat (length next_in)
}.

Section staging_paths.
Implicit Types (p q : bytes) (cs : list bytes).

Lemma inner_good c : good_name c -> inner_name c.
Proof. intros H. pose proof (good_name_no_slash c H). destruct H as (? & ? & ? & _). done. Qed.

Lemma staged_stage : staged INSTALL_STAGE.
Proof. exists [], false. split; [done|reflexivity]. Qed.

Lemma staged_safe p : safe_path p -> staged (INSTALL_STAGE ++ lit "/" ++ p).
Proof.
  intros (cs & trail & _ & Hg & E). exists cs, trail. split; [|by rewrite <-E].
  eapply Forall_impl; [done|]. apply inner_good.
Qed.

(** A child of a directory without a slash at the end. *)
Lemma staged_child cs c :
  Forall inner_name cs -> inner_name c ->
  staged ((INSTALL_STAGE ++ slashed cs false) ++ lit "/" ++ c).
Proof.
  intros Hcs Hc. exists (cs ++ [c]), false. split; [by apply Forall_app; auto|].
  rewrite slashed_app, <-app_assoc. cbn [slashed]. by rewrite app_nil_r.
Qed.

(** The part of a path before one of its slashes. *)
Lemma slashed_prefix cs trail q r :
  Forall no_slash cs -> slashed cs trail = q ++ SLASH :: r ->
  exists k, (k <= length cs)%nat /\ q = slashed (take k cs) false.
Proof.
  intros Hcs. revert q. induction Hcs as [|c cs Hc _ IH]; intros q E; simpl in E.
  - exists O. split; [simpl; lia|]. destruct trail; [|by destruct q]. destruct q as [|x q]; [done|]. by destruct q.
  - destruct q as [|x q]; [exists O; split; [lia|done]|]. injection E as <- E.
    assert (exists q', q = c ++ q' /\ slashed cs trail = q' ++ SLASH :: r) as (q' & -> & E').
    { apply app_eq_app in E as (l & [[-> E]|[-> E]]).
      - destruct l as [|x l]; [exists []; rewrite !app_nil_r; by rewrite E|].
        apply (f_equal head) in E as E1. simpl in E1. injection E1 as <-.
        apply Forall_app in Hc as [_ Hc]. apply Forall_cons in Hc as [Hc _]. done.
      - eauto. }
    destruct (IH q' E') as (k & Hk & ->). exists (S k). simpl. split; [lia|done].
Qed.

Lemma stage_split : INSTALL_STAGE = lit "ux0:data" ++ slashed [lit "vitacompanion-package"] false.
Proof. reflexivity. Qed.

Lemma staged_prefix p q r : staged p -> p = q ++ SLASH :: r -> q = lit "ux0:data" \/ staged q.
Proof.
  intros (cs & trail & Hcs & ->) E. rewrite stage_split, <-app_assoc, <-slashed_app in E.
  apply app_eq_app in E as (l & [[E1 E]|[-> E]]).
  - destruct l as [|x l]; [left; by rewrite app_nil_r in E1|exfalso].
    apply (f_equal head) in E as E2. simpl in E2. injection E2 as <-.
    assert (Forall (fun c => c <> SLASH) (lit "ux0:data")) as Hn by (repeat constructor; discriminate).
    rewrite E1 in Hn. apply Forall_app in Hn as [_ Hn]. by apply Forall_cons in Hn as [? _].
  - destruct (slashed_prefix ([lit "vitacompanion-package"] ++ cs) trail l r) as (k & Hk & ->).
    + apply Forall_app. split; [|eapply Forall_impl; [done|]; by intros c (_ & _ & _ & ?)].
      repeat constructor.
    + by symmetry.
    + destruct k as [|k]; [left; reflexivity|right]. exists (take k cs), false.
      split; [by apply Forall_take|]. rewrite stage_split, <-app_assoc, <-slashed_app. done.
Qed.
End staging_paths.

(** * The run of every operation is contained *)

Section containment.
Context `{Sdk} (env : environment) (Hio : io_ok env) (vpk : bytes).
Abbreviation R := (contained vpk).

#[local] Instance contained_preorder : PreOrder R.
Proof using Type.
  split; [by intros h|]. intros h1 h2 h3 [A1 H1] [A2 H2]. split; [by transitivity h2|congruence].
Qed.

(** Calls that open and close nothing. *)
Definition quiet (c : call) : Prop :=
  match c with
  | sceIoOpen _ _ _ | sceIoClose _ | sceIoDopen _ | sceIoDclose _ | malloc _ | free _
  | inflateInit2 _ | inflateEnd => False
  | _ => True
  end.

Lemma contained_call c a h : allowed vpk c -> quiet c -> R h (Ev c a :: h).
Proof using Type.
  intros Hc Hq. split; [by apply adds_call|]. by destruct c.
Qed.

Lemma respects_call {S nofuel} c : allowed vpk c -> quiet c -> respects nofuel R (sys (S := S) c) env.
Proof using Type. intros ? ? s h. apply wp_sys. intros a _. by apply contained_call. Qed.

(** Using what was shown of a part. *)
Lemma wp_respects {A nofuel} (m : IO A) (Q : A -> unit -> history -> Prop) s h :
  respects nofuel R m env -> (forall a s' h', R h h' -> Q a s' h') -> run_spec nofuel m Q env s h.
Proof using Type. intros Hm HQ. eapply wp_mono; [apply Hm|]. auto. Qed.
End containment.

#[export] Existing Instance contained_preorder.

(** Proves that a call is allowed. *)
Ltac allow := cbn [allowed]; first
  [ exact I | reflexivity
  | eexists; split; [reflexivity|]; first [ solve [eauto with staged] | left; solve [eauto with staged] | right; by split ] ].

(** [contained vpk h0 h] for an [h] made of calls and of contained runs. *)
Ltac contained_adds :=
  repeat first
    [ reflexivity
    | match goal with H : contained _ ?h1 ?h2 |- adds _ _ ?h2 => transitivity h1; [|exact (proj1 H)] end
    | apply adds_cons; [allow|] ].
Ltac contained_holds :=
  repeat first
    [ match goal with H : contained _ ?h1 ?h2 |- context [holds ?h2] => rewrite (proj2 H) end
    | rewrite holds_cons; cbn [track files dirs blocks streams remove_one]
    | match goal with H : ?b = _ |- context [if ?b then _ else _] => rewrite H end
    | progress cbn [files dirs blocks streams remove_one] | rewrite Z.eqb_refl | rewrite held_eta ];
  cbn [files dirs blocks streams]; rewrite ?Z.add_simpl_r, ?held_eta.
Ltac contained_now := cbn beta in *; split; [by contained_adds|contained_holds; try done; try (by destruct (holds _); f_equal; cbn; lia)].

(** Steps through a computation whose parts are known to respect [contained]. *)
Ltac respects_step :=
  match goal with
  | |- respects _ _ (mret _) _ => apply respects_ret; exact _
  | |- respects _ _ (mbind _ _) _ => apply respects_bind; [exact _| |intros]
  | |- @respects ?S _ _ (contained ?vpk) (sys ?c) ?env =>
      refine (respects_call env vpk (S := S) c _ _); [allow|exact I]
  | |- respects _ _ (if ?b then _ else _) _ => destruct b eqn:?
  | |- respects _ _ (let '(_, _) := ?p in _) _ => destruct p
  | |- respects _ _ (match ?x with _ => _ end) _ => destruct x eqn:?
  | |- respects _ _ (lift NoFuel) _ => intros ? ?; apply wp_nofuel; exact I
  | |- respects _ _ _ _ => solve [eauto with respects]
  end; cbn beta.

(** Steps over a part that is contained. *)
Tactic Notation "sub" uconstr(L) := eapply wp_respects; [refine L|]; intros.

Create HintDb staged.
Create HintDb respects.

Section directories.
Context `{Sdk} (env : environment) (Hio : io_ok env) (vpk : bytes).
Abbreviation R := (contained vpk).

(** Calls that make or inspect a directory at a makeable path. *)
Definition making (c : call) : Prop :=
  match c with
  | sceIoMkdir path _ | sceIoGetstat path => exists p, path = Some p /\ makeable p
  | _ => False
  end.

Lemma making_contained h h' : adds making h h' -> R h h'.
Proof using Type.
  intros [es [-> Hes]]. induction Hes as [|[c a] es Hc _ IH]; [reflexivity|].
  etransitivity; [exact IH|]. apply contained_call; by destruct c.
Qed.

Lemma respects_making {A} (m : IO A) : respects False (adds making) m env -> respects False R m env.
Proof using Type. intros Hm s h. eapply wp_mono; [apply Hm|]. intros a s' h'. apply making_contained. Qed.

Lemma make_directory_making p : makeable p -> respects False (adds making) (make_directory p) env.
Proof using Type.
  intros Hp s h. unfold make_directory.
  wp_steps; repeat (apply adds_cons; [by eexists|]); reflexivity.
Qed.

Lemma makeable_staged p : staged p -> makeable p.
Proof using Type. by right; left. Qed.

(** A path all of whose prefixes may be made. *)
Definition ensurable (p : bytes) : Prop :=
  makeable p /\ forall q r, p = q ++ SLASH :: r -> makeable q.

Lemma ensurable_staged p : staged p -> ensurable p.
Proof using Type.
  intros Hp. split; [by apply makeable_staged|]. intros q r E.
  destruct (staged_prefix p q r Hp E) as [->|]; [by left|by apply makeable_staged].
Qed.

(** The name of an archive directory loses its last character. *)
Lemma ensurable_cut p c : staged (p ++ [c]) -> ensurable p.
Proof using Type.
  intros Hp. split; [right; right; eauto|]. intros q r ->.
  destruct (staged_prefix _ q (r ++ [c]) Hp) as [->|]; [by rewrite <-app_assoc|by left|by apply makeable_staged].
Qed.

Lemma before_last_slash_spec p q :
  before_last_slash p = Some q -> exists r, p = q ++ SLASH :: r.
Proof using Type.
  unfold before_last_slash. intros E.
  destruct (drop_while not_slash (reverse p)) as [|x l] eqn:Hd; [done|]. injection E as <-.
  pose proof (drop_while_head _ _ _ _ Hd) as Hx.
  pose proof (take_drop_while not_slash (reverse p)) as Hs. rewrite Hd in Hs.
  apply (f_equal reverse) in Hs. rewrite reverse_involutive, reverse_app, reverse_cons in Hs.
  assert (x = SLASH) as -> by (unfold not_slash in Hx; lia).
  exists (reverse (take_while not_slash (reverse p))). rewrite <-app_assoc in Hs. by symmetry.
Qed.

Lemma ensurable_parent p q : staged p -> before_last_slash p = Some q -> ensurable q.
Proof using Type.
  intros Hp Hq. destruct (before_last_slash_spec p q Hq) as [r E].
  destruct (staged_prefix p q r Hp E) as [->|Hs]; [|by apply ensurable_staged].
  split; [by left|]. intros q' r' E'.
  assert (Forall (fun c => c <> SLASH) (lit "ux0:data")) as Hn by (repeat constructor; discriminate).
  rewrite E' in Hn. apply Forall_app in Hn as [_ Hn]. by apply Forall_cons in Hn as [? _].
Qed.

Lemma make_prefixes_making path before rest :
  ensurable path -> path = before ++ rest -> respects False (adds making) (make_prefixes before rest) env.
Proof using Type.
  intros [Hm Hp]. revert before. induction rest as [|c rest IH]; intros before E; cbn [make_prefixes];
    [(apply respects_ret; exact _)|].
  apply respects_bind; [exact _| |intros r].
  - destruct (c =? SLASH) eqn:Hc; cbn [andb]; [|(apply respects_ret; exact _)].
    apply respects_if; [|(apply respects_ret; exact _)]. apply make_directory_making. apply (Hp before rest).
    rewrite E. do 2 f_equal. lia.
  - apply respects_if; [(apply respects_ret; exact _)|]. apply IH. by rewrite <-app_assoc.
Qed.

Lemma ensure_directory_making path : ensurable path -> respects False (adds making) (ensure_directory path) env.
Proof using Type.
  intros Hp. unfold ensure_directory. apply respects_if; [(apply respects_ret; exact _)|].
  apply respects_bind; [exact _| |intros r].
  - apply (make_prefixes_making path); [done|]. symmetry. apply take_drop_while.
  - apply respects_if; [(apply respects_ret; exact _)|]. apply make_directory_making, Hp.
Qed.

Lemma ensure_parent_directory_making path : staged path -> respects False (adds making) (ensure_parent_directory path) env.
Proof using Type.
  intros Hp. unfold ensure_parent_directory. apply respects_if; [(apply respects_ret; exact _)|].
  destruct (before_last_slash path) as [q|] eqn:E; [|(apply respects_ret; exact _)].
  apply ensure_directory_making. by apply (ensurable_parent path).
Qed.

Lemma ensure_directory_contained path : ensurable path -> respects False R (ensure_directory path) env.
Proof using Type. intros. by apply respects_making, ensure_directory_making. Qed.

Lemma ensure_parent_directory_contained path : staged path -> respects False R (ensure_parent_directory path) env.
Proof using Type. intros. by apply respects_making, ensure_parent_directory_making. Qed.

#[local] Hint Resolve makeable_staged : staged.

(** The walk of the staging tree. *)
Lemma remove_tree_contained fuel cs :
  Forall inner_name cs -> respects True R (remove_tree fuel (INSTALL_STAGE ++ slashed cs false)) env.
Proof using Hio.
  revert cs. enough (forall cs, Forall inner_name cs ->
    respects True R (remove_tree fuel (INSTALL_STAGE ++ slashed cs false)) env /\
    forall d, respects True R (remove_entries fuel (INSTALL_STAGE ++ slashed cs false) d) env) as H0
    by (intros cs Hcs; by apply H0).
  induction fuel as [|fuel IH]; intros cs Hcs; [split; intros; intros s h; exact I|].
  destruct (IH cs Hcs) as [_ IHe]. set (path := INSTALL_STAGE ++ slashed cs false) in *.
  assert (staged path) as Hp by (exists cs, false; done).
  split; [|intros d]; cbn [remove_tree remove_entries].
  - intros s h. wp_steps; try by contained_now.
    sub (IHe _). wp_steps; by contained_now.
  - intros s h. wp_step. wp_step. pose proof (dread_ok env Hio h d) as Hd.
    match goal with E : a = _ |- _ => rewrite <-E in Hd; clear E end.
    destruct a as [n entry]. wp_steps; try by contained_now.
    + sub (IHe _). by contained_now.
    + destruct Hd as [Hd1 Hd2]; [lia|].
      unfold is_dot in *. rewrite orb_false_iff, !bool_decide_eq_false in *.
      assert (inner_name (d_name entry)) as Hin by (unfold inner_name; tauto).
      replace (path ++ lit "/" ++ d_name entry) with (INSTALL_STAGE ++ slashed (cs ++ [d_name entry]) false)
        by (unfold path; rewrite slashed_app, <-app_assoc; cbn [slashed]; by rewrite app_nil_r).
      assert (Forall inner_name (cs ++ [d_name entry])) by (apply Forall_app; auto).
      sub (proj1 (IH _ _)); [done|]. wp_steps; [by contained_now|].
      sub (IHe _). by contained_now.
Qed.
End directories.
#[export] Hint Resolve makeable_staged staged_stage : respects staged.

(** * Reading and writing: what the loops do *)

(** Everything written to a file, in order. *)
Fixpoint written (fd : Z) (h : history) : bytes :=
  match h with
  | [] => []
  | Ev c a :: h =>
      written fd h ++
      match c return answer c -> bytes with
      | sceIoWrite f data => fun n => if f =? fd then take (Z.to_nat n) data else []
      | _ => fun _ => []
      end a
  end.

(** The bytes the stream took and gave since it was initialised. *)
Fixpoint stream_totals (h : history) : Z * Z :=
  match h with
  | [] => (0, 0)
  | Ev c a :: h =>
      match c return answer c -> Z * Z with
      | inflateInit2 _ => fun _ => (0, 0)
      | inflate next_in _ => fun '(_, avail_in, out) =>
          ((stream_totals h).1 + (Z.of_nat (length next_in) - avail_in),
           (stream_totals h).2 + Z.of_nat (length out))
      | _ => fun _ => stream_totals h
      end a
  end.

Definition is_read (c : call) : Prop :=
  match c with sceIoRead _ _ | sceIoLseek _ _ _ => True | _ => False end.
Definition is_write (c : call) : Prop := match c with sceIoWrite _ _ => True | _ => False end.

(** What a run that makes only some calls leaves unchanged. *)
Lemma adds_unchanged {A} (f : history -> A) (P : call -> Prop) h h' :
  (forall c a h, P c -> f (Ev c a :: h) = f h) -> adds P h h' -> f h' = f h.
Proof.
  intros Hf [es [-> Hes]]. induction Hes as [|[c a] es Hc _ IH]; [done|].
  change ((Ev c a :: es) ++ h) with (Ev c a :: (es ++ h)). by rewrite Hf.
Qed.

Lemma written_reads fd h h' : adds is_read h h' -> written fd h' = written fd h.
Proof. apply adds_unchanged. intros c a h0 Hc. by destruct c; simpl; rewrite ?app_nil_r. Qed.

Lemma written_making fd h h' : adds making h h' -> written fd h' = written fd h.
Proof. apply adds_unchanged. intros c a h0 Hc. by destruct c; simpl; rewrite ?app_nil_r. Qed.

Lemma totals_reads h h' : adds is_read h h' -> stream_totals h' = stream_totals h.
Proof. apply adds_unchanged. intros c a h0 Hc. by destruct c. Qed.

Lemma totals_writes h h' : adds is_write h h' -> stream_totals h' = stream_totals h.
Proof. apply adds_unchanged. intros c a h0 Hc. by destruct c. Qed.

Section transfer.
Context `{Sdk} (env : environment) (Hio : io_ok env) (vpk : bytes).
Abbreviation R := (contained vpk).

(** A read of [size] bytes ends; it gives exactly that many, or an error. *)
Definition read_post (size : Z) (h : history) (r : Z + bytes) (h' : history) : Prop :=
  R h h' /\ adds is_read h h' /\
  match r with
  | inl error => error < 0
  | inr data => Z.of_nat (length data) = Z.max 0 size /\ Forall is_byte data
  end.

Lemma read_loop_spec fuel file size acc s h :
  Forall is_byte acc -> Z.of_nat (length acc) <= Z.max 0 size -> (Z.to_nat size - length acc < fuel)%nat ->
  wp (read_loop fuel file size acc) (fun r _ h' => read_post size h r h') env s h.
Proof using Hio.
  revert acc s h. induction fuel as [|fuel IH]; intros acc s h Hb Hl Hf; [lia|]. cbn [read_loop].
  destruct (Z.ltb_spec 0 (size - Z.of_nat (length acc))) as [Hlt|Hge].
  - wp_step. wp_step. pose proof (read_ok env Hio h file (size - Z.of_nat (length acc))) as Hr.
    match goal with E : a = _ |- _ => rewrite <-E in Hr; clear E end.
    destruct a as [n d]. destruct Hr as (Hn & Hd & Hdb). specialize (Hn ltac:(lia)).
    assert (R h (Ev (sceIoRead file (size - Z.of_nat (length acc))) (n, d) :: h)) as HR
      by (by apply contained_call).
    assert (adds is_read h (Ev (sceIoRead file (size - Z.of_nat (length acc))) (n, d) :: h)) as HA
      by (by apply adds_call).
    destruct (Z.leb_spec n 0).
    + wp_step. split_and!; [done|done|]. destruct (Z.ltb_spec n 0); unfold INSTALL_ERROR_IO; lia.
    + specialize (Hd ltac:(lia)). unfold stored.
      rewrite (proj2 (Z.eqb_eq _ n)), (proj2 (Z.leb_le n _)) by lia. cbn [andb]. wp_steps.
      eapply wp_mono; [apply IH|].
      * by apply Forall_app.
      * rewrite length_app. lia.
      * rewrite length_app. lia.
      * intros r s' h' (HR' & HA' & Hpost). split_and!; [by etransitivity|by etransitivity|done].
  - wp_step. split_and!; [reflexivity|reflexivity|lia|done].
Qed.

Lemma read_at_spec file offset size s h :
  wp (read_at file offset size) (fun r _ h' => read_post size h r h') env s h.
Proof using Hio.
  unfold read_at. wp_steps.
  - split_and!; [by contained_now|by apply adds_call|]. unfold INSTALL_ERROR_IO. lia.
  - eapply wp_mono; [apply read_loop_spec; [done|simpl; lia|simpl; lia]|].
    intros r s' h' (HR & HA & Hpost). split_and!; [|etransitivity; [|exact HA]; by apply adds_call|done].
    etransitivity; [|exact HR]. by contained_now.
Qed.

(** A write ends; it succeeds only when every byte was written, in order. *)
Lemma write_loop_spec fuel file buffer s h :
  (length buffer < fuel)%nat ->
  wp (write_loop fuel file buffer) (fun r _ h' => R h h' /\ adds is_write h h' /\ r <= 0 /\
    (r = 0 -> written file h' = written file h ++ buffer)) env s h.
Proof using Hio.
  revert buffer s h. induction fuel as [|fuel IH]; intros buffer s h Hf; [lia|]. cbn [write_loop].
  destruct buffer as [|c buffer]; [wp_step; split_and!; [reflexivity|reflexivity|done|by rewrite app_nil_r]|].
  set (l := c :: buffer) in *. assert (length l <> O) as Hne by done. clearbody l.
  wp_step. wp_step. pose proof (write_ok env Hio h file l) as Hw.
  match goal with E : a = _ |- _ => rewrite <-E in Hw; clear E end.
  assert (R h (Ev (sceIoWrite file l) a :: h)) as HR by (by apply contained_call).
  assert (adds is_write h (Ev (sceIoWrite file l) a :: h)) as HA by (by apply adds_call).
  destruct (Z.leb_spec a 0).
  - wp_step. split_and!; [done|done| |]; destruct (Z.ltb_spec a 0); unfold INSTALL_ERROR_IO; lia.
  - eapply wp_mono; [apply IH; rewrite length_drop; lia|].
    intros r s' h' (HR' & HA' & Hr & Hok). split_and!; [by etransitivity|by etransitivity|done|]. intros E.
    rewrite Hok by done. simpl. rewrite Z.eqb_refl, <-app_assoc, take_drop. done.
Qed.

Lemma write_all_spec file buffer s h :
  wp (write_all file buffer) (fun r _ h' => R h h' /\ adds is_write h h' /\ r <= 0 /\
    (r = 0 -> written file h' = written file h ++ buffer)) env s h.
Proof using Hio. apply write_loop_spec. lia. Qed.

Lemma read_chunk_spec input chunk_size s h :
  0 < chunk_size <= INSTALL_IO_BUFFER ->
  wp (read_chunk input chunk_size) (fun r _ h' => R h h' /\ adds is_read h h' /\
    match r with inl error => error < 0 | inr data => Z.of_nat (length data) = chunk_size end) env s h.
Proof using Hio.
  intros Hc. unfold read_chunk. wp_step. wp_step. pose proof (read_ok env Hio h input chunk_size) as Hr.
  match goal with E : a = _ |- _ => rewrite <-E in Hr; clear E end.
  destruct a as [n d]. destruct Hr as (Hn & Hd & _).
  assert (R h (Ev (sceIoRead input chunk_size) (n, d) :: h)) as HR by (by apply contained_call).
  assert (adds is_read h (Ev (sceIoRead input chunk_size) (n, d) :: h)) as HA by (by apply adds_call).
  destruct (Z.eqb_spec n chunk_size); cbn [negb].
  - specialize (Hd ltac:(lia)). unfold stored.
    rewrite (proj2 (Z.eqb_eq _ n)), (proj2 (Z.leb_le n _)) by lia. cbn [andb]. wp_steps. split_and!; [done|done|lia].
  - wp_step. split_and!; [done|done|]. destruct (Z.ltb_spec n 0); unfold INSTALL_ERROR_IO; lia.
Qed.
End transfer.

(** * Extraction: what is written *)

(** zlib's checksum, computed piece by piece. *)
Class Crc `{Sdk} : Prop := {
  crc32_nil : forall c, crc32 c [] = c;
  crc32_app : forall c a b, crc32 (crc32 c a) b = crc32 c (a ++ b)
}.

(** [inflate] reports success only when it made progress, and a deflate stream
    gives at most 1032 bytes of output for a byte of input. *)
Definition zlib_progress `{Sdk} (env : environment) : Prop :=
  forall h next_in avail_out, let '(z, avail_in, out) := env h (inflate next_in avail_out) in
    z = Z_OK -> (avail_in < Z.of_nat (length next_in) \/ out <> []) /\
    let totals := stream_totals (Ev (inflate next_in avail_out) (z, avail_in, out) :: h) in
    totals.2 <= 1032 * totals.1.

Section extraction.
Context `{Sdk} `{!Crc} (env : environment) (Hio : io_ok env) (vpk : bytes).
Abbreviation R := (contained vpk).

(** What the loops guarantee: on success, the data written has the checksum and
    the length the locals say. *)
Definition loop_post (output : Z) (p : progress) (h : history) (p' : progress) (h' : history) : Prop :=
  R h h' /\ (0 <= result p' -> exists D, written output h' = written output h ++ D /\
    checksum p' = crc32 (checksum p) D /\
    produced_total p' = u32 (produced_total p + Z.of_nat (length D))).

Lemma u32_idem a b : u32 (u32 a + b) = u32 (a + b).
Proof using Type. unfold u32. by rewrite Z.add_mod_idemp_l. Qed.

(** One piece, then the rest. *)
Lemma loop_post_step output p d r h h1 h2 p' h' :
  R h h1 -> written output h1 = written output h ->
  R h1 h2 -> (r = 0 -> written output h2 = written output h1 ++ d) -> r = 0 ->
  loop_post output (Progress r (crc32 (checksum p) d) (u32 (produced_total p + Z.of_nat (length d)))) h2 p' h' ->
  loop_post output p h p' h'.
Proof using All.
  intros R1 W1 R2 W2 Hr (R3 & Hp). split; [by do 2 (etransitivity; [eassumption|])|].
  intros Hok. destruct (Hp Hok) as (D & W3 & Hc & Hl). exists (d ++ D). cbn in Hc, Hl.
  rewrite W3, W2, W1, Hc, Hl, crc32_app, u32_idem, length_app, <-app_assoc by done.
  split_and!; [done|done|]. f_equal. lia.
Qed.

Lemma loop_post_fail output p h h' e c t : R h h' -> e < 0 -> loop_post output p h (Progress e c t) h'.
Proof using Type. intros. split; [done|]. cbn. lia. Qed.

Lemma loop_post_done output p h h' :
  0 <= produced_total p < 2 ^ 32 -> R h h' -> written output h' = written output h -> loop_post output p h p h'.
Proof using All.
  intros Hp HR HW. split; [done|]. intros _. exists []. rewrite app_nil_r, crc32_nil, Z.add_0_r.
  by rewrite u32_small by lia.
Qed.

Lemma chunk_of_range left : 0 < left -> 0 < chunk_of left <= INSTALL_IO_BUFFER /\ chunk_of left <= left.
Proof using Type. intros. unfold chunk_of, INSTALL_IO_BUFFER. destruct (Z.ltb_spec left (64 * 1024)); lia. Qed.

Lemma copy_stored_spec fuel input output left p s h :
  0 <= left -> left <= INSTALL_IO_BUFFER * (Z.of_nat fuel - 1) -> 0 <= produced_total p < 2 ^ 32 ->
  wp (copy_stored fuel input output left p) (fun p' _ h' => loop_post output p h p' h') env s h.
Proof using All.
  revert left p s h. induction fuel as [|fuel IH]; intros left p s h Hl Hf Hp; [unfold INSTALL_IO_BUFFER in *; lia|].
  cbn [copy_stored]. destruct (Z.ltb_spec 0 left) as [Hpos|]; [|wp_step; by apply loop_post_done].
  destruct (chunk_of_range left Hpos) as [Hc Hcl]. wp_step.
  eapply wp_mono; [by apply (read_chunk_spec env Hio vpk)|]. intros [e|d] s1 h1 (HR1 & HA1 & Hd).
  { wp_step. by apply loop_post_fail. }
  wp_step. eapply wp_mono; [apply (write_all_spec env Hio vpk)|]. intros r s2 h2 (HR2 & _ & Hr & Hw).
  destruct (Z.ltb_spec r 0). { wp_step. apply loop_post_fail; [by etransitivity|done]. }
  eapply wp_mono; [apply IH|].
  - lia.
  - unfold chunk_of, INSTALL_IO_BUFFER in *. destruct (Z.ltb_spec left (64 * 1024)); lia.
  - apply u32_range.
  - intros p' s' h' Hpost. rewrite <-Hd in Hpost.
    apply (loop_post_step output p d r h h1 h2 p' h' HR1 (written_reads _ _ _ HA1) HR2 Hw); [lia|done].
Qed.

Lemma refill_spec input next_in left s h :
  0 <= left ->
  wp (refill input next_in left) (fun r _ h' => R h h' /\ adds is_read h h' /\
    match r with
    | inl e => e < 0
    | inr (next_in', left') =>
        0 <= left' /\ Z.of_nat (length next_in') + left' = Z.of_nat (length next_in) + left
    end) env s h.
Proof using Hio.
  intros Hl. unfold refill. destruct (decide (next_in = [])) as [->|Hne].
  - rewrite bool_decide_eq_true_2 by done. cbn [andb].
    destruct (Z.ltb_spec 0 left) as [Hpos|].
    + destruct (chunk_of_range left Hpos) as [Hc Hcl]. wp_step.
      eapply wp_mono; [by apply (read_chunk_spec env Hio vpk)|]. intros [e|d] s1 h1 (HR1 & HA1 & Hd); wp_step; [done|].
      split_and!; [done|done|lia|]. simpl. lia.
    + wp_step. split_and!; [reflexivity|reflexivity|lia|done].
  - rewrite bool_decide_eq_false_2 by done. cbn [andb]. wp_step. split_and!; [reflexivity|reflexivity|lia|done].
Qed.

(** Either the bound may be exceeded, or zlib makes progress and the fuel covers
    what is left of [size] bytes of input after [totals]. *)
Definition fuel_ok (nofuel : Prop) (fuel : nat) (size left : Z) (next_in : bytes) (totals : Z * Z) : Prop :=
  nofuel \/ (zlib_progress env /\ totals.1 + Z.of_nat (length next_in) + left = size /\
    0 <= totals.1 /\ 0 <= totals.2 <= 1032 * totals.1 /\
    1033 * size - totals.1 - totals.2 < Z.of_nat fuel).

Lemma inflate_step_spec next_in s h :
  wp (inflate_step next_in) (fun '(z, next_in', out) _ h' =>
    R h h' /\ (forall fd, written fd h' = written fd h) /\
    (length next_in' <= length next_in)%nat /\
    exists avail_in, (z, avail_in, out) = env h (inflate next_in INSTALL_IO_BUFFER) /\
      h' = Ev (inflate next_in INSTALL_IO_BUFFER) (z, avail_in, out) :: h /\
      avail_in = Z.of_nat (length next_in')) env s h.
Proof using Hio.
  unfold inflate_step. wp_step. wp_step.
  pose proof (inflate_ok env Hio h next_in INSTALL_IO_BUFFER) as Hz.
  match goal with E : a = _ |- _ => rewrite <-E in Hz; rename E into Ea end.
  destruct a as [[z avail_in] out]. destruct Hz as [Ho Ha]; [done|].
  rewrite (proj2 (Z.leb_le _ _) Ho), (proj2 (Z.leb_le 0 _)), (proj2 (Z.leb_le avail_in _)) by lia.
  cbn [andb]. wp_step.
  split_and!; [by apply contained_call|intros fd; simpl; by rewrite app_nil_r|rewrite length_drop; lia|].
  exists avail_in. split_and!; [done|done|]. rewrite length_drop. lia.
Qed.

Lemma inflate_fuel_step nofuel fuel size left next_in next_in' z avail_in out h1 h2 h3 :
  fuel_ok nofuel (S fuel) size left next_in (stream_totals h1) ->
  (z, avail_in, out) = env h1 (inflate next_in INSTALL_IO_BUFFER) ->
  h2 = Ev (inflate next_in INSTALL_IO_BUFFER) (z, avail_in, out) :: h1 ->
  avail_in = Z.of_nat (length next_in') -> (length next_in' <= length next_in)%nat ->
  stream_totals h3 = stream_totals h2 -> z = Z_OK ->
  fuel_ok nofuel fuel size left next_in' (stream_totals h3).
Proof using Type.
  intros [Hn|(Hz & Hsize & Hi & Ho & Hf)] Ea Eh Hav Hlen H3 Hok; [by left|right]. split; [done|].
  specialize (Hz h1 next_in INSTALL_IO_BUFFER). rewrite <-Ea in Hz.
  destruct (Hz Hok) as [Hprog Hratio]. rewrite H3, Eh. clear Eh H3 Hz Ea. simpl in Hratio |- *.
  destruct (stream_totals h1) as [i o]. cbn [fst snd] in *.
  assert (avail_in < Z.of_nat (length next_in) \/ 0 < Z.of_nat (length out))
    by (destruct Hprog; [by left|right; destruct out; simpl; [done|lia]]).
  split_and!; lia.
Qed.

Lemma inflate_loop_spec nofuel size fuel input output next_in left p s h :
  0 <= left -> 0 <= produced_total p < 2 ^ 32 -> 0 <= result p ->
  fuel_ok nofuel fuel size left next_in (stream_totals h) ->
  run_spec nofuel (inflate_loop fuel input output next_in left p) (fun p' _ h' => loop_post output p h p' h') env s h.
Proof using All.
  revert next_in left p s h. induction fuel as [|fuel IH]; intros next_in left p s h Hl Hp Hres Hf; cbn [inflate_loop].
  { apply wp_nofuel. destruct Hf as [|(? & ? & ? & ? & ?)]; [done|]. lia. }
  wp_step. apply wp_any. eapply wp_mono; [by apply refill_spec|]. intros [e|[ni le]] s1 h1 (HR1 & HA1 & Hfill).
  { wp_step. by apply loop_post_fail. }
  destruct Hfill as [Hle Hsum].
  assert (fuel_ok nofuel (S fuel) size le ni (stream_totals h1)) as Hf1.
  { rewrite (totals_reads _ _ HA1). destruct Hf as [|(? & ? & ? & ? & ?)]; [by left|right]. split_and!; (done || lia). }
  wp_step. apply wp_any. eapply wp_mono; [apply inflate_step_spec|].
  intros [[z ni'] out] s2 h2 (HR2 & HW2 & Hlen & avail_in & Ea & Eh & Hav). wp_step.
  assert (R h h2) as HR02 by (by etransitivity).
  assert (written output h2 = written output h) as HW02 by (by rewrite HW2, (written_reads _ _ _ HA1)).
  assert (forall p1 h3, R h2 h3 -> stream_totals h3 = stream_totals h2 -> 0 <= result p1 ->
    0 <= produced_total p1 < 2 ^ 32 ->
    (forall p' h', loop_post output p1 h3 p' h' -> loop_post output p h p' h') -> forall s3,
    run_spec nofuel (if result p1 <? 0 then mret p1 else if z =? Z_STREAM_END then mret p1
      else if negb (z =? Z_OK) || ((Z.of_nat (length out) =? 0) && bool_decide (ni' = []) && (le =? 0))
      then mret (Progress INSTALL_ERROR_ARCHIVE (checksum p1) (produced_total p1))
      else inflate_loop fuel input output ni' le p1) (fun p' _ h' => loop_post output p h p' h') env s3 h3) as Hrest.
  { intros p1 h3 HR3 HT3 Hr1 Hp1 Hlift s3. rewrite (proj2 (Z.ltb_ge _ _)) by done.
    destruct (z =? Z_STREAM_END). { wp_step. apply Hlift, loop_post_done; [done|reflexivity|done]. }
    destruct (negb (z =? Z_OK) || _) eqn:Hz.
    { wp_step. apply loop_post_fail; [by etransitivity|]. unfold INSTALL_ERROR_ARCHIVE. lia. }
    eapply wp_mono; [apply IH; [done|done|done|]|intros; by apply Hlift].
    eapply inflate_fuel_step; [done..|]. apply orb_false_iff in Hz as [Hz _]. lia. }
  destruct (Z.ltb_spec 0 (Z.of_nat (length out))) as [Hpos|Hzero].
  - wp_step. apply wp_any. eapply wp_mono; [apply (write_all_spec env Hio vpk)|].
    intros r s3 h3 (HR3 & HA3 & Hr & Hw). wp_step. destruct (Z.ltb_spec r 0).
    { cbn [result]. rewrite (proj2 (Z.ltb_lt r 0)) by done. wp_step. apply loop_post_fail; [by etransitivity|done]. }
    apply Hrest; [done|by apply totals_writes|cbn; lia|apply u32_range|].
    intros p' h' Hpost. eapply (loop_post_step output p out r h h2 h3); (done || lia || eauto).
  - wp_step. apply Hrest; [reflexivity|done|done|done|].
    intros p' h' [HR' Hpost]. split; [by etransitivity|]. intros Hok. by rewrite HW02 in Hpost; apply Hpost.
Qed.

Lemma extract_method_spec nofuel input output csize usize method p s h :
  nofuel \/ zlib_progress env -> 0 <= csize -> 0 <= produced_total p < 2 ^ 32 -> 0 <= result p ->
  run_spec nofuel (extract_method input output csize usize method p)
    (fun p' _ h' => loop_post output p h p' h') env s h.
Proof using All.
  intros Hn Hc Hp Hres. unfold extract_method.
  destruct (method =? 0); [|destruct (method =? 8)].
  - destruct (negb (csize =? usize)).
    { wp_step. apply loop_post_fail; [reflexivity|]. unfold INSTALL_ERROR_ARCHIVE_SIZE. lia. }
    apply wp_any, copy_stored_spec; [done| |done]. unfold stored_fuel, INSTALL_IO_BUFFER in *. lia.
  - wp_step. wp_step. destruct (negb (a =? Z_OK)) eqn:Hz.
    { wp_step. apply loop_post_fail; [|unfold INSTALL_ERROR_ARCHIVE; lia].
      apply negb_true_iff in Hz. by contained_now. }
    apply negb_false_iff in Hz. wp_step. eapply wp_mono; [apply (inflate_loop_spec nofuel csize)|]; [done..| |].
    + destruct Hn as [|Hz']; [by left|right]. simpl. unfold inflate_fuel. split_and!; [done|lia..].
    + intros p' s1 h1 [HR1 Hpost]. wp_step. wp_step. wp_step. split; [by contained_now|].
      intros Hok. destruct (Hpost Hok) as (D & HW & ?). exists D. split; [|done].
      simpl in HW |- *. by rewrite !app_nil_r in *.
  - wp_step. apply loop_post_fail; [reflexivity|]. unfold INSTALL_ERROR_ARCHIVE_TYPE. lia.
Qed.

(** What the extraction of an entry to [destination] guarantees: on success the
    file was opened and what was written to it is exactly the data the directory
    announces; on failure the file was removed last, or never opened. *)
Definition open_destination (destination : bytes) : call :=
  sceIoOpen (Some destination) (Z.lor (Z.lor SCE_O_WRONLY SCE_O_CREAT) SCE_O_TRUNC) mode_file.

Definition extracted (destination : bytes) (usize crc : Z) (h : history) (r : Z) (h' : history) : Prop :=
  (0 <= r -> exists (fd : Z) h1 D, 0 <= fd /\ adds making h h1 /\
     adds (fun _ => True) (Ev (open_destination destination) fd :: h1) h' /\
     written fd h' = written fd h ++ D /\ u32 (Z.of_nat (length D)) = usize /\ crc32 crc32_initial D = crc) /\
  (r < 0 -> (exists a h1, h' = Ev (sceIoRemove (Some destination)) a :: h1) \/ adds making h h' \/
            (exists (fd : Z) h1, fd < 0 /\ h' = Ev (open_destination destination) fd :: h1 /\ adds making h h1)).

Lemma extract_zip_data_spec nofuel input doff csize usize method crc destination s h :
  nofuel \/ zlib_progress env -> staged destination -> 0 <= csize ->
  run_spec nofuel (extract_zip_data input doff csize usize method crc destination)
    (fun r _ h' => R h h' /\ extracted destination usize crc h r h') env s h.
Proof using All.
  intros Hn Hd Hc. unfold extract_zip_data. wp_step. apply wp_any.
  eapply wp_mono; [apply ensure_parent_directory_making; done|]. intros r0 s1 h1 HM.
  pose proof (making_contained vpk _ _ HM) as HR1.
  destruct (r0 <? 0) eqn:Hr0. { wp_step. split; [done|]. split; [lia|]. by right; left. }
  wp_step. wp_step. destruct (a <? 0) eqn:Ha.
  { wp_step. split; [by contained_now|]. split; [lia|]. intros _. right; right. exists a, h1. split_and!; [lia|done|done]. }
  wp_step. wp_step. destruct (a0 <? 0) eqn:Hpos.
  { wp_steps. split; [by contained_now|]. split; [unfold INSTALL_ERROR_IO; lia|]. intros _. left. eauto. }
  do 4 wp_step. destruct (negb a1 || negb a2) eqn:Hm.
  { wp_steps. split; [destruct a1, a2; done || by contained_now|].
    split; [unfold INSTALL_ERROR_MEMORY; lia|]. intros _. left. eauto. }
  apply orb_false_iff in Hm as [->%negb_false_iff ->%negb_false_iff].
  wp_step. eapply wp_mono; [apply (extract_method_spec nofuel); [done|done|cbn; lia|cbn; lia]|].
  intros p s2 h2 [HR2 Hpost]. do 6 wp_step. cbv zeta.
  match goal with |- context [if ?b then INSTALL_ERROR_ARCHIVE else result p] =>
    set (r := if b then INSTALL_ERROR_ARCHIVE else result p) in * end.
  destruct (r <? 0) eqn:Hr; do 2 wp_step.
  - do 2 wp_step. split; [by contained_now|]. split; [lia|]. intros _. left. eauto.
  - wp_step. split; [by contained_now|]. split; [|lia]. intros Hrp.
    assert (0 <= result p /\ produced_total p = usize /\ checksum p = crc) as (Hres & Hu & Hcrc).
    { subst r. unfold INSTALL_ERROR_ARCHIVE in *.
      destruct (0 <=? result p) eqn:E1; [|cbn [andb] in *; lia].
      destruct (produced_total p =? usize) eqn:E2; [|cbn [andb orb negb] in *; lia].
      destruct (checksum p =? crc) eqn:E3; cbn [andb orb negb] in *; lia. }
    destruct (Hpost Hres) as (D & HW & Hck & Hpt). cbn [checksum produced_total] in *.
    exists a, h1, D. split_and!; [lia|done| | | |].
    + do 3 (apply adds_cons; [done|]). etransitivity; [|eapply adds_mono; [|exact (proj1 HR2)]; done].
      do 3 (apply adds_cons; [done|]). reflexivity.
    + simpl in HW |- *. rewrite !app_nil_r in *. rewrite HW. by rewrite (written_making a _ _ HM).
    + change (u32 (0 + Z.of_nat (length D)) = usize). congruence.
    + by rewrite <-Hck.
Qed.
End extraction.

(** * The archive: every run is contained *)

Section archive.
Context `{Sdk} `{!Crc} (env : environment) (Hio : io_ok env) (vpk : bytes).
Abbreviation R := (contained vpk).

Lemma find_central_directory_spec file file_size s h :
  22 <= file_size < 2 ^ 63 ->
  wp (find_central_directory file file_size) (fun r _ h' => R h h' /\
    match r with inl _ => True | inr (offset, count) => 0 <= offset < 2 ^ 32 /\ 0 <= count < 2 ^ 16 end) env s h.
Proof using Hio.
  intros Hs. unfold find_central_directory.
  set (tail_size := if file_size <? 0x10016 then file_size else 0x10016).
  assert (22 <= tail_size) as Ht by (unfold tail_size; destruct (Z.ltb_spec file_size 0x10016); lia).
  wp_step. wp_step. destruct a; cbn [negb]; [|wp_step; split; [by contained_now|done]].
  wp_step. eapply wp_mono; [apply (read_at_spec env Hio vpk)|]. intros [e|tail] s1 h1 (HR & _ & Hr).
  { wp_steps. split; [by contained_now|done]. }
  destruct Hr as [Hl Hb]. wp_step.
  assert (exists r, scan_eocd tail file_size (Z.to_nat (tail_size - 22)) = Done r /\
    match r with inl _ => True | inr (offset, count) => 0 <= offset < 2 ^ 32 /\ 0 <= count < 2 ^ 16 end)
    as (r & E & Hr).
  { destruct (scan_eocd_spec tail file_size (Z.to_nat (tail_size - 22))) as [(i & _ & ->)|[_ ->]]; [done|lia|lia| |by eexists].
    eexists. split; [done|]. unfold eocd_at. destruct (_ && _); [|done].
    split; [by apply le32_range|by apply le16_range]. }
  eapply wp_lift; [exact E|]. wp_steps. split; [by contained_now|done].
Qed.

Lemma read_central_header_spec central :
  Forall is_byte central -> length central = 46%nat ->
  exists c, read_central_header central = Done c /\ 0 <= name_size c /\ 0 <= compressed_size c /\
    0 <= local_offset c.
Proof using Type.
  intros Hb Hl. unfold read_central_header. rewrite !read_le16_spec, !read_le32_spec by (done || lia). run.
  eexists. split; [done|]. cbn [name_size compressed_size local_offset].
  split_and!; [by apply le16_range|by apply le32_range|by apply le32_range].
Qed.

Lemma extract_file_spec nofuel file file_size c destination s h :
  nofuel \/ zlib_progress env -> staged destination -> 0 <= compressed_size c ->
  run_spec nofuel (extract_file file file_size c destination) (fun _ _ h' => R h h') env s h.
Proof using All.
  intros Hn Hd Hc. unfold extract_file. wp_step. apply wp_any.
  eapply wp_mono; [apply (read_at_spec env Hio vpk)|]. intros [e|local] s1 h1 (HR & _ & Hr); [by wp_step|].
  destruct Hr as [Hl Hb]. unfold sizeof_local in *.
  wp_step. eapply wp_lift; [apply read_le32_spec; [done|lia|lia]|].
  wp_step. eapply wp_lift; [apply read_le16_spec; [done|lia|lia]|].
  wp_step; [by wp_step|].
  wp_step. eapply wp_lift; [apply read_le16_spec; [done|lia|lia]|].
  wp_step. eapply wp_lift; [apply read_le16_spec; [done|lia|lia]|]. cbv zeta.
  wp_step; [by wp_step|].
  eapply wp_mono; [by apply (extract_zip_data_spec env Hio vpk nofuel)|].
  intros r s2 h2 [HR2 _]. by etransitivity.
Qed.

Lemma cstr_name name : cstr (name ++ [NUL]) = Done (string_at (name ++ [NUL])).
Proof using Type.
  apply cstr_string_at. unfold has_NUL. rewrite existsb_app. cbn. apply orb_true_r.
Qed.

Lemma extract_entry_spec nofuel file file_size cursor c total s h :
  nofuel \/ zlib_progress env -> 0 < name_size c -> 0 <= compressed_size c ->
  run_spec nofuel (extract_entry file file_size cursor c total) (fun _ _ h' => R h h') env s h.
Proof using All.
  intros Hn Hname Hc. unfold extract_entry. wp_step. apply wp_any.
  eapply wp_mono; [apply (read_at_spec env Hio vpk)|]. intros [e|name] s1 h1 (HR & _ & Hr); [by wp_step|].
  destruct Hr as [Hl Hb].
  wp_step. eapply wp_lift; [apply cstr_name|]. set (path := string_at (name ++ [NUL])).
  destruct (is_safe_spec path) as (safe & E & Hsafe).
  wp_step. eapply wp_lift; [exact E|].
  destruct safe; cbn [negb]; [|by wp_step]. pose proof (staged_safe path (proj1 Hsafe eq_refl)) as Hstaged.
  wp_step. destruct (lookup_lt_is_Some_2 name (Z.to_nat (name_size c - 1))) as [last Hlast]; [lia|].
  eapply wp_lift; [by apply load_in; [lia|]|].
  wp_step; [by wp_step|]. wp_step; [by wp_step|]. cbv zeta.
  set (text := INSTALL_STAGE ++ lit "/" ++ path) in *. unfold snprintf_ret.
  destruct (Z.leb_spec INSTALL_PATH_MAX (Z.of_nat (length text))); [by wp_step|].
  unfold snprintf. rewrite (take_ge text) by (unfold INSTALL_PATH_MAX in *; lia).
  wp_step. destruct (last =? SLASH).
  - apply wp_any. eapply wp_mono; [apply (ensure_directory_contained env vpk)|].
    + clearbody text. destruct text as [|x text0 _] using rev_ind; [by destruct Hstaged as (cs & trail & _ & E')|].
      rewrite take_app_length' by (rewrite length_app; simpl; lia).
      by apply (ensurable_cut _ x).
    + intros r s2 h2 HR2. wp_step. by etransitivity.
  - eapply wp_mono; [by apply extract_file_spec|]. intros r s2 h2 HR2. wp_step. by etransitivity.
Qed.

Lemma extract_entries_spec nofuel n file file_size cursor total r0 s h :
  nofuel \/ zlib_progress env ->
  run_spec nofuel (extract_entries n file file_size cursor total r0) (fun _ _ h' => R h h') env s h.
Proof using All.
  intros Hn. revert cursor total r0 s h. induction n as [|n IH]; intros cursor total r0 s h; cbn [extract_entries].
  { by wp_step. }
  wp_step; [by wp_step|]. wp_step. apply wp_any.
  eapply wp_mono; [apply (read_at_spec env Hio vpk)|]. intros [e|central] s1 h1 (HR & _ & Hr); [by wp_step|].
  destruct Hr as [Hl Hb]. unfold sizeof_central in Hl.
  wp_step. eapply wp_lift; [apply read_le32_spec; [done|lia|lia]|].
  wp_step; [by wp_step|].
  destruct (read_central_header_spec central) as (c & E & Hname & Hc & _); [done|lia|].
  wp_step. eapply wp_lift; [exact E|]. cbv zeta.
  destruct (bad_central c _ file_size) eqn:Hbad; [by wp_step|].
  assert (0 < name_size c).
  { unfold bad_central in Hbad. destruct (Z.eqb_spec (name_size c) 0) as [Hz|]; [|lia].
    exfalso. by rewrite !orb_true_r in Hbad. }
  wp_step. eapply wp_mono; [by apply extract_entry_spec|]. intros [r total'] s2 h2 HR2.
  wp_step; [wp_step; by etransitivity|].
  eapply wp_mono; [apply IH|]. intros r' s3 h3 HR3. etransitivity; [exact HR|]. by etransitivity.
Qed.

Lemma extract_vpk_spec nofuel s h :
  nofuel \/ zlib_progress env -> run_spec nofuel (extract_vpk vpk) (fun _ _ h' => R h h') env s h.
Proof using All.
  intros Hn. unfold extract_vpk. wp_step. wp_step. wp_step; [wp_step; by contained_now|].
  wp_step. wp_step. pose proof (lseek_ok env Hio) as Hsize.
  destruct (Z.ltb_spec a0 22); [wp_steps; by contained_now|].
  wp_step. apply wp_any. eapply wp_mono; [apply find_central_directory_spec|].
  { split; [done|]. subst a0. apply Hsize. }
  intros [e|[offset count]] s1 h1 [HR1 Hf]; wp_step.
  - wp_step. wp_steps. by contained_now.
  - eapply wp_mono; [by apply extract_entries_spec|]. intros r s2 h2 HR2. wp_steps. by contained_now.
Qed.

Lemma staged_file names :
  Forall inner_name names -> staged (INSTALL_STAGE ++ slashed names false).
Proof using Type. by exists names, false. Qed.

Lemma staged_sfo : staged INSTALL_SFO.
Proof using Type.
  change INSTALL_SFO with (INSTALL_STAGE ++ slashed [lit "sce_sys"; lit "param.sfo"] false).
  apply staged_file. repeat constructor; done.
Qed.

Lemma staged_head : staged INSTALL_HEAD.
Proof using Type.
  change INSTALL_HEAD with (INSTALL_STAGE ++ slashed [lit "sce_sys"; lit "package"; lit "head.bin"] false).
  apply staged_file. repeat constructor; done.
Qed.
#[local] Hint Resolve staged_sfo staged_head : staged.

(** A file that was read is a block the caller holds. *)
Lemma read_file_spec path s h :
  staged path ->
  wp (read_file path) (fun r _ h' => match r with
    | inl error => error < 0 /\ R h h'
    | inr data =>
        holds h' = Held (files (holds h)) (dirs (holds h)) (blocks (holds h) + 1) (streams (holds h)) /\
        adds (allowed vpk) h h' /\ 0 < Z.of_nat (length data) <= INSTALL_SFO_MAX /\ Forall is_byte data /\
        forall fd, written fd h' = written fd h
    end) env s h.
Proof using Hio.
  intros Hp. unfold read_file. wp_step. wp_step. wp_step; [wp_step; split; [lia|by contained_now]|].
  wp_step. wp_step. destruct ((a0 <=? 0) || (INSTALL_SFO_MAX <? a0)) eqn:Hsize.
  { wp_steps. split; [unfold INSTALL_ERROR_SFO; lia|by contained_now]. }
  wp_step. wp_step. wp_step; [wp_steps; split; [unfold INSTALL_ERROR_IO; lia|by contained_now]|].
  wp_step. wp_step. destruct a2; cbn [negb]; [|wp_steps; split; [unfold INSTALL_ERROR_MEMORY; lia|by contained_now]].
  wp_step. eapply wp_mono; [apply (read_loop_spec env Hio vpk); [done|simpl; lia|simpl; lia]|].
  intros [e|data] s1 h1 (HR & HA & Hr).
  { wp_steps. split; [done|by contained_now]. }
  destruct Hr as [Hl Hb]. wp_steps.
  split_and!; [by contained_holds|by contained_adds|lia|lia|done|].
  intros fd. simpl. rewrite app_nil_r, (written_reads _ _ _ HA). simpl. by rewrite !app_nil_r.
Qed.

(** The reads of a whole file: what the loop returns is what it read. *)
Definition reads_file (file : Z) (es : history) : Prop := Forall (fun e => exists len, ev_call e = sceIoRead file len) es.

Lemma read_loop_run fuel file size acc s h :
  Z.of_nat (length acc) <= size ->
  returns (read_loop fuel file size acc) (fun r _ h' => forall data, r = inr data -> Z.of_nat (length data) = size /\
    exists es, h' = es ++ h /\ reads_file file es /\ data = acc ++ moved (read_bytes file) es) env s h.
Proof using Type.
  revert acc s h. induction fuel as [|fuel IH]; intros acc s h Hl; cbn [read_loop]; [intros ? ? ? E; discriminate E|].
  destruct (Z.ltb_spec 0 (size - Z.of_nat (length acc))) as [Hlt|Hge].
  - do 2 returns_step. destruct a as [n d]. destruct (Z.leb_spec n 0); [returns_step; by intros|].
    unfold stored. destruct ((Z.of_nat (length d) =? n) && (n <=? size - Z.of_nat (length acc))) eqn:E; [|intros ? ? ? E2; discriminate E2].
    do 2 returns_step.
    eapply returns_mono; [apply IH; rewrite length_app; lia|]. intros r s' h' Hr data Edata.
    destruct (Hr data Edata) as (Hlen & es & -> & Hes & ->). split; [done|].
    exists (es ++ [Ev (sceIoRead file (size - Z.of_nat (length acc))) (n, d)]). rewrite <-app_assoc. split; [done|]. split.
    + apply Forall_app. split; [done|]. repeat constructor. by eexists.
    + rewrite moved_app. cbn [moved read_bytes app]. rewrite Z.eqb_refl, take_ge by lia. by rewrite app_assoc.
  - returns_step. intros data [= <-]. split; [lia|]. exists []. cbn. rewrite app_nil_r. by repeat constructor.
Qed.

(** The run of [read_file] that read [data]: the file is opened, its end found, and all
    of it read from its start. *)
Definition file_was_read (path data : bytes) (h h' : history) : Prop :=
  exists file position reading closed, 0 <= file /\ 0 <= position /\ reads_file file reading /\
    moved (read_bytes file) reading = data /\
    h' = Ev (sceIoClose file) closed :: reading ++ Ev (malloc (Z.of_nat (length data))) true ::
         Ev (sceIoLseek file 0 SCE_SEEK_SET) position :: Ev (sceIoLseek file 0 SCE_SEEK_END) (Z.of_nat (length data)) ::
         Ev (sceIoOpen (Some path) SCE_O_RDONLY 0) file :: h.

Lemma read_file_run path s h :
  returns (read_file path) (fun r _ h' => forall data, r = inr data -> file_was_read path data h h') env s h.
Proof using Type.
  unfold read_file. do 2 returns_step. rename a into file. returns_step; [by returns_step|]. do 2 returns_step. rename a into size.
  returns_step; [by do 3 returns_step|]. do 2 returns_step. rename a into position.
  returns_step; [by do 3 returns_step|]. do 2 returns_step. destruct a; cbn [negb]; [|by do 3 returns_step].
  apply returns_bind. eapply returns_mono; [apply read_loop_run; cbn; lia|]. intros [e|data] s1 h1 Hr.
  - by do 5 returns_step.
  - destruct (Hr data eq_refl) as (<- & es & -> & Hes & Edata). do 3 returns_step. intros data' [= <-].
    eexists file, position, es, _. split_and!; [lia|lia|done|done|reflexivity].
Qed.

(** The content id selected for a title. *)
Definition content_of (content_id title : bytes) : bytes :=
  match content_id with
  | [] => lit "EP9000-" ++ title ++ lit "_00-0000000000000000"
  | _ => content_id
  end.

Definition is_text (s : bytes) : Prop := Forall is_byte s /\ Forall (fun c => c <> NUL) s.

Lemma array48_spec s :
  is_text s -> (length s < 48)%nat ->
  Forall is_byte (array48 s) /\ has_NUL (take 48 (array48 s)) = true /\ string_at (array48 s) = s.
Proof using Type.
  intros [Hb Hn] Hl. unfold array48. destruct (48 - length s)%nat as [|n] eqn:En; [lia|].
  cbn [replicate]. split_and!.
  - apply Forall_app. split; [done|]. constructor; [unfold is_byte; lia|apply zeros_bytes].
  - rewrite take_app_ge by lia. rewrite En. cbn [take]. unfold has_NUL. rewrite existsb_app. cbn.
    apply orb_true_r.
  - unfold string_at. destruct (while_app not_NUL s (0 :: replicate n 0)) as [-> _].
    + eapply Forall_impl; [exact Hn|]. intros c Hc. unfold not_NUL. cbn beta in *. apply negb_true_iff, Z.eqb_neq. exact Hc.
    + cbn. by rewrite app_nil_r.
Qed.

Lemma selected_spec content_id title :
  is_text content_id -> (length content_id < 48)%nat -> is_text title -> length title = 9%nat ->
  exists s, selected_content_id content_id title = array48 s /\ s = content_of content_id title /\
    is_text s /\ (length s < 48)%nat.
Proof using Type.
  intros [Hcb Hcn] Hcl [Htb Htn] Htl. unfold selected_content_id, content_of.
  set (d := lit "EP9000-" ++ title ++ lit "_00-0000000000000000").
  assert (length d = 36%nat) as Hd by (unfold d; rewrite !length_app, Htl; reflexivity).
  assert (is_text d) as Htext.
  { split; unfold d; rewrite !Forall_app; split_and!; try done; try solve_bytes;
      repeat constructor; discriminate. }
  destruct content_id as [|c content_id].
  - exists d. unfold snprintf. rewrite take_ge by (rewrite Hd; simpl; lia). split_and!; [done|done|done|lia].
  - apply Forall_cons in Hcn as [Hc Hcn]. rewrite (proj2 (Z.eqb_neq c NUL)) by done.
    exists (c :: content_id). split_and!; [done|done| |done]. split; [done|by constructor].
Qed.

(** The values of a [param.sfo] are text. *)
Lemma at_offset_bytes b o : Forall is_byte b -> Forall is_byte (at_offset b o).
Proof using Type. intros. by apply Forall_drop. Qed.

Lemma sfo_lookup_text sfo key v :
  Forall is_byte sfo -> sfo_lookup (sfo_fields sfo) key = Some v -> is_text v.
Proof using Type.
  intros Hb. unfold sfo_fields. destruct (_ && _); [|done]. generalize (seq 0 (Z.to_nat (le32_at sfo 16))) as l.
  induction l as [|i l IH]; cbn [fmap list_fmap sfo_lookup]; [done|].
  destruct (sfo_field sfo i) as [[k v']|] eqn:E; [|done]. destruct (decide (k = key)); [|done]. intros [= <-].
  unfold sfo_field in E. destruct (_ && _); [|done]. injection E as <- <-.
  split; [by apply string_at_bytes, at_offset_bytes|apply string_at_NUL_free].
Qed.

Lemma is_text_take n s : is_text s -> is_text (take n s).
Proof using Type. intros [? ?]. split; by apply Forall_take. Qed.

Lemma write_head_spec head s h :
  length head = 1072%nat ->
  wp (write_head head) (fun r _ h' => R h h' /\
    (0 <= r -> exists fd, written fd h' = written fd h ++ head)) env s h.
Proof using Type.
  intros Hl. unfold write_head. wp_step.
  eapply wp_mono; [apply ensure_parent_directory_making, staged_head|]. intros r0 s1 h1 HM.
  pose proof (making_contained vpk _ _ HM) as HR.
  destruct (r0 <? 0) eqn:Hr0; [wp_step; split; [done|lia]|].
  wp_step. wp_step. wp_step; [wp_step; split; [by contained_now|lia]|].
  do 5 wp_step. split; [by contained_now|]. intros Hok. exists a.
  destruct (Z.eqb_spec a0 vita_shell_head_bin_len) as [->|]; cbn [negb] in Hok;
    [|destruct (Z.ltb_spec a0 0); unfold INSTALL_ERROR_IO in *; lia].
  simpl. rewrite Z.eqb_refl, !app_nil_r, (written_making a _ _ HM). f_equal.
  apply take_ge. unfold vita_shell_head_bin_len. lia.
Qed.

(** The run of [write_head] that wrote [head]: the header's file is created, in
    directories that were made before, and gets these bytes. *)
Definition head_was_written (head : bytes) (h h' : history) : Prop :=
  exists fd h1 closed, 0 <= fd /\ adds making h h1 /\
    h' = Ev (sceIoClose fd) closed :: Ev (sceIoWrite fd head) vita_shell_head_bin_len ::
         Ev (sceIoOpen (Some INSTALL_HEAD) (Z.lor (Z.lor SCE_O_WRONLY SCE_O_CREAT) SCE_O_TRUNC) mode_file) fd :: h1.

Lemma write_head_run head s h :
  returns (write_head head) (fun r _ h' => 0 <= r -> head_was_written head h h') env s h.
Proof using Type.
  unfold write_head. apply returns_bind. eapply returns_mono.
  { eapply (returns_run False). apply ensure_parent_directory_making, staged_head. }
  intros r0 s1 h1 HM. destruct (Z.ltb_spec r0 0); [returns_step; lia|].
  do 2 returns_step. rename a into fd. returns_step; [returns_step; lia|]. do 5 returns_step.
  destruct (Z.eqb_spec a vita_shell_head_bin_len) as [->|]; cbn [negb];
    [|destruct (Z.ltb_spec a 0); unfold INSTALL_ERROR_IO; lia].
  intros _. eexists fd, h1, _. split_and!; [lia|done|reflexivity].
Qed.

(** The [param.sfo] that the run read names the title and the content, and the header
    that it wrote after that is the signed one for them; besides, memory comes and
    goes. *)
Definition head_made (title_id : bytes) (size : Z) (h : history) (r : Z) (out : bytes) (h' : history) : Prop :=
  (r < 0 -> out = title_id) /\
  (0 <= r -> exists sfo id title content h1 h2 freed freed', r = 0 /\
     file_was_read INSTALL_SFO sfo h h1 /\
     sfo_lookup (sfo_fields sfo) (lit "TITLE_ID") = Some id /\ title = take 11 id /\
     valid_title_id title = true /\
     content = default [] (take 47 <$> sfo_lookup (sfo_fields sfo) (lit "CONTENT_ID")) /\
     out = take (Z.to_nat (size - 1)) title /\
     head_was_written (signed_head (content_of content title)) (Ev (malloc vita_shell_head_bin_len) true :: Ev (free true) freed :: h1) h2 /\
     h' = Ev (free true) freed' :: h2).

Lemma make_head_bin_spec context title_id size s h :
  block_ok (Sha1.data context) ->
  wp (make_head_bin context title_id size) (fun '(r, out) _ h' =>
    R h h' /\ head_made title_id size h r out h') env s h.
Proof using Hio.
  intros Hctx. unfold make_head_bin. wp_step.
  eapply wp_mono; [apply run_spec_returns; [apply read_file_spec, staged_sfo|apply read_file_run]|]. intros [e|sfo] s1 h1 [Hsfo Hread].
  { destruct Hsfo as [He HR]. wp_step. split; [done|]. split; [done|lia]. }
  destruct Hsfo as (Hh & HA & [Hl1 Hl2] & Hb & HW). unfold INSTALL_SFO_MAX in *.
  wp_step. eapply wp_lift; [apply sfo_string_spec; [done|lia|lia]|].
  assert (forall a, R h (Ev (free true) a :: h1)) as HR1.
  { intros a. split; [by contained_adds|]. rewrite holds_cons, Hh. cbn [track files dirs blocks streams].
    rewrite Z.add_simpl_r. by destruct (holds h). }
  destruct (sfo_lookup (sfo_fields sfo) (lit "TITLE_ID")) as [id|] eqn:Hid; cbn [default Datatypes.id];
    [|change (0 <=? INSTALL_ERROR_SFO) with false; cbn [andb]; change (0 <=? INSTALL_ERROR_SFO) with false;
      change (INSTALL_ERROR_SFO <? 0) with true; wp_steps; split;
      [apply HR1|split; [done|unfold INSTALL_ERROR_SFO; lia]]].
  change (Z.to_nat (12 - 1)) with 11%nat. change (0 <=? 0) with true. cbn [andb].
  destruct (valid_title_id (take 11 id)) eqn:Hv; cbn [negb];
    [|change (0 <=? INSTALL_ERROR_TITLE_ID) with false; change (INSTALL_ERROR_TITLE_ID <? 0) with true; wp_steps; split;
      [apply HR1|split; [done|unfold INSTALL_ERROR_TITLE_ID; lia]]].
  change (0 <=? 0) with true. cbv iota. wp_step. wp_step.
  eapply wp_lift; [apply sfo_string_spec; [done|lia|lia]|].
  set (content := default [] (take 47 <$> sfo_lookup (sfo_fields sfo) (lit "CONTENT_ID"))).
  set (title := take 11 id) in *.
  destruct (valid_title_id_spec title) as [Htitle _]. destruct (Htitle Hv) as [Htl _].
  assert (is_text title) as Htt by (by eapply is_text_take, sfo_lookup_text).
  assert (is_text content /\ (length content < 48)%nat) as [Hct Hcl].
  { unfold content. destruct (sfo_lookup _ (lit "CONTENT_ID")) as [c|] eqn:Ec; cbn [fmap option_fmap option_map default Datatypes.id];
      [|split; [by split|simpl; lia]].
    split; [by eapply is_text_take, sfo_lookup_text|]. rewrite length_take. lia. }
  eapply (wp_mono _ (fun c _ h' => c = content /\ h' = h1)); [by destruct (sfo_lookup _ (lit "CONTENT_ID")); wp_step|].
  intros c s2 h2 [-> ->].
  wp_step. wp_step. change (0 <? 0) with false. cbv iota. wp_step. wp_step.
  destruct a0; cbn [negb]; [|wp_step; split; [|split; [done|unfold INSTALL_ERROR_MEMORY; lia]]].
  2: { pose proof (HR1 a). by contained_now. }
  destruct (selected_spec content title Hct Hcl Htt Htl) as (sel & -> & Esel & Hst & Hsl).
  destruct (array48_spec sel Hst Hsl) as (Hab & Han & Has).
  wp_step. eapply wp_lift; [by apply patch_head_spec|]. rewrite Has.
  wp_step. eapply wp_mono; [apply run_spec_returns; [apply write_head_spec|apply write_head_run]|].
  { unfold signed_head, head_with. cbv zeta. by rewrite !length_inserts. }
  intros r s3 h3 [[HR3 _] Hw]. wp_step. wp_step. wp_step. pose proof (HR1 a) as HR1a.
  destruct (Z.ltb_spec r 0) as [Hneg|Hpos]; (split; [by contained_now|]); (split; [done || lia|]); [lia|].
  intros _. exists sfo, id, title, content, h1, h3. do 2 eexists.
  split_and!; [done|by apply Hread|done..|rewrite <-Esel; by apply Hw|reflexivity].
Qed.

(** The system modules a run loaded and the promoter sessions it opened, less
    those it unloaded and closed. *)
Definition count_module (c : call) (a : Z) (m : Z * Z * Z) : Z * Z * Z :=
  match c with
  | sceSysmoduleLoadModuleInternalWithArg _ => if a <? 0 then m else (m.1.1 + 1, m.1.2, m.2)
  | sceSysmoduleUnloadModuleInternalWithArg _ => (m.1.1 - 1, m.1.2, m.2)
  | sceSysmoduleLoadModuleInternal _ => if a <? 0 then m else (m.1.1, m.1.2 + 1, m.2)
  | sceSysmoduleUnloadModuleInternal _ => (m.1.1, m.1.2 - 1, m.2)
  | scePromoterUtilityInit => if a <? 0 then m else (m.1.1, m.1.2, m.2 + 1)
  | scePromoterUtilityExit => (m.1.1, m.1.2, m.2 - 1)
  | _ => m
  end.

Definition status (e : event) : Z :=
  let 'Ev c a := e in
  match c return answer c -> Z with
  | sceSysmoduleLoadModuleInternalWithArg _ => fun a => a
  | sceSysmoduleLoadModuleInternal _ => fun a => a
  | scePromoterUtilityInit => fun a => a
  | scePromoterUtilityPromotePkgWithRif _ _ => fun a => a
  | _ => fun _ => 0
  end a.

Definition modules (h : history) : Z * Z * Z :=
  foldr (fun e m => count_module (ev_call e) (status e) m) (0, 0, 0) h.

(** The promoter accepted the package. *)
Definition promoted (h h' : history) : Prop :=
  exists a : Z, 0 <= a /\ exists es, h' = es ++ h /\ In (Ev (scePromoterUtilityPromotePkgWithRif INSTALL_STAGE 1) a) es.

Lemma first_error_ok r later : 0 <= first_error r later -> 0 <= r.
Proof using Type. unfold first_error. destruct (Z.leb_spec 0 r); cbn [andb]; lia. Qed.

Lemma modules_cons c a h : modules (Ev c a :: h) = count_module c (status (Ev c a)) (modules h).
Proof using Type. done. Qed.

Lemma promoted_later c a h h' : promoted h h' -> promoted h (Ev c a :: h').
Proof using Type. intros (x & Hx & es & -> & Hin). exists x. split; [done|]. exists (Ev c a :: es). split; [done|by right]. Qed.

Lemma promote_stage_spec s h :
  wp promote_stage (fun r _ h' => R h h' /\ modules h' = modules h /\ (0 <= r -> promoted h h')) env s h.
Proof using Type.
  unfold promote_stage, load_paf, unload_paf. destruct (modules h) as [[m1 m2] m3] eqn:Hm.
  wp_steps; (split; [by contained_now|]); rewrite ?modules_cons, Hm; cbn [status count_module fst snd];
    repeat match goal with
    | E : (?x <? 0) = _ |- _ => progress rewrite ?E
    | E : (0 <=? ?x) = _ |- _ => progress rewrite ?E
    end; cbn [fst snd].
  - split; [done|lia].
  - split; [|lia]. do 2 f_equal; lia.
  - destruct (Z.ltb_spec a1 0); [lia|]. cbn [fst snd]. split; [do 2 f_equal; lia|].
    intros Hok%first_error_ok%first_error_ok%first_error_ok. do 3 apply promoted_later.
    exists a2. split; [done|]. eexists [_; _; _; _]. split; [reflexivity|by left].
  - destruct (Z.ltb_spec a1 0); [|lia]. cbn [fst snd]. split; [do 2 f_equal; lia|].
    intros Hok%first_error_ok%first_error_ok. lia.
Qed.

Lemma contained_any h h' : R h h' -> adds (fun _ => True) h h'.
Proof using Type. intros [HA _]. by eapply adds_mono; [|exact HA]. Qed.

Lemma promoted_within h0 h h' h1 :
  adds (fun _ => True) h0 h -> promoted h h' -> adds (fun _ => True) h' h1 -> promoted h0 h1.
Proof using Type.
  intros [es0 [-> _]] (a & Ha & es & -> & Hin) [es1 [-> _]]. exists a. split; [done|].
  exists (es1 ++ es ++ es0). rewrite <-!app_assoc. split; [done|].
  apply in_or_app. right. apply in_or_app. by left.
Qed.

Lemma remove_stage_contained fuel : respects True R (remove_tree fuel INSTALL_STAGE) env.
Proof using Hio.
  pose proof (remove_tree_contained env Hio vpk fuel [] ltac:(done)) as Hr.
  cbn [slashed] in Hr. by rewrite app_nil_r in Hr.
Qed.

Lemma install_vpk_spec fuel context title size s h :
  block_ok (Sha1.data context) ->
  wlp (install_vpk fuel context (Some vpk) title size) (fun '(r, out) _ h' => R h h' /\
    (0 <= r -> promoted h h' /\ exists id, out = Some id /\ valid_title_id id = true)) env s h.
Proof using All.
  intros Hctx. unfold install_vpk.
  destruct (bad_arguments (Some vpk) title size) eqn:Hbad.
  { wp_step. split; [done|]. unfold INSTALL_ERROR_ARGUMENT. lia. }
  assert (10 <= size) as Hsize.
  { unfold bad_arguments in Hbad. destruct (Z.ltb_spec size 10); [|done].
    by rewrite orb_true_r, !orb_true_l in Hbad. }
  wp_step. sub (remove_stage_contained fuel).
  wp_step. apply wp_any. eapply wp_mono;
    [apply (ensure_directory_contained env vpk), ensurable_staged, staged_stage|]. intros r1 s1 h1 HR1.
  wp_step. eapply (wp_mono _ (fun _ _ h2 => R h1 h2)).
  { destruct (0 <=? r1); [|by wp_step]. apply extract_vpk_spec. by left. }
  intros r2 s2 h2 HR2. cbn beta in HR2. wp_step.
  eapply (wp_mono _ (fun '(r, out) _ h3 => R h2 h3 /\ (0 <= r -> valid_title_id out = true))).
  { destruct (Z.leb_spec 0 r2); [|wp_step; split; [done|lia]].
    apply wp_any. eapply wp_mono; [by apply make_head_bin_spec|]. intros [r out] s3 h3 [HR3 [_ Hok]].
    split; [done|]. intros Hr. destruct (Hok Hr) as (sfo & id & t & content & ? & ? & ? & ? & _ & _ & _ & _ & Hv & _ & -> & _).
    rewrite take_ge; [done|]. apply valid_title_id_spec in Hv as [-> _]. lia. }
  intros [r3 out] s3 h3 [HR3 Hvalid].
  wp_step. eapply (wp_mono _ (fun r _ h4 => R h3 h4 /\ (0 <= r -> 0 <= r3 /\ promoted h3 h4))).
  { destruct (Z.leb_spec 0 r3); [|wp_step; split; [done|lia]].
    apply wp_any. eapply wp_mono; [apply promote_stage_spec|]. intros r s4 h4 (HR4 & _ & Hp). by auto. }
  intros r4 s4 h4 [HR4 Hp]. wp_step. sub (remove_stage_contained fuel). wp_step.
  split; [by contained_now|]. intros Hok%first_error_ok. destruct (Hp Hok) as [Hr3 Hpr]. split; [|eauto].
  eapply promoted_within; [|exact Hpr|by apply contained_any]. apply contained_any. by contained_now.
Qed.
End archive.

(** * Directories made *)

Section made.
Context `{Sdk} (env : environment).

(** In this run the directory was made, or found to exist. *)
Definition made (p : bytes) (h h' : history) : Prop :=
  exists es, h' = es ++ h /\
    ((exists a : Z, 0 <= a /\ In (Ev (sceIoMkdir (Some p) mode_dir) a) es) \/
     (exists (r : Z) st, 0 <= r /\ st_isdir st = true /\ In (Ev (sceIoGetstat (Some p)) (r, st)) es)).

Lemma made_later p h h1 h2 : made p h h1 -> adds (fun _ => True) h1 h2 -> made p h h2.
Proof using Type.
  intros (es & -> & Hm) [es' [-> _]]. exists (es' ++ es). rewrite app_assoc. split; [done|].
  destruct Hm as [(a & Ha & Hin)|(r & st & Hr & Hd & Hin)]; [left|right];
    repeat eexists; try done; apply in_or_app; by right.
Qed.

Lemma made_earlier p h h1 h2 : adds (fun _ => True) h h1 -> made p h1 h2 -> made p h h2.
Proof using Type.
  intros [es [-> _]] (es' & -> & Hm). exists (es' ++ es). rewrite app_assoc. split; [done|].
  destruct Hm as [(a & Ha & Hin)|(r & st & Hr & Hd & Hin)]; [left|right];
    repeat eexists; try done; apply in_or_app; by left.
Qed.

Lemma make_directory_made p s h :
  wp (make_directory p) (fun r _ h' => adds (fun _ => True) h h' /\ (0 <= r -> made p h h')) env s h.
Proof using Type.
  unfold make_directory. wp_steps; (split; [repeat (apply adds_cons; [done|]); reflexivity|]); try lia; intros _.
  - apply orb_false_iff in Heqb0 as [? ?%negb_false_iff]. eexists [_; _]. split; [reflexivity|]. right.
    exists z, s0. split_and!; [lia|done|by left].
  - eexists [_]. split; [reflexivity|]. left. exists a. split; [lia|by left].
Qed.

(** The prefixes the loop makes: those before a slash that follows the first
    colon and is not next to a colon or at the start. *)
Definition to_make (before rest q : bytes) : Prop :=
  exists m r, rest = m ++ SLASH :: r /\ q = before ++ m /\ exists c, last q = Some c /\ c <> COLON.

Lemma make_prefixes_made before rest s h :
  wp (make_prefixes before rest) (fun r _ h' => adds (fun _ => True) h h' /\
    (0 <= r -> forall q, to_make before rest q -> made q h h')) env s h.
Proof using Type.
  revert before s h. induction rest as [|c rest IH]; intros before s h; cbn [make_prefixes].
  { wp_step. split; [reflexivity|]. intros _ q (m & r & E & _). by destruct m. }
  set (due := (c =? SLASH) && match last before with Some p => negb (p =? COLON) | None => false end).
  wp_step. eapply (wp_mono _ (fun r _ h1 => adds (fun _ => True) h h1 /\ (0 <= r -> due = true -> made before h h1))).
  { destruct due; [|wp_step; split; [reflexivity|done]].
    eapply wp_mono; [apply make_directory_made|]. intros r s1 h1 [HA Hm]. by auto. }
  intros r s1 h1 [HA Hm]. destruct (Z.ltb_spec r 0); [wp_step; split; [done|lia]|].
  eapply wp_mono; [apply IH|]. intros r' s' h' [HA' Hm']. split; [by etransitivity|].
  intros Hr q (m & t & E & -> & c' & Hlast & Hc'). destruct m as [|x m].
  - injection E as -> _. rewrite app_nil_r in *. eapply made_later; [apply Hm; [done|]|done].
    unfold due. rewrite Z.eqb_refl, Hlast. cbn [andb]. by apply negb_true_iff, Z.eqb_neq.
  - injection E as <- E. eapply made_earlier; [done|]. apply Hm'; [done|]. exists m, t. split; [done|].
    rewrite <-app_assoc. split; [done|]. by exists c'.
Qed.

Lemma ensure_directory_made path s h :
  wp (ensure_directory path) (fun r _ h' => 0 <= r -> made path h h' /\
    forall q, to_make (take_while not_colon path) (drop_while not_colon path) q -> made q h h') env s h.
Proof using Type.
  unfold ensure_directory. wp_step; [wp_step; unfold INSTALL_ERROR_ARCHIVE_PATH; lia|].
  wp_step. eapply wp_mono; [apply make_prefixes_made|]. intros r s1 h1 [HA Hm].
  destruct (Z.ltb_spec r 0); [wp_step; lia|].
  eapply wp_mono; [apply make_directory_made|]. intros r' s2 h2 [HA' Hm'] Hr.
  split; [by eapply made_earlier; [done|apply Hm']|].
  intros q Hq. by eapply made_later; [apply Hm|].
Qed.
End made.

(** * An environment for the examples

    A file system in which everything succeeds: reads give [A]s, a directory is
    empty, and the inflate stream is at its end at once. *)

Definition demo_env : environment := fun h c =>
  match c return answer c with
  | sceNetAccept _ => (0, SockaddrIn 0 0)
  | sceNetRecv _ len => (len, replicate (Z.to_nat len) 65)
  | sceNetGetsockname _ => (0, SockaddrIn 0 0)
  | sceIoGetstat _ => (0, IoStat true 0 0 0 0 0 0)
  | sceIoRead _ len => (len, replicate (Z.to_nat len) 65)
  | sceIoWrite _ data => Z.of_nat (length data)
  | sceIoDread _ => (0, IoDirent [] empty_stat)
  | sceIoOpen _ _ _ => 7
  | malloc _ => true
  | sceAppMgrGetNameById _ | sceNetCtlInetGetInfo => (0, [])
  | sceNetCtlInetGetState | sceNetCtlInetRegisterCallback => (0, 0)
  | taiGetModuleInfo _ => (0, TaiModuleInfo 0 0)
  | sceKernelGetModuleInfo _ => (0, [])
  | inflate next_in _ => (1, 0, [])
  | _ => 0
  end.

Lemma demo_crc : @Crc demo_sdk.
Proof. split; [done|]. intros c a b. simpl. by rewrite foldl_app. Qed.

Lemma demo_io_ok : io_ok demo_env.
Proof.
  split; intros; cbn; [|lia|lia|done|intros; simpl; lia].
  split_and!; [lia|intros; rewrite length_replicate; lia|].
  apply Forall_replicate. unfold is_byte. lia.
Qed.

Lemma demo_progress : @zlib_progress demo_sdk demo_env.
Proof. intros h next_in avail_out. cbn. done. Qed.

(** * Properties *)

(** C8: an installation stays in its staging directory. For every archive and
    every answer of the file system within its contract, [install_vpk] reaches no
    undefined behaviour; it opens for writing, creates, lists and removes only the
    staging directory and paths below it (a path made of components that are not
    empty, [.] or [..]; the directories it makes may lack the last character of such
    a path, and their parent [ux0:data] is made too), opens the archive only for
    reading, renames nothing and promotes only the staging directory; when it
    returns it has closed every file, directory and inflate stream it opened and
    freed every block it allocated; and it reports success only if the promoter
    accepted the package, with a valid title id in the caller's array. *)
Theorem install_vpk_contained `{Sdk} `{!Crc} env fuel context path title_id size s h :
  io_ok env -> block_ok (Sha1.data context) ->
  wlp (install_vpk fuel context (Some path) title_id size) (fun '(r, out) _ h' =>
    adds (allowed path) h h' /\ holds h' = holds h /\
    (0 <= r -> promoted h h' /\ exists id, out = Some id /\ valid_title_id id = true)) env s h.
Proof.
  intros Hio Hctx. eapply wp_mono; [by apply install_vpk_spec|].
  intros [r out] s' h' [[HA Hh] Hok]. done.
Qed.

(** The example file system has no end record in the archive. *)
Lemma install_vpk_contained_witness :
  let context := Sha1Ctx (replicate 64 0) 0 0 [] [] in
  exists h', @install_vpk demo_sdk 9 context (Some (lit "ux0:a.vpk")) true 12 demo_env tt [] =
    Done ((INSTALL_ERROR_ARCHIVE, Some []), tt, h') /\ @holds demo_sdk h' = Held [] [] 0 0.
Proof.
  intros context.
  pose proof (@install_vpk_contained demo_sdk demo_crc demo_env 9 context (lit "ux0:a.vpk") true 12 tt []
    demo_io_ok ltac:(split; [reflexivity|solve_bytes])) as Hwp.
  destruct (@install_vpk demo_sdk 9 context (Some (lit "ux0:a.vpk")) true 12 demo_env tt []) as [[[[r out] []] h']| |] eqn:E;
    vm_compute in E; [|discriminate E..].
  injection E as <- <- <-. eexists. split; [reflexivity|]. destruct Hwp as (_ & Hh & _). exact Hh.
Defined.

(** C17: the extraction of an entry ends. It succeeds only if the bytes written to
    the destination, stored or inflated, in however many partial writes, have the
    length (modulo 2^32) and the CRC the central directory announces, after the
    parent directories and nothing else were made; when it fails the destination
    was removed last, unless it was never opened. *)
Theorem extract_zip_data_correct `{Sdk} `{!Crc} env input doff csize usize method crc destination s h :
  io_ok env -> zlib_progress env -> staged destination -> 0 <= csize ->
  wp (extract_zip_data input doff csize usize method crc destination)
    (fun r _ h' => extracted destination usize crc h r h' /\ holds h' = holds h) env s h.
Proof.
  intros Hio Hz Hd Hc. eapply wp_mono; [apply (extract_zip_data_spec env Hio [] False); auto|].
  intros r s' h' [[_ Hh] Hx]. done.
Qed.

(** Three stored bytes; the checksum of the example is the sum. *)
Lemma extract_zip_data_correct_witness :
  let destination := INSTALL_STAGE ++ lit "/" ++ lit "eboot.bin" in
  exists h', @extract_zip_data demo_sdk 5 100 3 3 0 195 destination demo_env tt [] = Done (0, tt, h') /\
    @extracted demo_sdk destination 3 195 [] 0 h'.
Proof.
  intros destination.
  assert (staged destination) as Hd.
  { apply staged_safe. exists [lit "eboot.bin"], false. split_and!; [discriminate| |reflexivity].
    repeat constructor; discriminate. }
  pose proof (@extract_zip_data_correct demo_sdk demo_crc demo_env 5 100 3 3 0 195 destination tt []
    demo_io_ok demo_progress Hd ltac:(lia)) as Hwp.
  destruct (@extract_zip_data demo_sdk 5 100 3 3 0 195 destination demo_env tt []) as [[[r []] h']| |] eqn:E;
    vm_compute in E; [|discriminate E..].
  injection E as <- <-. eexists. split; [reflexivity|]. destruct Hwp as [Hx _]. exact Hx.
Defined.

(** C18: extraction of a whole archive ends without undefined behaviour on every
    archive and under every answer of the file system and of zlib within their
    contracts, and closes and frees what it used. *)
Theorem extract_vpk_total `{Sdk} `{!Crc} env path s h :
  io_ok env -> zlib_progress env ->
  wp (extract_vpk path) (fun _ _ h' => adds (allowed path) h h' /\ holds h' = holds h) env s h.
Proof. intros Hio Hz. apply (extract_vpk_spec env Hio path False). by right. Qed.

Lemma extract_vpk_total_witness :
  exists r h', @extract_vpk demo_sdk (lit "ux0:a.vpk") demo_env tt [] = Done (r, tt, h') /\
    @holds demo_sdk h' = Held [] [] 0 0.
Proof.
  destruct (wp_done _ _ _ _ _ (@extract_vpk_total demo_sdk demo_crc demo_env (lit "ux0:a.vpk") tt [] demo_io_ok
    demo_progress)) as (r & [] & h' & E & _ & Hh).
  by exists r, h'.
Defined.

(** C34: the header is made from the staged [param.sfo] or an error is reported, never
    something else. On success the run of [make_head_bin] is, in this order: the staged
    [param.sfo] is opened, its size found, and all of it read from its start; in these
    bytes there is a valid title id, which is what the caller's array holds then (cut to
    its size); the header's file is created and gets in one write the signed template
    for the content id in these bytes, or for the default id made of the title id when
    there is none. On failure the caller's array is unchanged. Whatever was opened and
    allocated is released. *)
Theorem make_head_bin_correct `{Sdk} env context title_id size s h :
  io_ok env -> block_ok (Sha1.data context) ->
  wp (make_head_bin context title_id size)
    (fun '(r, out) _ h' => head_made title_id size h r out h' /\ holds h' = holds h) env s h.
Proof.
  intros Hio Hctx. eapply wp_mono; [by apply (make_head_bin_spec env Hio [])|].
  intros [r out] s' h' [[_ Hh] Hm]. done.
Qed.

(** The staged [param.sfo] is that of PackageFormat's example. *)
Definition sfo_env : environment := fun h c =>
  match c return answer c with
  | sceIoLseek _ _ whence => if whence =? SCE_SEEK_END (Sdk := demo_sdk) then 57 else 0
  | sceIoRead _ len => let data := take (Z.to_nat len) sfo_example in (Z.of_nat (length data), data)
  | c => demo_env h c
  end.

Lemma sfo_env_ok : io_ok sfo_env.
Proof.
  split; intros; cbn [sfo_env]; [|cbn; lia| |cbn; done|cbn; intros; simpl; lia].
  - cbv zeta. pose proof (length_take_le sfo_example (Z.to_nat len)) as Hl. rewrite length_take in *.
    split_and!; [lia|lia|]. apply Forall_take. solve_bytes.
  - destruct (_ =? _); lia.
Qed.

Lemma make_head_bin_correct_witness :
  exists h', @make_head_bin demo_sdk (Sha1Ctx (replicate 64 0) 0 0 [] []) (lit "old") 12 sfo_env tt [] =
    Done ((0, lit "ABCD12345"), tt, h') /\ @head_made demo_sdk (lit "old") 12 [] 0 (lit "ABCD12345") h' /\
    moved (read_bytes 7) h' = sfo_example /\ length (moved (written_bytes 7) h') = 1072%nat.
Proof.
  pose proof (@make_head_bin_correct demo_sdk sfo_env (Sha1Ctx (replicate 64 0) 0 0 [] []) (lit "old") 12 tt []
    sfo_env_ok ltac:(split; [reflexivity|solve_bytes])) as Hwp.
  assert (match @make_head_bin demo_sdk (Sha1Ctx (replicate 64 0) 0 0 [] []) (lit "old") 12 sfo_env tt [] with
    | Done (r, out, _, h') => Some (r, out, moved (read_bytes 7) h', length (moved (written_bytes 7) h')) | _ => None end =
    Some (0, lit "ABCD12345", sfo_example, 1072%nat)) as Hout by (vm_compute; reflexivity).
  apply wp_done in Hwp as ([r out] & [] & h' & E & Hm & _). rewrite E in Hout. injection Hout as -> -> Hr Hw.
  exists h'. exact (conj E (conj Hm (conj Hr Hw))).
Defined.

(** C38: promotion balances the module and session counts on every path: whatever
    the loader and the promoter answer, each module loaded is unloaded, a promoter
    session that opened is closed, and success is reported only if the promoter
    accepted the package. *)
Theorem promote_stage_balanced `{Sdk} env s h :
  wp promote_stage (fun r _ h' => modules h' = modules h /\ (0 <= r -> promoted h h')) env s h.
Proof. eapply wp_mono; [apply (promote_stage_spec env [])|]. by intros r s' h' (_ & ? & ?). Qed.

(** A positioned read delivers exactly the bytes asked for or an error, in
    however many partial reads, and ends. *)
Theorem read_at_complete `{Sdk} env file offset size s h :
  io_ok env ->
  wp (read_at file offset size) (fun r _ h' => match r with
    | inl error => error < 0
    | inr data => Z.of_nat (length data) = Z.max 0 size /\ Forall is_byte data
    end) env s h.
Proof.
  intros Hio. eapply wp_mono; [by apply (read_at_spec env Hio [])|]. by intros r s' h' (_ & _ & ?).
Qed.

Lemma read_at_complete_witness :
  exists data h', @read_at demo_sdk 5 100 4 demo_env tt [] = Done (inr data, tt, h') /\ Z.of_nat (length data) = 4.
Proof.
  pose proof (@read_at_complete demo_sdk demo_env 5 100 4 tt [] demo_io_ok) as Hwp.
  destruct (@read_at demo_sdk 5 100 4 demo_env tt []) as [[[[e|data] []] h']| |] eqn:E;
    vm_compute in E; try discriminate E.
  injection E as <- <-. destruct Hwp as [Hl _]. eexists _, _. split; [reflexivity|exact Hl].
Defined.

(** A write ends, reports success only when every byte was accepted, in order,
    in however many partial writes, and otherwise a negative error. *)
Theorem write_all_complete env file buffer s h :
  io_ok env ->
  wp (write_all file buffer) (fun r _ h' => r <= 0 /\
    (r = 0 -> written file h' = written file h ++ buffer)) env s h.
Proof.
  intros Hio. eapply wp_mono; [by apply (@write_all_spec demo_sdk env Hio [])|]. by intros r s' h' (_ & _ & ? & ?).
Qed.

Lemma write_all_complete_witness :
  exists h', write_all 7 (lit "abc") demo_env tt [] = Done (0, tt, h') /\ written 7 h' = lit "abc".
Proof.
  pose proof (write_all_complete demo_env 7 (lit "abc") tt [] demo_io_ok) as Hwp.
  destruct (write_all 7 (lit "abc") demo_env tt []) as [[[r []] h']| |] eqn:E; vm_compute in E; [|discriminate E..].
  injection E as <- <-. eexists. split; [reflexivity|]. destruct Hwp as [_ Hw]. exact (Hw eq_refl).
Defined.

(** When [ensure_directory] succeeds, the directory and every directory above
    it up to the device was made in this run or found to be a directory. *)
Theorem ensure_directory_makes env path s h :
  wp (ensure_directory path) (fun r _ h' => 0 <= r -> made path h h' /\
    forall q, to_make (take_while not_colon path) (drop_while not_colon path) q -> made q h h') env s h.
Proof. apply ensure_directory_made. Qed.
