(* ===== verification/FtpState.v ===== *)
(** The state of the FTP server and the operations on its tables and on the
    transfer and reboot interlocks: the globals and the small functions of
    libftpvita/ftpvita.c.

    Global integers keep their names.  [ftp] holds the statics of the file,
    [client] the part of [ftpvita_client_info_t] that the client's own thread
    works on; the links of the client list are in ClientList.  A [char] array
    that always holds a C string is the list of the bytes before its
    terminator, and every write to it is checked against the array's size. *)

From S2P Require Import Prelude System.

(** newlib's limit, the size of every path buffer. *)
Definition PATH_MAX : Z := 1024.
Definition MAX_DEVICES : nat := 16.
Definition MAX_CUSTOM_COMMANDS : nat := 16.
Definition MAX_CLIENTS : Z := 8.
Definition SERVER_START_PENDING : Z := 0x7fffffff.
Definition SOCKET_IO_TIMEOUT_US : Z := 5 * 1000 * 1000.
Definition DEFAULT_FILE_BUF_SIZE : Z := 4 * 1024 * 1024.

Inductive DataConnectionType :=
| FTP_DATA_CONNECTION_NONE
| FTP_DATA_CONNECTION_ACTIVE
| FTP_DATA_CONNECTION_PASSIVE.

#[export] Instance DataConnectionType_eq_dec : EqDecision DataConnectionType.
Proof. solve_decision. Defined.

Record device := Device { name : bytes; valid : bool }.

(** A custom command: its name, a handle on its function, and whether the slot
    is in use.  The name is null until the slot is first used. *)
Record custom_dispatcher := Custom { cmd : ptr bytes; func : Z; cmd_valid : bool }.

(** * The globals *)

Record ftp := Ftp {
device_list : list device;
custom_command_dispatchers : list custom_dispatcher;
ftp_initialized : bool;
file_buf_size : Z;
vita_addr : Z;
server_thid : Z;
server_sockfd : Z;
server_start_status : Z;
number_clients : Z;
next_client_num : Z;
client_list_mtx : Z;
transfer_active : Z;
reboot_quiesce_requested : Z;
socket_timeout_config_failures : Z;
netctl_init : Z;
net_init : Z;
net_memory : bool
}.

Definition set_device_list (v : list device) (r : ftp) : ftp :=
  Ftp v (custom_command_dispatchers r) (ftp_initialized r) (file_buf_size r) (vita_addr r) (server_thid r) (server_sockfd r) (server_start_status r) (number_clients r) (next_client_num r) (client_list_mtx r) (transfer_active r) (reboot_quiesce_requested r) (socket_timeout_config_failures r) (netctl_init r) (net_init r) (net_memory r).
Definition set_custom_command_dispatchers (v : list custom_dispatcher) (r : ftp) : ftp :=
  Ftp (device_list r) v (ftp_initialized r) (file_buf_size r) (vita_addr r) (server_thid r) (server_sockfd r) (server_start_status r) (number_clients r) (next_client_num r) (client_list_mtx r) (transfer_active r) (reboot_quiesce_requested r) (socket_timeout_config_failures r) (netctl_init r) (net_init r) (net_memory r).
Definition set_ftp_initialized (v : bool) (r : ftp) : ftp :=
  Ftp (device_list r) (custom_command_dispatchers r) v (file_buf_size r) (vita_addr r) (server_thid r) (server_sockfd r) (server_start_status r) (number_clients r) (next_client_num r) (client_list_mtx r) (transfer_active r) (reboot_quiesce_requested r) (socket_timeout_config_failures r) (netctl_init r) (net_init r) (net_memory r).
Definition set_file_buf_size (v : Z) (r : ftp) : ftp :=
  Ftp (device_list r) (custom_command_dispatchers r) (ftp_initialized r) v (vita_addr r) (server_thid r) (server_sockfd r) (server_start_status r) (number_clients r) (next_client_num r) (client_list_mtx r) (transfer_active r) (reboot_quiesce_requested r) (socket_timeout_config_failures r) (netctl_init r) (net_init r) (net_memory r).
Definition set_vita_addr (v : Z) (r : ftp) : ftp :=
  Ftp (device_list r) (custom_command_dispatchers r) (ftp_initialized r) (file_buf_size r) v (server_thid r) (server_sockfd r) (server_start_status r) (number_clients r) (next_client_num r) (client_list_mtx r) (transfer_active r) (reboot_quiesce_requested r) (socket_timeout_config_failures r) (netctl_init r) (net_init r) (net_memory r).
Definition set_server_thid (v : Z) (r : ftp) : ftp :=
  Ftp (device_list r) (custom_command_dispatchers r) (ftp_initialized r) (file_buf_size r) (vita_addr r) v (server_sockfd r) (server_start_status r) (number_clients r) (next_client_num r) (client_list_mtx r) (transfer_active r) (reboot_quiesce_requested r) (socket_timeout_config_failures r) (netctl_init r) (net_init r) (net_memory r).
Definition set_server_sockfd (v : Z) (r : ftp) : ftp :=
  Ftp (device_list r) (custom_command_dispatchers r) (ftp_initialized r) (file_buf_size r) (vita_addr r) (server_thid r) v (server_start_status r) (number_clients r) (next_client_num r) (client_list_mtx r) (transfer_active r) (reboot_quiesce_requested r) (socket_timeout_config_failures r) (netctl_init r) (net_init r) (net_memory r).
Definition set_server_start_status (v : Z) (r : ftp) : ftp :=
  Ftp (device_list r) (custom_command_dispatchers r) (ftp_initialized r) (file_buf_size r) (vita_addr r) (server_thid r) (server_sockfd r) v (number_clients r) (next_client_num r) (client_list_mtx r) (transfer_active r) (reboot_quiesce_requested r) (socket_timeout_config_failures r) (netctl_init r) (net_init r) (net_memory r).
Definition set_number_clients (v : Z) (r : ftp) : ftp :=
  Ftp (device_list r) (custom_command_dispatchers r) (ftp_initialized r) (file_buf_size r) (vita_addr r) (server_thid r) (server_sockfd r) (server_start_status r) v (next_client_num r) (client_list_mtx r) (transfer_active r) (reboot_quiesce_requested r) (socket_timeout_config_failures r) (netctl_init r) (net_init r) (net_memory r).
Definition set_next_client_num (v : Z) (r : ftp) : ftp :=
  Ftp (device_list r) (custom_command_dispatchers r) (ftp_initialized r) (file_buf_size r) (vita_addr r) (server_thid r) (server_sockfd r) (server_start_status r) (number_clients r) v (client_list_mtx r) (transfer_active r) (reboot_quiesce_requested r) (socket_timeout_config_failures r) (netctl_init r) (net_init r) (net_memory r).
Definition set_client_list_mtx (v : Z) (r : ftp) : ftp :=
  Ftp (device_list r) (custom_command_dispatchers r) (ftp_initialized r) (file_buf_size r) (vita_addr r) (server_thid r) (server_sockfd r) (server_start_status r) (number_clients r) (next_client_num r) v (transfer_active r) (reboot_quiesce_requested r) (socket_timeout_config_failures r) (netctl_init r) (net_init r) (net_memory r).
Definition set_transfer_active (v : Z) (r : ftp) : ftp :=
  Ftp (device_list r) (custom_command_dispatchers r) (ftp_initialized r) (file_buf_size r) (vita_addr r) (server_thid r) (server_sockfd r) (server_start_status r) (number_clients r) (next_client_num r) (client_list_mtx r) v (reboot_quiesce_requested r) (socket_timeout_config_failures r) (netctl_init r) (net_init r) (net_memory r).
Definition set_reboot_quiesce_requested (v : Z) (r : ftp) : ftp :=
  Ftp (device_list r) (custom_command_dispatchers r) (ftp_initialized r) (file_buf_size r) (vita_addr r) (server_thid r) (server_sockfd r) (server_start_status r) (number_clients r) (next_client_num r) (client_list_mtx r) (transfer_active r) v (socket_timeout_config_failures r) (netctl_init r) (net_init r) (net_memory r).
Definition set_socket_timeout_config_failures (v : Z) (r : ftp) : ftp :=
  Ftp (device_list r) (custom_command_dispatchers r) (ftp_initialized r) (file_buf_size r) (vita_addr r) (server_thid r) (server_sockfd r) (server_start_status r) (number_clients r) (next_client_num r) (client_list_mtx r) (transfer_active r) (reboot_quiesce_requested r) v (netctl_init r) (net_init r) (net_memory r).
Definition set_netctl_init (v : Z) (r : ftp) : ftp :=
  Ftp (device_list r) (custom_command_dispatchers r) (ftp_initialized r) (file_buf_size r) (vita_addr r) (server_thid r) (server_sockfd r) (server_start_status r) (number_clients r) (next_client_num r) (client_list_mtx r) (transfer_active r) (reboot_quiesce_requested r) (socket_timeout_config_failures r) v (net_init r) (net_memory r).
Definition set_net_init (v : Z) (r : ftp) : ftp :=
  Ftp (device_list r) (custom_command_dispatchers r) (ftp_initialized r) (file_buf_size r) (vita_addr r) (server_thid r) (server_sockfd r) (server_start_status r) (number_clients r) (next_client_num r) (client_list_mtx r) (transfer_active r) (reboot_quiesce_requested r) (socket_timeout_config_failures r) (netctl_init r) v (net_memory r).
Definition set_net_memory (v : bool) (r : ftp) : ftp :=
  Ftp (device_list r) (custom_command_dispatchers r) (ftp_initialized r) (file_buf_size r) (vita_addr r) (server_thid r) (server_sockfd r) (server_start_status r) (number_clients r) (next_client_num r) (client_list_mtx r) (transfer_active r) (reboot_quiesce_requested r) (socket_timeout_config_failures r) (netctl_init r) (net_init r) v.

(** * A client *)

Record client := Client {
num : Z;
ctrl_sockfd : Z;
data_sockfd : Z;
data_con_type : DataConnectionType;
data_sockaddr : SceNetSockaddrIn;
pasv_sockaddr : SceNetSockaddrIn;
pasv_sockfd : Z;
n_recv : Z;
recv_buffer : bytes;
recv_cmd_args : ptr bytes;
cur_path : bytes;
rename_path : bytes;
quit_requested : bool;
restore_point : Z
}.

Definition set_num (v : Z) (r : client) : client :=
  Client v (ctrl_sockfd r) (data_sockfd r) (data_con_type r) (data_sockaddr r) (pasv_sockaddr r) (pasv_sockfd r) (n_recv r) (recv_buffer r) (recv_cmd_args r) (cur_path r) (rename_path r) (quit_requested r) (restore_point r).
Definition set_ctrl_sockfd (v : Z) (r : client) : client :=
  Client (num r) v (data_sockfd r) (data_con_type r) (data_sockaddr r) (pasv_sockaddr r) (pasv_sockfd r) (n_recv r) (recv_buffer r) (recv_cmd_args r) (cur_path r) (rename_path r) (quit_requested r) (restore_point r).
Definition set_data_sockfd (v : Z) (r : client) : client :=
  Client (num r) (ctrl_sockfd r) v (data_con_type r) (data_sockaddr r) (pasv_sockaddr r) (pasv_sockfd r) (n_recv r) (recv_buffer r) (recv_cmd_args r) (cur_path r) (rename_path r) (quit_requested r) (restore_point r).
Definition set_data_con_type (v : DataConnectionType) (r : client) : client :=
  Client (num r) (ctrl_sockfd r) (data_sockfd r) v (data_sockaddr r) (pasv_sockaddr r) (pasv_sockfd r) (n_recv r) (recv_buffer r) (recv_cmd_args r) (cur_path r) (rename_path r) (quit_requested r) (restore_point r).
Definition set_data_sockaddr (v : SceNetSockaddrIn) (r : client) : client :=
  Client (num r) (ctrl_sockfd r) (data_sockfd r) (data_con_type r) v (pasv_sockaddr r) (pasv_sockfd r) (n_recv r) (recv_buffer r) (recv_cmd_args r) (cur_path r) (rename_path r) (quit_requested r) (restore_point r).
Definition set_pasv_sockaddr (v : SceNetSockaddrIn) (r : client) : client :=
  Client (num r) (ctrl_sockfd r) (data_sockfd r) (data_con_type r) (data_sockaddr r) v (pasv_sockfd r) (n_recv r) (recv_buffer r) (recv_cmd_args r) (cur_path r) (rename_path r) (quit_requested r) (restore_point r).
Definition set_pasv_sockfd (v : Z) (r : client) : client :=
  Client (num r) (ctrl_sockfd r) (data_sockfd r) (data_con_type r) (data_sockaddr r) (pasv_sockaddr r) v (n_recv r) (recv_buffer r) (recv_cmd_args r) (cur_path r) (rename_path r) (quit_requested r) (restore_point r).
Definition set_n_recv (v : Z) (r : client) : client :=
  Client (num r) (ctrl_sockfd r) (data_sockfd r) (data_con_type r) (data_sockaddr r) (pasv_sockaddr r) (pasv_sockfd r) v (recv_buffer r) (recv_cmd_args r) (cur_path r) (rename_path r) (quit_requested r) (restore_point r).
Definition set_recv_buffer (v : bytes) (r : client) : client :=
  Client (num r) (ctrl_sockfd r) (data_sockfd r) (data_con_type r) (data_sockaddr r) (pasv_sockaddr r) (pasv_sockfd r) (n_recv r) v (recv_cmd_args r) (cur_path r) (rename_path r) (quit_requested r) (restore_point r).
Definition set_recv_cmd_args (v : ptr bytes) (r : client) : client :=
  Client (num r) (ctrl_sockfd r) (data_sockfd r) (data_con_type r) (data_sockaddr r) (pasv_sockaddr r) (pasv_sockfd r) (n_recv r) (recv_buffer r) v (cur_path r) (rename_path r) (quit_requested r) (restore_point r).
Definition set_cur_path (v : bytes) (r : client) : client :=
  Client (num r) (ctrl_sockfd r) (data_sockfd r) (data_con_type r) (data_sockaddr r) (pasv_sockaddr r) (pasv_sockfd r) (n_recv r) (recv_buffer r) (recv_cmd_args r) v (rename_path r) (quit_requested r) (restore_point r).
Definition set_rename_path (v : bytes) (r : client) : client :=
  Client (num r) (ctrl_sockfd r) (data_sockfd r) (data_con_type r) (data_sockaddr r) (pasv_sockaddr r) (pasv_sockfd r) (n_recv r) (recv_buffer r) (recv_cmd_args r) (cur_path r) v (quit_requested r) (restore_point r).
Definition set_quit_requested (v : bool) (r : client) : client :=
  Client (num r) (ctrl_sockfd r) (data_sockfd r) (data_con_type r) (data_sockaddr r) (pasv_sockaddr r) (pasv_sockfd r) (n_recv r) (recv_buffer r) (recv_cmd_args r) (cur_path r) (rename_path r) v (restore_point r).
Definition set_restore_point (v : Z) (r : client) : client :=
  Client (num r) (ctrl_sockfd r) (data_sockfd r) (data_con_type r) (data_sockaddr r) (pasv_sockaddr r) (pasv_sockfd r) (n_recv r) (recv_buffer r) (recv_cmd_args r) (cur_path r) (rename_path r) (quit_requested r) v.

(** The initial values of the statics. *)
Definition ftp_initial : ftp := Ftp
  (replicate MAX_DEVICES (Device [] false)) (replicate MAX_CUSTOM_COMMANDS (Custom None 0 false))
  false DEFAULT_FILE_BUF_SIZE 0 (-1) (-1) SERVER_START_PENDING 0 0 (-1) 0 0 0 (-1) (-1) false.

(** [strcpy], [strcat] and [snprintf] into an array of [size] bytes that holds a
    C string: the contents afterwards. *)
Definition strcpy (size : Z) (text : bytes) : outcome bytes :=
  if Z.of_nat (length text) <? size then Done text else Undefined.
Definition strcat (size : Z) (old text : bytes) : outcome bytes := strcpy size (old ++ text).

(** * Accessors *)

Definition ftpvita_is_initialized : M ftp bool := gets ftp_initialized.
Definition ftpvita_get_active_client_count : M ftp Z := gets number_clients.
Definition ftpvita_has_active_transfer : M ftp bool := gets (fun f => negb (transfer_active f =? 0)).
Definition ftpvita_is_reboot_quiesced : M ftp bool :=
  gets (fun f => negb (reboot_quiesce_requested f =? 0)).
Definition ftpvita_get_socket_timeout_failure_count : M ftp Z := gets socket_timeout_config_failures.
Definition ftpvita_set_file_buf_size (size : Z) : M ftp unit := modify (set_file_buf_size size).

(** * Transfer admission *)

(** [__sync_bool_compare_and_swap] on one of the flags. *)
Definition compare_and_swap (flag : ftp -> Z) (set_flag : Z -> ftp -> ftp) (old new : Z) : M ftp bool :=
  v ← gets flag;
  if v =? old then modify (set_flag new);; mret true else mret false.

Definition client_begin_transfer : M ftp bool :=
  quiesce ← gets reboot_quiesce_requested;
  if negb (quiesce =? 0) then mret false
  else
    won ← compare_and_swap transfer_active set_transfer_active 0 1;
    if negb won then mret false
    else
      quiesce ← gets reboot_quiesce_requested;
      if negb (quiesce =? 0) then modify (set_transfer_active 0);; mret false
      else mret true.

Definition client_end_transfer : M ftp unit := modify (set_transfer_active 0).

(** * Reboot interlock *)

(** The result is the value returned with [*active_clients] and
    [*active_transfer] afterwards; the caller passes both pointers. They keep
    [old] when the mutex cannot be taken. *)
Definition ftpvita_prepare_for_reboot (old : Z * Z) : M ftp (bool * Z * Z) :=
  clients ← ftpvita_get_active_client_count;
  transfer ← ftpvita_has_active_transfer;
  f ← get;
  won ← (if negb (ftp_initialized f) || (client_list_mtx f <? 0) then mret false
         else compare_and_swap reboot_quiesce_requested set_reboot_quiesce_requested 0 1);
  if negb won then mret (false, clients, Z.b2z transfer)
  else
    locked ← sys (sceKernelLockMutex (client_list_mtx f));
    if locked <? 0 then modify (set_reboot_quiesce_requested 0);; mret (false, old.1, old.2)
    else
      clients ← gets number_clients;
      transfer ← ftpvita_has_active_transfer;
      (if negb (clients =? 0) || transfer then modify (set_reboot_quiesce_requested 0) else mret tt);;
      sys (sceKernelUnlockMutex (client_list_mtx f));;
      mret ((clients =? 0) && negb transfer, clients, Z.b2z transfer).

Definition ftpvita_cancel_reboot : M ftp unit := modify (set_reboot_quiesce_requested 0).

(** * The device table *)

Definition ftpvita_add_device (devname : bytes) : M ftp bool :=
  f ← get;
  match list_find (fun d => valid d = false) (device_list f) with
  | Some (i, _) =>
      text ← lift (strcpy PATH_MAX devname);
      modify (set_device_list (<[i := Device text true]> (device_list f)));; mret true
  | None => mret false
  end.

Definition ftpvita_del_device (devname : bytes) : M ftp bool :=
  f ← get;
  match list_find (fun d => devname = name d) (device_list f) with
  | Some (i, d) => modify (set_device_list (<[i := Device (name d) false]> (device_list f)));; mret true
  | None => mret false
  end.

(** * The custom command table *)

Definition ftpvita_ext_add_custom_command (c : bytes) (fn : Z) : M ftp bool :=
  f ← get;
  match list_find (fun d => cmd_valid d = false) (custom_command_dispatchers f) with
  | Some (i, _) =>
      modify (set_custom_command_dispatchers
        (<[i := Custom (Some c) fn true]> (custom_command_dispatchers f)));; mret true
  | None => mret false
  end.

(** The loop compares with every slot in turn, in use or not; comparing with a
    null name is undefined. *)
Fixpoint find_custom (c : bytes) (slots : list custom_dispatcher) (i : nat) : outcome (option nat) :=
  match slots with
  | [] => Done None
  | d :: slots =>
      match cmd d with
      | None => Undefined
      | Some n => if decide (c = n) then Done (Some i) else find_custom c slots (S i)
      end
  end.

Definition ftpvita_ext_del_custom_command (c : bytes) : M ftp bool :=
  f ← get;
  found ← lift (find_custom c (custom_command_dispatchers f) 0);
  match found with
  | Some i =>
      modify (set_custom_command_dispatchers
        (alter (fun d => Custom (cmd d) (func d) false) i (custom_command_dispatchers f)));; mret true
  | None => mret false
  end.

(** * Sockets *)

Section sockets.
Context `{Sdk}.

Definition configure_socket_io_timeout (sockfd : Z) : M ftp Z :=
  if sockfd <? 0 then mret (-1)
  else
    send_result ← sys (sceNetSetsockopt sockfd SCE_NET_SO_SNDTIMEO SOCKET_IO_TIMEOUT_US);
    receive_result ← sys (sceNetSetsockopt sockfd SCE_NET_SO_RCVTIMEO SOCKET_IO_TIMEOUT_US);
    if (send_result <? 0) || (receive_result <? 0) then
      modify (fun f => set_socket_timeout_config_failures (s32 (socket_timeout_config_failures f + 1)) f);;
      mret (if send_result <? 0 then send_result else receive_result)
    else mret 0.

(** The atomic exchange, then the close. *)
Definition close_server_socket : M ftp unit :=
  sockfd ← gets server_sockfd;
  modify (set_server_sockfd (-1));;
  if 0 <=? sockfd then sys (sceNetSocketClose sockfd);; mret tt else mret tt.
End sockets.

(** * Lemmas *)

(** The names in use in the device table. *)
Definition devices (f : ftp) : list bytes := name <$> filter (fun d => valid d = true) (device_list f).

Section tables.
Context {A : Type} (P : A -> Prop) `{forall x, Decision (P x)}.
Implicit Types (l : list A).

(** Changing one element of a list changes what a filter keeps of it by that element. *)
Lemma filter_insert_Permutation l i x y :
  l !! i = Some x ->
  filter P (<[i := y]> l) ++ filter P [x] ≡ₚ filter P [y] ++ filter P l.
Proof.
  intros Hi. pose proof (lookup_lt_Some _ _ _ Hi). rewrite insert_take_drop by done.
  assert (l = take i l ++ x :: drop (S i) l) as Hl by (symmetry; by apply take_drop_middle).
  rewrite Hl at 3. rewrite (cons_middle y), (cons_middle x), !filter_app. solve_Permutation.
Qed.
End tables.

Section device_table.
Implicit Types (f : ftp) (l : list device) (d : bytes).

Lemma first_free l i x :
  list_find (fun x => valid x = false) l = Some (i, x) -> l !! i = Some x /\ valid x = false.
Proof. intros (Hi & Hx & _)%list_find_Some. done. Qed.

Lemma use_slot f d i x :
  device_list f !! i = Some x -> valid x = false ->
  devices (set_device_list (<[i := Device d true]> (device_list f)) f) ≡ₚ d :: devices f.
Proof.
  intros Hi Hx. unfold devices. cbn [device_list set_device_list].
  pose proof (filter_insert_Permutation (fun y => valid y = true) (device_list f) i x (Device d true) Hi) as Hp.
  rewrite (filter_cons_False _ x), filter_nil, app_nil_r, filter_cons_True, filter_nil in Hp by (cbn; congruence).
  rewrite Hp. by rewrite fmap_app.
Qed.

Lemma free_slot f i x :
  device_list f !! i = Some x -> valid x = true ->
  devices f ≡ₚ name x :: devices (set_device_list (<[i := Device (name x) false]> (device_list f)) f).
Proof.
  intros Hi Hx. unfold devices. cbn [device_list set_device_list].
  pose proof (filter_insert_Permutation (fun y => valid y = true) (device_list f) i x (Device (name x) false) Hi) as Hp.
  rewrite (filter_cons_True _ x), !filter_nil, (filter_cons_False _ (Device _ _)), filter_nil in Hp by (cbn; congruence).
  cbn [app] in Hp. rewrite <-Hp, fmap_app. cbn. by rewrite Permutation_app_comm.
Qed.

Lemma named_slot l d i x : ~ d ∈ (name <$> l) -> l !! i = Some x ->
  list_find (fun x => d = name x) (<[i := Device d true]> l) = Some (i, Device d true).
Proof.
  intros Hd Hi. apply list_find_Some. split_and!; [|done|].
  - apply list_lookup_insert_eq. by eapply lookup_lt_Some.
  - intros j y Hj Hlt Hy. rewrite list_lookup_insert_ne in Hj by lia.
    apply Hd. apply list_elem_of_fmap. exists y. split; [done|]. by eapply list_elem_of_lookup_2.
Qed.
End device_table.

Lemma prepare_spec old (env : environment) f h :
  let locks := 0 <=? env h (sceKernelLockMutex (client_list_mtx f)) in
  let ready := ftp_initialized f && (0 <=? client_list_mtx f) && (reboot_quiesce_requested f =? 0) in
  wp (ftpvita_prepare_for_reboot old) (fun '(ok, clients, transfer) f' h' =>
    ok = ready && locks && (number_clients f =? 0) && (transfer_active f =? 0) /\
    f' = (if (ok : bool) then set_reboot_quiesce_requested 1 f else f) /\
    (ok = true -> clients = 0 /\ transfer = 0) /\
    traced (if negb ready then []
       else sceKernelLockMutex (client_list_mtx f) ::
            if locks then [sceKernelUnlockMutex (client_list_mtx f)] else []) h h') env f h.
Proof.
  destruct f as [dl cl init buf addr thid fd start clients num mtx active quiesce fails nc ni nm].
  intros locks ready. cbn in locks, ready |- *. subst ready.
  unfold ftpvita_prepare_for_reboot, ftpvita_get_active_client_count, ftpvita_has_active_transfer, compare_and_swap.
  unfold run_spec, mbind, M_bind, gets, get, sys, modify, lift, mret, M_ret. cbn.
  destruct init, (Z.ltb_spec mtx 0), (Z.leb_spec 0 mtx); try lia; cbn; try (split_and!; [done..|apply traced_nil]).
  destruct (Z.eqb_spec quiesce 0) as [->|]; cbn; [|split_and!; [done..|apply traced_nil]].
  subst locks. destruct (env h (sceKernelLockMutex mtx) <? 0) eqn:Hlock; cbn.
  - replace (0 <=? _) with false by lia. split_and!; [done..|]. apply traced_call.
  - replace (0 <=? _) with true by lia.
    destruct (Z.eqb_spec clients 0) as [->|], (Z.eqb_spec active 0) as [->|]; cbn;
      (split_and!; [done..|apply (traced_app [_] [_] _ _ _ (traced_call _ _ _) (traced_call _ _ _))]).
Qed.

Lemma begin_transfer_run (env : environment) f h :
  let admitted := (reboot_quiesce_requested f =? 0) && (transfer_active f =? 0) in
  client_begin_transfer env f h = Done (admitted, (if admitted then set_transfer_active 1 f else f), h).
Proof.
  unfold client_begin_transfer, compare_and_swap, mbind, M_bind, gets, modify, mret, M_ret. cbn.
  destruct (Z.eqb_spec (reboot_quiesce_requested f) 0) as [Hq|]; cbn; [|done].
  destruct (Z.eqb_spec (transfer_active f) 0) as [Ht|]; cbn; [|done]. by rewrite Hq.
Qed.

(** * Properties *)

(** C11: the reboot interlock is all or nothing. [ftpvita_prepare_for_reboot] succeeds
    exactly when the server runs, no reboot is already prepared, the mutex can be
    taken and there is neither a client nor a transfer; then it changes only the
    reboot flag, and the counts it reports are zero. When it refuses, for whatever
    reason, the state is what it was, so a prepared reboot stays prepared. The
    mutex is released on every path on which it was taken. *)
Theorem prepare_for_reboot_correct old (env : environment) f h :
  let locks := 0 <=? env h (sceKernelLockMutex (client_list_mtx f)) in
  let ready := ftp_initialized f && (0 <=? client_list_mtx f) && (reboot_quiesce_requested f =? 0) in
  wp (ftpvita_prepare_for_reboot old) (fun '(ok, clients, transfer) f' h' =>
    ok = ready && locks && (number_clients f =? 0) && (transfer_active f =? 0) /\
    f' = (if (ok : bool) then set_reboot_quiesce_requested 1 f else f) /\
    (ok = true -> clients = 0 /\ transfer = 0) /\
    calls_since h h' =
      (if negb ready then []
       else sceKernelLockMutex (client_list_mtx f) ::
            if locks then [sceKernelUnlockMutex (client_list_mtx f)] else [])) env f h.
Proof.
  intros locks ready. eapply wp_mono; [apply prepare_spec|].
  intros [[ok clients] transfer] f' h' (Hok & Hf & Hzero & [_ Hcalls]%calls_since_traced). done.
Qed.


(** A transfer is admitted exactly when no reboot is prepared and no other
    transfer runs; admission sets the transfer flag and nothing else, and a
    refusal changes nothing. So after a successful [ftpvita_prepare_for_reboot]
    every transfer is refused until [ftpvita_cancel_reboot], which makes admission
    possible again. *)
Theorem begin_transfer_correct env f h :
  let admitted := (reboot_quiesce_requested f =? 0) && (transfer_active f =? 0) in
  client_begin_transfer env f h = Done (admitted, (if admitted then set_transfer_active 1 f else f), h) /\
  wp (r ← ftpvita_prepare_for_reboot (0, 0);
      refused ← client_begin_transfer;
      ftpvita_cancel_reboot;;
      again ← client_begin_transfer;
      mret (r.1.1, refused, again))
    (fun '(ok, refused, again) f' _ =>
       ok = true -> refused = false /\ again = true /\ f' = set_transfer_active 1 (set_reboot_quiesce_requested 0 f)) env f h.
Proof.
  assert (Hbegin := begin_transfer_run).
  split; [apply Hbegin|].
  apply wp_bind. eapply wp_mono; [apply prepare_spec|]. intros [[ok clients] transfer] f1 h1 (Hok & -> & _).
  unfold run_spec, mbind, M_bind. rewrite Hbegin. cbn. rewrite Hbegin.
  destruct ok; cbn; [|done]. intros _. symmetry in Hok.
  rewrite !andb_true_iff in Hok. destruct Hok as [[_ _] Ht]. rewrite Ht. split_and!. all: try done.
  change ((1 =? 0) && true) with false. change (0 =? 0) with true. cbn. by rewrite Ht.
Qed.

(** The device table: a device that is not named in the table and for which
    there is a free slot is added, appears once more among the devices in use, and
    deleting it restores them; the table keeps its 16 slots and nothing else of the
    state changes.  With no free slot nothing is added. *)
Theorem device_table_roundtrip d env f h :
  Z.of_nat (length d) < PATH_MAX -> ~ d ∈ (name <$> device_list f) ->
  match list_find (fun x => valid x = false) (device_list f) with
  | None => ftpvita_add_device d env f h = Done (false, f, h)
  | Some _ => exists l1 l2, let f1 := set_device_list l1 f in let f2 := set_device_list l2 f in
      ftpvita_add_device d env f h = Done (true, f1, h) /\ devices f1 ≡ₚ d :: devices f /\
      ftpvita_del_device d env f1 h = Done (true, f2, h) /\ devices f2 ≡ₚ devices f /\
      length l1 = length (device_list f) /\ length l2 = length (device_list f)
  end.
Proof.
  intros Hd Hnew. unfold ftpvita_add_device, ftpvita_del_device, strcpy, mbind, M_bind, get, lift, modify, mret, M_ret.
  rewrite (proj2 (Z.ltb_lt _ _) Hd). destruct (list_find _ _) as [[i x]|] eqn:Hfind; [|done].
  destruct (first_free _ _ _ Hfind) as [Hi Hx].
  exists (<[i := Device d true]> (device_list f)), (<[i := Device d false]> (<[i := Device d true]> (device_list f))).
  cbn zeta. cbn [device_list set_device_list]. rewrite (named_slot _ d i x Hnew Hi). cbn [name].
  assert (<[i := Device d true]> (device_list f) !! i = Some (Device d true)) as Hi'
    by (apply list_lookup_insert_eq; by eapply lookup_lt_Some).
  pose proof (use_slot f d i x Hi Hx) as Huse.
  split_and!; [done|done|done| |by rewrite length_insert|by rewrite !length_insert].
  pose proof (free_slot (set_device_list (<[i := Device d true]> (device_list f)) f) i _ Hi' eq_refl) as Hfree.
  rewrite Huse in Hfree. by apply Permutation_cons_inv in Hfree.
Qed.

Lemma device_table_roundtrip_witness :
  exists l1 l2, ftpvita_add_device (lit "ux0:") silent ftp_initial [] = Done (true, set_device_list l1 ftp_initial, []) /\
    devices (set_device_list l2 ftp_initial) ≡ₚ [] /\ length l2 = 16%nat.
Proof.
  destruct (device_table_roundtrip (lit "ux0:") silent ftp_initial [] ltac:(vm_compute; done)
    ltac:(by apply (bool_decide_eq_false_1 _))) as (l1 & l2 & Hadd & _ & _ & Hdel & _ & Hlen).
  exists l1, l2. split_and!; [exact Hadd|exact Hdel|exact Hlen].
Defined.
