(* ===== verification/FtpCmds.v ===== *)
(** The FTP commands: the handlers of libftpvita/ftpvita.c and the table that
    finds them.

    A handler works on the state of the server and of its own client.  The text of
    a [char] array is the list of the bytes before its terminator; [recv_cmd_args]
    points into the receive buffer and is the list of the bytes from there to the
    end of the buffer.  A directory listing and an upload go on for as long as the
    file system and the peer make them: they take a bound, [fuel].  Functions
    installed by other modules are a parameter. *)

From S2P Require Import Prelude System FtpState FtpParse Retr Store.

Definition session : Type := ftp * client.
Abbreviation C := (M session).

Definition on_server {A} (m : M ftp A) : C A := zoom fst (fun f s => (f, s.2)) m.
Definition of_client {A} (f : client -> A) : C A := gets (fun s => f s.2).
Definition set_client (f : client -> client) : C unit := modify (fun s => (s.1, f s.2)).

Definition FTPVITA_EOL : bytes := [CR; LF].
Definition SLASH : Z := 47.
Definition COLON : Z := 58.

(** A reply of the server: the text of the literal and the end of line. *)
Definition msg (s : string) : bytes := lit s ++ FTPVITA_EOL.

Definition client_send_ctrl_msg (text : bytes) : C unit :=
  sockfd ← of_client ctrl_sockfd;
  sys (sceNetSend sockfd text);; mret tt.

(** The loop of [client_send_all]: [cursor] is what remains. An answer above what
    was offered would move the cursor out of the buffer. *)
Fixpoint send_all (fuel : nat) (sockfd : Z) (cursor : bytes) : C Z :=
  match fuel with
  | O => lift NoFuel
  | S fuel =>
      match cursor with
      | [] => mret 0
      | _ =>
          sent ← sys (sceNetSend sockfd cursor);
          if sent <=? 0 then mret (if sent <? 0 then sent else -1)
          else if Z.of_nat (length cursor) <? sent then lift Undefined
          else send_all fuel sockfd (drop (Z.to_nat sent) cursor)
      end
  end.

Definition client_send_all (sockfd : Z) (buffer : bytes) : C Z := send_all (S (length buffer)) sockfd buffer.

(** The socket a data connection uses. *)
Definition data_socket (c : client) : Z :=
  if decide (data_con_type c = FTP_DATA_CONNECTION_ACTIVE) then data_sockfd c else pasv_sockfd c.

Definition client_send_data_msg (str : bytes) : C Z :=
  sockfd ← of_client data_socket;
  client_send_all sockfd str.

(** The same two functions as other modules call them; there the result of the
    second is dropped. *)
Definition ftpvita_ext_client_send_ctrl_msg (text : bytes) : C unit := client_send_ctrl_msg text.
Definition ftpvita_ext_client_send_data_msg (str : bytes) : C unit := client_send_data_msg str;; mret tt.

(** [&path[1]], or null. *)
Definition get_vita_path (path : bytes) : ptr bytes :=
  if 1 <? Z.of_nat (length path) then Some (drop 1 path) else NULL.

Definition file_exists (path : ptr bytes) : C bool :=
  '(r, _) ← sys (sceIoGetstat path);
  mret (0 <=? r).

(** [close_socket], for the two sockets of the data connection. *)
Definition close_data_socket : C unit :=
  sockfd ← of_client data_sockfd;
  if 0 <=? sockfd then sys (sceNetSocketClose sockfd);; set_client (set_data_sockfd (-1)) else mret tt.
Definition close_pasv_socket : C unit :=
  sockfd ← of_client pasv_sockfd;
  if 0 <=? sockfd then sys (sceNetSocketClose sockfd);; set_client (set_pasv_sockfd (-1)) else mret tt.

Definition client_close_data_connection : C unit :=
  close_data_socket;; close_pasv_socket;; set_client (set_data_con_type FTP_DATA_CONNECTION_NONE).

(** * Paths *)

(** [strrchr(path, '/')]: the index of the last slash. *)
Fixpoint last_slash (path : bytes) : option nat :=
  match path with
  | [] => None
  | c :: path =>
      match last_slash path with
      | Some i => Some (S i)
      | None => if c =? SLASH then Some O else None
      end
  end.

(** For an empty path the code points before the array. *)
Definition path_is_at_root (path : bytes) : outcome bool :=
  match path with
  | [] => Undefined
  | _ => Done (bool_decide (last_slash path = Some (length path - 1)%nat))
  end.

(** [if (strrchr(path, '/') == path) strcat(path, "/")]. *)
Definition add_root_slash (path : bytes) : outcome bytes :=
  if bool_decide (last_slash path = Some O) then strcat PATH_MAX path [SLASH] else Done path.

Definition dir_up (path : bytes) : outcome bytes :=
  let len_in := Z.of_nat (length path) in
  if len_in =? 1 then strcpy PATH_MAX [SLASH]
  else
    at_root ← path_is_at_root path;
    if (at_root : bool) then strcpy PATH_MAX [SLASH]
    else match last_slash path with
         | NULL => Undefined
         | Some pch => add_root_slash (take pch path)
         end.

(** [ftpvita_copy_command_argument] into a local array of [PATH_MAX] bytes: the
    text copied, unless it returned 0. *)
Definition command_argument : C (option bytes) :=
  arguments ← of_client recv_cmd_args;
  '(ret, output) ← lift (ftpvita_copy_command_argument arguments
                           (Some (replicate (Z.to_nat PATH_MAX) 0)) PATH_MAX);
  if ret =? 0 then mret None
  else match output with
       | Some output => text ← lift (cstr output); mret (Some text)
       | NULL => mret None
       end.

Definition gen_ftp_fullpath (path_size : Z) : C bytes :=
  argument ← command_argument;
  match argument with
  | None => mret []
  | Some cmd_path =>
      if bool_decide (head cmd_path = Some SLASH) then mret (snprintf path_size cmd_path)
      else if (5 <=? Z.of_nat (length cmd_path)) && bool_decide (cmd_path !! 3%nat = Some COLON)
              && bool_decide (cmd_path !! 4%nat = Some SLASH)
      then mret (snprintf path_size (SLASH :: cmd_path))
      else
        cur ← of_client cur_path;
        mret (snprintf path_size (cur ++ SLASH :: cmd_path))
  end.

(** * Commands without a data connection *)

Definition cmd_NOOP_func : C unit := client_send_ctrl_msg (msg "200 No operation ;)").
Definition cmd_USER_func : C unit := client_send_ctrl_msg (msg "331 Username OK, need password b0ss.").
Definition cmd_PASS_func : C unit := client_send_ctrl_msg (msg "230 User logged in!").
Definition cmd_QUIT_func : C unit :=
  client_send_ctrl_msg (msg "221 Goodbye senpai :'(");; set_client (set_quit_requested true).
Definition cmd_SYST_func : C unit := client_send_ctrl_msg (msg "215 UNIX Type: L8").

Definition cmd_PWD_func : C unit :=
  cur ← of_client cur_path;
  client_send_ctrl_msg (snprintf PATH_MAX
    (lit "257 " ++ [34] ++ cur ++ [34] ++ lit " is the current directory." ++ FTPVITA_EOL)).

(** The path [CWD] checks and stores, for an argument other than [/] and [..]. *)
Definition cwd_target (cur_path cmd_path : bytes) : outcome bytes :=
  tmp_path ← (if bool_decide (head cmd_path = Some SLASH) then strcpy PATH_MAX cmd_path
              else
                at_root ← path_is_at_root cur_path;
                if (at_root : bool) then Done (snprintf PATH_MAX (cur_path ++ cmd_path))
                else Done (snprintf PATH_MAX (cur_path ++ SLASH :: cmd_path)));
  add_root_slash tmp_path.

Definition cmd_CWD_func : C unit :=
  argument ← command_argument;
  match argument with
  | None => client_send_ctrl_msg (msg "500 Syntax error, command unrecognized.")
  | Some cmd_path =>
      let okay := client_send_ctrl_msg (msg "250 Requested file action okay, completed.") in
      cur ← of_client cur_path;
      if bool_decide (cmd_path = [SLASH]) then
        text ← lift (strcpy PATH_MAX cmd_path); set_client (set_cur_path text);; okay
      else if bool_decide (cmd_path = lit "..") then
        text ← lift (dir_up cur); set_client (set_cur_path text);; okay
      else
        tmp_path ← lift (cwd_target cur cmd_path);
        if bool_decide (tmp_path = [SLASH]) then
          text ← lift (strcpy PATH_MAX tmp_path); set_client (set_cur_path text);; okay
        else
          pd ← sys (sceIoDopen (get_vita_path tmp_path));
          if pd <? 0 then client_send_ctrl_msg (msg "550 Invalid directory.")
          else
            sys (sceIoDclose pd);;
            text ← lift (strcpy PATH_MAX tmp_path); set_client (set_cur_path text);; okay
  end.

Definition cmd_TYPE_func : C unit :=
  args ← of_client recv_cmd_args;
  data_type ← lift (match args with Some args => load args 0 | NULL => Done NUL end);
  if (data_type =? 65) || (data_type =? 73) then client_send_ctrl_msg (msg "200 Okay")
  else client_send_ctrl_msg (msg "504 Error: bad parameters?").

Definition cmd_CDUP_func : C unit :=
  cur ← of_client cur_path;
  text ← lift (dir_up cur);
  set_client (set_cur_path text);; client_send_ctrl_msg (msg "200 Command okay.").

Section commands.
Context `{Sdk}.

Definition set_socket_timeout (sockfd : Z) : C Z := on_server (configure_socket_io_timeout sockfd).

(** * The data connection *)

Definition data_socket_name (num : Z) : bytes := lit "FTPVita_client_" ++ fmt_d num ++ lit "_data_socket".

(** Giving up a passive socket after an error. *)
Definition cmd_PASV_fail (reply : bytes) : C unit := close_data_socket;; client_send_ctrl_msg reply.

Definition pasv_reply (addr port : Z) : bytes :=
  let field v shift := fmt_u (u8 (Z.land (Z.shiftr v shift) 255)) in
  lit "227 Entering Passive Mode (" ++ field addr 0 ++ lit "," ++ field addr 8 ++ lit "," ++
  field addr 16 ++ lit "," ++ field addr 24 ++ lit "," ++ field port 0 ++ lit "," ++ field port 8 ++
  lit ")" ++ FTPVITA_EOL.

Definition cmd_PASV_func : C unit :=
  client_close_data_connection;;
  client_num ← of_client num;
  fd ← sys (sceNetSocket (data_socket_name client_num));
  set_client (set_data_sockfd fd);;
  if fd <? 0 then client_send_ctrl_msg (msg "425 Can't open passive connection.")
  else
    set_socket_timeout fd;;
    addr ← sys (sceNetHtonl SCE_NET_INADDR_ANY);
    port ← sys (sceNetHtons 0);
    set_client (set_data_sockaddr (SockaddrIn addr port));;
    ret ← sys (sceNetBind fd (SockaddrIn addr port));
    if ret <? 0 then cmd_PASV_fail (msg "425 Can't bind passive connection.")
    else
      ret ← sys (sceNetListen fd 128);
      if ret <? 0 then cmd_PASV_fail (msg "425 Can't listen for passive connection.")
      else
        '(ret, picked) ← sys (sceNetGetsockname fd);
        if ret <? 0 then cmd_PASV_fail (msg "425 Can't inspect passive connection.")
        else
          address ← on_server (gets vita_addr);
          client_send_ctrl_msg (pasv_reply address (sin_port picked));;
          set_client (set_data_con_type FTP_DATA_CONNECTION_PASSIVE).

Definition ip_text (tuple : bytes) : bytes :=
  fmt_d (tuple !!! 0%nat) ++ lit "." ++ fmt_d (tuple !!! 1%nat) ++ lit "." ++
  fmt_d (tuple !!! 2%nat) ++ lit "." ++ fmt_d (tuple !!! 3%nat).

(** [sceNetInetPton] answers the address it stores. *)
Definition cmd_PORT_func : C unit :=
  args ← of_client recv_cmd_args;
  '(ret, tuple) ← lift (ftpvita_parse_port_tuple args (Some (replicate 6 0)));
  if ret =? 0 then client_send_ctrl_msg (msg "501 Invalid PORT parameters.")
  else
    let tuple := default [] tuple in
    let porthi := tuple !!! 4%nat in
    let portlo := tuple !!! 5%nat in
    client_close_data_connection;;
    let data_port := u16 (portlo + porthi * 256) in
    data_addr ← sys (sceNetInetPton (ip_text tuple));
    client_num ← of_client num;
    fd ← sys (sceNetSocket (data_socket_name client_num));
    set_client (set_data_sockfd fd);;
    if fd <? 0 then client_send_ctrl_msg (msg "425 Can't open active connection.")
    else
      set_socket_timeout fd;;
      port ← sys (sceNetHtons data_port);
      set_client (set_data_sockaddr (SockaddrIn data_addr port));;
      set_client (set_data_con_type FTP_DATA_CONNECTION_ACTIVE);;
      client_send_ctrl_msg (msg "200 PORT command successful!").

Definition client_open_data_connection : C Z :=
  c ← of_client id;
  if bool_decide (data_con_type c = FTP_DATA_CONNECTION_NONE) || (data_sockfd c <? 0) then mret (-1)
  else if bool_decide (data_con_type c = FTP_DATA_CONNECTION_ACTIVE) then
    sys (sceNetConnect (data_sockfd c) (data_sockaddr c))
  else
    '(fd, peer) ← sys (sceNetAccept (data_sockfd c));
    set_client (set_pasv_sockaddr peer);;
    set_client (set_pasv_sockfd fd);;
    set_socket_timeout fd;;
    mret (if fd <? 0 then fd else 0).

(** The replies every transfer starts and is refused with. *)
Definition refuse_transfer : C unit :=
  client_close_data_connection;; client_send_ctrl_msg (msg "425 Another FTP transfer is active.").
Definition end_transfer : C unit := on_server client_end_transfer.

(** * LIST *)

Definition num_to_month : list bytes :=
  [lit "Jan"; lit "Feb"; lit "Mar"; lit "Apr"; lit "May"; lit "Jun";
   lit "Jul"; lit "Aug"; lit "Sep"; lit "Oct"; lit "Nov"; lit "Dec"].

(** [%02d], [%04d] and [%-2d]. *)
Definition zero_padded (width : nat) (text : bytes) : bytes := replicate (width - length text) 48 ++ text.
Definition left_justified (width : nat) (text : bytes) : bytes := text ++ replicate (width - length text) SP.

(** The line, in the [year] of the clock. *)
Definition list_line (n year : Z) (dir : bool) (stat : SceIoStat) (filename : bytes) : bytes :=
  let yt := snprintf 6 (if year =? st_year stat
                        then zero_padded 2 (fmt_d (st_hour stat)) ++ lit ":" ++ zero_padded 2 (fmt_d (st_minute stat))
                        else zero_padded 4 (fmt_d (st_year stat))) in
  let month := num_to_month !!! (if st_month stat <=? 0 then O else Z.to_nat ((st_month stat - 1) mod 12)) in
  snprintf n
    ((if dir then lit "drwxr-xr-x" else lit "-rw-r--r--") ++ lit " 1 vita vita " ++
     fmt_u (u32 (st_size stat)) ++ lit " " ++ month ++ lit " " ++ left_justified 2 (fmt_d (st_day stat)) ++
     lit " " ++ yt ++ lit " " ++ filename ++ FTPVITA_EOL).

Definition gen_list_format (n : Z) (dir : bool) (stat : SceIoStat) (filename : bytes) : C bytes :=
  year ← sys sceRtcGetCurrentClockLocalTime;
  mret (list_line n year dir stat filename).

(** The two loops: whether every line was sent. *)
Fixpoint list_devices (devices : list device) : C bool :=
  match devices with
  | [] => mret true
  | d :: devices =>
      if valid d then
        '(r, stat) ← sys (sceIoGetstat (Some (name d)));
        if 0 <=? r then
          buffer ← gen_list_format 512 true stat (name d);
          sent ← client_send_data_msg buffer;
          if sent <? 0 then mret false else list_devices devices
        else list_devices devices
      else list_devices devices
  end.

Fixpoint list_entries (fuel : nat) (dir : Z) : C bool :=
  match fuel with
  | O => lift NoFuel
  | S fuel =>
      '(r, dirent) ← sys (sceIoDread dir);
      if 0 <? r then
        buffer ← gen_list_format 512 (st_isdir (d_stat dirent)) (d_stat dirent) (d_name dirent);
        sent ← client_send_data_msg buffer;
        if sent <? 0 then mret false else list_entries fuel dir
      else mret true
  end.

(** From the opening of the data connection; [dir] is the directory opened, unless
    the devices are listed. *)
Definition list_over_data_connection (fuel : nat) (dir : option Z) : C unit :=
  opened ← client_open_data_connection;
  if opened <? 0 then
    match dir with Some dir => sys (sceIoDclose dir);; mret tt | None => mret tt end;;
    client_close_data_connection;; client_send_ctrl_msg (msg "425 Can't open data connection.");; end_transfer
  else
    client_send_ctrl_msg (msg "150 Opening ASCII mode data transfer for LIST.");;
    transfer_ok ← match dir with
                  | None => devices ← on_server (gets device_list); list_devices devices
                  | Some dir => ok ← list_entries fuel dir; sys (sceIoDclose dir);; mret ok
                  end;
    client_close_data_connection;;
    client_send_ctrl_msg (if (transfer_ok : bool) then msg "226 Transfer complete."
                          else msg "426 Connection closed; transfer aborted.");;
    end_transfer.

Definition send_LIST (fuel : nat) (path : bytes) : C unit :=
  begun ← on_server client_begin_transfer;
  if negb begun then refuse_transfer
  else if bool_decide (path = [SLASH]) then list_over_data_connection fuel None
  else
    dir ← sys (sceIoDopen (get_vita_path path));
    if dir <? 0 then
      client_close_data_connection;; client_send_ctrl_msg (msg "550 Invalid directory.");; end_transfer
    else list_over_data_connection fuel (Some dir).

Definition cmd_LIST_func (fuel : nat) : C unit :=
  argument ← command_argument;
  exists_ ← match argument with
            | Some list_path => file_exists (get_vita_path list_path)
            | None => mret false
            end;
  cur ← of_client cur_path;
  send_LIST fuel (if (exists_ : bool) then default [] argument else cur).

(** * RETR *)

(** The callbacks of the two loops: their context is the history of the run. A
    read stores what it answers at the start of the buffer. *)
Definition store_answer (n : Z) (data buffer : bytes) : bytes := list_inserts 0 (take (Z.to_nat n) data) buffer.

Definition last_net_errno (env : environment) (failed : bool) (h : history) : Z * history :=
  if failed then let e := env h sceNetErrnoLoc in (e, Ev sceNetErrnoLoc e :: h) else (0, h).

Definition retr_read (env : environment) (fd : Z) : ftpvita_retr_read_fn history := fun h buffer length =>
  let '(n, data) := env h (sceIoRead fd length) in
  (Ev (sceIoRead fd length) (n, data) :: h, store_answer n data buffer, n).

Definition retr_send (env : environment) (sockfd : Z) : ftpvita_retr_send_fn history := fun h data length =>
  let pending := take (Z.to_nat length) data in
  let sent : Z := env h (sceNetSend sockfd pending) in
  let '(net_error, h) := last_net_errno env (sent <? 0) (Ev (sceNetSend sockfd pending) sent :: h) in
  (h, sent, net_error).

(** The loop of Retr in a fresh buffer of [size] bytes, whose first contents are
    never sent. *)
Definition run_retr (fd sockfd size start extent : Z) : C ftpvita_retr_result_t := fun env s h =>
  match ftpvita_retr_extent h (Some (retr_read env fd)) (Some (retr_send env sockfd))
          (Some (replicate (Z.to_nat size) 0)) size start extent with
  | Done (h, r) => Done (r, s, h)
  | Undefined => Undefined
  | NoFuel => NoFuel
  end.

Definition retr_stage_text (s : Retr.retr_stage) : bytes :=
  match s with
  | Retr.complete => lit "complete"
  | Retr.range => lit "range"
  | Retr.early_eof => lit "early-eof"
  | Retr.read => lit "read"
  | Retr.send => lit "send"
  end.

Definition retr_reply (r : ftpvita_retr_result_t) (restore_point extent : Z) : bytes :=
  if bool_decide (Retr.stage r = Retr.complete) then msg "226 Transfer completed."
  else snprintf 256 (lit "426 RETR stage=" ++ retr_stage_text (Retr.stage r) ++ lit " code=0x" ++
    fmt_08X (Retr.code r) ++ lit " net_errno=" ++ fmt_d (Retr.net_errno r) ++ lit " start=" ++
    fmt_u restore_point ++ lit " extent=" ++ fmt_u (u64 extent) ++ lit " read=" ++ fmt_u (Retr.bytes_read r) ++
    lit " sent=" ++ fmt_u (Retr.bytes_sent r) ++ lit "." ++ FTPVITA_EOL).

Definition seek_reply (restore_point extent position : Z) : bytes :=
  snprintf 192 (lit "550 RETR seek failed start=" ++ fmt_u restore_point ++ lit " extent=" ++ fmt_d extent ++
    lit " position=" ++ fmt_d position ++ lit "." ++ FTPVITA_EOL).

(** An exit of [send_file] or [receive_file] with the file open. *)
Definition abandon (fd : Z) (buffer : bool) (reply : bytes) : C unit :=
  sys (sceIoClose fd);;
  (if buffer then sys (free true);; mret tt else mret tt);;
  client_close_data_connection;; client_send_ctrl_msg reply;; end_transfer.

Definition send_file (path : ptr bytes) : C unit :=
  restore_point ← of_client restore_point;
  set_client (set_restore_point 0);;
  begun ← on_server client_begin_transfer;
  if negb begun then refuse_transfer
  else
    fd ← sys (sceIoOpen path SCE_O_RDONLY 511);
    if 0 <=? fd then
      extent ← sys (sceIoLseek fd 0 SCE_SEEK_END);
      position ← (if (0 <=? extent) && (restore_point <=? extent)
                  then sys (sceIoLseek fd restore_point SCE_SEEK_SET) else mret (-1));
      if (extent <? 0) || (extent <? restore_point) || negb (position =? restore_point) then
        abandon fd false (seek_reply restore_point extent position)
      else
        size ← on_server (gets file_buf_size);
        buffer ← sys (malloc size);
        if negb buffer then abandon fd false (msg "550 Could not allocate memory.")
        else
          opened ← client_open_data_connection;
          if opened <? 0 then abandon fd true (msg "425 Can't open data connection.")
          else
            client_send_ctrl_msg (msg "150 Opening Image mode data transfer.");;
            sockfd ← of_client data_socket;
            result ← run_retr fd sockfd size restore_point extent;
            sys (sceIoClose fd);; sys (free true);; client_close_data_connection;;
            client_send_ctrl_msg (retr_reply result restore_point extent);; end_transfer
    else
      client_close_data_connection;; client_send_ctrl_msg (msg "550 File not found.");; end_transfer.

Definition cmd_RETR_func : C unit :=
  dest_path ← gen_ftp_fullpath PATH_MAX;
  send_file (get_vita_path dest_path).

(** * STOR and APPE *)

Definition store_receive (env : environment) (sockfd : Z) : ftpvita_store_receive_fn history := fun h buffer length =>
  let '(n, data) := env h (sceNetRecv sockfd length) in
  let '(net_error, h) := last_net_errno env (n <? 0) (Ev (sceNetRecv sockfd length) (n, data) :: h) in
  (h, store_answer n data buffer, n, net_error).

Definition store_write (env : environment) (fd : Z) : ftpvita_store_write_fn history := fun h data length =>
  let pending := take (Z.to_nat length) data in
  let written : Z := env h (sceIoWrite fd pending) in
  (Ev (sceIoWrite fd pending) written :: h, written).

Definition run_store (fuel : nat) (sockfd fd size : Z) : C ftpvita_store_result_t := fun env s h =>
  match ftpvita_store_stream fuel h (Some (store_receive env sockfd)) (Some (store_write env fd))
          (Some (replicate (Z.to_nat size) 0)) size with
  | Done (h, r) => Done (r, s, h)
  | Undefined => Undefined
  | NoFuel => NoFuel
  end.

Definition store_stage_text (s : Store.store_stage) : bytes :=
  match s with
  | Store.complete => lit "complete"
  | Store.range => lit "range"
  | Store.receive => lit "receive"
  | Store.write => lit "write"
  end.

Definition store_reply (r : ftpvita_store_result_t) : bytes :=
  if bool_decide (Store.stage r = Store.complete) then msg "226 Transfer completed."
  else snprintf 256 (lit "426 STOR stage=" ++ store_stage_text (Store.stage r) ++ lit " code=0x" ++
    fmt_08X (Store.code r) ++ lit " net_errno=" ++ fmt_d (Store.net_errno r) ++ lit " received=" ++
    fmt_u (Store.bytes_received r) ++ lit " written=" ++ fmt_u (Store.bytes_written r) ++ lit "." ++ FTPVITA_EOL).

Definition receive_file (fuel : nat) (path : ptr bytes) : C unit :=
  begun ← on_server client_begin_transfer;
  if negb begun then refuse_transfer
  else
    restore_point ← of_client restore_point;
    let mode := Z.lor (Z.lor SCE_O_CREAT SCE_O_RDWR)
                      (if negb (restore_point =? 0) then SCE_O_APPEND else SCE_O_TRUNC) in
    fd ← sys (sceIoOpen path mode 511);
    if 0 <=? fd then
      size ← on_server (gets file_buf_size);
      buffer ← sys (malloc size);
      if negb buffer then abandon fd false (msg "550 Could not allocate memory.")
      else
        opened ← client_open_data_connection;
        if opened <? 0 then abandon fd true (msg "425 Can't open data connection.")
        else
          client_send_ctrl_msg (msg "150 Opening Image mode data transfer.");;
          sockfd ← of_client data_socket;
          result ← run_store fuel sockfd fd size;
          sys (sceIoClose fd);; sys (free true);;
          set_client (set_restore_point 0);;
          client_send_ctrl_msg (store_reply result);;
          client_close_data_connection;; end_transfer
    else
      client_close_data_connection;; client_send_ctrl_msg (msg "550 File not found.");; end_transfer.

Definition cmd_STOR_func (fuel : nat) : C unit :=
  dest_path ← gen_ftp_fullpath PATH_MAX;
  receive_file fuel (get_vita_path dest_path).

Definition cmd_APPE_func (fuel : nat) : C unit :=
  set_client (set_restore_point (u32 (-1)));;
  dest_path ← gen_ftp_fullpath PATH_MAX;
  receive_file fuel (get_vita_path dest_path).

(** * Files and directories *)

(** The reply to an operation that either succeeds or does not. *)
Definition reply_result (ok : bool) (done failed : bytes) : C unit := client_send_ctrl_msg (if ok then done else failed).

Definition delete_file (path : ptr bytes) : C unit :=
  r ← sys (sceIoRemove path);
  reply_result (0 <=? r) (msg "250 File deleted.") (msg "550 Could not delete the file.").
Definition cmd_DELE_func : C unit :=
  dest_path ← gen_ftp_fullpath PATH_MAX; delete_file (get_vita_path dest_path).

Definition DIRECTORY_IS_NOT_EMPTY : Z := s32 0x8001005A.
Definition delete_dir (path : ptr bytes) : C unit :=
  ret ← sys (sceIoRmdir path);
  reply_result (0 <=? ret) (msg "250 Directory deleted.")
    (if ret =? DIRECTORY_IS_NOT_EMPTY then msg "550 Directory is not empty."
     else msg "550 Could not delete the directory.").
Definition cmd_RMD_func : C unit :=
  dest_path ← gen_ftp_fullpath PATH_MAX; delete_dir (get_vita_path dest_path).

Definition create_dir (path : ptr bytes) : C unit :=
  r ← sys (sceIoMkdir path 511);
  reply_result (0 <=? r) (msg "257 Directory created.") (msg "550 Could not create the directory.").
Definition cmd_MKD_func : C unit :=
  dest_path ← gen_ftp_fullpath PATH_MAX; create_dir (get_vita_path dest_path).

(** Copying a null path is undefined. *)
Definition cmd_RNFR_func : C unit :=
  path_src ← gen_ftp_fullpath PATH_MAX;
  let vita_path_src := get_vita_path path_src in
  found ← file_exists vita_path_src;
  if negb found then client_send_ctrl_msg (msg "550 The file doesn't exist.")
  else
    text ← lift (match vita_path_src with Some p => strcpy PATH_MAX p | NULL => Undefined end);
    set_client (set_rename_path text);;
    client_send_ctrl_msg (msg "350 I need the destination name b0ss.").

Definition cmd_RNTO_func : C unit :=
  path_dst ← gen_ftp_fullpath PATH_MAX;
  from ← of_client rename_path;
  r ← sys (sceIoRename (Some from) (get_vita_path path_dst));
  reply_result (0 <=? r) (msg "250 Rename completed.") (msg "550 Error renaming the file.").

Definition cmd_SIZE_func : C unit :=
  path ← gen_ftp_fullpath PATH_MAX;
  '(r, stat) ← sys (sceIoGetstat (get_vita_path path));
  if r <? 0 then client_send_ctrl_msg (msg "550 The file doesn't exist.")
  else client_send_ctrl_msg (lit "213 " ++ fmt_d (st_size stat) ++ FTPVITA_EOL).

Definition cmd_REST_func : C unit :=
  args ← of_client recv_cmd_args;
  '(ret, offset) ← lift (ftpvita_parse_rest_offset args (Some 0));
  if ret =? 0 then client_send_ctrl_msg (msg "501 Invalid REST offset.")
  else
    let restore_point := default 0 offset in
    set_client (set_restore_point restore_point);;
    client_send_ctrl_msg (snprintf 64 (lit "350 Resuming at " ++ fmt_u restore_point ++ FTPVITA_EOL)).

Definition cmd_FEAT_func : C unit :=
  client_send_ctrl_msg (msg "211-extensions");; client_send_ctrl_msg (msg " REST STREAM");;
  client_send_ctrl_msg (msg " UTF8");; client_send_ctrl_msg (msg "211 end").
Definition cmd_OPTS_func : C unit := client_send_ctrl_msg (msg "501 bad OPTS").

(** * Dispatch *)

Context (custom_command : Z -> C unit) (fuel : nat).

Definition cmd_dispatch_table : list (bytes * C unit) :=
  [(lit "NOOP", cmd_NOOP_func); (lit "USER", cmd_USER_func); (lit "PASS", cmd_PASS_func);
   (lit "QUIT", cmd_QUIT_func); (lit "SYST", cmd_SYST_func); (lit "PASV", cmd_PASV_func);
   (lit "PORT", cmd_PORT_func); (lit "LIST", cmd_LIST_func fuel); (lit "PWD", cmd_PWD_func);
   (lit "CWD", cmd_CWD_func); (lit "TYPE", cmd_TYPE_func); (lit "CDUP", cmd_CDUP_func);
   (lit "RETR", cmd_RETR_func); (lit "STOR", cmd_STOR_func fuel); (lit "DELE", cmd_DELE_func);
   (lit "RMD", cmd_RMD_func); (lit "MKD", cmd_MKD_func); (lit "RNFR", cmd_RNFR_func);
   (lit "RNTO", cmd_RNTO_func); (lit "SIZE", cmd_SIZE_func); (lit "REST", cmd_REST_func);
   (lit "FEAT", cmd_FEAT_func); (lit "OPTS", cmd_OPTS_func); (lit "APPE", cmd_APPE_func fuel)].

Fixpoint find_command (cmd : bytes) (table : list (bytes * C unit)) : option (C unit) :=
  match table with
  | [] => None
  | (n, f) :: table => if decide (cmd = n) then Some f else find_command cmd table
  end.

(** A valid slot with a null name is compared with. *)
Fixpoint find_custom_command (c : bytes) (slots : list custom_dispatcher) : outcome (option Z) :=
  match slots with
  | [] => Done None
  | d :: slots =>
      if cmd_valid d then
        match cmd d with
        | NULL => Undefined
        | Some n => if decide (c = n) then Done (Some (func d)) else find_custom_command c slots
        end
      else find_custom_command c slots
  end.

Definition get_dispatch_func (c : bytes) : C (option (C unit)) :=
  match find_command c cmd_dispatch_table with
  | Some f => mret (Some f)
  | None =>
      slots ← on_server (gets custom_command_dispatchers);
      found ← lift (find_custom_command c slots);
      mret (custom_command <$> found)
  end.
End commands.

(** * Paths: what the directory commands keep *)

Section path_lemmas.
Implicit Types (p q : bytes).

Lemma last_slash_lt p i : last_slash p = Some i -> (i < length p)%nat.
Proof.
  revert i. induction p as [|c p IH]; intros i; simpl; [done|].
  destruct (last_slash p) as [j|]; [intros [= <-]; specialize (IH j eq_refl); lia|].
  destruct (c =? SLASH); [intros [= <-]; lia|done].
Qed.

Lemma last_slash_app p q i :
  last_slash p = Some i -> exists j, (i <= j)%nat /\ last_slash (p ++ q) = Some j.
Proof.
  revert i. induction p as [|c p IH]; intros i; simpl; [done|].
  destruct (last_slash p) as [k|].
  - intros [= <-]. destruct (IH k eq_refl) as (j & Hj & ->). exists (S j). split; [lia|done].
  - destruct (Z.eqb_spec c SLASH); [intros [= <-]|done].
    destruct (last_slash (p ++ q)) as [j|]; [exists (S j)|exists O]; (split; [lia|done]).
Qed.

Lemma last_slash_head p : exists i, last_slash (SLASH :: p) = Some i.
Proof. simpl. destruct (last_slash p); by eexists. Qed.

Lemma last_slash_snoc p : last_slash (p ++ [SLASH]) = Some (length p).
Proof. induction p as [|c p IH]; simpl; [done|]. by rewrite IH. Qed.

(** The paths a client can be at: absolute, in the array, and with a second slash
    unless they are the root. *)
Definition path_ok p : Prop :=
  (exists t, p = SLASH :: t) /\ Z.of_nat (length p) < PATH_MAX /\
  (p = [SLASH] \/ exists i, last_slash p = Some i /\ (0 < i)%nat).

Lemma path_ok_root : path_ok [SLASH].
Proof. split_and!; [by eexists|done|by left]. Qed.

Lemma add_root_slash_ok p :
  (exists t, p = SLASH :: t) -> Z.of_nat (length p) < PATH_MAX ->
  (last_slash p = Some O -> Z.of_nat (length p) + 1 < PATH_MAX) ->
  exists p', add_root_slash p = Done p' /\ path_ok p'.
Proof.
  intros [t ->] Hl Hroom. unfold add_root_slash. destruct (last_slash_head t) as [i Hi].
  destruct (bool_decide_reflect (last_slash (SLASH :: t) = Some O)) as [H0|H0].
  - unfold strcat, strcpy. specialize (Hroom H0).
    rewrite (proj2 (Z.ltb_lt _ _)) by (rewrite length_app; cbn [length] in *; lia).
    eexists. split; [done|]. split_and!; [by eexists|rewrite length_app; cbn [length] in *; lia|right].
    exists (length (SLASH :: t)). rewrite last_slash_snoc. split; [done|]. cbn [length]. lia.
  - exists (SLASH :: t). split; [done|]. split_and!; [by eexists|done|right].
    exists i. split; [done|]. destruct i; [done|lia].
Qed.

Lemma dir_up_ok p : path_ok p -> exists p', dir_up p = Done p' /\ path_ok p'.
Proof.
  intros ([t Ht] & Hl & Hs). unfold dir_up. destruct (Z.eqb_spec (Z.of_nat (length p)) 1).
  { exists [SLASH]. split; [done|apply path_ok_root]. }
  destruct Hs as [->|(i & Hi & Hpos)]; [done|].
  unfold path_is_at_root. rewrite Ht, <-Ht. run.
  destruct (bool_decide _). { exists [SLASH]. split; [done|apply path_ok_root]. }
  rewrite Hi. pose proof (last_slash_lt _ _ Hi).
  apply add_root_slash_ok; [|rewrite length_take; lia..].
  exists (take (i - 1) t). rewrite Ht. destruct i; [lia|]. simpl. by rewrite Nat.sub_0_r.
Qed.

Lemma head_slash p : bool_decide (head p = Some SLASH) = true -> exists t, p = SLASH :: t.
Proof. rewrite bool_decide_eq_true. destruct p as [|c p]; [done|]. intros [= ->]. by eexists. Qed.

Lemma snprintf_length size text : 0 < size -> Z.of_nat (length (snprintf size text)) < size.
Proof. intros. unfold snprintf. rewrite length_take. lia. Qed.

(** Extending a path that has a second slash. *)
Lemma extend_ok p q :
  path_ok p -> p <> [SLASH] -> exists p', add_root_slash (snprintf PATH_MAX (p ++ q)) = Done p' /\ path_ok p'.
Proof.
  intros ([t Ht] & Hl & Hs) Hne. destruct Hs as [|(i & Hi & Hpos)]; [done|].
  assert (snprintf PATH_MAX (p ++ q) = p ++ take (Z.to_nat (PATH_MAX - 1) - length p) q) as E.
  { unfold snprintf. rewrite take_app_ge by lia. done. }
  apply add_root_slash_ok.
  - rewrite E, Ht. by eexists.
  - by apply snprintf_length.
  - intros H0. exfalso. rewrite E in H0. destruct (last_slash_app p (take (Z.to_nat (PATH_MAX - 1) - length p) q) i Hi) as (j & Hj & Ej).
    rewrite Ej in H0. injection H0 as ->. lia.
Qed.

Lemma cwd_target_ok cur arg :
  path_ok cur -> arg <> [] -> Z.of_nat (length arg) <= 511 ->
  exists p', cwd_target cur arg = Done p' /\ path_ok p'.
Proof.
  intros Hcur Hne Hl. unfold cwd_target. destruct (bool_decide (head arg = Some SLASH)) eqn:Hh.
  - unfold strcpy. rewrite (proj2 (Z.ltb_lt _ _)) by (unfold PATH_MAX; lia). run.
    apply add_root_slash_ok; [by apply head_slash|unfold PATH_MAX; lia..].
  - destruct Hcur as ([t Ht] & Hlc & Hs). unfold path_is_at_root. rewrite Ht, <-Ht. run.
    destruct (decide (cur = [SLASH])) as [->|Hroot].
    + rewrite bool_decide_eq_true_2 by done. cbv iota. run.
      assert (snprintf PATH_MAX ([SLASH] ++ arg) = SLASH :: arg) as ->.
      { unfold snprintf. apply take_ge. simpl. unfold PATH_MAX. lia. }
      apply add_root_slash_ok; [by eexists|simpl; unfold PATH_MAX; lia..].
    + assert (path_ok cur) as Hcur by (split_and!; [by eexists|done|done]).
      destruct (bool_decide (last_slash cur = _)); run; by apply extend_ok.
Qed.
End path_lemmas.

(** * Dispatch lemmas *)

(** A slot in use has a name. *)
Definition custom_ok (f : ftp) : Prop :=
  Forall (fun d => cmd_valid d = true -> is_Some (cmd d)) (custom_command_dispatchers f).

(** The slot a custom command is found in. *)
Definition custom_slot (c : bytes) (slots : list custom_dispatcher) : option Z :=
  (fun p => func p.2) <$> list_find (fun d => cmd_valid d = true /\ cmd d = Some c) slots.

Section dispatch.
Context `{Sdk} (custom_command : Z -> C unit) (fuel : nat).
Implicit Types (c : bytes) (f : ftp) (slots : list custom_dispatcher).

Lemma find_command_In c (g : C unit) table :
  NoDup (fst <$> table) -> In (c, g) table -> find_command c table = Some g.
Proof using Type.
  induction table as [|[n g'] table IH]; [done|]. cbn [fmap list_fmap fst In find_command]. intros [Hn Hd]%NoDup_cons [[= -> ->]|Hin].
  - by rewrite decide_True.
  - destruct (decide (c = n)) as [->|]; [|by apply IH]. destruct Hn. apply list_elem_of_fmap.
    exists (n, g). split; [done|]. by apply list_elem_of_In.
Qed.

Lemma find_command_Some c (g : C unit) table : find_command c table = Some g -> In (c, g) table.
Proof using Type.
  induction table as [|[n g'] table IH]; [done|]. cbn [find_command In].
  destruct (decide (c = n)) as [->|]; [intros [= ->]; by left|auto].
Qed.

Lemma find_command_not_In c table :
  (forall g : C unit, ~ In (c, g) table) -> find_command c table = None.
Proof using Type.
  induction table as [|[n g'] table IH]; [done|]. cbn [In find_command]. intros Hin.
  destruct (decide (c = n)) as [->|]; [by destruct (Hin g'); left|]. apply IH. intros g Hg. apply (Hin g). by right.
Qed.

Lemma dispatch_names : NoDup (fst <$> cmd_dispatch_table fuel).
Proof using Type. unfold cmd_dispatch_table. cbn [fmap list_fmap fst]. by apply (bool_decide_eq_true_1 _). Qed.

Lemma find_custom_command_slot c slots :
  Forall (fun d => cmd_valid d = true -> is_Some (cmd d)) slots ->
  find_custom_command c slots = Done (custom_slot c slots).
Proof using Type.
  unfold custom_slot. induction 1 as [|d slots Hd _ IH]; [done|]. cbn [find_custom_command list_find].
  destruct (cmd_valid d) eqn:Hv.
  - destruct (Hd eq_refl) as [n Hn]. rewrite Hn. destruct (decide (c = n)) as [->|Hne].
    + by rewrite decide_True.
    + rewrite decide_False by (intros [_ [=]]; done). rewrite IH. destruct (list_find _ slots) as [[]|]; done.
  - rewrite decide_False by (intros [? _]; done). rewrite IH. destruct (list_find _ slots) as [[]|]; done.
Qed.

Lemma get_dispatch_run c env f cl h :
  custom_ok f ->
  get_dispatch_func custom_command fuel c env (f, cl) h =
    Done (match find_command c (cmd_dispatch_table fuel) with
          | Some g => Some g
          | None => custom_command <$> custom_slot c (custom_command_dispatchers f)
          end, (f, cl), h).
Proof using Type.
  intros Hf. unfold get_dispatch_func. destruct (find_command c _) as [g|]; [done|].
  unfold on_server, mbind, M_bind, zoom, gets, lift. cbn [fst snd]. by rewrite find_custom_command_slot.
Qed.

(** Deleting reaches the slot of [c] if every slot before it has another name. *)
Lemma find_custom_at c slots i j d :
  slots !! i = Some d -> cmd d = Some c ->
  (forall k x, (k < i)%nat -> slots !! k = Some x -> exists n, cmd x = Some n /\ n <> c) ->
  find_custom c slots j = Done (Some (j + i)%nat).
Proof using Type.
  revert i j. induction slots as [|x slots IH]; intros i j Hi Hd Hbefore; [done|]. cbn [find_custom]. destruct i as [|i].
  - injection Hi as ->. rewrite Hd, decide_True by done. by rewrite Nat.add_0_r.
  - destruct (Hbefore 0%nat x) as (n & -> & Hn); [lia|done|]. rewrite decide_False by done.
    rewrite (IH i (S j)); [f_equal; f_equal; lia|done..|]. intros k y Hk Hy. apply (Hbefore (S k)); [lia|done].
Qed.

Lemma custom_ok_insert f i d :
  custom_ok f -> (cmd_valid d = true -> is_Some (cmd d)) ->
  custom_ok (set_custom_command_dispatchers (<[i := d]> (custom_command_dispatchers f)) f).
Proof using Type. intros Hf Hd. by apply Forall_insert. Qed.

Lemma custom_slot_at c slots i d :
  slots !! i = Some d -> cmd_valid d = true -> cmd d = Some c ->
  (forall j x, (j < i)%nat -> slots !! j = Some x -> cmd x <> Some c) -> custom_slot c slots = Some (func d).
Proof using Type.
  intros Hi Hv Hc Hbefore. unfold custom_slot. replace (list_find _ slots) with (Some (i, d)); [done|].
  symmetry. apply list_find_Some. split_and!; [done..|]. intros j x Hj Hlt [_ Hx]. by eapply Hbefore.
Qed.

Lemma alter_insert_eq {A} (g : A -> A) (l : list A) i x : alter g i (<[i := x]> l) = <[i := g x]> l.
Proof using Type. revert i. induction l as [|y l IH]; intros [|i]; cbn; [done..|]. f_equal. apply IH. Qed.

Lemma custom_slot_none c slots :
  (forall j x, slots !! j = Some x -> cmd_valid x = true -> cmd x <> Some c) -> custom_slot c slots = None.
Proof using Type.
  intros Hno. unfold custom_slot. replace (list_find _ slots) with (@None (nat * custom_dispatcher)); [done|].
  symmetry. apply list_find_None, Forall_lookup. intros j x Hj [Hv Hx]. by eapply Hno.
Qed.
End dispatch.

(** A client for the examples: at the root, with no data connection. *)
Definition idle_client : client :=
  Client 0 4 (-1) FTP_DATA_CONNECTION_NONE (SockaddrIn 0 0) (SockaddrIn 0 0) (-1) 0 [] NULL [SLASH] [] false 0.
Definition always_noop : Z -> C unit := fun _ => cmd_NOOP_func.

(** * Properties *)

(** Dispatch. A built-in command is always served by its own handler: no custom
    command can replace it. Another word is served by the first custom command in use
    with that name, and by nothing when there is none; no null name is compared. *)
Theorem dispatch_correct `{Sdk} (custom_command : Z -> C unit) fuel c env f cl h :
  custom_ok f ->
  (forall g, In (c, g) (cmd_dispatch_table fuel) ->
     get_dispatch_func custom_command fuel c env (f, cl) h = Done (Some g, (f, cl), h)) /\
  ((forall g, ~ In (c, g) (cmd_dispatch_table fuel)) ->
     get_dispatch_func custom_command fuel c env (f, cl) h =
       Done (custom_command <$> custom_slot c (custom_command_dispatchers f), (f, cl), h)).
Proof.
  intros Hf. rewrite get_dispatch_run by done. split.
  - intros g Hg. by rewrite (find_command_In c g _ (dispatch_names fuel) Hg).
  - intros Hno. by rewrite find_command_not_In.
Qed.

Lemma dispatch_correct_witness :
  let f := set_custom_command_dispatchers [Custom (Some (lit "RETR")) 1 true; Custom (Some (lit "SITE")) 2 true] ftp_initial in
  @get_dispatch_func demo_sdk always_noop 0 (lit "SITE") silent (f, idle_client) [] = Done (Some (always_noop 2), (f, idle_client), []).
Proof.
  intros f.
  refine (proj2 (@dispatch_correct demo_sdk always_noop 0 (lit "SITE") silent f idle_client [] _) _).
  - by repeat constructor.
  - intros g Hg%(in_map fst). apply list_elem_of_In in Hg. revert Hg. by apply (bool_decide_eq_false_1 _).
Defined.

(** C40: the custom command table: a command that is neither built in nor named in the
    table is added when a slot is free, is then found by dispatch, and after it is
    deleted it is not; the slots in use keep their names throughout. *)
Theorem custom_command_roundtrip `{Sdk} (custom_command : Z -> C unit) fuel c k env f cl h :
  custom_ok f -> (forall g, ~ In (c, g) (cmd_dispatch_table fuel)) ->
  Forall (fun d => cmd d <> Some c) (custom_command_dispatchers f) ->
  Exists (fun d => cmd_valid d = false) (custom_command_dispatchers f) ->
  exists f1 f2,
    ftpvita_ext_add_custom_command c k env f h = Done (true, f1, h) /\ custom_ok f1 /\
    get_dispatch_func custom_command fuel c env (f1, cl) h = Done (Some (custom_command k), (f1, cl), h) /\
    ftpvita_ext_del_custom_command c env f1 h = Done (true, f2, h) /\ custom_ok f2 /\
    get_dispatch_func custom_command fuel c env (f2, cl) h = Done (None, (f2, cl), h).
Proof.
  intros Hf Hbuiltin Hnew Hfree.
  assert (exists i x, list_find (fun d => cmd_valid d = false) (custom_command_dispatchers f) = Some (i, x)) as (i & x & Hfind).
  { destruct (list_find _ _) as [[i x]|] eqn:E; [by eexists _, _|]. apply list_find_None in E. rewrite Forall_forall in E.
    apply Exists_exists in Hfree as (d & Hd & Hv). by destruct (E d). }
  pose proof Hfind as (Hi & Hx & Hused)%list_find_Some. pose proof (lookup_lt_Some _ _ _ Hi) as Hlt.
  set (slots := custom_command_dispatchers f) in *. set (d1 := Custom (Some c) k true). set (d2 := Custom (Some c) k false).
  exists (set_custom_command_dispatchers (<[i := d1]> slots) f), (set_custom_command_dispatchers (<[i := d2]> slots) f).
  assert (forall j y d, j <> i -> <[i := d]> slots !! j = Some y -> slots !! j = Some y /\ cmd y <> Some c) as Hother.
  { intros j y d Hj Hy. rewrite list_lookup_insert_ne in Hy by done. split; [done|].
    rewrite Forall_forall in Hnew. apply Hnew. by eapply list_elem_of_lookup_2. }
  assert (forall d, cmd d = Some c -> custom_ok (set_custom_command_dispatchers (<[i := d]> slots) f)) as Hok
    by (intros; apply custom_ok_insert; [done|]; intros; by eexists).
  split_and!; [|by apply Hok| | |by apply Hok|].
  - unfold ftpvita_ext_add_custom_command, get, mbind, M_bind, modify, mret, M_ret. fold slots. by rewrite Hfind.
  - rewrite get_dispatch_run, find_command_not_In by (done || by apply Hok). cbn [custom_command_dispatchers set_custom_command_dispatchers].
    rewrite (custom_slot_at c _ i d1); [done|by apply list_lookup_insert_eq|done..|].
    intros j y Hj Hy. by apply (Hother j y d1); [lia|].
  - unfold ftpvita_ext_del_custom_command, get, mbind, M_bind, modify, mret, M_ret, lift.
    cbn [custom_command_dispatchers set_custom_command_dispatchers].
    rewrite (find_custom_at c _ i 0 d1); [|by apply list_lookup_insert_eq|done|].
    + cbn [Nat.add]. by rewrite alter_insert_eq.
    + intros j y Hj Hy. destruct (Hother j y d1 ltac:(lia) Hy) as [Hy' Hne].
      assert (cmd_valid y = true) as Hv by (specialize (Hused j y Hy' Hj); by destruct (cmd_valid y)).
      unfold custom_ok in Hf. rewrite Forall_forall in Hf.
      destruct (Hf y (list_elem_of_lookup_2 _ _ _ Hy') Hv) as [n Hn]. exists n. split; [done|]. congruence.
  - rewrite get_dispatch_run, find_command_not_In by (done || by apply Hok). cbn [custom_command_dispatchers set_custom_command_dispatchers].
    rewrite custom_slot_none; [done|]. intros j y Hy Hv. destruct (decide (j = i)) as [->|Hj].
    + rewrite list_lookup_insert_eq in Hy by done. by injection Hy as <-.
    + by apply (Hother j y d2).
Qed.

Lemma custom_command_roundtrip_witness :
  exists f1,
    ftpvita_ext_add_custom_command (lit "SITE") 5 silent ftp_initial [] = Done (true, f1, []) /\
    @get_dispatch_func demo_sdk always_noop 0 (lit "SITE") silent (f1, idle_client) [] = Done (Some (always_noop 5), (f1, idle_client), []).
Proof.
  destruct (@custom_command_roundtrip demo_sdk always_noop 0 (lit "SITE") 5 silent ftp_initial idle_client [])
    as (f1 & f2 & Hadd & _ & Hget & _).
  - by repeat constructor.
  - intros g Hg%(in_map fst). apply list_elem_of_In in Hg. revert Hg. by apply (bool_decide_eq_false_1 _).
  - by repeat constructor.
  - by left.
  - exists f1. split; [exact Hadd|exact Hget].
Defined.

(** From a directory whose path ends in a slash, CDUP goes to the root of the server
    and not to the directory above: [path_is_at_root] takes every such path for the
    root of a device. *)
Example dir_up_trailing_slash : dir_up (lit "/ux0:/data/") = Done [SLASH] /\ dir_up (lit "/ux0:/data") = Done (lit "/ux0:/").
Proof. by vm_compute. Qed.

(** An APPE refused because another transfer is active leaves its restore point
    behind, so the next upload appends and the next download starts out of range. *)
Example refused_append_keeps_offset :
  match @cmd_APPE_func demo_sdk 0 silent (set_transfer_active 1 ftp_initial, set_recv_cmd_args (Some (lit "a" ++ [0])) idle_client) [] with
  | Done (_, (f, cl), h) => restore_point cl = u32 (-1)
  | _ => False
  end.
Proof. by vm_compute. Qed.

(** Deleting a custom command that was never added reads through a null name,
    as long as some slot of the table was never used: the loop of
    [ftpvita_ext_del_custom_command] compares with slots that are not in use. *)
Theorem del_unknown_custom_command c env f h :
  Forall (fun d => cmd d <> Some c) (custom_command_dispatchers f) ->
  Exists (fun d => cmd d = NULL) (custom_command_dispatchers f) ->
  ftpvita_ext_del_custom_command c env f h = Undefined.
Proof.
  intros Hno Hnull. unfold ftpvita_ext_del_custom_command, get, mbind, M_bind, lift.
  assert (forall l i, Forall (fun d => cmd d <> Some c) l -> Exists (fun d => cmd d = NULL) l -> find_custom c l i = Undefined) as ->;
    [|done..].
  clear. induction l as [|d l IH]; intros i Hno Hnull; [by apply Exists_nil in Hnull|]. cbn [find_custom].
  apply Forall_cons in Hno as [Hd Hno]. apply Exists_cons in Hnull. destruct (cmd d) as [n|]; [|done].
  rewrite decide_False by congruence. apply IH; [done|]. by destruct Hnull.
Qed.

Lemma del_unknown_custom_command_witness :
  ftpvita_ext_del_custom_command (lit "SITE") silent ftp_initial [] = Undefined.
Proof. apply del_unknown_custom_command; [by repeat constructor|by left]. Defined.
