(* ===== verification/FtpSafe.v ===== *)
(** The FTP commands keep the session: what every built-in command of FtpCmds
    preserves, for every environment within the contract [ftp_io_ok].

    The lemmas are in the form of rules for the run of a command: a rule takes the
    invariant before and asks for the goal after, so a command's proof follows
    its text. *)

From S2P Require Import Prelude System FtpState FtpParse Retr Store FtpCmds.

#[local] Arguments sockets _ : simpl never.
#[local] Arguments holds _ _ : simpl never.

(** * The invariant *)

(** The sockets of the data connection that are open, the newest first. *)
Definition owned (c : client) : list Z :=
  (if 0 <=? pasv_sockfd c then [pasv_sockfd c] else []) ++ (if 0 <=? data_sockfd c then [data_sockfd c] else []).

(** The arguments point at a C string in the receive buffer of 512 bytes. *)
Definition args_ok (args : ptr bytes) : Prop :=
  forall p, args = Some p -> exists s, cstr p = Done s /\ Z.of_nat (length s) <= 511.

(** The calls that keep the unbounded loops going. *)
Definition loop_call (c : call) : bool :=
  match c with sceIoDread _ | sceNetRecv _ _ => true | _ => false end.
Fixpoint loop_calls (h : history) : nat :=
  match h with [] => O | e :: h => if loop_call (ev_call e) then S (loop_calls h) else loop_calls h end.
#[local] Arguments loop_calls _ : simpl never.

(** After [k] of them, directories are at their end and peers have closed. *)
Definition loops_end (env : environment) (k : nat) : Prop :=
  forall h, (k <= loop_calls h)%nat ->
    (forall fd, (env h (sceIoDread fd)).1 <= 0) /\ (forall fd len, s32 (env h (sceNetRecv fd len)).1 <= 0).

Lemma loop_calls_later n e h : (n <= loop_calls h)%nat -> (n <= loop_calls (e :: h))%nat.
Proof. change (loop_calls (e :: h)) with (if loop_call (ev_call e) then S (loop_calls h) else loop_calls h). destruct (loop_call _); lia. Qed.

(** What surrounds a command: the globals, the control socket, what the rest of
    the run holds, and a number of loop calls that were made. *)
Record frame := Frame { around : ftp; control : Z; keeps : held; others : list Z; seen : nat }.

Record session_ok `{Sdk} (fr : frame) (s : session) (h : history) : Prop := SessionOk {
  ok_server : set_socket_timeout_config_failures 0 s.1 = set_socket_timeout_config_failures 0 (around fr);
  ok_held : holds h = keeps fr;
  ok_sockets : sockets h = owned s.2 ++ others fr;
  ok_control : ctrl_sockfd s.2 = control fr;
  ok_cur : path_ok (cur_path s.2);
  ok_rename : Z.of_nat (length (rename_path s.2)) < PATH_MAX;
  ok_args : args_ok (recv_cmd_args s.2);
  ok_restore : 0 <= restore_point s.2;
  ok_seen : (seen fr <= loop_calls h)%nat
}.

(** Between commands no connection is accepted; after a transfer none is prepared
    either. *)
Definition idle (s : session) : Prop := pasv_sockfd s.2 < 0.
Definition closed (s : session) : Prop :=
  idle s /\ data_sockfd s.2 < 0 /\ data_con_type s.2 = FTP_DATA_CONNECTION_NONE.

(** The contract of the SDK: a send accepts at most what it is offered, a null path
    names no file, a file position is a signed 64-bit integer. *)
Record ftp_io_ok (env : environment) : Prop := {
  send_accepts : forall h fd data, env h (sceNetSend fd data) <= Z.of_nat (length data);
  no_null_path : forall h, (env h (sceIoGetstat NULL)).1 < 0;
  lseek_offset : forall h fd offset whence, env h (sceIoLseek fd offset whence) < 2 ^ 63
}.

(** Calls that open and close nothing. *)
Definition neutral (c : call) : bool :=
  match c with
  | sceNetSocket _ | sceNetAccept _ | sceNetSocketClose _ | sceIoOpen _ _ _ | sceIoClose _
  | sceIoDopen _ | sceIoDclose _ | malloc _ | free _ | inflateInit2 _ | inflateEnd => false
  | _ => true
  end.

(** The frame of a transfer, and of the part of it that holds more. *)
Definition in_transfer (fr : frame) : frame :=
  Frame (set_transfer_active 1 (around fr)) (control fr) (keeps fr) (others fr) (seen fr).
Definition holding (r : held) (fr : frame) : frame := Frame (around fr) (control fr) r (others fr) (seen fr).
Definition saw (fr : frame) : frame := Frame (around fr) (control fr) (keeps fr) (others fr) (S (seen fr)).

Definition with_file (fd : Z) (fr : frame) : frame :=
  let r := keeps fr in holding (Held (fd :: files r) (dirs r) (blocks r) (streams r)) fr.
Definition with_dir (fd : Z) (fr : frame) : frame :=
  let r := keeps fr in holding (Held (files r) (fd :: dirs r) (blocks r) (streams r)) fr.
Definition with_block (fr : frame) : frame :=
  let r := keeps fr in holding (Held (files r) (dirs r) (blocks r + 1) (streams r)) fr.

(** A bound that is enough in an environment whose loops end. *)
Definition enough (env : environment) (fuel : nat) (fr : frame) : Prop :=
  exists k, loops_end env k /\ (seen fr <= k < fuel + seen fr)%nat.

(** Partial correctness, and total correctness when [P] holds. *)
Lemma run_spec_unless {S A} (P : Prop) (m : M S A) Q env s h :
  wlp m Q env s h -> (P -> wp m Q env s h) -> run_spec (~ P) m Q env s h.
Proof. unfold run_spec. by destruct (m env s h) as [[[a s'] h']| |]; auto. Qed.

Lemma run_spec_weaken {S A} (P P' : Prop) (m : M S A) Q env s h :
  (P -> P') -> run_spec P m Q env s h -> run_spec P' m Q env s h.
Proof. intros HP. unfold run_spec. by destruct (m env s h) as [[[a s'] h']| |]; auto. Qed.

Section safe.
Context `{Sdk} (env : environment) (Hio : ftp_io_ok env) {nofuel : Prop}.
Abbreviation spec := (run_spec nofuel).
Implicit Types (fr : frame) (s : session) (h : history).

Lemma session_neutral fr s h c a : neutral c = true -> session_ok fr s h -> session_ok fr s (Ev c a :: h).
Proof.
  intros Hc [? Hh Hs ? ? ? ? ? ?]. split; try done; try by apply loop_calls_later.
  - rewrite holds_cons, <-Hh. by destruct c.
  - rewrite sockets_cons, <-Hs. by destruct c.
Qed.

(** A call that only changes what is held. *)
Lemma session_tracked fr s h c a r :
  session_ok fr s h -> track (Ev c a) (keeps fr) = r -> track_socket (Ev c a) (sockets h) = sockets h ->
  session_ok (holding r fr) s (Ev c a :: h).
Proof.
  intros [? Hh Hs ? ? ? ? ? ?] Hr Hc. split; try done; try by apply loop_calls_later.
  - by rewrite holds_cons, Hh.
  - by rewrite sockets_cons, Hc, Hs.
Qed.

(** A change of the client that keeps what the invariant speaks of. *)
Lemma session_client fr f c c' h :
  session_ok fr (f, c) h -> owned c' = owned c -> ctrl_sockfd c' = ctrl_sockfd c ->
  path_ok (cur_path c') -> Z.of_nat (length (rename_path c')) < PATH_MAX -> recv_cmd_args c' = recv_cmd_args c ->
  0 <= restore_point c' -> session_ok fr (f, c') h.
Proof. intros [? ? Hs ? ? ? ? ? ?]; cbn in *. intros Ho Hc ? ? Ha ?. split; cbn; rewrite ?Ho, ?Hc, ?Ha; done. Qed.

Ltac client_step Hok := eapply (session_client _ _ _ _ _ Hok);
  first [reflexivity | apply (ok_cur _ _ _ Hok) | apply (ok_rename _ _ _ Hok) | apply (ok_restore _ _ _ Hok) | done].

(** * Rules *)

Lemma sys_neutral c (Q : answer c -> session -> history -> Prop) fr s h :
  neutral c = true -> session_ok fr s h ->
  (forall a h', a = env h c -> session_ok fr s h' -> Q a s h') -> spec (sys c) Q env s h.
Proof using Type. intros Hc Hok HQ. apply wp_sys. intros a Ha. apply HQ; [done|]. by apply session_neutral. Qed.

Ltac neutral_step fr :=
  try apply wp_bind;
  lazymatch goal with |- run_spec _ (sys ?c) ?Q _ ?s ?h =>
    refine (sys_neutral c Q fr s h eq_refl _ _); [done|cbn [answer]] end.

(** Opening and closing; [free] and [sceIoClose] undo their partner in any order. *)
Lemma dopen_ok path Q fr s h :
  session_ok fr s h ->
  (forall fd h', session_ok (if fd <? 0 then fr else with_dir fd fr) s h' -> Q fd s h') ->
  spec (sys (sceIoDopen path)) Q env s h.
Proof using Type.
  intros Hok HQ. apply wp_sys. intros fd _. apply HQ. cbn [answer] in fd.
  pose proof (session_tracked fr s h (sceIoDopen path) fd _ Hok eq_refl eq_refl) as Ht. cbn [track] in Ht.
  destruct (fd <? 0); [|done]. by destruct fr.
Qed.

Lemma dclose_ok fd Q fr s h :
  session_ok (with_dir fd fr) s h -> (forall a h', session_ok fr s h' -> Q a s h') ->
  spec (sys (sceIoDclose fd)) Q env s h.
Proof using Type.
  intros Hok HQ. apply wp_sys. intros a _. apply HQ.
  pose proof (session_tracked _ s h (sceIoDclose fd) a _ Hok eq_refl eq_refl) as Ht. cbn [track keeps with_dir holding dirs] in Ht.
  rewrite remove_one_head in Ht. destruct fr as [? ? []]. exact Ht.
Qed.

Lemma open_ok path flags mode Q fr s h :
  session_ok fr s h ->
  (forall fd h', session_ok (if fd <? 0 then fr else with_file fd fr) s h' -> Q fd s h') ->
  spec (sys (sceIoOpen path flags mode)) Q env s h.
Proof using Type.
  intros Hok HQ. apply wp_sys. intros fd _. apply HQ. cbn [answer] in fd.
  pose proof (session_tracked fr s h (sceIoOpen path flags mode) fd _ Hok eq_refl eq_refl) as Ht. cbn [track] in Ht.
  destruct (fd <? 0); [|done]. by destruct fr.
Qed.

Lemma close_ok fd Q fr s h :
  session_ok (with_file fd fr) s h -> (forall a h', session_ok fr s h' -> Q a s h') ->
  spec (sys (sceIoClose fd)) Q env s h.
Proof using Type.
  intros Hok HQ. apply wp_sys. intros a _. apply HQ.
  pose proof (session_tracked _ s h (sceIoClose fd) a _ Hok eq_refl eq_refl) as Ht. cbn [track keeps with_file holding files] in Ht.
  rewrite remove_one_head in Ht. destruct fr as [? ? []]. exact Ht.
Qed.

Lemma malloc_ok size Q fr s h :
  session_ok fr s h ->
  (forall (b : bool) h', session_ok (if b then with_block fr else fr) s h' -> Q b s h') ->
  spec (sys (malloc size)) Q env s h.
Proof using Type.
  intros Hok HQ. apply wp_sys. intros b _. apply HQ. cbn [answer] in b.
  pose proof (session_tracked fr s h (malloc size) b _ Hok eq_refl eq_refl) as Ht. cbn [track] in Ht.
  destruct b; [done|]. by destruct fr.
Qed.

Lemma free_ok Q fr s h :
  session_ok (with_block fr) s h -> (forall a h', session_ok fr s h' -> Q a s h') ->
  spec (sys (free true)) Q env s h.
Proof using Type.
  intros Hok HQ. apply wp_sys. intros a _. apply HQ.
  pose proof (session_tracked _ s h (free true) a _ Hok eq_refl eq_refl) as Ht. cbn [track keeps with_block holding blocks] in Ht.
  rewrite Z.add_simpl_r in Ht. destruct fr as [? ? []]. exact Ht.
Qed.

Lemma send_ctrl_ok text Q fr s h :
  session_ok fr s h -> (forall h', session_ok fr s h' -> Q tt s h') -> spec (client_send_ctrl_msg text) Q env s h.
Proof using Type.
  intros Hok HQ. unfold client_send_ctrl_msg. wp_steps. apply HQ. by apply session_neutral.
Qed.

Lemma close_data_ok Q fr s h :
  session_ok fr s h ->
  (forall s' h', session_ok fr s' h' -> data_sockfd s'.2 < 0 -> pasv_sockfd s'.2 = pasv_sockfd s.2 -> Q tt s' h') ->
  spec close_data_socket Q env s h.
Proof using Type.
  destruct s as [f c]. intros Hok HQ. unfold close_data_socket, set_client, of_client. wp_steps; cbn in *.
  - apply HQ; cbn; [|lia|done]. destruct Hok as [? ? Hs ? ? ? ? ? ?]. cbn in *. split; cbn; try done; try by apply loop_calls_later.
    change (remove_one (data_sockfd c) (sockets h) = owned (set_data_sockfd (-1) c) ++ others fr).
    rewrite Hs. unfold owned. cbn. replace (0 <=? data_sockfd c) with true. cbn [app].
    destruct (0 <=? pasv_sockfd c); cbn [app]; [by rewrite remove_one_second|by rewrite remove_one_head].
  - apply HQ; [done|cbn; lia|done].
Qed.

Lemma close_connection_ok Q fr s h :
  session_ok fr s h -> (forall s' h', session_ok fr s' h' -> closed s' -> Q tt s' h') ->
  spec client_close_data_connection Q env s h.
Proof using Type.
  intros Hok HQ. unfold client_close_data_connection, close_pasv_socket, set_client, of_client.
  apply wp_bind. apply (close_data_ok _ fr _ _ Hok). clear Hok. intros [f c] h1 Hok Hd _. wp_steps; cbn in *.
  - apply HQ; [|split_and!; done]. destruct Hok as [? ? Hs ? ? ? ? ? ?]. cbn in *. split; cbn; try done; try by apply loop_calls_later.
    change (remove_one (pasv_sockfd c) (sockets h1) = owned (set_pasv_sockfd (-1) c) ++ others fr).
    rewrite Hs. unfold owned. cbn. replace (0 <=? pasv_sockfd c) with true. cbn [app]. by rewrite remove_one_head.
  - apply HQ; [|split_and!; unfold idle; cbn; done || lia]. by client_step Hok.
Qed.

(** Closing, then a reply: the end of every refused command. *)
Lemma close_and_reply_ok text Q fr s h :
  session_ok fr s h -> (forall s' h', session_ok fr s' h' -> closed s' -> Q tt s' h') ->
  spec (client_close_data_connection;; client_send_ctrl_msg text) Q env s h.
Proof using Type.
  intros Hok HQ. apply wp_bind. apply (close_connection_ok _ fr); [done|]. intros s1 h1 Hok1 Hc.
  apply (send_ctrl_ok _ _ fr); [done|]. auto.
Qed.

(** The command argument: the text, or nothing when it is empty. *)
Lemma command_argument_ok Q fr s h :
  session_ok fr s h ->
  (forall arg, (forall text, arg = Some text -> text <> [] /\ Z.of_nat (length text) <= 511) -> Q arg s h) ->
  spec command_argument Q env s h.
Proof using Type.
  intros Hok HQ. unfold command_argument, of_client. apply wp_bind, wp_gets. cbn beta.
  destruct (recv_cmd_args s.2) as [p|] eqn:Ha.
  - destruct (ok_args _ _ _ Hok p Ha) as (t & Ht & Hl).
    destruct (copy_command_argument_run p t (replicate (Z.to_nat PATH_MAX) 0) PATH_MAX) as (o & Ho & E);
      [done|unfold PATH_MAX; lia|by rewrite length_replicate|]. cbv zeta in E.
    apply wp_bind. eapply wp_lift; [exact E|]. cbn beta.
    assert (length (argument_text t) <= length t)%nat as Hle.
    { unfold argument_text. pose proof (length_while (fun c => negb (ends_argument c)) t). lia. }
    destruct (_ && _) eqn:Hfit; cbv iota.
    + change (1 =? 0) with false. cbv iota. eapply wp_bind, wp_lift.
      { apply cstr_lit. apply cstr_terminated in Ht as [Hfree _]. by apply Forall_take_while. }
      apply wp_ret, HQ. intros ? [= <-]. split; [|lia].
      intros E0. by rewrite E0 in Hfit.
    + change (0 =? 0) with true. cbv iota. apply wp_ret. by apply HQ.
  - apply wp_bind. eapply wp_lift; [reflexivity|]. change (0 =? 0) with true. cbv iota. apply wp_ret. by apply HQ.
Qed.

Lemma full_path_ok Q fr s h :
  session_ok fr s h -> (forall path, Z.of_nat (length path) < PATH_MAX -> Q path s h) ->
  spec (gen_ftp_fullpath PATH_MAX) Q env s h.
Proof using Type.
  intros Hok HQ. unfold gen_ftp_fullpath, of_client. apply wp_bind. apply (command_argument_ok _ fr); [done|].
  intros [text|] _; [|apply wp_ret, HQ; done].
  wp_steps; apply HQ; by apply snprintf_length.
Qed.

(** * The data connection *)

(** The data socket created after the old connection was closed. *)
Lemma socket_created fr f c nm fd h :
  session_ok fr (f, c) h -> closed (f, c) ->
  session_ok fr (f, set_data_sockfd fd c) (Ev (sceNetSocket nm) fd :: h).
Proof using Type.
  intros [? Hh Hs ? ? ? ? ? ?] (Hi & Hd & Ht). split; cbn in *; try done; try by apply loop_calls_later. rewrite sockets_cons, Hs. unfold owned, idle in *. cbn in *.
  replace (0 <=? pasv_sockfd c) with false by lia. replace (0 <=? data_sockfd c) with false by lia.
  unfold track_socket. destruct (Z.ltb_spec fd 0), (Z.leb_spec 0 fd); done || lia.
Qed.

Lemma closed_sockets fr s h : session_ok fr s h -> closed s -> sockets h = others fr.
Proof using Type.
  intros Hok (Hi & Hd & _). rewrite (ok_sockets _ _ _ Hok). unfold owned, idle in *.
  replace (0 <=? pasv_sockfd s.2) with false by lia. by replace (0 <=? data_sockfd s.2) with false by lia.
Qed.

Lemma set_timeout_ok fd Q fr f c h :
  session_ok fr (f, c) h -> (forall r f' h', session_ok fr (f', c) h' -> Q r (f', c) h') ->
  spec (set_socket_timeout fd) Q env (f, c) h.
Proof using Type.
  intros Hok HQ. unfold set_socket_timeout, on_server, configure_socket_io_timeout. apply wp_zoom. cbn [fst snd].
  assert (forall f' h', set_socket_timeout_config_failures 0 f' = set_socket_timeout_config_failures 0 f ->
    session_ok fr (f, c) h' -> session_ok fr (f', c) h') as Hf.
  { intros f' h' E Hok'. destruct Hok' as [E0 ? ? ? ? ? ? ? ?]. split; cbn in *; congruence || done. }
  wp_steps; apply HQ; [done|..]; (eapply Hf; [by try destruct f|]; by do 2 (apply session_neutral; [done|])).
Qed.

(** [client_open_data_connection] is called between commands. *)
Lemma open_connection_ok Q fr s h :
  session_ok fr s h -> idle s -> (forall r s' h', session_ok fr s' h' -> Q r s' h') ->
  spec client_open_data_connection Q env s h.
Proof using Type.
  destruct s as [f c]. intros Hok Hi HQ. unfold client_open_data_connection, of_client, set_client, id.
  wp_steps; cbn [fst snd] in *; [by apply HQ|apply HQ; by apply session_neutral|].
  match goal with |- context [set_socket_timeout ?fd] => set (fd0 := fd) in * end.
  apply (set_timeout_ok _ _ fr).
  - destruct Hok as [? Hh Hs ? ? ? ? ? ?]. split; cbn in *; try done; try by apply loop_calls_later.
    rewrite sockets_cons, Hs. unfold owned, idle in *. cbn in *.
    replace (0 <=? pasv_sockfd c) with false by lia. unfold track_socket.
    match goal with E : (fd0, _) = _ |- _ => destruct E end. cbn.
    destruct (Z.ltb_spec fd0 0), (Z.leb_spec 0 fd0); done || lia.
  - intros r f' h' Hok'. wp_steps. by apply HQ.
Qed.

Lemma send_all_ok fuel sockfd cursor Q fr s h :
  (length cursor < fuel)%nat -> session_ok fr s h -> (forall r h', session_ok fr s h' -> Q r s h') ->
  spec (send_all fuel sockfd cursor) Q env s h.
Proof using Hio.
  intros Hf Hok HQ. revert cursor h Hf Hok. induction fuel as [|fuel IH]; intros cursor h Hf Hok; [lia|]. cbn [send_all].
  destruct cursor as [|x cursor]; [by apply wp_ret, HQ|].
  neutral_step fr. intros sent h' -> Hok'.
  pose proof (send_accepts _ Hio h sockfd (x :: cursor)) as Ha.
  destruct (Z.leb_spec (env h (sceNetSend sockfd (x :: cursor))) 0); [by apply wp_ret, HQ|].
  replace (_ <? _) with false by lia. apply IH; [|done]. rewrite length_drop. cbn [length] in *. lia.
Qed.

Lemma send_data_ok text Q fr s h :
  session_ok fr s h -> (forall r h', session_ok fr s h' -> Q r s h') -> spec (client_send_data_msg text) Q env s h.
Proof using Hio.
  intros Hok HQ. unfold client_send_data_msg, client_send_all, of_client. wp_step. wp_step.
  apply (send_all_ok _ _ _ _ fr); [lia|done..].
Qed.

(** * Transfers *)

Lemma begin_transfer_ok Q fr s h :
  session_ok fr s h -> Q false s h ->
  (forall s', transfer_active (around fr) = 0 -> s'.2 = s.2 -> session_ok (in_transfer fr) s' h -> Q true s' h) ->
  spec (on_server client_begin_transfer) Q env s h.
Proof using Type.
  destruct s as [f c]. intros Hok Hrefused Hbegun.
  unfold on_server, client_begin_transfer, compare_and_swap. apply wp_zoom. cbn [fst snd].
  apply wp_bind, wp_gets. destruct (Z.eqb_spec (reboot_quiesce_requested f) 0) as [Hq|]; cbn [negb]; [|done].
  apply wp_bind, wp_bind, wp_gets. destruct (Z.eqb_spec (transfer_active f) 0) as [Ht|]; [|done].
  apply wp_bind, wp_modify, wp_ret. cbn [negb]. apply wp_bind, wp_gets. cbn [reboot_quiesce_requested set_transfer_active].
  rewrite Hq. apply wp_ret, Hbegun; [|done|].
  - pose proof (f_equal transfer_active (ok_server _ _ _ Hok)) as E. cbn in E. congruence.
  - destruct Hok as [E ? ? ? ? ? ? ? ?]. split; try done. exact (f_equal (set_transfer_active 1) E).
Qed.

Lemma end_transfer_ok Q fr s h :
  session_ok (in_transfer fr) s h -> transfer_active (around fr) = 0 ->
  (forall s', s'.2 = s.2 -> session_ok fr s' h -> Q tt s' h) -> spec end_transfer Q env s h.
Proof using Type.
  destruct s as [f c]. intros [E ? ? ? ? ? ? ? ?] Ht HQ. unfold end_transfer, on_server, client_end_transfer. wp_steps.
  apply HQ; [done|]. split; cbn in *; try done; try by apply loop_calls_later.
  transitivity (set_transfer_active 0 (set_socket_timeout_config_failures 0 (set_transfer_active 1 (around fr)))).
  - by rewrite <-E.
  - rewrite <-Ht. by destruct (around fr).
Qed.

(** The end of a transfer that closes the connection first, and the one that replies first. *)
Lemma close_reply_end_ok text Q fr s h :
  session_ok (in_transfer fr) s h -> transfer_active (around fr) = 0 ->
  (forall s' h', session_ok fr s' h' -> closed s' -> Q tt s' h') ->
  spec (client_close_data_connection;; client_send_ctrl_msg text;; end_transfer) Q env s h.
Proof using Type.
  intros Hok Ht HQ. apply wp_bind. apply (close_connection_ok _ _ _ _ Hok). intros s1 h1 Hok1 Hc.
  apply wp_bind. apply (send_ctrl_ok _ _ _ _ _ Hok1). intros h2 Hok2.
  apply (end_transfer_ok _ _ _ _ Hok2 Ht). intros s' Es Hok'. apply HQ; [done|]. unfold closed, idle in *. by rewrite Es.
Qed.

Lemma reply_close_end_ok text Q fr s h :
  session_ok (in_transfer fr) s h -> transfer_active (around fr) = 0 ->
  (forall s' h', session_ok fr s' h' -> closed s' -> Q tt s' h') ->
  spec (client_send_ctrl_msg text;; client_close_data_connection;; end_transfer) Q env s h.
Proof using Type.
  intros Hok Ht HQ. apply wp_bind. apply (send_ctrl_ok _ _ _ _ _ Hok). intros h2 Hok2.
  apply wp_bind. apply (close_connection_ok _ _ _ _ Hok2). intros s1 h1 Hok1 Hc.
  apply (end_transfer_ok _ _ _ _ Hok1 Ht). intros s' Es Hok'. apply HQ; [done|]. unfold closed, idle in *. by rewrite Es.
Qed.

(** * The commands *)

(** What a command keeps, and what a command with a data connection keeps. *)
Definition kept fr s h : Prop := session_ok fr s h /\ idle s.
Definition ended fr s h : Prop := session_ok fr s h /\ closed s.

Lemma ended_kept fr s h : ended fr s h -> kept fr s h.
Proof using Type. by intros [? []]. Qed.

Lemma reply_kept text fr s h : kept fr s h -> spec (client_send_ctrl_msg text) (fun _ => kept fr) env s h.
Proof using Type. intros [Hok Hi]. apply (send_ctrl_ok _ _ _ _ _ Hok). intros h' Hok'. done. Qed.

(** One call to the file system, then a reply that may depend on it. *)
Lemma sys_kept c (f : answer c -> M session unit) fr s h :
  neutral c = true -> kept fr s h ->
  (forall a h', a = env h c -> kept fr s h' -> spec (f a) (fun _ => kept fr) env s h') ->
  spec (sys c ≫= f) (fun _ => kept fr) env s h.
Proof using Type.
  intros Hc [Hok Hi] Hf. apply wp_bind. apply (sys_neutral _ _ _ _ _ Hc Hok). intros a h' Ha Hok'. by apply Hf.
Qed.

Ltac kept_step :=
  lazymatch goal with |- run_spec _ (sys ?c ≫= ?f) (fun _ => kept ?fr) _ ?s ?h =>
    refine (sys_kept c f fr s h eq_refl _ _); [done|cbn [answer]] end.

Lemma path_kept (f : bytes -> M session unit) fr s h :
  kept fr s h -> (forall path, Z.of_nat (length path) < PATH_MAX -> spec (f path) (fun _ => kept fr) env s h) ->
  spec (gen_ftp_fullpath PATH_MAX ≫= f) (fun _ => kept fr) env s h.
Proof using Type. intros [Hok Hi] Hf. apply wp_bind. by apply (full_path_ok _ fr). Qed.

Lemma client_kept f c c' h fr :
  kept fr (f, c) h -> owned c' = owned c -> ctrl_sockfd c' = ctrl_sockfd c ->
  path_ok (cur_path c') -> Z.of_nat (length (rename_path c')) < PATH_MAX -> recv_cmd_args c' = recv_cmd_args c ->
  pasv_sockfd c' = pasv_sockfd c -> 0 <= restore_point c' -> kept fr (f, c') h.
Proof using Type.
  intros [Hok Hi] ? ? ? ? ? Hp ?. split; [by eapply (session_client _ _ c)|]. unfold idle in *. cbn in *. by rewrite Hp.
Qed.

Abbreviation keeps_session m := (forall fr s h, kept fr s h -> spec m (fun _ => kept fr) env s h).

Lemma NOOP_kept : keeps_session cmd_NOOP_func. Proof using Type. intros. by apply reply_kept. Qed.
Lemma USER_kept : keeps_session cmd_USER_func. Proof using Type. intros. by apply reply_kept. Qed.
Lemma PASS_kept : keeps_session cmd_PASS_func. Proof using Type. intros. by apply reply_kept. Qed.
Lemma SYST_kept : keeps_session cmd_SYST_func. Proof using Type. intros. by apply reply_kept. Qed.
Lemma OPTS_kept : keeps_session cmd_OPTS_func. Proof using Type. intros. by apply reply_kept. Qed.

Lemma replies_kept (m1 m2 : M session unit) : keeps_session m1 -> keeps_session m2 -> keeps_session (m1;; m2).
Proof using Type.
  intros H1 H2 fr s h Hk. apply wp_bind. eapply wp_mono; [by apply H1|]. intros [] s' h' Hk'. by apply H2.
Qed.

Lemma FEAT_kept : keeps_session cmd_FEAT_func.
Proof using Type. unfold cmd_FEAT_func. repeat apply replies_kept; intros; by apply reply_kept. Qed.

Lemma update_kept (g : client -> client) fr f c h :
  kept fr (f, g c) h -> spec (set_client g) (fun _ => kept fr) env (f, c) h.
Proof using Type. intros. by apply wp_modify. Qed.

Lemma QUIT_kept : keeps_session cmd_QUIT_func.
Proof using Type.
  intros fr s h Hk. apply wp_bind. eapply wp_mono; [by apply reply_kept|]. intros [] [f c] h' Hk'.
  apply update_kept. eapply (client_kept f c); try done; apply Hk'.
Qed.

Lemma PWD_kept : keeps_session cmd_PWD_func.
Proof using Type. intros fr s h Hk. apply wp_bind, wp_gets. by apply reply_kept. Qed.

(** Moving to a good path. *)
Lemma move_kept path text fr f c h :
  kept fr (f, c) h -> path_ok path ->
  spec (set_client (set_cur_path path);; client_send_ctrl_msg text) (fun _ => kept fr) env (f, c) h.
Proof using Type.
  intros Hk Hp. apply wp_bind, wp_modify. apply reply_kept. eapply (client_kept f c); try done; apply Hk.
Qed.

Lemma CDUP_kept : keeps_session cmd_CDUP_func.
Proof using Type.
  intros fr [f c] h Hk. destruct (dir_up_ok (cur_path c)) as (p & Hp & Hok); [apply Hk|].
  apply wp_bind, wp_gets. apply wp_bind. eapply wp_lift; [exact Hp|]. by apply move_kept.
Qed.

Lemma CWD_kept : keeps_session cmd_CWD_func.
Proof using Type.
  intros fr [f c] h Hk. unfold cmd_CWD_func. apply wp_bind. apply (command_argument_ok _ fr); [apply Hk|].
  intros [text|] Htext; [|by apply reply_kept]. destruct (Htext text eq_refl) as [Hne Hl]. clear Htext.
  apply wp_bind, wp_gets. cbn [snd].
  destruct (bool_decide_reflect (text = [SLASH])) as [->|_].
  { apply wp_bind. eapply wp_lift; [done|]. by apply move_kept, path_ok_root. }
  destruct (bool_decide (text = lit "..")).
  { destruct (dir_up_ok (cur_path c)) as (p & Hp & Hok); [apply Hk|].
    apply wp_bind. eapply wp_lift; [exact Hp|]. by apply move_kept. }
  destruct (cwd_target_ok (cur_path c) text) as (p & Hp & Hok); [apply Hk|done..|].
  apply wp_bind. eapply wp_lift; [exact Hp|].
  assert (strcpy PATH_MAX p = Done p) as Hcpy.
  { destruct Hok as (_ & Hlen & _). unfold strcpy. by rewrite (proj2 (Z.ltb_lt _ _) Hlen). }
  destruct (bool_decide (p = [SLASH])).
  { apply wp_bind. eapply wp_lift; [exact Hcpy|]. by apply move_kept. }
  apply wp_bind. apply (dopen_ok _ _ _ _ _ (proj1 Hk)). intros fd h' Hok'. destruct (fd <? 0).
  { apply reply_kept. by split; [|apply Hk]. }
  apply wp_bind. apply (dclose_ok _ _ _ _ _ Hok'). intros _ h2 Hok2.
  apply wp_bind. eapply wp_lift; [exact Hcpy|]. apply move_kept; [|done]. by split; [|apply Hk].
Qed.

Lemma TYPE_kept : keeps_session cmd_TYPE_func.
Proof using Type.
  intros fr s h Hk. apply wp_bind, wp_gets. apply wp_bind.
  assert (exists c, match recv_cmd_args s.2 with Some args => load args 0 | None => Done NUL end = Done c) as [c Hc].
  { destruct (recv_cmd_args s.2) as [p|] eqn:E; [|by eexists].
    destruct (ok_args _ _ _ (proj1 Hk) p E) as (t & Ht & _). destruct p as [|x p]; [done|by exists x]. }
  eapply wp_lift; [exact Hc|]. destruct (_ || _); by apply reply_kept.
Qed.

Lemma DELE_kept : keeps_session cmd_DELE_func.
Proof using Type.
  intros fr s h Hk. apply path_kept; [done|]. intros path _. unfold delete_file. kept_step. intros. by apply reply_kept.
Qed.

Lemma RMD_kept : keeps_session cmd_RMD_func.
Proof using Type.
  intros fr s h Hk. apply path_kept; [done|]. intros path _. unfold delete_dir. kept_step. intros. by apply reply_kept.
Qed.

Lemma MKD_kept : keeps_session cmd_MKD_func.
Proof using Type.
  intros fr s h Hk. apply path_kept; [done|]. intros path _. unfold create_dir. kept_step. intros. by apply reply_kept.
Qed.

Lemma RNTO_kept : keeps_session cmd_RNTO_func.
Proof using Type.
  intros fr s h Hk. apply path_kept; [done|]. intros path _. apply wp_bind, wp_gets.
  kept_step. intros. by apply reply_kept.
Qed.

Lemma SIZE_kept : keeps_session cmd_SIZE_func.
Proof using Type.
  intros fr s h Hk. apply path_kept; [done|]. intros path _. kept_step.
  intros [r stat] h' _ Hk'. destruct (r <? 0); by apply reply_kept.
Qed.

Lemma RNFR_kept : keeps_session cmd_RNFR_func.
Proof using Hio.
  intros fr [f c] h [Hok Hi]. apply path_kept; [done|]. intros path Hlen.
  unfold file_exists. apply wp_bind. neutral_step fr. intros [r stat] h' Er Hok'. apply wp_ret.
  destruct (Z.leb_spec 0 r) as [Hr|]; cbn [negb]; [|by apply reply_kept].
  assert (exists p, get_vita_path path = Some p /\ Z.of_nat (length p) < PATH_MAX) as (p & Hp & Hp').
  { pose proof (no_null_path _ Hio h). unfold get_vita_path in *. destruct (1 <? _).
    - eexists. split; [done|]. rewrite length_drop. lia.
    - rewrite <-Er in *. cbn in *. lia. }
  rewrite Hp. apply wp_bind.
  eapply wp_lift; [unfold strcpy; by rewrite (proj2 (Z.ltb_lt _ _) Hp')|].
  apply wp_bind, wp_modify. cbn [fst snd]. apply reply_kept.
  eapply (client_kept f c); try done; apply Hok.
Qed.

Lemma REST_kept : keeps_session cmd_REST_func.
Proof using Type.
  intros fr [f c] h Hk. apply wp_bind, wp_gets. cbn [snd]. apply wp_bind.
  assert (exists ret off, ftpvita_parse_rest_offset (recv_cmd_args c) (Some 0) = Done (ret, off) /\ 0 <= default 0 off)
    as (ret & off & E & Hoff).
  { destruct (recv_cmd_args c) as [p|] eqn:E; [|by eexists _, _].
    destruct (ok_args _ _ _ (proj1 Hk) p E) as (t & Ht & _). rewrite (parse_rest_offset_run p t 0 Ht).
    destruct (rest_number t) as [v|] eqn:Hv; [|by eexists _, _]. destruct (v <=? _); eexists _, _; (split; [done|]); [|done].
    by apply (rest_number_nonneg t). }
  eapply wp_lift; [exact E|]. cbn beta iota. destruct (ret =? 0); [by apply reply_kept|].
  apply wp_bind, wp_modify. apply reply_kept. eapply (client_kept f c); try done; apply Hk.
Qed.

(** A prepared connection: its socket and its kind are set. *)
Lemma set_client_kept (g : client -> client) fr f c h :
  kept fr (f, c) h -> owned (g c) = owned c -> pasv_sockfd (g c) = pasv_sockfd c ->
  ctrl_sockfd (g c) = ctrl_sockfd c -> cur_path (g c) = cur_path c -> rename_path (g c) = rename_path c ->
  recv_cmd_args (g c) = recv_cmd_args c -> restore_point (g c) = restore_point c -> kept fr (f, g c) h.
Proof using Type.
  intros Hk ? ? ? Hp Hr ? Hs. eapply (client_kept f c); try done; rewrite ?Hp, ?Hr, ?Hs; apply Hk.
Qed.

Lemma PASV_fail_kept text fr s h : kept fr s h -> spec (cmd_PASV_fail text) (fun _ => kept fr) env s h.
Proof using Type.
  intros [Hok Hi]. apply wp_bind. apply (close_data_ok _ _ _ _ Hok). intros s' h' Hok' _ Hp.
  apply reply_kept. split; [done|]. unfold idle in *. lia.
Qed.

Lemma timeout_kept fd (f : Z -> M session unit) fr s h :
  kept fr s h -> (forall r s' h', kept fr s' h' -> s'.2 = s.2 -> spec (f r) (fun _ => kept fr) env s' h') ->
  spec (set_socket_timeout fd ≫= f) (fun _ => kept fr) env s h.
Proof using Type.
  destruct s as [fs c]. intros [Hok Hi] Hf. apply wp_bind. apply (set_timeout_ok _ _ _ _ _ _ Hok).
  intros r f' h' Hok'. by apply Hf.
Qed.

Lemma PASV_kept : keeps_session cmd_PASV_func.
Proof using Type.
  intros fr s h [Hok _]. apply wp_bind. apply (close_connection_ok _ _ _ _ Hok). intros [f c] h1 Hok1 Hc.
  apply wp_bind, wp_gets. wp_step. wp_step. apply wp_bind, wp_modify.
  assert (kept fr (f, set_data_sockfd a c) (Ev (sceNetSocket (data_socket_name (num c))) a :: h1)) as Hk
    by (split; [by apply socket_created|apply Hc]).
  cbn [fst snd]. destruct (a <? 0); [by apply reply_kept|].
  apply timeout_kept; [done|]. intros _ [f2 c2] h2 Hk2 _.
  kept_step. intros addr h3 _ Hk3. kept_step. intros port h4 _ Hk4.
  apply wp_bind, wp_modify. cbn [fst snd].
  apply (set_client_kept (set_data_sockaddr (SockaddrIn addr port))) in Hk4; [|done..].
  kept_step. intros r5 h5 _ Hk5. destruct (r5 <? 0); [by apply PASV_fail_kept|].
  kept_step. intros r6 h6 _ Hk6. destruct (r6 <? 0); [by apply PASV_fail_kept|].
  kept_step. intros [r7 picked] h7 _ Hk7. destruct (r7 <? 0); [by apply PASV_fail_kept|].
  apply wp_bind, wp_zoom, wp_gets. cbn [fst snd]. apply wp_bind.
  eapply wp_mono; [by apply reply_kept|]. intros [] [f8 c8] h8 Hk8. apply update_kept.
  by apply (set_client_kept (set_data_con_type FTP_DATA_CONNECTION_PASSIVE)).
Qed.

Lemma PORT_kept : keeps_session cmd_PORT_func.
Proof using Type.
  intros fr s h Hk. apply wp_bind, wp_gets. apply wp_bind.
  assert (exists r, ftpvita_parse_port_tuple (recv_cmd_args s.2) (Some (replicate 6 0)) = Done r) as [[ret tuple] E].
  { destruct (recv_cmd_args s.2) as [p|] eqn:E; [|by eexists].
    destruct (ok_args _ _ _ (proj1 Hk) p E) as (t & Ht & ?).
    destruct (parse_port_tuple_run p t (replicate 6 0) Ht) as (? & ? & _ & -> & _); [lia|done|by eexists]. }
  eapply wp_lift; [exact E|]. cbn beta iota. destruct (ret =? 0); [by apply reply_kept|]. cbv zeta.
  apply wp_bind. apply (close_connection_ok _ _ _ _ (proj1 Hk)). intros s1 h1 Hok1 Hc.
  neutral_step fr. intros addr h2 _ Hok2.
  destruct s1 as [f c]. apply wp_bind, wp_gets. wp_step. wp_step.
  apply wp_bind, wp_modify.
  assert (kept fr (f, set_data_sockfd a c) (Ev (sceNetSocket (data_socket_name (num c))) a :: h2)) as Hk2
    by (split; [by apply socket_created|apply Hc]).
  cbn [fst snd]. destruct (a <? 0); [by apply reply_kept|].
  apply timeout_kept; [done|]. intros _ [f3 c3] h3 Hk3 _.
  kept_step. intros port h4 _ Hk4.
  apply wp_bind, wp_modify. apply wp_bind, wp_modify. cbn [fst snd]. apply reply_kept.
  apply (set_client_kept (set_data_con_type FTP_DATA_CONNECTION_ACTIVE)); [|done..].
  by apply (set_client_kept (set_data_sockaddr (SockaddrIn addr port))).
Qed.

(** * LIST *)

Lemma gen_list_format_ok n dir stat nm Q fr s h :
  session_ok fr s h -> (forall text h', session_ok fr s h' -> Q text s h') ->
  spec (gen_list_format n dir stat nm) Q env s h.
Proof using Type.
  intros Hok HQ. unfold gen_list_format. neutral_step fr. intros year h' _ Hok'. cbv zeta. by apply wp_ret, HQ.
Qed.

Lemma list_devices_ok l Q fr s h :
  session_ok fr s h -> (forall r h', session_ok fr s h' -> Q r s h') -> spec (list_devices l) Q env s h.
Proof using Hio.
  intros Hok HQ. revert h Hok. induction l as [|d l IH]; intros h Hok; cbn [list_devices]; [by apply wp_ret, HQ|].
  destruct (valid d); [|by apply IH]. neutral_step fr. intros [r stat] h1 _ Hok1.
  destruct (0 <=? r); [|by apply IH].
  apply wp_bind. apply (gen_list_format_ok _ _ _ _ _ fr); [done|]. intros text h2 Hok2.
  apply wp_bind. apply (send_data_ok _ _ fr); [done|]. intros sent h3 Hok3.
  destruct (sent <? 0); [by apply wp_ret, HQ|by apply IH].
Qed.

(** The bound is enough, if it matters. *)
Definition ends (fuel : nat) (fr : frame) : Prop := nofuel \/ enough env fuel fr.

Lemma session_saw fr s h : session_ok (saw fr) s h -> session_ok fr s h.
Proof using Type. intros [? ? ? ? ? ? ? ? Hs]. split; try done. cbn in Hs. lia. Qed.

(** A directory entry: another of the loop calls, and not the last but one of them. *)
Lemma dread_ok fuel dir Q fr s h :
  ends (S fuel) fr -> session_ok fr s h ->
  (forall a h', session_ok (saw fr) s h' -> (0 < a.1 -> ends fuel (saw fr)) -> Q a s h') ->
  spec (sys (sceIoDread dir)) Q env s h.
Proof using Type.
  intros He Hok HQ. apply wp_sys. intros a Ha. apply HQ.
  - destruct Hok as [? Hh Hs ? ? ? ? ? Hseen]. split; try done. cbn [seen saw].
    change (loop_calls (Ev (sceIoDread dir) a :: h)) with (S (loop_calls h)). lia.
  - intros Hpos. destruct He as [|(k & Hk & Hf)]; [by left|]. right. exists k. split; [done|]. cbn [seen saw].
    destruct (decide (k <= loop_calls h)%nat) as [Hle|]; [|pose proof (ok_seen _ _ _ Hok); lia].
    pose proof (proj1 (Hk h Hle) dir) as Hd. rewrite <-Ha in Hd. cbn [answer] in *. lia.
Qed.

Lemma list_entries_ok fuel dir Q fr s h :
  ends fuel fr -> session_ok fr s h -> (forall r h', session_ok fr s h' -> Q r s h') ->
  spec (list_entries fuel dir) Q env s h.
Proof using Hio.
  intros Hn Hok HQ. revert fr h Hn Hok HQ. induction fuel as [|fuel IH]; intros fr h Hn Hok HQ; cbn [list_entries].
  { destruct Hn as [|(k & _ & ?)]; [done|lia]. }
  apply wp_bind. apply (dread_ok fuel _ _ fr); [done..|]. intros [r dirent] h1 Hok1 He.
  destruct (Z.ltb_spec 0 r) as [Hr|_]; [|by apply wp_ret, HQ, session_saw].
  apply wp_bind. apply (gen_list_format_ok _ _ _ _ _ (saw fr)); [done|]. intros text h2 Hok2.
  apply wp_bind. apply (send_data_ok _ _ (saw fr)); [done|]. intros sent h3 Hok3.
  destruct (sent <? 0); [by apply wp_ret, HQ, session_saw|].
  apply (IH (saw fr)); [by apply He|done|]. intros. by apply HQ, session_saw.
Qed.

Definition with_listing (dir : option Z) (fr : frame) : frame :=
  match dir with Some d => with_dir d fr | None => fr end.

Lemma list_over_ok fuel dir fr s h :
  ends fuel fr -> session_ok (with_listing dir (in_transfer fr)) s h -> idle s -> transfer_active (around fr) = 0 ->
  spec (list_over_data_connection fuel dir) (fun _ => ended fr) env s h.
Proof using Hio.
  intros Hn Hok Hi Ht. unfold list_over_data_connection.
  apply wp_bind. apply (open_connection_ok _ _ _ _ Hok Hi). intros r s1 h1 Hok1. destruct (r <? 0).
  - apply wp_bind. destruct dir as [d|]; cbn [with_listing] in Hok1.
    + apply wp_bind. apply (dclose_ok _ _ _ _ _ Hok1). intros _ h2 Hok2. apply wp_ret.
      by apply (close_reply_end_ok _ _ _ _ _ Hok2 Ht).
    + apply wp_ret. by apply (close_reply_end_ok _ _ _ _ _ Hok1 Ht).
  - apply wp_bind. apply (send_ctrl_ok _ _ _ _ _ Hok1). intros h2 Hok2.
    apply wp_bind. destruct dir as [d|]; cbn [with_listing] in Hok2.
    + apply wp_bind. apply (list_entries_ok fuel _ _ (with_dir d (in_transfer fr)) _ _ Hn Hok2). intros ok h3 Hok3.
      apply wp_bind. apply (dclose_ok _ _ _ _ _ Hok3). intros _ h4 Hok4. apply wp_ret.
      by apply (close_reply_end_ok _ _ _ _ _ Hok4 Ht).
    + destruct s1 as [f1 c1]. apply wp_bind, wp_zoom, wp_gets. apply (list_devices_ok _ _ _ _ _ Hok2). intros ok h3 Hok3.
      by apply (close_reply_end_ok _ _ _ _ _ Hok3 Ht).
Qed.

Lemma refuse_ok fr s h : kept fr s h -> spec refuse_transfer (fun _ => ended fr) env s h.
Proof using Type. intros [Hok _]. by apply (close_and_reply_ok _ _ _ _ _ Hok). Qed.

Lemma LIST_ended fuel fr s h : ends fuel fr -> kept fr s h -> spec (cmd_LIST_func fuel) (fun _ => ended fr) env s h.
Proof using Hio.
  intros Hn [Hok Hi]. apply wp_bind. apply (command_argument_ok _ _ _ _ Hok). intros argument _.
  apply wp_bind.
  assert (forall (b : bool) h', session_ok fr s h' -> spec
    (cur ← of_client cur_path; send_LIST fuel (if b then default [] argument else cur)) (fun _ => ended fr) env s h') as Hsend.
  { intros b h1 Hok1. apply wp_bind, wp_gets. set (path := if b then _ else _). clearbody path. unfold send_LIST.
    apply wp_bind. apply (begin_transfer_ok _ _ _ _ Hok1); [by apply refuse_ok|].
    intros s2 Ht Es Hok2. cbn [negb]. assert (idle s2) as Hi2 by (unfold idle in *; by rewrite Es).
    destruct (bool_decide (path = [SLASH])); [by apply list_over_ok|].
    apply wp_bind. apply (dopen_ok _ _ _ _ _ Hok2). intros d h3 Hok3. destruct (d <? 0).
    - by apply (close_reply_end_ok _ _ _ _ _ Hok3 Ht).
    - by apply list_over_ok. }
  destruct argument as [text|].
  - apply wp_bind. neutral_step fr. intros [r stat] h1 _ Hok1. apply wp_ret. by apply Hsend.
  - apply wp_ret. by apply (Hsend false).
Qed.

(** * RETR *)

Lemma last_net_errno_ok fr s failed h :
  session_ok fr s h -> session_ok fr s (last_net_errno env failed h).2.
Proof using Type. destruct failed; [|done]. intros Hok. by apply session_neutral. Qed.

Lemma run_retr_ok fd sockfd size start extent Q fr s h :
  0 <= size -> 0 <= start -> extent < 2 ^ 63 -> session_ok fr s h ->
  (forall r h', session_ok fr s h' -> Q r s h') ->
  spec (run_retr fd sockfd size start extent) Q env s h.
Proof using Type.
  intros Hs H0 He Hok HQ. unfold run_retr, run_spec.
  destruct (retr_ends (retr_read env fd) (retr_send env sockfd) (fun h => session_ok fr s h)) with (ctx := h)
    (buffer := replicate (Z.to_nat size) 0) (buffer_size := size) (start := start) (extent := extent)
    as (h' & r & E & Hok'); try done; try (rewrite length_replicate; lia).
  - intros h1 buffer asked _ Hok1. unfold retr_read. destruct (env h1 (sceIoRead fd asked)). by apply session_neutral.
  - intros h1 data asked Hok1. unfold retr_send. destruct (last_net_errno _ _ _) as [e h2] eqn:E. cbn [fst].
    apply (f_equal snd) in E. cbn [snd] in E. rewrite <-E. apply last_net_errno_ok. by apply session_neutral.
  - intros h1 buffer asked. unfold retr_read. destruct (env h1 (sceIoRead fd asked)). apply length_inserts.
  - rewrite E. by apply HQ.
Qed.

Lemma abandon_ok fd (buffer : bool) text fr s h :
  session_ok (if buffer then with_block (with_file fd (in_transfer fr)) else with_file fd (in_transfer fr)) s h ->
  transfer_active (around fr) = 0 -> spec (abandon fd buffer text) (fun _ => ended fr) env s h.
Proof using Type.
  intros Hok Ht. unfold abandon. destruct buffer; apply wp_bind.
  - apply (close_ok fd _ (with_block (in_transfer fr))); [exact Hok|]. intros _ h1 Hok1. apply wp_bind, wp_bind.
    apply (free_ok _ _ _ _ Hok1). intros _ h2 Hok2. apply wp_ret. by apply (close_reply_end_ok _ _ _ _ _ Hok2 Ht).
  - apply (close_ok _ _ _ _ _ Hok). intros _ h1 Hok1. apply wp_bind, wp_ret. by apply (close_reply_end_ok _ _ _ _ _ Hok1 Ht).
Qed.

(** The globals a transfer uses are in range. *)
Definition frame_ok (fr : frame) : Prop := 0 <= file_buf_size (around fr).

Lemma buf_size_ok fr s h : frame_ok fr -> session_ok (in_transfer fr) s h -> 0 <= file_buf_size s.1.
Proof using Type. intros Hf Hok. pose proof (f_equal file_buf_size (ok_server _ _ _ Hok)) as E. cbn in E. by rewrite E. Qed.

Lemma send_file_ended path fr s h :
  frame_ok fr -> kept fr s h -> spec (send_file path) (fun _ => ended fr) env s h.
Proof using Hio.
  destruct s as [f c]. intros Hf Hk. unfold send_file. apply wp_bind, wp_gets. apply wp_bind, wp_modify. cbn [fst snd].
  set (start := restore_point c). assert (0 <= start) as Hstart by apply Hk.
  assert (kept fr (f, set_restore_point 0 c) h) as [Hok Hi] by (eapply (client_kept f c); try done; apply Hk).
  clear Hk. generalize dependent (set_restore_point 0 c). clearbody start. clear c. intros c Hok Hi.
  apply wp_bind. apply (begin_transfer_ok _ _ _ _ Hok); [by apply refuse_ok|]. intros s1 Ht Es Hok1. cbn [negb].
  assert (idle s1) as Hi1 by (unfold idle in *; by rewrite Es).
  apply wp_bind. apply (open_ok _ _ _ _ _ _ _ Hok1). intros fd h2 Hok2. 
  destruct (Z.leb_spec 0 fd) as [Hfd|Hfd].
  2: { replace (fd <? 0) with true in Hok2 by lia. by apply (close_reply_end_ok _ _ _ _ _ Hok2 Ht). }
  replace (fd <? 0) with false in Hok2 by lia.
  neutral_step (with_file fd (in_transfer fr)). intros extent h3 He Hok3. pose proof (lseek_offset _ Hio h2 fd 0 SCE_SEEK_END).
  apply wp_bind.
  match goal with |- run_spec _ (if ?b then _ else _) ?Q _ _ _ =>
    assert (forall position h4, session_ok (with_file fd (in_transfer fr)) s1 h4 -> Q position s1 h4) as HQ end.
  2: { destruct (_ && _); [|by apply wp_ret, HQ]. neutral_step (with_file fd (in_transfer fr)). intros p h4 _. apply HQ. }
  intros position h4 Hok4. destruct (_ || _); [by apply abandon_ok|].
  destruct s1 as [f1 c1]. apply wp_bind, wp_zoom, wp_gets. cbn [fst snd].
  apply wp_bind. apply (malloc_ok _ _ _ _ _ Hok4). intros b h5 Hok5. destruct b; cbn [negb]; [|by apply abandon_ok].
  apply wp_bind. apply (open_connection_ok _ _ _ _ Hok5 Hi1). intros r s6 h6 Hok6.
  destruct (r <? 0); [by apply abandon_ok|].
  apply wp_bind. apply (send_ctrl_ok _ _ _ _ _ Hok6). intros h7 Hok7.
  apply wp_bind, wp_gets. apply wp_bind.
  apply (run_retr_ok _ _ _ _ _ _ (with_block (with_file fd (in_transfer fr))));
    [by apply (buf_size_ok fr (f1, c1) h)|done|lia|exact Hok7|].
  intros res h8 Hok8. apply wp_bind. apply (close_ok fd _ (with_block (in_transfer fr))); [exact Hok8|]. intros _ h9 Hok9.
  apply wp_bind. apply (free_ok _ _ _ _ Hok9). intros _ h10 Hok10.
  by apply (close_reply_end_ok _ _ _ _ _ Hok10 Ht).
Qed.

Lemma RETR_ended fr s h : frame_ok fr -> kept fr s h -> spec cmd_RETR_func (fun _ => ended fr) env s h.
Proof using Hio.
  intros Hf Hk. apply wp_bind. apply (full_path_ok _ fr); [apply Hk|]. intros. by apply send_file_ended.
Qed.

(** * STOR and APPE *)

Lemma errno_loop_calls failed h : loop_calls (last_net_errno env failed h).2 = loop_calls h.
Proof using Type. by destruct failed. Qed.

Lemma peer_ends k sockfd fd : loops_end env k ->
  peer_closes (store_receive env sockfd) (store_write env fd) (fun h => k - loop_calls h)%nat.
Proof using Type.
  intros Hk. split; [|done]. intros h buffer asked. unfold store_receive.
  destruct (env h (sceNetRecv sockfd asked)) as [n data] eqn:En. destruct (last_net_errno _ _ _) as [e h2] eqn:E.
  apply (f_equal snd) in E. cbn [snd] in E. rewrite <-E, errno_loop_calls. unfold Store.accepted. intros Hpos.
  change (loop_calls (_ :: h)) with (S (loop_calls h)).
  destruct (decide (k <= loop_calls h)%nat) as [Hle|]; [|lia].
  pose proof (proj2 (Hk h Hle) sockfd asked) as Hr. rewrite En in Hr. cbn [fst] in Hr.
  destruct (_ && _) eqn:Hn; lia.
Qed.

Lemma store_receive_keeps sockfd : Store.keeps_buffer (store_receive env sockfd).
Proof using Type.
  intros h buffer asked. unfold store_receive. destruct (env h (sceNetRecv sockfd asked)).
  destruct (last_net_errno _ _ _). apply length_inserts.
Qed.

Lemma run_store_fuel fuel sockfd fd size fr s h :
  ends fuel fr -> 0 <= size -> session_ok fr s h ->
  ftpvita_store_stream fuel h (Some (store_receive env sockfd)) (Some (store_write env fd))
    (Some (replicate (Z.to_nat size) 0)) size = NoFuel -> nofuel.
Proof using Type.
  intros [|(k & Hk & Hf)] Hs Hok; [done|]. unfold ftpvita_store_stream.
  destruct ((size =? 0) || (INT_MAX <? size)) eqn:Hsize; [done|]. intros E. exfalso. revert E.
  pose proof (ok_seen _ _ _ Hok).
  apply (stream_loop_closes _ _ (fun h => k - loop_calls h)%nat);
    [apply store_receive_keeps|by apply peer_ends|lia|lia|rewrite length_replicate; lia].
Qed.

Lemma run_store_ok fuel sockfd fd size Q fr s h :
  ends fuel fr -> 0 <= size -> session_ok fr s h -> (forall r h', session_ok fr s h' -> Q r s h') ->
  spec (run_store fuel sockfd fd size) Q env s h.
Proof using Type.
  intros Hn Hs Hok HQ. unfold run_store, run_spec.
  pose proof (run_store_fuel fuel sockfd fd size fr s h Hn Hs Hok) as Hfuel.
  pose proof (store_safe (store_receive env sockfd) (store_write env fd) (fun h => session_ok fr s h)) as Hsafe.
  specialize (Hsafe) with (fuel := fuel) (ctx := h) (buffer := replicate (Z.to_nat size) 0) (buffer_size := size).
  destruct (ftpvita_store_stream _ _ _ _ _ _) as [[h' r]| |]; [|destruct Hsafe|by apply Hfuel].
  1: apply HQ, Hsafe.
  all: try done; try apply store_receive_keeps; try (rewrite length_replicate; lia).
  all: intros h1 buffer asked; try intros Hok1; try (rename Hok1 into Hroom; intros Hok1); unfold store_receive, store_write.
  all: try (destruct (env h1 (sceNetRecv sockfd asked)) as [n data];
    destruct (last_net_errno _ _ _) as [e h2] eqn:E; cbn [fst snd];
    apply (f_equal snd) in E; cbn [snd] in E; try rewrite <-E).
  all: first [apply last_net_errno_ok; by apply session_neutral | by apply session_neutral].
Qed.

Lemma receive_file_ended fuel path fr s h :
  ends fuel fr -> frame_ok fr -> kept fr s h -> spec (receive_file fuel path) (fun _ => ended fr) env s h.
Proof using Hio.
  intros Hn Hf [Hok Hi]. unfold receive_file.
  apply wp_bind. apply (begin_transfer_ok _ _ _ _ Hok); [by apply refuse_ok|]. intros s1 Ht Es Hok1. cbn [negb].
  assert (idle s1) as Hi1 by (unfold idle in *; by rewrite Es). destruct s1 as [f1 c1].
  apply wp_bind, wp_gets. apply wp_bind. apply (open_ok _ _ _ _ _ _ _ Hok1). intros fd h2 Hok2.
  destruct (Z.leb_spec 0 fd) as [Hfd|Hfd].
  2: { replace (fd <? 0) with true in Hok2 by lia. by apply (close_reply_end_ok _ _ _ _ _ Hok2 Ht). }
  replace (fd <? 0) with false in Hok2 by lia.
  apply wp_bind, wp_zoom, wp_gets. cbn [fst snd].
  apply wp_bind. apply (malloc_ok _ _ _ _ _ Hok2). intros b h5 Hok5. destruct b; cbn [negb]; [|by apply abandon_ok].
  apply wp_bind. apply (open_connection_ok _ _ _ _ Hok5 Hi1). intros r s6 h6 Hok6.
  destruct (r <? 0); [by apply abandon_ok|].
  apply wp_bind. apply (send_ctrl_ok _ _ _ _ _ Hok6). intros h7 Hok7.
  apply wp_bind, wp_gets. apply wp_bind.
  apply (run_store_ok _ _ _ _ _ (with_block (with_file fd (in_transfer fr)))); [done|by apply (buf_size_ok fr (f1, c1) h)|exact Hok7|].
  intros res h8 Hok8. apply wp_bind. apply (close_ok fd _ (with_block (in_transfer fr))); [exact Hok8|]. intros _ h9 Hok9.
  apply wp_bind. apply (free_ok _ _ _ _ Hok9). intros _ h10 Hok10.
  destruct s6 as [f6 c6]. apply wp_bind, wp_modify. cbn [fst snd].
  assert (session_ok (in_transfer fr) (f6, set_restore_point 0 c6) h10) as Hok11 by client_step Hok10.
  by apply (reply_close_end_ok _ _ _ _ _ Hok11 Ht).
Qed.

Lemma STOR_ended fuel fr s h : ends fuel fr -> frame_ok fr -> kept fr s h -> spec (cmd_STOR_func fuel) (fun _ => ended fr) env s h.
Proof using Hio.
  intros Hn Hf Hk. apply wp_bind. apply (full_path_ok _ fr); [apply Hk|]. intros. by apply receive_file_ended.
Qed.

Lemma APPE_ended fuel fr s h : ends fuel fr -> frame_ok fr -> kept fr s h -> spec (cmd_APPE_func fuel) (fun _ => ended fr) env s h.
Proof using Hio.
  destruct s as [f c]. intros Hn Hf Hk. apply wp_bind, wp_modify. cbn [fst snd].
  assert (kept fr (f, set_restore_point (u32 (-1)) c) h) as Hk' by (eapply (client_kept f c); try done; apply Hk).
  apply wp_bind. apply (full_path_ok _ fr); [apply Hk'|]. intros. by apply receive_file_ended.
Qed.
End safe.

(** * An example session

    A client at the root asks for the file [ux0:/a.txt] of three bytes, over an
    active data connection prepared on socket 5. *)

Definition demo_file : bytes := lit "abc".

(** The peer sends the bytes of the file once, then closes. *)
Definition received_before (e : event) : bool :=
  match ev_call e with sceNetRecv _ _ => true | _ => false end.

Definition demo_net : environment := fun h c =>
  match c return answer c with
  | sceNetSend _ data | sceIoWrite _ data => Z.min (Z.of_nat (length data)) INT_MAX
  | sceNetRecv _ len =>
      let data := if existsb received_before h then [] else take (Z.to_nat len) demo_file in (Z.of_nat (length data), data)
  | sceNetAccept _ => (6, SockaddrIn 0 0)
  | sceNetGetsockname _ => (0, SockaddrIn 0 0)
  | sceIoGetstat path => (match path with Some _ => 0 | NULL => -1 end, empty_stat)
  | sceIoOpen _ _ _ => 7
  | sceIoRead _ len => let data := take (Z.to_nat len) demo_file in (Z.of_nat (length data), data)
  | sceIoLseek _ offset whence => if whence =? 2 then Z.of_nat (length demo_file) else Z.min offset 3
  | sceIoDread _ => (0, IoDirent [] empty_stat)
  | malloc _ => true
  | sceAppMgrGetNameById _ | sceNetCtlInetGetInfo => (0, [])
  | sceNetCtlInetGetState | sceNetCtlInetRegisterCallback => (0, 0)
  | taiGetModuleInfo _ => (0, TaiModuleInfo 0 0)
  | sceKernelGetModuleInfo _ => (0, [])
  | inflate _ _ => (0, 0, [])
  | _ => 0
  end.

Lemma demo_net_ok : ftp_io_ok demo_net.
Proof. split; intros; cbn [demo_net]; [lia|done|]. destruct (whence =? 2); [done|lia]. Qed.

Definition demo_client : client :=
  Client 0 4 5 FTP_DATA_CONNECTION_ACTIVE (SockaddrIn 0 0) (SockaddrIn 0 0) (-1) 0 []
    (Some (lit "ux0:/a.txt" ++ [CR; LF; NUL])) [SLASH] [] false 0.
Definition demo_session : session := (set_file_buf_size 8 ftp_initial, demo_client).
Definition demo_history : history := [Ev (sceNetSocket (lit "data")) 5; Ev (sceNetAccept 3) (4, SockaddrIn 0 0)].
Definition demo_frame : frame := Frame demo_session.1 4 (Held [] [] 0 0) [4] 0.

Lemma demo_kept : @kept demo_sdk demo_frame demo_session demo_history.
Proof.
  split; [|done]. split; try done; [apply path_ok_root|].
  intros p [= <-]. exists (lit "ux0:/a.txt" ++ [CR; LF]). done.
Qed.

(** * All the commands *)

Definition listing_or_upload : list bytes := [lit "LIST"; lit "STOR"; lit "APPE"].
Definition transfers : list bytes := lit "RETR" :: listing_or_upload.

Lemma builtin_commands_kept `{Sdk} env fuel nm f fr s h :
  ftp_io_ok env -> frame_ok fr -> In (nm, f) (cmd_dispatch_table fuel) -> kept fr s h ->
  run_spec (nm ∈ listing_or_upload /\ ~ enough env fuel fr) f
    (fun _ s' h' => kept fr s' h' /\ (nm ∈ transfers -> closed s')) env s h.
Proof.
  intros Hio Hf Hin Hk.
  set (post := fun nm (_ : unit) s' h' => kept fr s' h' /\ (nm ∈ transfers -> closed s')).
  set (spec := fun nm m => run_spec (nm ∈ listing_or_upload /\ ~ enough env fuel fr) m (post nm) env s h).
  assert (forall P nm (m : M session unit), run_spec P m (fun _ => ended fr) env s h -> run_spec P m (post nm) env s h) as Hended.
  { intros P n m Hm. eapply wp_mono; [exact Hm|]. intros ? s' h' He. split; [by apply ended_kept|]. intros _. apply He. }
  assert (forall nm (m : M session unit), bool_decide (nm ∈ transfers) = false ->
    wp m (fun _ => kept fr) env s h -> spec nm m) as Hkept.
  { intros n m Hn%bool_decide_eq_false_1 Hm. apply wp_any. eapply wp_mono; [exact Hm|]. done. }
  assert (forall nm (m : M session unit), bool_decide (nm ∈ listing_or_upload) = true ->
    (forall P : Prop, @ends env P fuel fr -> run_spec P m (fun _ => ended fr) env s h) -> spec nm m) as Hloop.
  { intros n m Hn%bool_decide_eq_true_1 Hm.
    apply (run_spec_weaken (~ enough env fuel fr)); [done|]. apply run_spec_unless.
    - apply Hended, Hm. by left.
    - intros He. apply Hended, Hm. by right. }
  enough (Forall (fun p => spec p.1 p.2) (cmd_dispatch_table fuel)) as HF
    by (rewrite List.Forall_forall in HF; exact (HF (nm, f) Hin)).
  unfold cmd_dispatch_table. repeat (apply Forall_cons; split); [..|by apply Forall_nil_2]; cbn [fst snd].
  - apply Hkept; [done|]. by apply NOOP_kept.
  - apply Hkept; [done|]. by apply USER_kept.
  - apply Hkept; [done|]. by apply PASS_kept.
  - apply Hkept; [done|]. by apply QUIT_kept.
  - apply Hkept; [done|]. by apply SYST_kept.
  - apply Hkept; [done|]. by apply PASV_kept.
  - apply Hkept; [done|]. by apply PORT_kept.
  - apply Hloop; [done|]. intros. by apply LIST_ended.
  - apply Hkept; [done|]. by apply PWD_kept.
  - apply Hkept; [done|]. by apply CWD_kept.
  - apply Hkept; [done|]. by apply TYPE_kept.
  - apply Hkept; [done|]. by apply CDUP_kept.
  - apply wp_any, Hended. by apply RETR_ended.
  - apply Hloop; [done|]. intros. by apply STOR_ended.
  - apply Hkept; [done|]. by apply DELE_kept.
  - apply Hkept; [done|]. by apply RMD_kept.
  - apply Hkept; [done|]. by apply MKD_kept.
  - apply Hkept; [done|]. by apply RNFR_kept.
  - apply Hkept; [done|]. by apply RNTO_kept.
  - apply Hkept; [done|]. by apply SIZE_kept.
  - apply Hkept; [done|]. by apply REST_kept.
  - apply Hkept; [done|]. by apply FEAT_kept.
  - apply Hkept; [done|]. by apply OPTS_kept.
  - apply Hloop; [done|]. intros. by apply APPE_ended.
Qed.

(** * Properties *)

(** C1: every built-in command keeps the session, for every answer of the SDK within
    its contract.  From a session between commands, with any argument, a command
    reaches no undefined behaviour (no path buffer overflows, no null or empty path
    is dereferenced), closes every file and directory and frees every block it
    opened or allocated, leaks no socket (the open sockets are those of before and
    at most one prepared data socket), leaves the control socket, the globals and the
    transfer flag alone, keeps the current directory an absolute path that fits, and
    it ends: LIST, STOR and APPE as soon as the bound is above the number of entries
    and receives the directory and the peer go on for, the other commands always.
    After RETR, LIST, STOR and APPE the data connection is closed. *)
Theorem builtin_commands_keep_session `{Sdk} env fuel nm f fr s h :
  ftp_io_ok env -> frame_ok fr -> In (nm, f) (cmd_dispatch_table fuel) -> kept fr s h ->
  run_spec (nm ∈ listing_or_upload /\ ~ enough env fuel fr) f
    (fun _ s' h' => kept fr s' h' /\ (nm ∈ transfers -> closed s')) env s h.
Proof. apply builtin_commands_kept. Qed.

Lemma builtin_commands_keep_session_witness :
  exists s' h', @cmd_RETR_func demo_sdk demo_net demo_session demo_history = Done (tt, s', h') /\
    @holds demo_sdk h' = Held [] [] 0 0 /\ sockets h' = [4] /\ @closed s'.
Proof.
  pose proof (@builtin_commands_keep_session demo_sdk demo_net 0 (lit "RETR") (@cmd_RETR_func demo_sdk) demo_frame
    demo_session demo_history demo_net_ok ltac:(done) ltac:(do 12 right; by left) demo_kept) as Hrun.
  unfold run_spec in Hrun.
  destruct (@cmd_RETR_func demo_sdk demo_net demo_session demo_history) as [[[[] s'] h']| |] eqn:E;
    [|destruct Hrun|vm_compute in E; discriminate E].
  destruct Hrun as [[Hok _] Hclosed]. exists s', h'. split; [reflexivity|]. split; [apply Hok|].
  assert (closed s') as Hc by (apply Hclosed; by left).
  split; [|exact Hc]. by rewrite (closed_sockets demo_frame s' h' Hok Hc).
Defined.
