(* ===== verification/FtpTransfer.v ===== *)
(** What the FTP transfers move: RETR, STOR and APPE from the opening of the file to
    the reply, in terms of the calls of the run.  The bytes a run moved through a
    descriptor are read off its history, so the theorems need no observer in the
    program. *)

From S2P Require Import Prelude System FtpState FtpParse Retr Store FtpCmds FtpSafe.

(** The calls of the two loops. *)
Definition transfer_call (fd sockfd : Z) (c : call) : Prop :=
  match c with
  | sceIoRead fd' _ | sceIoWrite fd' _ => fd' = fd
  | sceNetSend fd' _ | sceNetRecv fd' _ => fd' = sockfd
  | sceNetErrnoLoc => True
  | _ => False
  end.

(** * The loops in terms of the history *)

Lemma s32_count n asked : count_ok n asked -> s32 n = n.
Proof. intros [? _]. apply s32_small. unfold INT_MAX in *. lia. Qed.

Lemma accepted_count n asked : count_ok n asked -> Z.to_nat (Retr.accepted asked n) = Z.to_nat n.
Proof.
  intros Hn. unfold Retr.accepted. rewrite (s32_count n asked Hn). destruct Hn as [_ Hn]. destruct (_ && _) eqn:E; lia.
Qed.

Lemma store_accepted asked n : Store.accepted asked n = Retr.accepted asked n.
Proof. done. Qed.

(** What was stored at the start of the buffer. *)
Lemma take_store_answer n asked data buffer :
  count_ok n asked -> asked <= Z.of_nat (length buffer) -> length data = Z.to_nat n ->
  take (Z.to_nat (Retr.accepted asked n)) (store_answer n data buffer) = take (Z.to_nat n) data.
Proof.
  intros Hn Ha Hd. rewrite (accepted_count n asked Hn). unfold store_answer. destruct Hn as [_ Hn].
  rewrite <-Hd, firstn_all. rewrite inserts_0 by lia. by rewrite take_app_length.
Qed.

(** What was offered, up to what was accepted. *)
Lemma take_accepted_offer n asked (data : bytes) :
  count_ok n (Z.of_nat (length (take (Z.to_nat asked) data))) ->
  take (Z.to_nat (Retr.accepted asked n)) data = take (Z.to_nat n) (take (Z.to_nat asked) data).
Proof.
  intros Hn. assert (count_ok n asked) as Hn'.
  { destruct Hn as [? Hn]. split; [done|]. rewrite length_take in Hn. lia. }
  rewrite (accepted_count n asked Hn'). destruct Hn as [_ Hn]. rewrite length_take in Hn.
  rewrite take_take. f_equal. lia.
Qed.

Section loops.
Context `{Sdk} (env : environment) (Hcounts : io_counts env) (fd sockfd : Z).

(** What a log of a run from [h0] says of its history. *)
Definition logs (into out : event -> bytes) (h0 : history) (ctx : history * bytes * bytes) : Prop :=
  let '(h, first, second) := ctx in
  exists es, h = es ++ h0 /\ Forall (fun e => transfer_call fd sockfd (ev_call e)) es /\
    first = moved into es /\ second = moved out es.

(** One more call, which moved [b1] in and [b2] out. *)
Lemma logs_cons into out h0 h b1 b2 e :
  logs into out h0 (h, b1, b2) -> transfer_call fd sockfd (ev_call e) ->
  logs into out h0 (e :: h, b1 ++ into e, b2 ++ out e).
Proof using Type.
  intros (es & -> & Hes & -> & ->) He. exists (e :: es). split_and!; [done|by constructor|done..].
Qed.

Lemma logs_cons_nothing into out h0 h b1 b2 e :
  logs into out h0 (h, b1, b2) -> transfer_call fd sockfd (ev_call e) -> into e = [] -> out e = [] ->
  logs into out h0 (e :: h, b1, b2).
Proof using Type.
  intros Hl He Hi Ho. apply (logs_cons _ _ _ _ _ _ e) in Hl; [|done]. by rewrite Hi, Ho, !app_nil_r in Hl.
Qed.

Lemma logs_errno into out h0 h b1 b2 failed :
  (forall a, into (Ev sceNetErrnoLoc a) = [] /\ out (Ev sceNetErrnoLoc a) = []) ->
  logs into out h0 (h, b1, b2) -> logs into out h0 ((last_net_errno env failed h).2, b1, b2).
Proof using Type.
  intros He Hl. destruct failed; [|done]. cbn. destruct (He (env h sceNetErrnoLoc)). by apply logs_cons_nothing.
Qed.

Lemma retr_read_logs h0 ctx buffer asked :
  asked <= Z.of_nat (length buffer) -> logs (read_bytes fd) (sent_bytes sockfd) h0 ctx ->
  logs (read_bytes fd) (sent_bytes sockfd) h0 (logged_read (retr_read env fd) ctx buffer asked).1.1.
Proof using All.
  destruct ctx as [[h rd] sn]. intros Ha Hl. unfold logged_read, retr_read.
  pose proof (read_count _ Hcounts h fd asked) as Hc. destruct (env h (sceIoRead fd asked)) as [n data] eqn:E.
  destruct Hc as [Hn Hd]. cbn [fst]. rewrite (take_store_answer n asked data buffer Hn Ha Hd).
  apply (logs_cons _ _ _ _ _ _ (Ev (sceIoRead fd asked) (n, data))) in Hl; [|done].
  cbn [read_bytes sent_bytes] in Hl. by rewrite Z.eqb_refl, app_nil_r in Hl.
Qed.

Lemma retr_send_logs h0 ctx data asked :
  logs (read_bytes fd) (sent_bytes sockfd) h0 ctx ->
  logs (read_bytes fd) (sent_bytes sockfd) h0 (logged_send (retr_send env sockfd) ctx data asked).1.1.
Proof using All.
  destruct ctx as [[h rd] sn]. intros Hl. unfold logged_send, retr_send. cbn zeta.
  set (pending := take (Z.to_nat asked) data).
  pose proof (send_count _ Hcounts h sockfd pending) as Hn.
  destruct (last_net_errno _ _ _) as [e h2] eqn:E. apply (f_equal snd) in E. cbn [snd] in E. cbn [fst].
  rewrite (take_accepted_offer _ _ _ Hn). rewrite <-E. apply logs_errno; [done|].
  apply (logs_cons _ _ _ _ _ _ (Ev (sceNetSend sockfd pending) (env h (sceNetSend sockfd pending)))) in Hl; [|done].
  cbn [read_bytes sent_bytes] in Hl. by rewrite Z.eqb_refl, app_nil_r in Hl.
Qed.

Lemma logs_initial into out h : logs into out h (h, [], []).
Proof using Type. by exists []. Qed.

(** What the loop of a download did. *)
Definition downloaded (length_ : Z) (r : ftpvita_retr_result_t) (es : history) : Prop :=
  Forall (fun e => transfer_call fd sockfd (ev_call e)) es /\
  moved (sent_bytes sockfd) es `prefix_of` moved (read_bytes fd) es /\
  Z.of_nat (length (moved (read_bytes fd) es)) <= length_ /\
  (Retr.stage r = Retr.complete ->
     moved (sent_bytes sockfd) es = moved (read_bytes fd) es /\ Z.of_nat (length (moved (read_bytes fd) es)) = length_).

Lemma run_retr_moves size start extent s h :
  0 < size <= INT_MAX -> 0 <= start <= extent -> extent < 2 ^ 63 ->
  wp (run_retr fd sockfd size start extent)
    (fun r s' h' => s' = s /\ exists es, h' = es ++ h /\ downloaded (extent - start) r es) env s h.
Proof using All.
  intros Hsize Hse He. unfold run_retr, run_spec.
  assert (Retr.keeps_buffer (retr_read env fd)) as Hkeep.
  { intros h1 buffer asked. unfold retr_read. destruct (env h1 (sceIoRead fd asked)). apply length_inserts. }
  rewrite (retr_logged_view (retr_read env fd) (retr_send env sockfd) h [] []).
  destruct (retr_run (retr_read env fd) (retr_send env sockfd) h (replicate (Z.to_nat size) 0) size start extent)
    as (h' & rd & sn & r & E & _ & _ & Hl & Hp & Hst); [first [done | rewrite length_replicate; lia]..|].
  rewrite E. run. cbn [fst snd app] in *. split; [done|].
  assert (logs (read_bytes fd) (sent_bytes sockfd) h (h', rd, sn)) as (es & -> & Hes & -> & ->).
  { revert E. unfold ftpvita_retr_extent. destruct (_ || _); [by intros [= <- <- <- _]; apply logs_initial|].
    apply extent_loop_inv; [intros; by apply retr_read_logs|intros; by apply retr_send_logs|apply logs_initial]. }
  exists es. split; [done|]. split_and!; [done..|]. intros Hcomplete. rewrite Hcomplete in Hst.
  destruct Hst as (? & ? & _). done.
Qed.

Lemma store_receive_logs h0 ctx buffer asked :
  asked <= Z.of_nat (length buffer) -> logs (received_bytes sockfd) (written_bytes fd) h0 ctx ->
  logs (received_bytes sockfd) (written_bytes fd) h0 (logged_receive (store_receive env sockfd) ctx buffer asked).1.1.1.
Proof using All.
  destruct ctx as [[h rc] wr]. intros Ha Hl. unfold logged_receive, store_receive.
  pose proof (recv_count _ Hcounts h sockfd asked) as Hc. destruct (env h (sceNetRecv sockfd asked)) as [n data] eqn:E.
  destruct Hc as [Hn Hd]. destruct (last_net_errno _ _ _) as [e h2] eqn:E2. apply (f_equal snd) in E2. cbn [snd] in E2.
  cbn [fst]. rewrite store_accepted, (take_store_answer n asked data buffer Hn Ha Hd). rewrite <-E2. apply logs_errno; [done|].
  apply (logs_cons _ _ _ _ _ _ (Ev (sceNetRecv sockfd asked) (n, data))) in Hl; [|done].
  cbn [received_bytes written_bytes] in Hl. by rewrite Z.eqb_refl, app_nil_r in Hl.
Qed.

Lemma store_write_logs h0 ctx data asked :
  logs (received_bytes sockfd) (written_bytes fd) h0 ctx ->
  logs (received_bytes sockfd) (written_bytes fd) h0 (logged_write (store_write env fd) ctx data asked).1.
Proof using All.
  destruct ctx as [[h rc] wr]. intros Hl. unfold logged_write, store_write. cbn zeta.
  set (pending := take (Z.to_nat asked) data).
  pose proof (write_count _ Hcounts h fd pending) as Hn. cbn [fst].
  rewrite store_accepted, (take_accepted_offer _ _ _ Hn).
  apply (logs_cons _ _ _ _ _ _ (Ev (sceIoWrite fd pending) (env h (sceIoWrite fd pending)))) in Hl; [|done].
  cbn [received_bytes written_bytes] in Hl. by rewrite Z.eqb_refl, app_nil_r in Hl.
Qed.

(** The last receive brought nothing: the peer has sent everything. *)
Definition ends_stream (es : history) : Prop :=
  exists asked data before, es = Ev (sceNetRecv sockfd asked) (0, data) :: before.

Lemma run_store_last fuel size s h r s' h' :
  0 < size <= INT_MAX -> run_store fuel sockfd fd size env s h = Done (r, s', h') -> Store.stage r = Store.complete ->
  exists es, ends_stream es /\ h' = es ++ h.
Proof using Hcounts.
  intros Hsize. unfold run_store, ftpvita_store_stream.
  destruct (_ || _) eqn:Hbad; [unfold INT_MAX in *; lia|].
  destruct (stream_loop _ _ _ _ _ _ _) as [[h1 r1]| |] eqn:E; [|done..]. intros [= <- <- <-] Hc.
  apply (stream_loop_last _ _ (fun h1 => exists es, h1 = es ++ h)) in E as (h0 & b0 & b1 & n & e & [es ->] & E & Hn);
    [|intros ctx b asked [es ->]; unfold store_receive; destruct (env _ _) as [m d]; cbn; destruct (m <? 0); [by eexists (_ :: _ :: _)|by eexists (_ :: _)]
     |intros ctx b asked [es ->]; by eexists (_ :: _)|by exists []|done]. unfold store_receive in E.
  pose proof (recv_count _ Hcounts (es ++ h) sockfd size) as Hcount. destruct (env (es ++ h) (sceNetRecv sockfd size)) as [m data].
  destruct Hcount as [Hcount _]. destruct (last_net_errno _ _ _) as [e' h2] eqn:E2. injection E as <- <- <- <-.
  assert (m = 0) as -> by by rewrite <-(s32_count m size). cbn in E2. injection E2 as <- <-.
  exists (Ev (sceNetRecv sockfd size) (0, data) :: es). split; [by eexists _, _, _|done].
Qed.

(** What the loop of an upload did. *)
Definition uploaded (r : ftpvita_store_result_t) (es : history) : Prop :=
  Forall (fun e => transfer_call fd sockfd (ev_call e)) es /\
  moved (written_bytes fd) es `prefix_of` moved (received_bytes sockfd) es /\
  (Store.stage r = Store.complete -> moved (written_bytes fd) es = moved (received_bytes sockfd) es /\ ends_stream es).

Lemma run_store_moves fuel size s h :
  0 < size <= INT_MAX ->
  wlp (run_store fuel sockfd fd size)
    (fun r s' h' => s' = s /\ exists es, h' = es ++ h /\ uploaded r es) env s h.
Proof using All.
  intros Hsize. pose proof (run_store_last fuel size s h) as Hlast. unfold run_store, run_spec in *.
  assert (Store.keeps_buffer (store_receive env sockfd)) as Hkeep.
  { intros h1 buffer asked. unfold store_receive. destruct (env h1 (sceNetRecv sockfd asked)).
    destruct (last_net_errno _ _ _). apply length_inserts. }
  rewrite (store_logged_view (store_receive env sockfd) (store_write env fd) fuel h [] []) in *.
  pose proof (store_safe (logged_receive (store_receive env sockfd)) (logged_write (store_write env fd))
    (logs (received_bytes sockfd) (written_bytes fd) h)
    (fun ctx buffer asked => store_receive_logs h ctx buffer asked)
    (fun ctx data asked => store_write_logs h ctx data asked) fuel (h, [], []) (replicate (Z.to_nat size) 0) size) as Hsafe.
  destruct (store_run (store_receive env sockfd) (store_write env fd) fuel h (replicate (Z.to_nat size) 0) size)
    as [E|(h' & rc & wr & r & E & _ & _ & Hp & _ & Hst)]; [first [done | rewrite length_replicate; lia]..| |].
  { by rewrite E. }
  rewrite E in *. revert Hlast. run. intros Hlast. cbn [fst snd app] in *. split; [done|].
  destruct Hsafe as (es & -> & Hes & -> & ->); [|lia|rewrite length_replicate; lia|apply logs_initial|].
  { intros [[h1 rc1] wr1] buffer asked. unfold logged_receive. specialize (Hkeep h1 buffer asked).
    by destruct (store_receive env sockfd h1 buffer asked) as [[[h2 b2] n2] e2]. }
  exists es. split; [done|]. split_and!; [done..|]. intros Hc. rewrite Hc in Hst. split; [apply Hst|].
  destruct (Hlast _ _ _ Hsize eq_refl Hc) as (es' & Hends & E2%app_inv_tail). by rewrite E2.
Qed.
End loops.

(** * RETR *)

(** What a step that only closes, opens or replies does. *)
Definition quiet (s : session) (h : history) (s' : session) (h' : history) : Prop :=
  restore_point s'.2 = restore_point s.2 /\ ctrl_sockfd s'.2 = ctrl_sockfd s.2 /\ exists es, h' = es ++ h.

Lemma quiet_trans s h s1 h1 s2 h2 : quiet s h s1 h1 -> quiet s1 h1 s2 h2 -> quiet s h s2 h2.
Proof.
  intros (Hr & Hc & es & ->) (Hr' & Hc' & es' & ->). split_and!; [congruence..|]. exists (es' ++ es). by rewrite app_assoc.
Qed.

Lemma quiet_refl s h : quiet s h s h.
Proof. split_and!; [done..|]. by exists []. Qed.

(** The closing of a data connection. *)
Definition hang_up (es : history) : Prop := Forall (fun e => exists fd, ev_call e = sceNetSocketClose fd) es.

(** The opening of the data connection of [c] on [sockfd]: the connection to the peer
    of a PORT, or the peer that a PASV accepted, and its options. *)
Definition connection_opened (c : client) (sockfd : Z) (es : history) : Prop :=
  if decide (data_con_type c = FTP_DATA_CONNECTION_ACTIVE) then
    sockfd = data_sockfd c /\ exists r : Z, 0 <= r /\ es = [Ev (sceNetConnect sockfd (data_sockaddr c)) r]
  else
    0 <= sockfd /\ exists peer options, es = options ++ [Ev (sceNetAccept (data_sockfd c)) (sockfd, peer)] /\
      Forall (fun e => exists option value, ev_call e = sceNetSetsockopt sockfd option value) options.

(** The history once the connection was opened and the [greeting] of the transfer sent. *)
Definition transfer_begun (c : client) (sockfd : Z) (greeting : bytes) (h h' : history) : Prop :=
  exists opening a, h' = Ev (sceNetSend (ctrl_sockfd c) greeting) a :: opening ++ h /\ connection_opened c sockfd opening.

Section replies.
Context `{Sdk} (env : environment).

Lemma send_quiet text s h :
  wp (client_send_ctrl_msg text) (fun _ s' h' => s' = s /\ exists a, h' = Ev (sceNetSend (ctrl_sockfd s.2) text) a :: h) env s h.
Proof using Type. unfold client_send_ctrl_msg. wp_steps. split; [done|by eexists]. Qed.

Lemma close_quiet s h :
  wp client_close_data_connection (fun _ s' h' => quiet s h s' h' /\ last_sent h' = last_sent h /\
    exists es, h' = es ++ h /\ hang_up es) env s h.
Proof using Type.
  assert (forall es s', restore_point s'.2 = restore_point s.2 -> ctrl_sockfd s'.2 = ctrl_sockfd s.2 -> hang_up es ->
    last_sent (es ++ h) = last_sent h ->
    quiet s h s' (es ++ h) /\ last_sent (es ++ h) = last_sent h /\ exists es', es ++ h = es' ++ h /\ hang_up es') as Hend
    by (intros es s' ? ? ? ?; split_and!; [split_and!; [done..|by exists es]|done|by exists es]).
  unfold client_close_data_connection, close_data_socket, close_pasv_socket, set_client, of_client. destruct s as [f c].
  wp_steps; cbn [fst snd].
  - apply (Hend [_; _]); [done..|by repeat econstructor|done].
  - apply (Hend [_]); [done..|by repeat econstructor|done].
  - apply (Hend [_]); [done..|by repeat econstructor|done].
  - apply (Hend []); [done..|by constructor|done].
Qed.

Lemma close_reply_end_run text s h :
  wp (client_close_data_connection;; client_send_ctrl_msg text;; end_transfer)
    (fun _ s' h' => quiet s h s' h' /\ exists a closing,
       h' = Ev (sceNetSend (ctrl_sockfd s.2) text) a :: closing ++ h /\ hang_up closing) env s h.
Proof using Type.
  apply wp_bind. eapply wp_mono; [apply close_quiet|]. intros _ s1 h1 (Hq & _ & es & -> & Hes).
  apply wp_bind. eapply wp_mono; [apply send_quiet|]. intros _ s2 h2 [-> [a ->]].
  apply wp_zoom, wp_modify. split.
  - eapply quiet_trans; [exact Hq|]. split_and!; [done..|]. by exists [Ev (sceNetSend (ctrl_sockfd s1.2) text) a].
  - destruct Hq as (_ & -> & _). by eexists _, es.
Qed.

Lemma close_reply_end_quiet text s h :
  wp (client_close_data_connection;; client_send_ctrl_msg text;; end_transfer)
    (fun _ s' h' => quiet s h s' h' /\ last_sent h' = Some (ctrl_sockfd s.2, text)) env s h.
Proof using Type. eapply wp_mono; [apply close_reply_end_run|]. by intros _ s' h' [Hq (a & es & -> & _)]. Qed.

Lemma abandon_quiet fd b text s h :
  wp (abandon fd b text) (fun _ s' h' => quiet s h s' h' /\ last_sent h' = Some (ctrl_sockfd s.2, text)) env s h.
Proof using Type.
  unfold abandon. wp_step. wp_step. destruct b; wp_step; [wp_step; wp_step; wp_step|wp_step].
  - eapply wp_mono; [apply close_reply_end_quiet|]. intros _ s' h' [Hq Hl]. split; [|done].
    eapply quiet_trans; [|exact Hq]. split_and!; [done..|]. by exists [Ev (free true) a0; Ev (sceIoClose fd) a].
  - eapply wp_mono; [apply close_reply_end_quiet|]. intros _ s' h' [Hq Hl]. split; [|done].
    eapply quiet_trans; [|exact Hq]. split_and!; [done..|]. by exists [Ev (sceIoClose fd) a].
Qed.

Lemma refuse_quiet s h :
  wp refuse_transfer (fun _ s' h' => quiet s h s' h' /\
    last_sent h' = Some (ctrl_sockfd s.2, msg "425 Another FTP transfer is active.")) env s h.
Proof using Type.
  apply wp_bind. eapply wp_mono; [apply close_quiet|]. intros _ s1 h1 (Hq & _ & _).
  eapply wp_mono; [apply send_quiet|]. intros _ s2 h2 [-> [a ->]]. split.
  - eapply quiet_trans; [exact Hq|]. split_and!; [done..|]. by exists [Ev (sceNetSend (ctrl_sockfd s1.2) (msg "425 Another FTP transfer is active.")) a].
  - cbn [last_sent]. destruct Hq as (_ & -> & _). done.
Qed.

Lemma timeout_run fd s h :
  wp (set_socket_timeout fd) (fun _ s' h' => quiet s h s' h' /\ s'.2 = s.2 /\ exists es, h' = es ++ h /\
    Forall (fun e => exists option value, ev_call e = sceNetSetsockopt fd option value) es) env s h.
Proof using Type.
  assert (forall es f', Forall (fun e => exists option value, ev_call e = sceNetSetsockopt fd option value) es ->
    quiet s h (f', s.2) (es ++ h) /\ (f', s.2).2 = s.2 /\ exists es', es ++ h = es' ++ h /\
      Forall (fun e => exists option value, ev_call e = sceNetSetsockopt fd option value) es') as Hend
    by (intros es f' ?; split_and!; [split_and!; [done..|by exists es]|done|by exists es]).
  unfold set_socket_timeout, on_server, configure_socket_io_timeout. apply wp_zoom. destruct s as [f c]. cbn [fst snd] in *.
  wp_steps; [apply (Hend []); by constructor|apply (Hend [_; _]); by repeat econstructor..].
Qed.

Lemma open_run s h :
  wp client_open_data_connection (fun r s' h' => quiet s h s' h' /\
    (0 <= r -> exists opening, h' = opening ++ h /\ connection_opened s.2 (data_socket s'.2) opening)) env s h.
Proof using Type.
  destruct s as [f c]. unfold client_open_data_connection, of_client, set_client, id.
  wp_steps; cbn [fst snd] in *.
  - split; [apply quiet_refl|lia].
  - rename a into r. assert (data_con_type c = FTP_DATA_CONNECTION_ACTIVE) as Ec by by eapply bool_decide_eq_true_1.
    split; [split_and!; [done..|by eexists [_]]|]. intros Hr. eexists [_]. split; [done|].
    unfold connection_opened, data_socket. cbn [fst snd]. rewrite !decide_True by done. split; [done|]. by exists r.
  - assert (data_con_type c <> FTP_DATA_CONNECTION_ACTIVE) as Ec by by eapply bool_decide_eq_false_1.
    eapply wp_mono; [apply timeout_run|]. intros ? [f' c'] h' (Hq & Ec' & es & -> & Hes). cbn [snd] in Ec'. subst c'. apply wp_ret.
    split; [eapply quiet_trans; [|exact Hq]; split_and!; [done..|by eexists [_]]|]. intros Hr.
    eexists (es ++ [_]). split; [by rewrite <-app_assoc|].
    unfold connection_opened, data_socket. cbn. rewrite !decide_False by done. split; [case_match; lia|]. eauto.
Qed.

Lemma open_quiet s h : wp client_open_data_connection (fun _ => quiet s h) env s h.
Proof using Type. eapply wp_mono; [apply open_run|]. by intros ? ? ? [? _]. Qed.

Definition completed_reply : bytes := msg "226 Transfer completed.".
Definition transfer_greeting : bytes := msg "150 Opening Image mode data transfer.".

(** The whole run of a download: the file is opened, its end and then the position of
    [start] are found and nothing moves it but the reads, the connection of [c] is
    opened, and every byte from there to the end is read and sent. *)
Definition delivered (c : client) (path : ptr bytes) (start : Z) (h h' : history) : Prop :=
  exists fd extent size sockfd h1 transfer closing sent freed closed,
    transfer_begun c sockfd transfer_greeting
      (Ev (malloc size) true :: Ev (sceIoLseek fd start SCE_SEEK_SET) start ::
       Ev (sceIoLseek fd 0 SCE_SEEK_END) extent :: Ev (sceIoOpen path SCE_O_RDONLY 511) fd :: h) h1 /\
    Forall (fun e => transfer_call fd sockfd (ev_call e)) transfer /\
    moved (sent_bytes sockfd) transfer = moved (read_bytes fd) transfer /\
    Z.of_nat (length (moved (read_bytes fd) transfer)) = extent - start /\
    hang_up closing /\
    h' = Ev (sceNetSend (ctrl_sockfd c) completed_reply) sent :: closing ++
         Ev (free true) freed :: Ev (sceIoClose fd) closed :: transfer ++ h1.

Lemma seek_reply_fails start extent position : seek_reply start extent position <> completed_reply.
Proof using Type. intros E%(f_equal head). discriminate E. Qed.

Lemma retr_reply_fails r start extent : retr_reply r start extent = completed_reply -> Retr.stage r = Retr.complete.
Proof using Type.
  unfold retr_reply. destruct (bool_decide_reflect (Retr.stage r = Retr.complete)) as [|]; [done|].
  intros E%(f_equal head). discriminate E.
Qed.

Lemma store_reply_fails r : store_reply r = completed_reply -> Store.stage r = Store.complete.
Proof using Type.
  unfold store_reply. destruct (bool_decide_reflect (Store.stage r = Store.complete)) as [|]; [done|].
  intros E%(f_equal head). discriminate E.
Qed.
End replies.

Section transfers.
Context `{Sdk} (env : environment) (Hio : ftp_io_ok env) (Hcounts : io_counts env).

(** A refusal or a failure: the last reply is not the one of a complete transfer. *)
Lemma failed_reply {A} (m : C A) (text : bytes) (P : history -> Prop) s h s1 h1 :
  wp m (fun _ s' h' => quiet s1 h1 s' h' /\ last_sent h' = Some (ctrl_sockfd s1.2, text)) env s1 h1 ->
  quiet s h s1 h1 -> text <> completed_reply ->
  wp m (fun _ s' h' => restore_point s'.2 = restore_point s.2 /\
    (last_sent h' = Some (ctrl_sockfd s.2, completed_reply) -> P h')) env s1 h1.
Proof using Type.
  intros Hm Hq1 Ht. eapply wp_mono; [exact Hm|]. intros ? s' h' [Hq Hl].
  destruct (quiet_trans _ _ _ _ _ _ Hq1 Hq) as (Hr & Hc & _). split; [done|]. rewrite Hl. intros [= _ ?]. done.
Qed.

Lemma begin_rule {nofuel : Prop} (Q : bool -> session -> history -> Prop) s h :
  Q false s h -> Q true (set_transfer_active 1 s.1, s.2) h ->
  run_spec nofuel (on_server client_begin_transfer) Q env s h.
Proof using Type.
  destruct s as [f c]. intros Hf Ht. apply wp_zoom. unfold run_spec. cbn [fst snd]. rewrite begin_transfer_run.
  by destruct (_ && _).
Qed.

Lemma quiet_call s h c a s' : restore_point s'.2 = restore_point s.2 -> ctrl_sockfd s'.2 = ctrl_sockfd s.2 ->
  quiet s h s' (Ev c a :: h).
Proof using Type. intros ? ?. split_and!; [done..|]. by exists [Ev c a]. Qed.

(** What [send_file] does with the file open, in position and a buffer allocated. *)
Lemma send_open_file path fd size start extent c s0 h0 s :
  let h := Ev (malloc size) true :: Ev (sceIoLseek fd start SCE_SEEK_SET) start :: Ev (sceIoLseek fd 0 SCE_SEEK_END) extent ::
           Ev (sceIoOpen path SCE_O_RDONLY 511) fd :: h0 in
  0 < size <= INT_MAX -> 0 <= start <= extent -> extent < 2 ^ 63 -> s.2 = c -> quiet s0 h0 s h ->
  wp (opened ← client_open_data_connection;
      if opened <? 0 then abandon fd true (msg "425 Can't open data connection.")
      else
        client_send_ctrl_msg transfer_greeting;;
        sockfd ← of_client data_socket;
        result ← run_retr fd sockfd size start extent;
        sys (sceIoClose fd);; sys (free true);; client_close_data_connection;;
        client_send_ctrl_msg (retr_reply result start extent);; end_transfer)
    (fun _ s' h' => restore_point s'.2 = restore_point s0.2 /\
      (last_sent h' = Some (ctrl_sockfd s0.2, completed_reply) -> delivered c path start h0 h')) env s h.
Proof using Hcounts.
  intros h Hsize Hstart Hext <- Hq. pose proof Hq as (_ & Hc0 & _).
  apply wp_bind. eapply wp_mono; [apply open_run|]. intros r s5 h5 [Hq5 Hopened].
  assert (quiet s0 h0 s5 h5) as Hq5' by (by eapply quiet_trans).
  destruct (Z.ltb_spec r 0) as [|Hr]. { by eapply failed_reply; [apply abandon_quiet|..]. }
  destruct (Hopened Hr) as (opening & -> & Hconnected). destruct Hq5 as (_ & Hc5 & _).
  apply wp_bind. eapply wp_mono; [apply send_quiet|]. intros _ s6 h6 [-> [a6 ->]].
  apply wp_bind, wp_gets. apply wp_bind. eapply wp_mono; [by apply (run_retr_moves env Hcounts)|].
  intros res s7 h7 [-> (es & -> & Hes & _ & _ & Hdone)]. do 4 wp_step.
  eapply wp_mono; [apply close_reply_end_run|]. intros _ s' h' [(Hrp & _) (sent & closing & -> & Hclosing)].
  destruct Hq5' as (Hr5 & _). split; [congruence|]. cbn [last_sent]. intros [= _ Hrep%retr_reply_fails].
  destruct (Hdone Hrep) as [Heq Hlen].
  exists fd, extent, size, (data_socket s5.2), (Ev (sceNetSend (ctrl_sockfd s.2) transfer_greeting) a6 :: opening ++ h), es, closing, sent, a0, a.
  split_and!; [eexists _, _; split; [reflexivity|exact Hconnected]|done..|]. unfold retr_reply. rewrite bool_decide_eq_true_2 by done.
  by rewrite Hc5.
Qed.

Lemma send_file_delivers path s h :
  0 < file_buf_size s.1 <= INT_MAX -> 0 <= restore_point s.2 ->
  wp (send_file path) (fun _ s' h' => restore_point s'.2 = 0 /\
    (last_sent h' = Some (ctrl_sockfd s.2, completed_reply) -> delivered s.2 path (restore_point s.2) h h')) env s h.
Proof using All.
  destruct s as [f c]. intros Hsize Hstart. unfold send_file. apply wp_bind, wp_gets. apply wp_bind, wp_modify.
  cbn [fst snd] in *. set (start := restore_point c) in *. set (c0 := set_restore_point 0 c). set (s0 := (f, c0)).
  change (delivered c path) with (delivered s0.2 path).
  change (run_spec False ?m (fun _ s' h' => _ /\ (_ -> ?P h')) env s0 h) with
    (wp m (fun _ s' h' => restore_point s'.2 = restore_point s0.2 /\
       (last_sent h' = Some (ctrl_sockfd s0.2, completed_reply) -> P h')) env s0 h).
  apply wp_bind. apply begin_rule; cbn [negb].
  { eapply failed_reply; [apply refuse_quiet|apply quiet_refl|done]. }
  set (s := (set_transfer_active 1 s0.1, s0.2)). assert (quiet s0 h s h) as Hq0 by (split_and!; [done..|by exists []]).
  change f with s0.1 in Hsize. change (file_buf_size s0.1) with (file_buf_size s.1) in Hsize.
  assert (s.2 = s0.2) as Es by done. clearbody s s0.
  do 2 wp_step. rename a into fd. pose proof (quiet_call s h (sceIoOpen path SCE_O_RDONLY 511) fd s eq_refl eq_refl) as Hq1.
  destruct (0 <=? fd) eqn:Hfd.
  2: { eapply failed_reply; [apply close_reply_end_quiet|by eapply quiet_trans|done]. }
  do 2 wp_step. rename a into extent.
  match goal with E : extent = _ |- _ => pose proof (lseek_offset _ Hio (Ev (sceIoOpen path SCE_O_RDONLY 511) fd :: h) fd 0 SCE_SEEK_END) as Hext; rewrite <-E in Hext end.
  apply wp_bind. destruct ((0 <=? extent) && (start <=? extent)) eqn:Hrange.
  2: { wp_step. replace ((extent <? 0) || (extent <? start) || negb (-1 =? start)) with true by lia.
       eapply failed_reply; [apply abandon_quiet| |apply seek_reply_fails]. eapply quiet_trans; [exact Hq0|].
       eapply quiet_trans; [exact Hq1|]. by apply quiet_call. }
  wp_step. rename a into position.
  set (h3 := Ev (sceIoLseek fd start SCE_SEEK_SET) position :: Ev (sceIoLseek fd 0 SCE_SEEK_END) extent ::
             Ev (sceIoOpen path SCE_O_RDONLY 511) fd :: h).
  assert (quiet s0 h s h3) as Hq3.
  { destruct Hq0 as (? & ? & _). split_and!; [done..|]. by eexists [_; _; _]. }
  destruct ((extent <? 0) || (extent <? start) || negb (position =? start)) eqn:Hbad.
  { eapply failed_reply; [apply abandon_quiet|exact Hq3|apply seek_reply_fails]. }
  assert (position = start) as -> by lia.
  destruct s as [f1 c1]. apply wp_bind, wp_zoom, wp_gets. cbn [fst snd] in *. do 2 wp_step. rename a into b.
  destruct b; cbn [negb].
  2: { eapply failed_reply; [apply abandon_quiet| |done]. eapply quiet_trans; [exact Hq3|]. by apply quiet_call. }
  apply (send_open_file path fd (file_buf_size f1) start extent s0.2 s0 h); [done|lia|done|done|].
  eapply quiet_trans; [exact Hq3|]. by apply quiet_call.
Qed.

(** The whole run of an upload: the file is opened, at its end if the upload resumes
    and empty otherwise, the connection of [c] is opened, and every byte received until
    the peer closes is written. *)
Definition stored (c : client) (path : ptr bytes) (resume : bool) (h h' : history) : Prop :=
  exists fd size sockfd h1 transfer closing sent freed closed,
    transfer_begun c sockfd transfer_greeting
      (Ev (malloc size) true ::
       Ev (sceIoOpen path (Z.lor (Z.lor SCE_O_CREAT SCE_O_RDWR) (if resume then SCE_O_APPEND else SCE_O_TRUNC)) 511) fd :: h) h1 /\
    Forall (fun e => transfer_call fd sockfd (ev_call e)) transfer /\
    moved (written_bytes fd) transfer = moved (received_bytes sockfd) transfer /\ ends_stream sockfd transfer /\
    hang_up closing /\
    h' = closing ++ Ev (sceNetSend (ctrl_sockfd c) completed_reply) sent ::
         Ev (free true) freed :: Ev (sceIoClose fd) closed :: transfer ++ h1.

Lemma reply_close_end_quiet text s h :
  wp (client_send_ctrl_msg text;; client_close_data_connection;; end_transfer)
    (fun _ s' h' => quiet s h s' h' /\ last_sent h' = Some (ctrl_sockfd s.2, text) /\ exists a closing,
       h' = closing ++ Ev (sceNetSend (ctrl_sockfd s.2) text) a :: h /\ hang_up closing) env s h.
Proof using Type.
  apply wp_bind. eapply wp_mono; [apply send_quiet|]. intros _ s2 h2 [-> [a ->]].
  apply wp_bind. eapply wp_mono; [apply close_quiet|]. intros _ s1 h1 (Hq & Hl & es & -> & Hes).
  apply wp_zoom, wp_modify. split_and!; [eapply quiet_trans; [by apply quiet_call|exact Hq]|exact Hl|]. by exists a, es.
Qed.

Lemma failed_wlp {A} (m : C A) (text reply : bytes) (P : session -> history -> Prop) s h s1 h1 :
  wp m (fun _ s' h' => quiet s1 h1 s' h' /\ last_sent h' = Some (ctrl_sockfd s1.2, text)) env s1 h1 ->
  quiet s h s1 h1 -> text <> reply ->
  wlp m (fun _ s' h' => last_sent h' = Some (ctrl_sockfd s.2, reply) -> P s' h') env s1 h1.
Proof using Type.
  intros Hm Hq1 Ht. apply wp_any. eapply wp_mono; [exact Hm|]. intros ? s' h' [Hq Hl]. rewrite Hl. intros [= _ ?]. done.
Qed.

(** What [receive_file] does with the file open and a buffer allocated. *)
Lemma receive_open_file fuel path fd size (resume : bool) c s0 h0 s :
  let h := Ev (malloc size) true ::
    Ev (sceIoOpen path (Z.lor (Z.lor SCE_O_CREAT SCE_O_RDWR) (if resume then SCE_O_APPEND else SCE_O_TRUNC)) 511) fd :: h0 in
  0 < size <= INT_MAX -> s.2 = c -> quiet s0 h0 s h ->
  wlp (opened ← client_open_data_connection;
      if opened <? 0 then abandon fd true (msg "425 Can't open data connection.")
      else
        client_send_ctrl_msg transfer_greeting;;
        sockfd ← of_client data_socket;
        result ← run_store fuel sockfd fd size;
        sys (sceIoClose fd);; sys (free true);;
        set_client (set_restore_point 0);;
        client_send_ctrl_msg (store_reply result);;
        client_close_data_connection;; end_transfer)
    (fun _ s' h' => last_sent h' = Some (ctrl_sockfd s0.2, completed_reply) ->
      stored c path resume h0 h' /\ restore_point s'.2 = 0) env s h.
Proof using Hcounts.
  intros h Hsize <- Hq. pose proof Hq as (_ & Hc0 & _).
  apply wp_bind. eapply wp_mono; [apply wp_any, open_run|]. intros r s5 h5 [Hq5 Hopened].
  assert (quiet s0 h0 s5 h5) as Hq5' by (by eapply quiet_trans).
  destruct (Z.ltb_spec r 0) as [|Hr]. { by eapply failed_wlp; [apply abandon_quiet|..]. }
  destruct (Hopened Hr) as (opening & -> & Hconnected). destruct Hq5 as (_ & Hc5 & _).
  apply wp_bind. eapply wp_mono; [apply wp_any, send_quiet|]. intros _ s6 h6 [-> [a6 ->]].
  apply wp_bind, wp_gets. apply wp_bind. eapply wp_mono; [by apply (run_store_moves env Hcounts)|].
  intros res s7 h7 [-> (es & -> & Hes & _ & Hdone)]. do 4 wp_step. destruct s5 as [f5 c5]. apply wp_bind, wp_modify. cbn [fst snd] in *.
  eapply wp_mono; [apply wp_any, reply_close_end_quiet|]. intros _ s' h' [(Hrp & _) (Hl & sent & closing & -> & Hclosing)].
  rewrite Hl. cbn [snd] in *. change (ctrl_sockfd (set_restore_point 0 c5)) with (ctrl_sockfd c5).
  intros [= _ Hrep%store_reply_fails]. split; [|exact Hrp]. destruct (Hdone Hrep) as [Heq Hlast].
  exists fd, size, (data_socket c5), (Ev (sceNetSend (ctrl_sockfd s.2) transfer_greeting) a6 :: opening ++ h), es, closing, sent, a0, a.
  split_and!; [eexists _, _; split; [reflexivity|exact Hconnected]|done..|]. unfold store_reply. rewrite bool_decide_eq_true_2 by done.
  by rewrite Hc5.
Qed.

Lemma receive_file_stores fuel path s h :
  0 < file_buf_size s.1 <= INT_MAX ->
  wlp (receive_file fuel path) (fun _ s' h' =>
    last_sent h' = Some (ctrl_sockfd s.2, completed_reply) ->
    stored s.2 path (negb (restore_point s.2 =? 0)) h h' /\ restore_point s'.2 = 0) env s h.
Proof using Hcounts.
  intros Hsize. unfold receive_file. apply wp_bind, begin_rule; cbn [negb].
  { eapply failed_wlp; [apply refuse_quiet|apply quiet_refl|done]. }
  set (s1 := (set_transfer_active 1 s.1, s.2)). assert (quiet s h s1 h) as Hq0 by (split_and!; [done..|by exists []]).
  change (file_buf_size s.1) with (file_buf_size s1.1) in Hsize. change (restore_point s.2) with (restore_point s1.2).
  assert (s1.2 = s.2) as Es by done. clearbody s1. apply wp_bind, wp_gets. cbv zeta.
  set (resume := negb (restore_point s1.2 =? 0)). do 2 wp_step. rename a into fd.
  match goal with E : fd = env h ?c |- _ => assert (quiet s h s1 (Ev c fd :: h)) as Hq1
    by (eapply quiet_trans; [exact Hq0|by apply quiet_call]) end.
  destruct (0 <=? fd). 2: { by eapply failed_wlp; [apply close_reply_end_quiet|..]. }
  destruct s1 as [f1 c1]. apply wp_bind, wp_zoom, wp_gets. cbn [fst snd] in *. do 2 wp_step. rename a into b.
  assert (forall a, quiet s h (f1, c1) (Ev (malloc (file_buf_size f1)) a :: Ev (sceIoOpen path
    (Z.lor (Z.lor SCE_O_CREAT SCE_O_RDWR) (if resume then SCE_O_APPEND else SCE_O_TRUNC)) 511) fd :: h)) as Hq2
    by (intros; eapply quiet_trans; [exact Hq1|by apply quiet_call]).
  destruct b; cbn [negb]. 2: { eapply failed_wlp; [apply abandon_quiet|apply Hq2|done]. }
  apply (receive_open_file fuel path fd (file_buf_size f1) resume s.2 s h); [done|done|apply Hq2].
Qed.
End transfers.

(** * Properties *)

Lemma demo_counts : io_counts demo_net.
Proof.
  split; intros; cbn [demo_net]; unfold count_ok, INT_MAX; cbv zeta; try (split_and!; lia).
  - pose proof (length_take_le (demo_file) (Z.to_nat len)). split_and!; [lia|..]; rewrite length_take; cbn in *; lia.
  - destruct (existsb _ h); [cbn; lia|]. rewrite length_take. cbn. lia.
Qed.

(** C5: a RETR that reports success delivered the file. When the last thing
    [send_file] sent is [226 Transfer completed], its run is, in this order: the file
    is opened at the path, its end is found, it is put in position at the restore
    point, a buffer is allocated, the client's data connection is opened and the
    transfer announced; then nothing but transfer calls, in which the bytes the peer
    accepted on that connection are exactly the bytes read from the file, and there
    are [extent - restore_point] of them; then the file, the buffer and the connection
    are given up. On every path, success or not, the restore point is consumed, and
    the command ends. *)
Theorem retr_delivers_file `{Sdk} env path s h :
  ftp_io_ok env -> io_counts env -> 0 < file_buf_size s.1 <= INT_MAX -> 0 <= restore_point s.2 ->
  wp (send_file path) (fun _ s' h' => restore_point s'.2 = 0 /\
    (last_sent h' = Some (ctrl_sockfd s.2, completed_reply) -> delivered s.2 path (restore_point s.2) h h')) env s h.
Proof. intros Hio Hcounts. by apply send_file_delivers. Qed.

Lemma retr_delivers_file_witness :
  exists s' h', @send_file demo_sdk (Some (lit "ux0:/a.txt")) demo_net demo_session [] = Done (tt, s', h') /\
    @delivered demo_sdk demo_session.2 (Some (lit "ux0:/a.txt")) 0 [] h'.
Proof.
  pose proof (@retr_delivers_file demo_sdk demo_net (Some (lit "ux0:/a.txt")) demo_session [] demo_net_ok demo_counts
    ltac:(unfold INT_MAX; cbn; lia) ltac:(cbn; lia)) as Hrun.
  unfold run_spec in Hrun.
  destruct (@send_file demo_sdk (Some (lit "ux0:/a.txt")) demo_net demo_session []) as [[[[] s'] h']| |] eqn:E;
    [|destruct Hrun|destruct Hrun].
  exists s', h'. split; [reflexivity|]. destruct Hrun as [_ Hdelivered]. apply Hdelivered.
  vm_compute in E. injection E as <- <-. vm_compute. reflexivity.
Defined.

(** C6: a STOR or APPE that reports success stored everything. When the last thing
    [receive_file] sent is [226 Transfer completed], its run is, in this order: the file
    is opened at the path, to append when a restore point was set and truncated
    otherwise, a buffer is allocated, the client's data connection is opened and the
    transfer announced; then nothing but transfer calls, in which the bytes written to
    the file are exactly, in order, the bytes received on that connection, up to the
    receive that says the peer has closed it; then the file, the buffer and the
    connection are given up. The restore point is cleared. *)
Theorem stor_stores_stream `{Sdk} env fuel path s h :
  io_counts env -> 0 < file_buf_size s.1 <= INT_MAX ->
  wlp (receive_file fuel path) (fun _ s' h' =>
    last_sent h' = Some (ctrl_sockfd s.2, completed_reply) ->
    stored s.2 path (negb (restore_point s.2 =? 0)) h h' /\ restore_point s'.2 = 0) env s h.
Proof. intros Hcounts. by apply receive_file_stores. Qed.

Lemma stor_stores_stream_witness :
  exists s' h', @receive_file demo_sdk 3 (Some (lit "ux0:/b.txt")) demo_net demo_session [] = Done (tt, s', h') /\
    @stored demo_sdk demo_session.2 (Some (lit "ux0:/b.txt")) false [] h' /\ moved (written_bytes 7) h' = demo_file.
Proof.
  pose proof (@stor_stores_stream demo_sdk demo_net 3 (Some (lit "ux0:/b.txt")) demo_session [] demo_counts
    ltac:(unfold INT_MAX; cbn; lia)) as Hrun.
  unfold run_spec in Hrun.
  destruct (@receive_file demo_sdk 3 (Some (lit "ux0:/b.txt")) demo_net demo_session []) as [[[[] s'] h']| |] eqn:E;
    [|destruct Hrun|vm_compute in E; discriminate E].
  exists s', h'. split; [reflexivity|]. vm_compute in E. injection E as <- <-. split; [|vm_compute; reflexivity].
  apply Hrun. vm_compute. reflexivity.
Defined.
