(* ===== verification/FtpList.v ===== *)
(** What LIST sends: the lines on the data connection, in terms of the directory
    entries and the devices the run asked the file system for. *)

From S2P Require Import Prelude System FtpState FtpParse Retr Store FtpCmds FtpSafe FtpTransfer.

(** * The listing in a history *)

(** What an event says of a file: an entry of a directory, or a device that exists. *)
Definition described (e : event) : option (bool * SceIoStat * bytes) :=
  let 'Ev c a := e in
  match c return answer c -> option (bool * SceIoStat * bytes) with
  | sceIoDread _ => fun '(r, d) => if 0 <? r then Some (st_isdir (d_stat d), d_stat d, d_name d) else None
  | sceIoGetstat (Some name) => fun '(r, stat) => if 0 <=? r then Some (true, stat, name) else None
  | _ => fun _ => None
  end a.

(** The files a run was told of, the oldest first. *)
Definition files_told (h : history) : list (bool * SceIoStat * bytes) := omap described (reverse h).

(** What the clock said, the oldest first. *)
Definition clock_of (e : event) : option Z :=
  let 'Ev c a := e in
  match c return answer c -> option Z with sceRtcGetCurrentClockLocalTime => fun year => Some year | _ => fun _ => None end a.
Definition years_read (h : history) : list Z := omap clock_of (reverse h).

(** The listing: a line for each file, with the year the clock said. *)
Definition file_line (year : Z) (file : bool * SceIoStat * bytes) : bytes :=
  let '(dir, stat, filename) := file in list_line 512 year dir stat filename.
Definition is_listing (text : bytes) (h : history) : Prop :=
  length (years_read h) = length (files_told h) /\ text = concat (zip_with file_line (years_read h) (files_told h)).

(** The devices a run asked for, the oldest first. *)
Fixpoint devices_asked (h : history) : list bytes :=
  match h with
  | [] => []
  | Ev (sceIoGetstat (Some name)) _ :: h => devices_asked h ++ [name]
  | _ :: h => devices_asked h
  end.

(** The calls of the two loops: [file] are those that ask for files. *)
Definition list_call (file : call -> Prop) (sockfd : Z) (c : call) : Prop :=
  match c with
  | sceRtcGetCurrentClockLocalTime => True
  | sceNetSend fd _ => fd = sockfd
  | _ => file c
  end.

Definition reads_dir (dir : Z) (c : call) : Prop := c = sceIoDread dir.
Definition asks_device (c : call) : Prop := exists name, c = sceIoGetstat (Some name).

Lemma files_app es es' : files_told (es ++ es') = files_told es' ++ files_told es.
Proof. unfold files_told. by rewrite reverse_app, omap_app. Qed.

Lemma files_cons e es : files_told (e :: es) = files_told es ++ files_told [e].
Proof. exact (files_app [e] es). Qed.

Lemma years_app es es' : years_read (es ++ es') = years_read es' ++ years_read es.
Proof. unfold years_read. by rewrite reverse_app, omap_app. Qed.

Lemma years_cons e es : years_read (e :: es) = years_read es ++ years_read [e].
Proof. exact (years_app [e] es). Qed.

Lemma is_listing_app text text' es es' : is_listing text es -> is_listing text' es' -> is_listing (text' ++ text) (es ++ es').
Proof.
  intros [Hl ->] [Hl' ->]. split; rewrite files_app, years_app; [rewrite !length_app; lia|].
  by rewrite zip_with_app, concat_app.
Qed.

Lemma devices_app es es' : devices_asked (es ++ es') = devices_asked es' ++ devices_asked es.
Proof.
  induction es as [|[c a] es IH]; cbn [devices_asked app]; [by rewrite app_nil_r|].
  destruct c; try done. destruct path; [|done]. by rewrite IH, app_assoc.
Qed.

(** Sends on the data connection add no line and ask for no device. *)
Definition only_sends (sockfd : Z) (es : history) : Prop := Forall (fun e => exists data, ev_call e = sceNetSend sockfd data) es.

Lemma sends_quiet sockfd es : only_sends sockfd es ->
  files_told es = [] /\ years_read es = [] /\ devices_asked es = [] /\ forall file, Forall (fun e => list_call file sockfd (ev_call e)) es.
Proof.
  intros Hes. split_and!.
  - induction Hes as [|[c a] es [data Hd] _ IH]; [done|]. cbn in Hd. subst c. by rewrite files_cons, IH.
  - induction Hes as [|[c a] es [data Hd] _ IH]; [done|]. cbn in Hd. subst c. by rewrite years_cons, IH.
  - induction Hes as [|[c a] es [data Hd] _ IH]; [done|]. cbn in Hd. subst c. exact IH.
  - intros file. eapply Forall_impl; [exact Hes|]. intros e [data ->]. done.
Qed.

Section listing.
Context `{Sdk} (env : environment) (Hcounts : io_counts env).

Lemma send_all_sends fuel sockfd text s h :
  (length text < fuel)%nat ->
  wp (send_all fuel sockfd text) (fun r s' h' => s' = s /\ exists es, h' = es ++ h /\ only_sends sockfd es /\
    (0 <= r -> moved (sent_bytes sockfd) es = text)) env s h.
Proof using Hcounts.
  revert text h. induction fuel as [|fuel IH]; intros text h Hf; [lia|]. cbn [send_all].
  destruct text as [|x text]; [apply wp_ret; split; [done|]; exists []; by repeat constructor|]. set (t := x :: text) in *.
  do 2 wp_step. rename a into sent.
  match goal with E : sent = _ |- _ => pose proof (send_count _ Hcounts h sockfd t) as Hn; rewrite <-E in Hn end.
  destruct Hn as [_ Hn]. destruct (sent <=? 0) eqn:Hs.
  - apply wp_ret. split; [done|]. exists [Ev (sceNetSend sockfd t) sent]. split_and!; [done|by repeat econstructor|].
    destruct (sent <? 0) eqn:?; lia.
  - destruct (Z.of_nat (length t) <? sent) eqn:Hle; [lia|].
    eapply wp_mono; [apply IH; rewrite length_drop; cbn [length t] in *; lia|].
    intros r s' h' (-> & es & -> & Hes & Hr). split; [done|].
    exists (es ++ [Ev (sceNetSend sockfd t) sent]). split_and!; [by rewrite <-app_assoc| |].
    + apply Forall_app. split; [done|]. by repeat econstructor.
    + intros Hr0. rewrite moved_app, (Hr Hr0). cbn [moved sent_bytes app]. rewrite Z.eqb_refl. apply take_drop.
Qed.

(** Files were described, and if all went well their lines were sent. *)
Definition sends_listing (file : call -> Prop) (sockfd : Z) (ok : bool) (es : history) : Prop :=
  Forall (fun e => list_call file sockfd (ev_call e)) es /\ (ok = true -> is_listing (moved (sent_bytes sockfd) es) es).

(** One line: the call that described the file, [e], then the clock and the sends. *)
Lemma line_sent {nofuel : Prop} file e dir stat filename (k : Z -> C bool) Q s h :
  described e = Some (dir, stat, filename) -> clock_of e = None ->
  list_call file (data_socket s.2) (ev_call e) -> sent_bytes (data_socket s.2) e = [] ->
  (forall sent es, devices_asked es = [] -> sends_listing file (data_socket s.2) (0 <=? sent) (es ++ [e]) ->
     run_spec nofuel (k sent) Q env s (es ++ e :: h)) ->
  run_spec nofuel (buffer ← gen_list_format 512 dir stat filename; sent ← client_send_data_msg buffer; k sent) Q env s (e :: h).
Proof using Hcounts.
  intros Hd Hc Hl He HQ. unfold gen_list_format. do 4 wp_step. rename a into year. apply wp_bind.
  unfold client_send_data_msg, client_send_all. apply wp_bind, wp_gets.
  eapply wp_mono; [apply wp_any, send_all_sends; lia|]. intros sent s' h' (-> & es & -> & Hes & Hsent).
  destruct (sends_quiet _ _ Hes) as (Hfiles & Hyears & Hdev & Hcall).
  specialize (HQ sent (es ++ [Ev sceRtcGetCurrentClockLocalTime year])). rewrite <-!app_assoc in HQ. cbn [app] in HQ.
  apply HQ; [by rewrite devices_app, Hdev|]. split.
  - apply Forall_app. split; [apply Hcall|]. constructor; [exact I|]. by constructor.
  - intros Hok. unfold is_listing. rewrite files_app, years_app, Hfiles, Hyears, moved_app, Hsent by lia.
    unfold files_told, years_read. cbn. rewrite He, Hd, Hc. cbn. split; [done|by rewrite app_nil_r].
Qed.

Lemma sends_listing_nil file sockfd ok : sends_listing file sockfd ok [].
Proof using Type. by repeat constructor. Qed.

Lemma sends_listing_app file sockfd ok es es' :
  sends_listing file sockfd ok es -> sends_listing file sockfd ok es' -> sends_listing file sockfd ok (es ++ es').
Proof using Type.
  intros (Hc & Hm) (Hc' & Hm'). split; [by apply Forall_app|]. intros Hok. rewrite moved_app. apply is_listing_app; auto.
Qed.

(** A loop that stopped early: nothing is claimed of what was sent. *)
Lemma sends_listing_stop file sockfd ok es : sends_listing file sockfd ok es -> sends_listing file sockfd false es.
Proof using Type. by intros [Hc _]. Qed.

Lemma list_entries_sends fuel dir s h :
  wlp (list_entries fuel dir) (fun ok s' h' => s' = s /\ exists es, h' = es ++ h /\
    sends_listing (reads_dir dir) (data_socket s.2) ok es /\
    (ok = true -> exists r d es', es = Ev (sceIoDread dir) (r, d) :: es' /\ r <= 0)) env s h.
Proof using Hcounts.
  revert h. induction fuel as [|fuel IH]; intros h; [done|]. cbn [list_entries]. do 2 wp_step. destruct a as [r d].
  set (e := Ev (sceIoDread dir) (r, d)).
  destruct (Z.ltb_spec 0 r) as [Hr|Hr].
  - apply (line_sent (reads_dir dir) e (st_isdir (d_stat d)) (d_stat d) (d_name d)); try done.
    { cbn. by destruct (Z.ltb_spec 0 r); [|lia]. }
    intros sent es _ Hes. destruct (Z.ltb_spec sent 0).
    + apply wp_ret. split; [done|]. exists (es ++ [e]). split_and!; [by rewrite <-app_assoc|by eapply sends_listing_stop|done].
    + eapply wp_mono; [apply IH|]. intros ok s' h' (-> & es2 & -> & Hes2 & Hend). split; [done|].
      exists (es2 ++ es ++ [e]). split_and!; [by rewrite <-!app_assoc| |].
      * apply sends_listing_app; [done|]. replace (0 <=? sent) with true in Hes by lia. destruct ok; [done|by eapply sends_listing_stop].
      * intros Hok. destruct (Hend Hok) as (r2 & d2 & es3 & -> & Hr2). by eexists _, _, _.
  - apply wp_ret. split; [done|]. exists [e]. split_and!; [done| |].
    + split; [by repeat constructor|]. intros _. unfold is_listing, files_told, years_read. cbn. by replace (0 <? r) with false by lia.
    + intros _. by eexists _, _, [].
Qed.

(** The names of the devices in use. *)
Definition in_use (l : list device) : list bytes := name <$> filter (fun d => valid d = true) l.

Lemma list_devices_sends l s h :
  wp (list_devices l) (fun ok s' h' => s' = s /\ exists es, h' = es ++ h /\
    sends_listing asks_device (data_socket s.2) ok es /\ (ok = true -> devices_asked es = in_use l)) env s h.
Proof using Hcounts.
  revert h. induction l as [|d l IH]; intros h; cbn [list_devices].
  { apply wp_ret. split; [done|]. exists []. split_and!; [done|apply sends_listing_nil|done]. }
  unfold in_use. destruct (valid d) eqn:Hd; [|rewrite filter_cons_False by congruence; apply IH].
  rewrite filter_cons_True by done. cbn [fmap list_fmap]. do 2 wp_step. destruct a as [r stat].
  set (e := Ev (sceIoGetstat (Some (name d))) (r, stat)).
  assert (list_call asks_device (data_socket s.2) (ev_call e)) as Hcall by (by exists (name d)).
  assert (forall es, sends_listing asks_device (data_socket s.2) true (es ++ [e]) -> devices_asked es = [] ->
    wp (list_devices l) (fun ok s' h' => s' = s /\ exists es, h' = es ++ h /\
      sends_listing asks_device (data_socket s.2) ok es /\ (ok = true -> devices_asked es = name d :: in_use l)) env s (es ++ e :: h)) as Hrest.
  { intros es Hes Hdev. eapply wp_mono; [apply IH|]. intros ok s' h' (-> & es2 & -> & Hes2 & Hask). split; [done|].
    exists (es2 ++ es ++ [e]). split_and!; [by rewrite <-!app_assoc| |].
    - apply sends_listing_app; [done|]. destruct ok; [done|by eapply sends_listing_stop].
    - intros Hok. by rewrite !devices_app, Hdev, Hask. }
  destruct (Z.leb_spec 0 r) as [Hr|Hr].
  - apply (line_sent asks_device e true stat (name d)); try done.
    { cbn. by destruct (Z.leb_spec 0 r); [|lia]. }
    intros sent es Hdev Hes. destruct (Z.ltb_spec sent 0).
    + apply wp_ret. split; [done|]. exists (es ++ [e]). split_and!; [by rewrite <-app_assoc|by eapply sends_listing_stop|done].
    + apply Hrest; [|done]. by replace (0 <=? sent) with true in Hes by lia.
  - apply (Hrest []); [|done]. split; [by repeat constructor|].
    intros _. unfold is_listing, files_told, years_read. cbn. by replace (0 <=? r) with false by lia.
Qed.

Definition listed_reply : bytes := msg "226 Transfer complete.".

Definition list_greeting : bytes := msg "150 Opening ASCII mode data transfer for LIST.".

(** The whole run: the directory, unless the devices are listed, and then the connection
    of [c] are opened; the file system is asked and the lines are sent; all is closed. *)
Definition listed (c : client) (path : bytes) (devices : list device) (h h' : history) : Prop :=
  exists sockfd h1 listing closing sent,
    is_listing (moved (sent_bytes sockfd) listing) listing /\ hang_up closing /\
    if bool_decide (path = [SLASH]) then
      transfer_begun c sockfd list_greeting h h1 /\
      Forall (fun e => list_call asks_device sockfd (ev_call e)) listing /\ devices_asked listing = in_use devices /\
      h' = Ev (sceNetSend (ctrl_sockfd c) listed_reply) sent :: closing ++ listing ++ h1
    else exists dir closed r d rest,
      transfer_begun c sockfd list_greeting (Ev (sceIoDopen (get_vita_path path)) dir :: h) h1 /\
      Forall (fun e => list_call (reads_dir dir) sockfd (ev_call e)) listing /\
      listing = Ev (sceIoDread dir) (r, d) :: rest /\ r <= 0 /\
      h' = Ev (sceNetSend (ctrl_sockfd c) listed_reply) sent :: closing ++ Ev (sceIoDclose dir) closed :: listing ++ h1.

Lemma open_devices s h : returns client_open_data_connection (fun _ s' _ => device_list s'.1 = device_list s.1) env s h.
Proof using Type.
  unfold client_open_data_connection, set_socket_timeout, on_server, configure_socket_io_timeout, of_client, set_client.
  repeat (returns_step; cbn [fst snd]); done.
Qed.

(** The history when the data connection is opened. *)
Definition list_opened (path : bytes) (dir : option Z) (h0 h : history) : Prop :=
  match dir with
  | None => path = [SLASH] /\ h = h0
  | Some dir => path <> [SLASH] /\ h = Ev (sceIoDopen (get_vita_path path)) dir :: h0
  end.

Lemma list_over_sends fuel path dir s0 h0 s h :
  list_opened path dir h0 h -> quiet s0 h0 s h ->
  wlp (list_over_data_connection fuel dir) (fun _ s' h' =>
    last_sent h' = Some (ctrl_sockfd s0.2, listed_reply) -> listed s.2 path (device_list s.1) h0 h') env s h.
Proof using Hcounts.
  intros Hdir Hq. pose proof Hq as (_ & Hc0 & _). unfold list_over_data_connection.
  apply wp_bind. eapply wp_mono; [apply wp_any, run_spec_returns; [apply open_run|apply open_devices]|].
  intros r s1 h1 [[Hq1 Hopened] Hdev]. assert (quiet s0 h0 s1 h1) as Hq2 by (by eapply quiet_trans).
  destruct (Z.ltb_spec r 0) as [|Hr].
  { assert (forall s2 h2, quiet s0 h0 s2 h2 -> wlp (client_close_data_connection;; client_send_ctrl_msg (msg "425 Can't open data connection.");; end_transfer)
      (fun _ s' h' => last_sent h' = Some (ctrl_sockfd s0.2, listed_reply) -> listed s.2 path (device_list s.1) h0 h') env s2 h2) as Hfail
      by (intros; eapply failed_wlp; [apply close_reply_end_quiet|done|done]).
    apply wp_bind. destruct dir as [d|]; [do 3 wp_step|wp_step]; apply Hfail; [|done].
    eapply quiet_trans; [exact Hq2|]. by apply quiet_call. }
  destruct (Hopened Hr) as (opening & -> & Hconnected). destruct Hq1 as (_ & Hc1 & _).
  apply wp_bind. eapply wp_mono; [apply wp_any, send_quiet|]. intros _ s2 h2 [-> [a2 ->]]. rewrite Hc1.
  assert (transfer_begun s.2 (data_socket s1.2) list_greeting h (Ev (sceNetSend (ctrl_sockfd s.2) list_greeting) a2 :: opening ++ h)) as Hbegun
    by by eexists _, _.
  fold list_greeting. generalize dependent (Ev (sceNetSend (ctrl_sockfd s.2) list_greeting) a2 :: opening ++ h). intros h1 Hbegun.
  assert (forall ok h2 (P : history -> Prop), (forall sent closing, ok = true -> hang_up closing -> P (Ev (sceNetSend (ctrl_sockfd s.2) listed_reply) sent :: closing ++ h2)) ->
    wlp (client_close_data_connection;;
         client_send_ctrl_msg (if ok then msg "226 Transfer complete." else msg "426 Connection closed; transfer aborted.");; end_transfer)
      (fun _ s' h' => last_sent h' = Some (ctrl_sockfd s0.2, listed_reply) -> P h') env s1 h2) as Hend.
  { intros ok h2 P HP. eapply wp_mono; [apply wp_any, close_reply_end_run|]. intros _ s' h' [_ (sent & closing & -> & Hclosing)].
    cbn [last_sent]. intros [= _ Hrep]. destruct ok; [|discriminate Hrep]. rewrite Hc1. by apply HP. }
  apply wp_bind. destruct dir as [d|]; destruct Hdir as [Hp ->].
  - apply wp_bind. eapply wp_mono; [apply list_entries_sends|]. intros ok s3 h3 (-> & es & -> & [Hes Hlist] & Hlast). do 3 wp_step.
    apply Hend. intros sent closing -> Hclosing. destruct (Hlast eq_refl) as (r' & d' & rest & Ees & Hr').
    exists (data_socket s1.2), h1, es, closing, sent. split_and!; [by apply Hlist|done|]. rewrite bool_decide_eq_false_2 by done.
    by exists d, a, r', d', rest.
  - destruct s1 as [f1 c1]. apply wp_bind, wp_zoom, wp_gets. cbn [fst snd] in *.
    eapply wp_mono; [apply wp_any, list_devices_sends|]. intros ok s3 h3 (-> & es & -> & [Hes Hlist] & Hlast). rewrite Hdev in Hlast.
    apply Hend. intros sent closing -> Hclosing. exists (data_socket c1), h1, es, closing, sent.
    split_and!; [by apply Hlist|done|]. rewrite bool_decide_eq_true_2 by done. split_and!; [done|done|by apply Hlast|done].
Qed.

Lemma list_sends fuel path s h :
  wlp (send_LIST fuel path) (fun _ s' h' =>
    last_sent h' = Some (ctrl_sockfd s.2, listed_reply) -> listed s.2 path (device_list s.1) h h') env s h.
Proof using Hcounts.
  unfold send_LIST. apply wp_bind, begin_rule; cbn [negb].
  { eapply failed_wlp; [apply refuse_quiet|apply quiet_refl|done]. }
  set (s1 := (set_transfer_active 1 s.1, s.2)). assert (quiet s h s1 h) as Hq0 by (split_and!; [done..|by exists []]).
  change (device_list s.1) with (device_list s1.1). change (listed s.2) with (listed s1.2). clearbody s1.
  case_bool_decide as Hp; [by apply (list_over_sends fuel path None)|].
  do 2 wp_step. rename a into dir. destruct (dir <? 0).
  - eapply failed_wlp; [apply close_reply_end_quiet| |done]. eapply quiet_trans; [exact Hq0|]. by apply quiet_call.
  - apply (list_over_sends fuel path (Some dir)); [done|]. eapply quiet_trans; [exact Hq0|]. by apply quiet_call.
Qed.
End listing.

(** * Property *)

(** C7: a LIST that reports success sent the whole listing. When the last thing
    [send_LIST] sent is [226 Transfer complete], its run is, in this order: the
    directory is opened at the path, unless the path is the root, the client's data
    connection is opened and the transfer announced; then nothing but asking for
    files, reading the clock and sending, in which the bytes the peer accepted on that
    connection are exactly, in order, one line for each file the file system told of,
    made of its attributes, its name and the year the clock said for it; then all is
    given up. For the root every device in use is asked for, in the order of the table;
    for another path the directory is read up to the first read that gives nothing, be
    it the end of the directory or an error (see [failed_listing_reports_success]). *)
Theorem list_sends_listing `{Sdk} env fuel path s h :
  io_counts env ->
  wlp (send_LIST fuel path) (fun _ s' h' =>
    last_sent h' = Some (ctrl_sockfd s.2, listed_reply) -> listed s.2 path (device_list s.1) h h') env s h.
Proof. intros Hcounts. by apply list_sends. Qed.

(** A directory with one file. *)
Definition demo_directory : environment := fun h c =>
  match c return answer c with
  | sceIoDread _ =>
      if existsb (fun e => match ev_call e with sceIoDread _ => true | _ => false end) h then (0, IoDirent [] empty_stat)
      else (1, IoDirent (lit "a.txt") (IoStat false 3 2024 5 7 12 30))
  | c => demo_net h c
  end.

Lemma demo_directory_counts : io_counts demo_directory.
Proof. split; intros; cbn [demo_directory]; apply demo_counts. Qed.

(** The code does not tell the two apart: a directory that cannot be read is listed
    as an empty one, with success. *)
Definition broken_directory : environment := fun h c =>
  match c return answer c with sceIoDread _ => (-1, IoDirent [] empty_stat) | c => demo_net h c end.

Example failed_listing_reports_success :
  match send_LIST (H := demo_sdk) 2 (lit "/ux0:/") broken_directory demo_session [] with
  | Done (_, _, h) => last_sent h = Some (ctrl_sockfd demo_session.2, listed_reply) /\ moved (sent_bytes 5) h = []
  | _ => False
  end.
Proof. vm_compute. split; reflexivity. Qed.

Lemma list_sends_listing_witness :
  exists s' h', send_LIST (H := demo_sdk) 2 (lit "/ux0:/") demo_directory demo_session [] = Done (tt, s', h') /\
    listed demo_session.2 (lit "/ux0:/") (device_list demo_session.1) [] h' /\
    moved (sent_bytes 5) h' = lit "-rw-r--r-- 1 vita vita 3 May 7  2024 a.txt" ++ FTPVITA_EOL.
Proof.
  pose proof (list_sends_listing (H := demo_sdk) demo_directory 2 (lit "/ux0:/") demo_session [] demo_directory_counts) as Hrun.
  destruct (send_LIST (H := demo_sdk) 2 (lit "/ux0:/") demo_directory demo_session []) as [[[[] s'] h']| |] eqn:E;
    [|vm_compute in E; discriminate E..].
  eapply wlp_done in Hrun; [|exact E]. exists s', h'. split; [reflexivity|].
  vm_compute in E. injection E as <- <-. split; [apply Hrun; vm_compute; reflexivity|vm_compute; reflexivity].
Defined.
