(* ===== verification/ClientList.v ===== *)
(** The list of connected clients: the doubly linked list of
    libftpvita/ftpvita.c, with its nodes in a heap, and the refinement of its
    operations to a registry of clients that is a plain list.

    A client's structure is a node of the heap, named by its address; the part
    of it that the client's own thread works on is its [info].  Dereferencing a
    null pointer or a node that was freed is undefined.  Every operation here
    runs with the list's mutex held, so it is one step of the whole program. *)

From S2P Require Import Prelude System FtpState.
From stdpp Require Export gmap.

#[global] Open Scope Z_scope.

Abbreviation loc := positive.

Record node := Node {
info : client;
thid : Z;
addr : SceNetSockaddrIn;
next : ptr loc;
prev : ptr loc;
in_client_list : bool
}.

Definition set_info (v : client) (n : node) : node := Node v (thid n) (addr n) (next n) (prev n) (in_client_list n).
Definition set_thid (v : Z) (n : node) : node := Node (info n) v (addr n) (next n) (prev n) (in_client_list n).
Definition set_next (v : ptr loc) (n : node) : node := Node (info n) (thid n) (addr n) v (prev n) (in_client_list n).
Definition set_prev (v : ptr loc) (n : node) : node := Node (info n) (thid n) (addr n) (next n) v (in_client_list n).
Definition set_in_client_list (v : bool) (n : node) : node := Node (info n) (thid n) (addr n) (next n) (prev n) v.

(** The statics of the file with the client structures. *)
Record server := Server { globals : ftp; heap : gmap loc node; client_list : ptr loc }.

Definition set_globals (v : ftp) (s : server) : server := Server v (heap s) (client_list s).
Definition set_heap (v : gmap loc node) (s : server) : server := Server (globals s) v (client_list s).
Definition set_client_list (v : ptr loc) (s : server) : server := Server (globals s) (heap s) v.

(** An operation on the statics alone. *)
Definition on_globals {A} (m : M ftp A) : M server A := zoom globals set_globals m.

(** * Pointers *)

(** [*p]. *)
Definition deref (p : ptr loc) : M server node :=
  s ← get;
  match p with
  | Some c => match heap s !! c with Some n => mret n | None => lift Undefined end
  | NULL => lift Undefined
  end.

(** An assignment to a field of [*p]. *)
Definition assign (p : ptr loc) (f : node -> node) : M server unit :=
  s ← get;
  match p with
  | Some c => match heap s !! c with Some n => modify (set_heap (<[c := f n]> (heap s))) | None => lift Undefined end
  | NULL => lift Undefined
  end.

(** [free] of a client. *)
Definition free_client (c : loc) : M server unit :=
  deref (Some c);;
  sys (free true);;
  modify (fun s => set_heap (delete c (heap s)) s).

Definition lock_list : M server Z :=
  mtx ← gets (fun s => client_list_mtx (globals s));
  sys (sceKernelLockMutex mtx).
Definition unlock_list : M server Z :=
  mtx ← gets (fun s => client_list_mtx (globals s));
  sys (sceKernelUnlockMutex mtx).

(** * The operations *)

Definition client_list_add (c : loc) : M server bool :=
  lock_list;;
  f ← gets globals;
  if negb (reboot_quiesce_requested f =? 0) || (MAX_CLIENTS <=? number_clients f) then
    unlock_list;; mret false
  else
    head ← gets client_list;
    (match head with
     | NULL =>
         modify (set_client_list (Some c));;
         assign (Some c) (set_prev NULL);;
         assign (Some c) (set_next NULL)
     | Some _ =>
         assign (Some c) (set_next head);;
         assign head (set_prev (Some c));;
         assign (Some c) (set_prev NULL);;
         modify (set_client_list (Some c))
     end);;
    assign (Some c) (fun n => set_info (set_restore_point 0 (info n)) n);;
    assign (Some c) (set_in_client_list true);;
    on_globals (modify (fun f => set_number_clients (s32 (number_clients f + 1)) f));;
    unlock_list;;
    mret true.

Definition client_list_delete (c : loc) : M server bool :=
  lock_list;;
  n ← deref (Some c);
  if negb (in_client_list n) then unlock_list;; mret false
  else
    (match prev n with Some _ => assign (prev n) (set_next (next n)) | NULL => mret tt end);;
    n ← deref (Some c);
    (match next n with Some _ => assign (next n) (set_prev (prev n)) | NULL => mret tt end);;
    head ← gets client_list;
    (if decide (Some c = head) then (n ← deref (Some c); modify (set_client_list (next n))) else mret tt);;
    assign (Some c) (set_next NULL);;
    assign (Some c) (set_prev NULL);;
    assign (Some c) (set_in_client_list false);;
    on_globals (modify (fun f => if 0 <? number_clients f then set_number_clients (number_clients f - 1) f else f));;
    unlock_list;;
    mret true.

Section aborts.
Context `{Sdk}.

(** [SCE_NET_SOCKET_ABORT_FLAG_RCV_PRESERVATION | ..._SND_PRESERVATION] *)
Definition abort_flags : Z :=
  Z.lor SCE_NET_SOCKET_ABORT_FLAG_RCV_PRESERVATION SCE_NET_SOCKET_ABORT_FLAG_SND_PRESERVATION.

Definition abort_socket (sockfd flags : Z) : M server unit :=
  if 0 <=? sockfd then sys (sceNetSocketAbort sockfd flags);; mret tt else mret tt.

(** The body of the loop of [client_list_thread_end]: the sockets of one client. *)
Definition abort_connection (i : client) : M server unit :=
  sys (sceNetSocketAbort (ctrl_sockfd i) SCE_NET_SOCKET_ABORT_FLAG_RCV_PRESERVATION);;
  if decide (data_con_type i = FTP_DATA_CONNECTION_NONE) then mret tt
  else
    abort_socket (data_sockfd i) abort_flags;;
    if decide (data_con_type i = FTP_DATA_CONNECTION_PASSIVE) then abort_socket (pasv_sockfd i) abort_flags
    else mret tt.

(** The loop: [room] is what is left of the array of thread ids. *)
Fixpoint detach_loop (room : nat) (it : ptr loc) : M server (list Z) :=
  match room, it with
  | S room, Some _ =>
      n ← deref it;
      abort_connection (info n);;
      assign it (set_in_client_list false);;
      n' ← deref it;
      thids ← detach_loop room (next n');
      mret (thid n :: thids)
  | _, _ => mret []
  end.

(** [client_list_thread_end] while it holds the mutex: every client is aborted
    and taken off the list.  The result is [client_thids]. *)
Definition detach_clients : M server (list Z) :=
  lock_list;;
  head ← gets client_list;
  client_thids ← detach_loop (Z.to_nat MAX_CLIENTS) head;
  modify (set_client_list NULL);;
  on_globals (modify (set_number_clients 0);; modify (set_transfer_active 0));;
  unlock_list;;
  mret client_thids.

(** The body of the loop of [ftpvita_abort_clients]. *)
Definition abort_sockets (i : client) : M server unit :=
  abort_socket (ctrl_sockfd i) abort_flags;;
  abort_socket (data_sockfd i) abort_flags;;
  abort_socket (pasv_sockfd i) abort_flags.

Fixpoint abort_loop (fuel : nat) (it : ptr loc) (aborted : Z) : M server Z :=
  match it with
  | NULL => mret aborted
  | Some _ =>
      match fuel with
      | O => lift NoFuel
      | S fuel =>
          n ← deref it;
          abort_sockets (info n);;
          abort_loop fuel (next n) (s32 (aborted + 1))
      end
  end.

(** A list without a cycle has no more nodes than the heap. *)
Definition ftpvita_abort_clients : M server Z :=
  mtx ← gets (fun s => client_list_mtx (globals s));
  if mtx <? 0 then mret 0
  else
    locked ← sys (sceKernelLockMutex mtx);
    if locked <? 0 then mret (-1)
    else
      s ← get;
      aborted ← abort_loop (size (heap s)) (client_list s) 0;
      unlock_list;;
      mret aborted.
End aborts.

(** * The registry: what the list promises

    The clients that are registered, the newest first, those whose structure is
    allocated, and whether a reboot is prepared. *)

Record registry := Registry { members : list loc; allocated : gset loc; quiesced : bool }.

Inductive operation := Add (c : loc) | Delete (c : loc) | Free (c : loc) | AbortAll | DetachAll.

Inductive reply := Registered (b : bool) | Removed (b : bool) | Freed | Aborted (n : Z) | Detached.

(** What the caller owes: a client is registered or removed only while it is
    allocated, it is not registered twice, and it is not freed while registered. *)
Definition legal (r : registry) (op : operation) : Prop :=
  match op with
  | Add c => c ∈ allocated r /\ c ∉ members r
  | Delete c => c ∈ allocated r
  | Free c => c ∈ allocated r /\ c ∉ members r
  | AbortAll | DetachAll => True
  end.

Inductive step (r : registry) : operation -> reply -> registry -> Prop :=
| step_add c :
    quiesced r = false -> Z.of_nat (length (members r)) < MAX_CLIENTS ->
    step r (Add c) (Registered true) (Registry (c :: members r) (allocated r) (quiesced r))
| step_add_refused c :
    quiesced r = true \/ MAX_CLIENTS <= Z.of_nat (length (members r)) ->
    step r (Add c) (Registered false) r
| step_delete c before after :
    members r = before ++ c :: after ->
    step r (Delete c) (Removed true) (Registry (before ++ after) (allocated r) (quiesced r))
| step_delete_gone c :
    c ∉ members r ->
    step r (Delete c) (Removed false) r
| step_free c :
    step r (Free c) Freed (Registry (members r) (allocated r ∖ {[c]}) (quiesced r))
| step_abort :
    step r AbortAll (Aborted (Z.of_nat (length (members r)))) r
| step_abort_failed :
    step r AbortAll (Aborted (-1)) r
| step_detach :
    step r DetachAll Detached (Registry [] (allocated r) (quiesced r)).

Inductive steps : registry -> list operation -> list reply -> registry -> Prop :=
| steps_nil r : steps r [] [] r
| steps_cons r op reply r' ops replies r'' :
    step r op reply r' -> steps r' ops replies r'' -> steps r (op :: ops) (reply :: replies) r''.

(** A sequence of operations whose callers keep their part whatever the replies. *)
Fixpoint safe (r : registry) (ops : list operation) : Prop :=
  match ops with
  | [] => True
  | op :: ops => legal r op /\ forall reply r', step r op reply r' -> safe r' ops
  end.

(** The code of an operation. *)
Definition run_operation `{Sdk} (op : operation) : M server reply :=
  match op with
  | Add c => b ← client_list_add c; mret (Registered b)
  | Delete c => b ← client_list_delete c; mret (Removed b)
  | Free c => free_client c;; mret Freed
  | AbortAll => n ← ftpvita_abort_clients; mret (Aborted n)
  | DetachAll => detach_clients;; mret Detached
  end.

Fixpoint run_operations `{Sdk} (ops : list operation) : M server (list reply) :=
  match ops with
  | [] => mret []
  | op :: ops => r ← run_operation op; rs ← run_operations ops; mret (r :: rs)
  end.

(** * The representation *)

(** [seg H b p l e]: from [p] the nodes of [l] follow each other in [H]; before
    the first comes [b], after the last [e]. *)
Fixpoint seg (H : gmap loc node) (b p : ptr loc) (l : list loc) (e : ptr loc) : Prop :=
  match l with
  | [] => p = e
  | c :: l =>
      p = Some c /\
      exists n, H !! c = Some n /\ prev n = b /\ in_client_list n = true /\ seg H (Some c) (next n) l e
  end.

Record represents (s : server) (r : registry) : Prop := {
  rep_seg : seg (heap s) NULL (client_list s) (members r) NULL;
  rep_nodup : NoDup (members r);
  rep_count : number_clients (globals s) = Z.of_nat (length (members r));
  rep_bound : Z.of_nat (length (members r)) <= MAX_CLIENTS;
  rep_flag c n : heap s !! c = Some n -> in_client_list n = true -> c ∈ members r;
  rep_allocated : dom (heap s) = allocated r;
  rep_quiesced : quiesced r = negb (reboot_quiesce_requested (globals s) =? 0);
  rep_mutex : 0 <= client_list_mtx (globals s)
}.

(** What no operation on the list changes of a client: its data apart from the
    restart offset, which is kept or reset. *)
Definition data (n : node) : client * Z * SceNetSockaddrIn := (set_restore_point 0 (info n), thid n, addr n).

Definition same_client (n n' : node) : Prop :=
  data n' = data n /\ (restore_point (info n') = restore_point (info n) \/ restore_point (info n') = 0).

(** Freed clients apart, [H'] holds the clients of [H]. *)
Definition data_kept (H H' : gmap loc node) : Prop :=
  forall x n', H' !! x = Some n' -> exists n, H !! x = Some n /\ same_client n n'.

(** * Lemmas *)

#[export] Instance same_client_preorder : PreOrder same_client.
Proof.
  split; [split; [done|by left]|]. intros n1 n2 n3 [Hd1 Hr1] [Hd2 Hr2]. split; [congruence|].
  destruct Hr2 as [->|]; [done|by right].
Qed.

#[export] Instance data_kept_preorder : PreOrder data_kept.
Proof.
  split.
  - intros H x n E. by exists n.
  - intros H1 H2 H3 H12 H23 x n3 E3. destruct (H23 x n3 E3) as (n2 & E2 & H2').
    destruct (H12 x n2 E2) as (n1 & E1 & H1'). exists n1. split; [done|]. by etrans.
Qed.

Lemma data_kept_insert H c n n' : H !! c = Some n -> same_client n n' -> data_kept H (<[c := n']> H).
Proof.
  intros Hc Hd x m. destruct (decide (x = c)) as [->|Hne].
  - rewrite lookup_insert_eq. intros [= <-]. eauto.
  - rewrite lookup_insert_ne by done. intros ->. exists m. done.
Qed.

(** The last node of a list, or [b]. *)
Definition last_or (b : ptr loc) (l : list loc) : ptr loc := match last l with Some c => Some c | None => b end.

Lemma last_or_cons b c l : last_or b (c :: l) = last_or (Some c) l.
Proof. unfold last_or. destruct l as [|d l]; [done|]. rewrite last_cons_cons. by destruct (last (d :: l)) eqn:E; [|by apply last_None in E]. Qed.

Section segments.
Implicit Types (H : gmap loc node) (l : list loc) (b p e : ptr loc).

Lemma seg_agree H H' b p l e :
  (forall x, x ∈ l -> H' !! x = H !! x) -> seg H b p l e -> seg H' b p l e.
Proof.
  revert b p. induction l as [|c l IH]; intros b p Hl Hs; [done|].
  destruct Hs as (-> & n & Hn & Hp & Hf & Hs). split; [done|]. exists n.
  rewrite Hl by left. split_and!; [done..|]. apply IH; [|done]. intros x Hx. apply Hl. by right.
Qed.

Lemma seg_insert_ne H b p l e c n : c ∉ l -> seg H b p l e -> seg (<[c := n]> H) b p l e.
Proof. intros Hc. apply seg_agree. intros x Hx. apply lookup_insert_ne. intros ->. done. Qed.

Lemma seg_app H b p l1 l2 e :
  seg H b p (l1 ++ l2) e <-> exists m, seg H b p l1 m /\ seg H (last_or b l1) m l2 e.
Proof.
  revert b p. induction l1 as [|c l1 IH]; intros b p; cbn [app seg].
  - split; [eauto|]. intros (m & -> & ?). done.
  - rewrite last_or_cons. split.
    + intros (-> & n & Hn & Hp & Hf & (m & H1 & H2)%IH). eauto 10.
    + intros (m & (-> & n & Hn & Hp & Hf & H1) & H2). split; [done|]. exists n.
      split_and!; [done..|]. apply IH. eauto.
Qed.

Lemma seg_allocated H b p l e c : seg H b p l e -> c ∈ l -> exists n, H !! c = Some n /\ in_client_list n = true.
Proof.
  revert b p. induction l as [|d l IH]; intros b p Hs Hc; [by apply not_elem_of_nil in Hc|].
  destruct Hs as (_ & n & Hn & _ & Hf & Hs). apply elem_of_cons in Hc as [->|Hc]; eauto.
Qed.

(** The first node gets another predecessor. *)
Lemma seg_set_prev H b b' p c l e n :
  seg H b p (c :: l) e -> c ∉ l -> H !! c = Some n -> seg (<[c := set_prev b' n]> H) b' p (c :: l) e.
Proof.
  intros (-> & m & Hm & Hp & Hf & Hs) Hc Hn. rewrite Hn in Hm. injection Hm as <-. split; [done|]. exists (set_prev b' n).
  rewrite lookup_insert_eq. split_and!; [done..|]. by apply seg_insert_ne.
Qed.

(** The last node gets another successor. *)
Lemma seg_set_next H b p l c e e' n :
  seg H b p (l ++ [c]) e -> c ∉ l -> H !! c = Some n -> seg (<[c := set_next e' n]> H) b p (l ++ [c]) e'.
Proof.
  rewrite !seg_app. intros (m & Hs & -> & n' & Hn' & Hp & Hf & He) Hc Hn. rewrite Hn in Hn'. injection Hn' as <-.
  exists (Some c). split; [by apply seg_insert_ne|]. split; [done|]. exists (set_next e' n).
  rewrite lookup_insert_eq. done.
Qed.

Lemma seg_head H b p l e : seg H b p l e -> l <> [] -> p = head l.
Proof. destruct l; [done|]. by intros [-> _]. Qed.
End segments.

Section rules.
Context {nofuel : Prop}.
Abbreviation spec := (run_spec nofuel).

Lemma wp_deref c n (Q : node -> server -> history -> Prop) env s h :
  heap s !! c = Some n -> Q n s h -> spec (deref (Some c)) Q env s h.
Proof. intros E HQ. unfold run_spec, deref, mbind, M_bind, get. by rewrite E. Qed.

Lemma wp_assign c n f (Q : unit -> server -> history -> Prop) env s h :
  heap s !! c = Some n -> Q tt (set_heap (<[c := f n]> (heap s)) s) h -> spec (assign (Some c) f) Q env s h.
Proof. intros E HQ. unfold run_spec, assign, mbind, M_bind, get, modify. by rewrite E. Qed.
End rules.

Section registry.
Context `{Sdk}.
Implicit Types (s : server) (r : registry) (c : loc) (h : history) (env : environment).

Lemma represents_bounds s r : represents s r -> 0 <= number_clients (globals s) <= MAX_CLIENTS.
Proof. intros []. lia. Qed.

Lemma member_allocated s r c : represents s r -> c ∈ members r -> exists n, heap s !! c = Some n /\ in_client_list n = true.
Proof. intros [Hs]. by apply (seg_allocated _ _ _ _ _ _ Hs). Qed.

Lemma allocated_node s r c : represents s r -> c ∈ allocated r -> exists n, heap s !! c = Some n.
Proof. intros Hr. rewrite <-(rep_allocated s r Hr). by rewrite elem_of_dom. Qed.

Lemma wp_lock_list nofuel (Q : Z -> server -> history -> Prop) env s h :
  (forall a, Q a s (Ev (sceKernelLockMutex (client_list_mtx (globals s))) a :: h)) -> run_spec nofuel lock_list Q env s h.
Proof. intros HQ. apply HQ. Qed.

Lemma wp_unlock_list nofuel (Q : Z -> server -> history -> Prop) env s h :
  (forall a, Q a s (Ev (sceKernelUnlockMutex (client_list_mtx (globals s))) a :: h)) -> run_spec nofuel unlock_list Q env s h.
Proof. intros HQ. apply HQ. Qed.

(** The history of a critical section. *)
Lemma critical_section mtx l (a b : Z) h h' :
  traced l (Ev (sceKernelLockMutex mtx) a :: h) h' ->
  traced (sceKernelLockMutex mtx :: l ++ [sceKernelUnlockMutex mtx]) h (Ev (sceKernelUnlockMutex mtx) b :: h').
Proof. intros Ht. eapply traced_cons, traced_snoc, Ht. Qed.

(** What registering or removing a client leaves of the statics. *)
Definition recounted s s' (n : nat) : Prop := globals s' = set_number_clients (Z.of_nat n) (globals s).

Lemma recounted_same s r : represents s r -> recounted s s (length (members r)).
Proof. intros Hr. unfold recounted. rewrite <-(rep_count s r Hr). by destruct (globals s). Qed.

Definition critical s h s' h' (r' : registry) : Prop :=
  represents s' r' /\ data_kept (heap s) (heap s') /\ recounted s s' (length (members r')) /\
  traced [sceKernelLockMutex (client_list_mtx (globals s)); sceKernelUnlockMutex (client_list_mtx (globals s))] h h'.

(** Symbolic execution on a state given by its parts. *)
Ltac heap_step :=
  lazymatch goal with
  | |- run_spec _ (deref (Some ?c)) _ _ _ _ => eapply wp_deref; [cbn; simplify_map_eq; reflexivity|]
  | |- run_spec _ (assign (Some ?c) _) _ _ _ _ => eapply wp_assign; [cbn; simplify_map_eq; reflexivity|]
  | |- run_spec _ lock_list _ _ _ _ => apply wp_lock_list; intros ?
  | |- run_spec _ unlock_list _ _ _ _ => apply wp_unlock_list; intros ?
  | |- run_spec _ (on_globals _) _ _ _ _ => unfold on_globals
  | |- _ => wp_step
  end; unfold set_globals, set_heap, set_client_list; cbn [globals heap client_list].

(** The heap changed only links, one node after the other. *)
Ltac data_step :=
  first [reflexivity | etrans; [|eapply data_kept_insert; [simplify_map_eq; reflexivity|split; [reflexivity|by (left + right)]]]].

(** Where a changed heap holds a node of a given kind. *)
Ltac find_node :=
  repeat match goal with
  | H : <[?c := _]> _ !! ?x = Some _ |- _ =>
      destruct (decide (x = c)) as [->|]; [try done; rewrite lookup_insert_eq in H; injection H as <-|rewrite lookup_insert_ne in H by done]
  end.

Ltac same_dom := repeat (rewrite dom_insert_lookup_L by (simplify_map_eq; eauto)); done.

Lemma add_spec env s h r c :
  represents s r -> c ∈ allocated r -> c ∉ members r ->
  wp (client_list_add c) (fun b s' h' => exists r', step r (Add c) (Registered b) r' /\ critical s h s' h' r') env s h.
Proof.
  intros Hr Hc Hnew. destruct (allocated_node s r c Hr Hc) as [n Hn].
  pose proof (represents_bounds s r Hr) as Hb. pose proof Hr as [Hs Hnd Hcount Hbound Hflag Hdom Hq Hm].
  destruct s as [g H0 p]; cbn [globals heap client_list] in *.
  unfold client_list_add. do 5 heap_step.
  - do 3 heap_step. exists r. split.
    + constructor. rewrite Hq. lia.
    + split_and!; [done|done|by apply recounted_same|eapply (critical_section _ []), traced_nil].
  - apply orb_false_iff in Heqb as [Hopen Hroom].
    assert (step r (Add c) (Registered true) (Registry (c :: members r) (allocated r) (quiesced r))) as Hstep
      by (constructor; [rewrite Hq; by destruct (_ =? 0)|lia]).
    assert (s32 (number_clients g + 1) = Z.of_nat (S (length (members r)))) as Hincr
      by (unfold MAX_CLIENTS in *; rewrite s32_small; lia).
    destruct (members r) as [|d l] eqn:Hl.
    + cbn in Hs. subst p. repeat heap_step. rewrite Hincr.
      eexists; split; [exact Hstep|]. unfold critical. split_and!; [|repeat data_step|done|eapply (critical_section _ []), traced_nil].
      split; cbn [globals heap client_list members allocated quiesced]; [|..|done|done].
      * split; [done|]. eexists. rewrite lookup_insert_eq. done.
      * by apply NoDup_singleton.
      * done.
      * cbn. unfold MAX_CLIENTS. lia.
      * intros x m Hx Hin. find_node; [by left|]. right. exact (Hflag x m Hx Hin).
      * same_dom.
    + pose proof Hs as ([= ->] & nf & Hnf & Hpf & Hff & _).
      assert (c <> d) as Hcd by (intros ->; apply Hnew; by left).
      repeat heap_step. rewrite Hincr.
      eexists; split; [exact Hstep|]. unfold critical. split_and!; [|repeat data_step|done|eapply (critical_section _ []), traced_nil].
      split; cbn [globals heap client_list members allocated quiesced]; [|..|done|done].
      * split; [done|]. eexists. rewrite lookup_insert_eq. split_and!; [done..|].
        do 3 (apply seg_insert_ne; [done|]). eapply seg_set_prev; [by apply seg_insert_ne|by apply NoDup_cons in Hnd as []|by simplify_map_eq].
      * by apply NoDup_cons.
      * done.
      * cbn in *. unfold MAX_CLIENTS in *. lia.
      * intros x m Hx Hin. find_node; [by left|right; by left|]. right. exact (Hflag x m Hx Hin).
      * same_dom.
Qed.
(** Only links changed from [H0] to [H1]. *)
Definition relinked (H0 H1 : gmap loc node) : Prop :=
  dom H1 = dom H0 /\
  forall x n1, H1 !! x = Some n1 -> exists n, H0 !! x = Some n /\ same_client n n1 /\ in_client_list n = in_client_list n1.

#[export] Instance relinked_preorder : PreOrder relinked.
Proof.
  split; [intros H0; split; [done|]; intros x n Hx; by exists n|].
  intros H0 H1 H2 [Hd1 Hr1] [Hd2 Hr2]. split; [congruence|]. intros x n2 Hx.
  destruct (Hr2 x n2 Hx) as (n1 & Hx1 & ? & ?). destruct (Hr1 x n1 Hx1) as (n & ? & ? & ?).
  exists n. split_and!; [congruence|by etrans|congruence].
Qed.

Lemma relinked_insert H0 c n n' :
  H0 !! c = Some n -> same_client n n' -> in_client_list n' = in_client_list n -> relinked H0 (<[c := n']> H0).
Proof. intros Hc Hd Hf. split; [same_dom|]. intros x m Hx. find_node; [by eauto|]. exists m. done. Qed.

Lemma relinked_data H0 H1 : relinked H0 H1 -> data_kept H0 H1.
Proof. intros [_ Hr] x n1 Hx. destruct (Hr x n1 Hx) as (n & ? & Hd & _). eauto. Qed.

(** Taking the node [c] out: its predecessor is linked to [m]. *)
Lemma bypass_prev g H0 p p0 before c m (Q : unit -> server -> history -> Prop) env h :
  seg H0 NULL p before (Some c) -> NoDup before ->
  (forall H1, seg H1 NULL (match before with [] => m | _ => p end) before m ->
     (forall x, x ∉ before -> H1 !! x = H0 !! x) -> relinked H0 H1 -> Q tt (Server g H1 p0) h) ->
  wp (match last_or NULL before with Some _ => assign (last_or NULL before) (set_next m) | NULL => mret tt end)
    Q env (Server g H0 p0) h.
Proof.
  intros Hs Hnd HQ. destruct before as [|x l _] using rev_ind; [by apply HQ|].
  unfold last_or. rewrite last_snoc. apply NoDup_app in Hnd as (Hl & Hx & _).
  assert (x ∉ l) as Hxl by (intros Hin; apply (Hx x Hin); by left).
  destruct (seg_allocated _ _ _ _ _ x Hs) as (n & Hn & _); [apply elem_of_app; right; by left|].
  eapply wp_assign; [exact Hn|]. apply HQ.
  - replace (match l ++ [x] with [] => m | _ => p end) with p by by destruct l.
    by eapply seg_set_next.
  - intros y Hy. apply lookup_insert_ne. intros ->. apply Hy, elem_of_app. right. by left.
  - eapply relinked_insert; [done|split; [done|by left]|done].
Qed.

(** Its successor is linked to [b']. *)
Lemma bypass_next g H0 p0 b b' q after (Q : unit -> server -> history -> Prop) env h :
  seg H0 b q after NULL -> NoDup after ->
  (forall H1, seg H1 b' q after NULL ->
     (forall x, x ∉ after -> H1 !! x = H0 !! x) -> relinked H0 H1 -> Q tt (Server g H1 p0) h) ->
  wp (match q with Some _ => assign q (set_prev b') | NULL => mret tt end) Q env (Server g H0 p0) h.
Proof.
  intros Hs Hnd HQ. destruct after as [|y l]; [cbn in Hs; subst q; by apply HQ|].
  pose proof Hs as (-> & n & Hn & _). apply NoDup_cons in Hnd as [Hy Hl].
  eapply wp_assign; [exact Hn|]. apply HQ.
  - by eapply seg_set_prev.
  - intros x Hx. apply lookup_insert_ne. intros ->. apply Hx. by left.
  - eapply relinked_insert; [done|split; [done|by left]|done].
Qed.

(** The list starts after [c] if [c] was its first node. *)
Lemma bypass_head g H0 H1 p before c n (Q : unit -> server -> history -> Prop) env h :
  seg H0 NULL p before (Some c) -> c ∉ before -> H1 !! c = Some n ->
  Q tt (Server g H1 (match before with [] => next n | _ => p end)) h ->
  wp (if decide (Some c = p) then (n ← deref (Some c); modify (set_client_list (next n))) else mret tt)
    Q env (Server g H1 p) h.
Proof.
  intros Hs Hc Hn HQ. destruct before as [|d before].
  - cbn in Hs. subst p. rewrite decide_True by done. apply wp_bind. by eapply wp_deref.
  - destruct Hs as (-> & _). rewrite decide_False; [done|]. intros [= ->]. apply Hc. by left.
Qed.

(** The state after [c] was taken out of the list. *)
Lemma represents_removed g (H0 H1 H2 : gmap loc node) p p' r c n before after :
  represents (Server g H0 p) r -> members r = before ++ c :: after ->
  seg H1 NULL p' before (next n) -> (forall x, x ∉ before -> H1 !! x = H0 !! x) ->
  seg H2 (last_or NULL before) (next n) after NULL -> (forall x, x ∉ after -> H2 !! x = H1 !! x) ->
  relinked H0 H2 -> H2 !! c = Some n ->
  represents
    (Server (set_number_clients (number_clients g - 1) g)
       (<[c := set_in_client_list false (set_prev NULL (set_next NULL n))]> H2) p')
    (Registry (before ++ after) (allocated r) (quiesced r)).
Proof.
  intros [_ Hnd Hcount Hbound Hflag Hdom Hq Hm] Hl Hs1 Hkeep1 Hs2 Hkeep2 [Hd2 Hr2] Hn2.
  cbn [globals heap client_list] in *. rewrite Hl in *. rewrite length_app in *. cbn in Hcount, Hbound.
  apply NoDup_app in Hnd as (Hnd1 & Hnd12 & [Hca Hnd2]%NoDup_cons).
  split; cbn [globals heap client_list members allocated quiesced]; [..|done|done].
  - apply seg_app. exists (next n). split; apply seg_insert_ne; [|..|done|done].
    + intros Hin. apply (Hnd12 c Hin). by left.
    + eapply seg_agree; [|exact Hs1]. intros x Hx. apply Hkeep2. intros Hx'. apply (Hnd12 x Hx). by right.
  - apply NoDup_app. split_and!; [done| |done]. intros x Hx Hx'. apply (Hnd12 x Hx). by right.
  - rewrite length_app. cbn. lia.
  - rewrite length_app. lia.
  - intros x m Hx Hin. find_node; [done|]. destruct (Hr2 x m Hx) as (m' & Hx' & _ & Hf).
    rewrite Hin in Hf. specialize (Hflag x m' Hx' Hf). apply elem_of_app in Hflag as [?|[->|?]%elem_of_cons]; [..|done|].
    + apply elem_of_app. by left.
    + apply elem_of_app. by right.
  - rewrite dom_insert_lookup_L by eauto. congruence.
Qed.

Lemma delete_spec env s h r c :
  represents s r -> c ∈ allocated r ->
  wp (client_list_delete c) (fun b s' h' => exists r', step r (Delete c) (Removed b) r' /\ critical s h s' h' r') env s h.
Proof.
  intros Hr Hc. destruct (allocated_node s r c Hr Hc) as [n Hn].
  pose proof (represents_bounds s r Hr) as Hb. pose proof Hr as [Hs Hnd Hcount Hbound Hflag Hdom Hq Hm].
  destruct s as [g H0 p]; cbn [globals heap client_list] in *.
  unfold client_list_delete. do 5 heap_step.
  - do 3 heap_step. exists r. split; [|split_and!; [done|done|by apply recounted_same|eapply (critical_section _ []), traced_nil]].
    constructor. intros Hin. destruct (member_allocated _ r c Hr Hin) as (m & Hm' & Hf). cbn in Hm'. simplify_eq.
    by rewrite Hf in Heqb.
  - apply negb_false_iff in Heqb. pose proof (Hflag c n Hn Heqb) as (before & after & Hl)%list_elem_of_split.
    rewrite Hl in Hs, Hnd, Hcount. apply seg_app in Hs as (m & Hbefore & -> & n0 & Hn0 & Hprev & _ & Hafter).
    rewrite Hn in Hn0. injection Hn0 as <-.
    apply NoDup_app in Hnd as (Hnd1 & Hnd12 & [Hca Hnd2]%NoDup_cons).
    assert (c ∉ before) as Hcb by (intros Hin; apply (Hnd12 c Hin); by left).
    rewrite Hprev. apply wp_bind. eapply bypass_prev; [exact Hbefore|exact Hnd1|]. intros H1 Hs1 Hkeep1 Hrel1.
    assert (H1 !! c = Some n) as Hn1 by (by rewrite Hkeep1).
    do 2 heap_step. rewrite Hprev. apply wp_bind. eapply bypass_next; [|exact Hnd2|].
    { eapply seg_agree; [|exact Hafter]. intros x Hx. apply Hkeep1. intros Hx'. apply (Hnd12 x Hx'). by right. }
    intros H2 Hs2 Hkeep2 Hrel2. assert (H2 !! c = Some n) as Hn2 by (by rewrite Hkeep2).
    do 2 heap_step. apply wp_bind. eapply bypass_head; [done..|]. repeat heap_step.
    rewrite !insert_insert_eq. replace (0 <? number_clients g) with true by (rewrite length_app in Hcount; cbn in Hcount; lia).
    eexists. split; [by econstructor|]. unfold critical. split_and!.
    + eapply represents_removed; try done. by etrans.
    + cbn [heap]. etrans; [by apply relinked_data; etrans|]. eapply data_kept_insert; [done|split; [done|by left]].
    + unfold recounted. cbn. f_equal. rewrite length_app in *. cbn in Hcount. lia.
    + eapply (critical_section _ []), traced_nil.
Qed.

Lemma free_spec env s h r c :
  represents s r -> legal r (Free c) ->
  wp (free_client c) (fun _ s' h' =>
    step r (Free c) Freed (Registry (members r) (allocated r ∖ {[c]}) (quiesced r)) /\
    represents s' (Registry (members r) (allocated r ∖ {[c]}) (quiesced r)) /\
    s' = set_heap (delete c (heap s)) s /\ h' = Ev (free true) (env h (free true)) :: h) env s h.
Proof.
  intros Hr [Hc Hnew]. destruct (allocated_node s r c Hr Hc) as [n Hn].
  pose proof Hr as [Hs Hnd Hcount Hbound Hflag Hdom Hq Hm].
  destruct s as [g H0 p]; cbn [globals heap client_list] in *.
  unfold free_client. heap_step. eapply wp_deref; [exact Hn|]. repeat heap_step. subst.
  split_and!; [constructor| |done|done].
  split; cbn [globals heap client_list members allocated quiesced]; try done.
  - eapply seg_agree; [|exact Hs]. intros x Hx. apply lookup_delete_ne. intros ->. done.
  - intros x m [? Hx]%lookup_delete_Some. by apply Hflag.
  - by rewrite dom_delete_L, Hdom.
Qed.

(** * Aborting the clients *)

(** The structures of the clients of a list. *)
Definition nodes_of (H0 : gmap loc node) (l : list loc) : list node := omap (fun c => H0 !! c) l.

Lemma nodes_of_cons H0 c n l : H0 !! c = Some n -> nodes_of H0 (c :: l) = n :: nodes_of H0 l.
Proof. intros Hc. unfold nodes_of. cbn. by rewrite Hc. Qed.

Lemma nodes_of_agree (H0 H1 : gmap loc node) l :
  (forall x, x ∈ l -> H1 !! x = H0 !! x) -> nodes_of H1 l = nodes_of H0 l.
Proof.
  unfold nodes_of. induction l as [|c l IH]; intros Hl; [done|]. cbn. rewrite Hl by left.
  by rewrite IH by (intros x Hx; apply Hl; by right).
Qed.

(** The calls that abort one client: those of [client_list_thread_end] and those
    of [ftpvita_abort_clients]. *)
Definition socket_aborts (flags sockfd : Z) : list call :=
  if 0 <=? sockfd then [sceNetSocketAbort sockfd flags] else [].

Definition connection_aborts (i : client) : list call :=
  sceNetSocketAbort (ctrl_sockfd i) SCE_NET_SOCKET_ABORT_FLAG_RCV_PRESERVATION ::
  match data_con_type i with
  | FTP_DATA_CONNECTION_NONE => []
  | FTP_DATA_CONNECTION_ACTIVE => socket_aborts abort_flags (data_sockfd i)
  | FTP_DATA_CONNECTION_PASSIVE => socket_aborts abort_flags (data_sockfd i) ++ socket_aborts abort_flags (pasv_sockfd i)
  end.

Definition all_aborts (i : client) : list call :=
  socket_aborts abort_flags (ctrl_sockfd i) ++ socket_aborts abort_flags (data_sockfd i) ++
  socket_aborts abort_flags (pasv_sockfd i).

Lemma abort_socket_spec fd flags env s h :
  wp (abort_socket fd flags) (fun _ s' h' => s' = s /\ traced (socket_aborts flags fd) h h') env s h.
Proof.
  unfold abort_socket, socket_aborts. destruct (0 <=? fd); repeat heap_step; (split; [done|]).
  - apply traced_call.
  - apply traced_nil.
Qed.

Lemma abort_connection_spec i env s h :
  wp (abort_connection i) (fun _ s' h' => s' = s /\ traced (connection_aborts i) h h') env s h.
Proof.
  unfold abort_connection, connection_aborts. do 2 heap_step.
  destruct (data_con_type i) eqn:E; cbn [decide]; rewrite ?decide_True, ?decide_False by done.
  - apply wp_ret. split; [done|]. apply traced_call.
  - apply wp_bind. eapply wp_mono; [apply abort_socket_spec|]. intros _ s' h' [-> Ht].
    apply wp_ret. split; [done|]. by eapply traced_cons.
  - apply wp_bind. eapply wp_mono; [apply abort_socket_spec|]. intros _ s' h' [-> Ht].
    eapply wp_mono; [apply abort_socket_spec|]. intros _ s' h'' [-> Ht'].
    split; [done|]. eapply traced_cons, traced_app; done.
Qed.

Lemma abort_sockets_spec i env s h :
  wp (abort_sockets i) (fun _ s' h' => s' = s /\ traced (all_aborts i) h h') env s h.
Proof.
  unfold abort_sockets, all_aborts. do 2 (apply wp_bind; eapply wp_mono; [apply abort_socket_spec|]; intros _ ? ? [-> ?]).
  eapply wp_mono; [apply abort_socket_spec|]. intros _ ? ? [-> ?]. split; [done|]. eapply traced_app; [done|].
  by eapply traced_app.
Qed.

(** [H1] is [H0] with the clients of [l] marked as detached. *)
Definition detached_from (H0 H1 : gmap loc node) (l : list loc) : Prop :=
  dom H1 = dom H0 /\ data_kept H0 H1 /\
  (forall x n1, H1 !! x = Some n1 -> in_client_list n1 = true ->
     (x ∉ l) /\ (exists n, H0 !! x = Some n /\ in_client_list n = true)).

Lemma detached_cons (H0 H1 : gmap loc node) c n l :
  H0 !! c = Some n -> detached_from (<[c := set_in_client_list false n]> H0) H1 l -> detached_from H0 H1 (c :: l).
Proof.
  intros Hc (Hd & Hk & Hf). split_and!.
  - rewrite Hd. same_dom.
  - etrans; [|exact Hk]. eapply data_kept_insert; [done|split; [done|by left]].
  - intros x n1 Hx Hin. destruct (Hf x n1 Hx Hin) as (Hxl & m & Hm & Hfm). find_node; try done.
    split; [|by eauto]. intros [?|?]%elem_of_cons; done.
Qed.

Lemma detach_loop_spec room l b it env g p (H0 : gmap loc node) h :
  seg H0 b it l NULL -> NoDup l -> (length l <= room)%nat ->
  wp (detach_loop room it) (fun thids s' h' =>
    thids = thid <$> nodes_of H0 l /\
    (exists H1, s' = Server g H1 p /\ detached_from H0 H1 l) /\
    traced (concat (connection_aborts ∘ info <$> nodes_of H0 l)) h h') env (Server g H0 p) h.
Proof.
  revert l b it H0 h. induction room as [|room IH]; intros l b it H0 h Hs Hnd Hlen.
  - destruct l; [|cbn in Hlen; lia]. apply wp_ret. split_and!; [done| |apply traced_nil]. exists H0. split; [done|].
    split_and!; [done|done|]. intros x n1 Hx Hin. split; [apply not_elem_of_nil|]. eauto.
  - destruct l as [|c l].
    { cbn in Hs. subst it. apply wp_ret. split_and!; [done| |apply traced_nil]. exists H0. split; [done|].
      split_and!; [done|done|]. intros x n1 Hx Hin. split; [apply not_elem_of_nil|]. eauto. }
    destruct Hs as (-> & n & Hn & _ & _ & Hs). apply NoDup_cons in Hnd as [Hc Hnd]. cbn [length] in Hlen.
    cbn [detach_loop]. do 2 heap_step. apply wp_bind. eapply wp_mono; [apply abort_connection_spec|].
    intros _ ? h1 [-> Ht1]. do 4 heap_step. cbn [next set_in_client_list]. apply wp_bind. eapply wp_mono.
    { apply (IH l (Some c) (next n)); [by apply seg_insert_ne|done|lia]. }
    intros thids s' h' (-> & (H1 & -> & Hdet) & Ht2). apply wp_ret.
    assert (nodes_of (<[c:=set_in_client_list false n]> H0) l = nodes_of H0 l) as Hsame.
    { apply nodes_of_agree. intros x Hx. apply lookup_insert_ne. intros ->. done. }
    rewrite Hsame in *. rewrite (nodes_of_cons H0 c n l Hn).
    split_and!; [done|exists H1; split; [done|]; by eapply detached_cons|].
    rewrite fmap_cons. cbn [concat]. by eapply traced_app.
Qed.

Lemma detach_spec env s h r :
  represents s r ->
  wp detach_clients (fun thids s' h' =>
    represents s' (Registry [] (allocated r) (quiesced r)) /\ data_kept (heap s) (heap s') /\
    globals s' = set_transfer_active 0 (set_number_clients 0 (globals s)) /\
    thids = thid <$> nodes_of (heap s) (members r) /\
    traced (sceKernelLockMutex (client_list_mtx (globals s)) ::
            concat (connection_aborts ∘ info <$> nodes_of (heap s) (members r)) ++
            [sceKernelUnlockMutex (client_list_mtx (globals s))]) h h') env s h.
Proof.
  intros Hr. pose proof Hr as [Hs Hnd Hcount Hbound Hflag Hdom Hq Hm].
  destruct s as [g H0 p]; cbn [globals heap client_list] in *.
  unfold detach_clients. do 4 heap_step. apply wp_bind. eapply wp_mono.
  { eapply (detach_loop_spec (Z.to_nat MAX_CLIENTS)); [exact Hs|exact Hnd|lia]. }
  intros thids ? h1 (-> & (H1 & -> & Hd & Hk & Hf) & Ht). repeat heap_step.
  split_and!; [|done|done|done|by eapply critical_section].
  split; cbn [globals heap client_list members allocated quiesced]; try done.
  - constructor.
  - intros x n Hx Hin. destruct (Hf x n Hx Hin) as (Hnot & m & Hx' & Hin'). exfalso. apply Hnot. by eapply Hflag.
  - congruence.
Qed.

Lemma abort_loop_spec fuel l b it aborted env s h :
  seg (heap s) b it l NULL -> (length l <= fuel)%nat -> 0 <= aborted -> aborted + Z.of_nat (length l) < 2 ^ 31 ->
  wp (abort_loop fuel it aborted) (fun n s' h' =>
    n = aborted + Z.of_nat (length l) /\ s' = s /\
    traced (concat (all_aborts ∘ info <$> nodes_of (heap s) l)) h h') env s h.
Proof.
  revert l b it aborted h. induction fuel as [|fuel IH]; intros l b it aborted h Hs Hlen H0 Hmax.
  - destruct l; [|cbn in Hlen; lia]. cbn in Hs. subst it. apply wp_ret. split_and!; [cbn; lia|done|apply traced_nil].
  - destruct l as [|c l].
    { cbn in Hs. subst it. apply wp_ret. split_and!; [cbn; lia|done|apply traced_nil]. }
    destruct Hs as (-> & n & Hn & _ & _ & Hs). cbn [length] in *.
    cbn [abort_loop]. apply wp_bind. eapply wp_deref; [done|]. apply wp_bind.
    eapply wp_mono; [apply abort_sockets_spec|]. intros _ ? h1 [-> Ht1].
    rewrite s32_small by lia. eapply wp_mono; [apply (IH l (Some c)); [done|lia..]|].
    intros k s' h' (-> & -> & Ht2). split_and!; [lia|done|].
    rewrite (nodes_of_cons _ c n l Hn), fmap_cons. cbn [concat]. by eapply traced_app.
Qed.

(** The members fit in the heap. *)
Lemma members_fit s r : represents s r -> (length (members r) <= size (heap s))%nat.
Proof.
  intros Hr. pose proof (rep_nodup s r Hr) as Hnd.
  rewrite <-(size_list_to_set (C := gset loc)) by done. rewrite <-size_dom. apply subseteq_size.
  intros x Hx%elem_of_list_to_set. destruct (member_allocated s r x Hr Hx) as (n & Hn & _). by eapply elem_of_dom_2.
Qed.

Lemma abort_spec env s h r :
  represents s r ->
  wp ftpvita_abort_clients (fun n s' h' =>
    s' = s /\ step r AbortAll (Aborted n) r /\
    let mtx := client_list_mtx (globals s) in
    if env h (sceKernelLockMutex mtx) <? 0 then n = -1 /\ traced [sceKernelLockMutex mtx] h h'
    else n = number_clients (globals s) /\
         traced (sceKernelLockMutex mtx :: concat (all_aborts ∘ info <$> nodes_of (heap s) (members r)) ++
                 [sceKernelUnlockMutex mtx]) h h') env s h.
Proof.
  intros Hr. pose proof (rep_mutex s r Hr) as Hm. unfold ftpvita_abort_clients. do 2 heap_step.
  replace (client_list_mtx (globals s) <? 0) with false by lia. cbv iota. do 2 heap_step. subst a.
  destruct (env h (sceKernelLockMutex (client_list_mtx (globals s))) <? 0).
  - heap_step. split_and!; [done|constructor|done|apply traced_call].
  - do 2 heap_step. apply wp_bind. eapply wp_mono.
    { eapply abort_loop_spec; [exact (rep_seg s r Hr)|by apply members_fit|lia|].
      pose proof (rep_bound s r Hr). unfold MAX_CLIENTS in *. lia. }
    intros n s' h' (-> & -> & Ht). repeat heap_step. rewrite Z.add_0_l.
    split_and!; [done|constructor|symmetry; by apply rep_count|by eapply critical_section].
Qed.

(** A client that was removed is not a member any more. *)
Lemma step_delete_out r c b r' :
  NoDup (members r) -> step r (Delete c) (Removed b) r' -> (c ∉ members r') /\ allocated r' = allocated r.
Proof.
  intros Hnd Hs. inversion Hs as [| |c' before after E| | | | |]; subst; [|done]. split; [|done].
  rewrite E in Hnd. apply NoDup_app in Hnd as (_ & Hb & [Ha _]%NoDup_cons). cbn.
  intros [Hin|Hin]%elem_of_app; [|done]. by destruct (Hb c Hin); left.
Qed.

(** * The refinement *)

Lemma operation_refines env s h r op :
  represents s r -> legal r op ->
  wp (run_operation op) (fun reply s' h' =>
    exists r', step r op reply r' /\ represents s' r' /\ data_kept (heap s) (heap s')) env s h.
Proof.
  intros Hr Hlegal. destruct op as [c|c|c| |]; cbn [run_operation].
  - destruct Hlegal as [Hc Hnew]. apply wp_bind. eapply wp_mono; [by apply add_spec|].
    intros b s' h' (r' & Hstep & Hr' & Hk & _). apply wp_ret. eauto.
  - apply wp_bind. eapply wp_mono; [by apply delete_spec|].
    intros b s' h' (r' & Hstep & Hr' & Hk & _). apply wp_ret. eauto.
  - apply wp_bind. eapply wp_mono; [by apply free_spec|].
    intros _ s' h' (Hstep & Hr' & -> & _). apply wp_ret. eexists. split; [done|split; [done|]].
    intros x n. unfold set_heap. cbn [heap]. intros [_ Hx]%lookup_delete_Some. exists n. done.
  - apply wp_bind. eapply wp_mono; [by apply abort_spec|].
    intros n s' h' (-> & Hstep & _). apply wp_ret. exists r. by split_and!.
  - apply wp_bind. eapply wp_mono; [by apply detach_spec|].
    intros thids s' h' (Hr' & Hk & _). apply wp_ret. eexists. split_and!; [constructor|done|done].
Qed.
End registry.

(** * Properties *)

(** C3: the client list is a refinement of the registry. Whatever sequence of
    registrations, removals, aborts, teardowns and releases the threads perform
    under the mutex, as long as none registers a client twice or frees a
    registered one, the pointer code runs without touching null or freed memory
    and terminates, every reply it gives is a reply of the registry, and the list
    it leaves represents the registry's: at most eight clients, a registration
    refused exactly when it is full or a reboot is prepared, a removal owned by
    the caller exactly when the client was still registered, and
    [number_clients] the number of clients. Nothing of a client but its links
    and its restart offset changes. *)
Theorem client_list_refines `{Sdk} env s h r ops :
  represents s r -> safe r ops ->
  wp (run_operations ops) (fun replies s' h' =>
    exists r', steps r ops replies r' /\ represents s' r' /\ data_kept (heap s) (heap s')) env s h.
Proof.
  revert s h r. induction ops as [|op ops IH]; intros s h r Hr Hsafe; cbn [run_operations].
  - apply wp_ret. exists r. split_and!; [constructor|done|done].
  - destruct Hsafe as [Hlegal Hsafe]. apply wp_bind. eapply wp_mono; [by apply operation_refines|].
    intros reply s1 h1 (r1 & Hstep & Hr1 & Hk1). apply wp_bind. eapply wp_mono; [apply IH; [done|by eapply Hsafe]|].
    intros replies s2 h2 (r2 & Hsteps & Hr2 & Hk2). apply wp_ret.
    exists r2. split_and!; [by econstructor|done|by etrans].
Qed.

(** Two allocated clients: both are registered, one is removed and freed, the
    teardown detaches the other, which then finds itself removed. *)
Definition demo_node (fd : Z) : node :=
  Node (Client fd fd (-1) FTP_DATA_CONNECTION_NONE (SockaddrIn 0 0) (SockaddrIn 0 0) (-1) 0 [] NULL [] [] false 0)
    (fd + 100) (SockaddrIn 0 0) NULL NULL false.
Definition demo_server : server :=
  Server (set_client_list_mtx 9 ftp_initial) {[1%positive := demo_node 4; 2%positive := demo_node 5]} NULL.
Definition demo_registry : registry := Registry [] {[1%positive; 2%positive]} false.
Definition demo_operations : list operation :=
  [Add 1; Add 2; AbortAll; Delete 1; Free 1; DetachAll; Delete 2]%positive.

Definition demo_replies : list reply :=
  [Registered true; Registered true; Aborted 2; Removed true; Freed; Detached; Removed false].
Definition replies_of (o : outcome (list reply * server * history)) : list reply :=
  match o with Done (replies, _, _) => replies | _ => [] end.

(** The replies the registry can give, one operation after the other. *)
Ltac by_decision := apply (bool_decide_unpack _); vm_compute; exact I.
Ltac demo_step :=
  split; [cbn [legal]; try split; first [exact I | by_decision]|];
  let H := fresh in intros ? ? H; inversion H; subst; clear H;
  cbn [members allocated quiesced] in *;
  repeat match goal with
  | H : false = true |- _ => discriminate H
  | H : true = false |- _ => discriminate H
  | H : MAX_CLIENTS <= _ |- _ => exfalso; vm_compute in H; tauto
  | H : _ \/ _ |- _ => destruct H
  | H : ?c ∉ _ |- _ => exfalso; apply H; by_decision
  | H : _ :: _ = ?l ++ _ :: _ |- _ => destruct l; cbn in H; simplify_eq
  | H : [] = ?l ++ _ :: _ |- _ => by destruct l
  end.

Lemma demo_represents : represents demo_server demo_registry.
Proof.
  split; try (vm_compute; done); try constructor.
  intros c n Hc Hin. unfold demo_server in Hc. cbn in Hc.
  apply lookup_insert_Some in Hc as [[<- <-]|[_ [_ <-]%lookup_singleton_Some]]; done.
Qed.

Lemma client_list_refines_witness :
  exists s' h' r', run_operations (H := demo_sdk) demo_operations silent demo_server [] = Done (demo_replies, s', h') /\
    steps demo_registry demo_operations demo_replies r' /\ represents s' r'.
Proof.
  pose proof demo_represents as Hr.
  assert (safe demo_registry demo_operations) as Hs.
  { unfold demo_operations, demo_registry. repeat demo_step. all: exact I. }
  pose proof (client_list_refines (H := demo_sdk) silent demo_server [] demo_registry demo_operations Hr Hs) as Hw.
  apply wp_done in Hw as (replies & s' & h' & E & r' & Hsteps & Hr' & _).
  assert (replies_of (run_operations (H := demo_sdk) demo_operations silent demo_server []) = demo_replies) as Hreplies
    by (vm_compute; reflexivity).
  rewrite E in Hreplies. cbn [replies_of] in Hreplies. subst replies. exists s', h', r'. exact (conj E (conj Hsteps Hr')).
Defined.
