(* ===== verification/CmdDefs.v ===== *)
(** The commands of the command server: src/cmd_definitions.c.

    A command is given its words and the response buffer, and leaves a response
    there.  The buffer is a [char] array of [res_msg_size] bytes that holds a C
    string, the list of the bytes before its terminator; every write to it is an
    [snprintf] with the size of the array.  The words of [arg_list] are the C
    strings its pointers point to. *)

From S2P Require Import Prelude System Sha1 PackageFormat Package FtpState ClientList.

(** The statics of the file, with those of the FTP server. *)
Record console := Console {
ftpvita : server;
shellShot : Z;                       (* a function pointer: 0 is null *)
shellshot_initialized : bool;
shellshot_available : bool
}.

Definition set_ftpvita (v : server) (s : console) : console :=
  Console v (shellShot s) (shellshot_initialized s) (shellshot_available s).
Definition set_shellShot (v : Z) (s : console) : console :=
  Console (ftpvita s) v (shellshot_initialized s) (shellshot_available s).
Definition set_shellshot_initialized (v : bool) (s : console) : console :=
  Console (ftpvita s) (shellShot s) v (shellshot_available s).
Definition set_shellshot_available (v : bool) (s : console) : console :=
  Console (ftpvita s) (shellShot s) (shellshot_initialized s) v.

Abbreviation K := (M console).

Definition on_ftpvita {A} (m : M server A) : K A := zoom ftpvita set_ftpvita m.
Definition on_ftp {A} (m : M ftp A) : K A := on_ftpvita (on_globals m).
Definition on_disk {A} (m : M unit A) : K A := zoom (fun _ => tt) (fun _ s => s) m.

(** * Responses *)

(** A line of text. *)
Definition line (s : string) : bytes := lit s ++ [LF].

Definition append_response (res_msg : bytes) (res_msg_size : Z) (text : bytes) : bytes :=
  let used := Z.of_nat (length res_msg) in
  if res_msg_size <=? used then res_msg
  else res_msg ++ snprintf (res_msg_size - used) text.

(** [arg_list[i]]: reading a pointer that was not filled in is undefined. *)
Definition argument (arg_list : list bytes) (i : nat) : outcome bytes :=
  match arg_list !! i with Some w => Done w | None => Undefined end.

(** * The table *)

Inductive cmd_executor :=
| exec_version | exec_help | exec_destroy | exec_foreground | exec_install | exec_launch
| exec_kill | exec_ftpstatus | exec_ftpreset | exec_reboot | exec_screen | exec_battery | exec_screenshot.

#[export] Instance cmd_executor_eq_dec : EqDecision cmd_executor.
Proof. solve_decision. Defined.

Record cmd_definition := Definition_ {
cmd_name : bytes;
description : bytes;
arg_count : Z;
executor : cmd_executor
}.

Definition cmd_definitions : list cmd_definition := [
  Definition_ (lit "version") (lit "Show protocol and hardening version") 0 exec_version;
  Definition_ (lit "help") (lit "Display this help screen") 0 exec_help;
  Definition_ (lit "destroy") (lit "Kill all running applications") 0 exec_destroy;
  Definition_ (lit "foreground") (lit "Show the foreground title ID") 0 exec_foreground;
  Definition_ (lit "install") (lit "Install and promote a VPK") 1 exec_install;
  Definition_ (lit "launch") (lit "Launch an app by Title ID") 1 exec_launch;
  Definition_ (lit "kill") (lit "Kill an app by Title ID") 1 exec_kill;
  Definition_ (lit "ftpstatus") (lit "Show FTP clients and transfer state") 0 exec_ftpstatus;
  Definition_ (lit "ftpreset") (lit "Abort stranded FTP clients") 0 exec_ftpreset;
  Definition_ (lit "reboot") (lit "Reboot only when FTP is quiescent") 0 exec_reboot;
  Definition_ (lit "screen") (lit "Turn the screen on or off") 1 exec_screen;
  Definition_ (lit "battery") (lit "Show battery percentage") 0 exec_battery;
  Definition_ (lit "screenshot") (lit "Trigger a SceShell screenshot") 0 exec_screenshot
].

Definition cmd_get_definition (name : bytes) : ptr cmd_definition :=
  snd <$> list_find (fun d => name = cmd_name d) cmd_definitions.

(** * Title ids *)

(** [char] arithmetic on an ASCII lower case letter. *)
Definition upper (c : Z) : Z := if (97 <=? c) && (c <=? 122) then c - 32 else c.

Fixpoint title_ids_equal (a b : bytes) : bool :=
  match a, b with
  | left_char :: a, right_char :: b => if upper left_char =? upper right_char then title_ids_equal a b else false
  | [], [] => true
  | _, _ => false
  end.

Definition SCE_APPMGR_APP_ID_ACTIVE : Z := -4.
Definition LAUNCH_CONFIRM_ATTEMPTS : nat := 80.
Definition LAUNCH_CONFIRM_INTERVAL_US : Z := 100 * 1000.

Section commands.
Context `{Sdk}.

Definition FOREGROUND_TITLE_ID_SIZE : Z := SCE_APPMGR_MAX_APP_NAME_LENGTH + 1.

(** The result and the C string left in [title_id], an array of [title_id_size]
    bytes that held [old]. *)
Definition get_foreground_title_id (old : bytes) (title_id_size : Z) : K (Z * bytes) :=
  if title_id_size <? FOREGROUND_TITLE_ID_SIZE then mret (SCE_APPMGR_ERROR_INVALID, old)
  else
    let title_id := replicate (Z.to_nat title_id_size) 0 in
    app_id ← sys (sceAppMgrGetAppIdByAppId SCE_APPMGR_APP_ID_ACTIVE);
    if app_id <=? 0 then mret (0, snprintf title_id_size (lit "main"))
    else
      pid ← sys (sceAppMgrGetProcessIdByAppIdForShell app_id);
      if pid <? 0 then mret (pid, [])
      else
        '(result, name) ← sys (sceAppMgrGetNameById pid);
        if title_id_size <? Z.of_nat (length name) then lift Undefined
        else
          title_id ← lift (store (name ++ drop (length name) title_id) (title_id_size - 1) NUL);
          text ← lift (cstr title_id);
          mret (result, text).

(** * The commands *)

Abbreviation executes := (list bytes -> bytes -> Z -> K bytes).

Definition cmd_version : executes := fun arg_list res_msg res_msg_size =>
  mret (snprintf res_msg_size (line
    ("VitaCompanion-vitadeck protocol=4 hardening=9 " ++
     "ftp=LIST,REST_SAFE,BOUNDED_IO,TIMED_IO,SINGLE_FLIGHT,SAFE_REBOOT,RECOVERABLE_CLIENTS,RETR_EXTENT,RETR_ERRORS,STOR_SAFE,CMD_FRAMED " ++
     "app=FOREGROUND,CONFIRMED_LAUNCH,VPK_INSTALL")%string)).

Fixpoint help_entries (l : list cmd_definition) (res_msg : bytes) (res_msg_size : Z) : bytes :=
  match l with
  | [] => res_msg
  | d :: l =>
      help_entries l
        (append_response res_msg res_msg_size (lit "; " ++ cmd_name d ++ lit " - " ++ description d)) res_msg_size
  end.

Definition cmd_help : executes := fun arg_list res_msg res_msg_size =>
  let res_msg := append_response res_msg res_msg_size (lit "Commands") in
  let res_msg := help_entries cmd_definitions res_msg res_msg_size in
  mret (append_response res_msg res_msg_size [LF]).

Definition cmd_kill : executes := fun arg_list res_msg res_msg_size =>
  name ← lift (argument arg_list 1);
  r ← sys (sceAppMgrDestroyAppByName name);
  if r <? 0 then mret (snprintf res_msg_size (line "Error: cannot kill the app. Is the TITLEID correct?"))
  else mret (snprintf res_msg_size (line "Killed.")).

Definition cmd_destroy : executes := fun arg_list res_msg res_msg_size =>
  sys sceAppMgrDestroyOtherApp;;
  mret (snprintf res_msg_size (line "Apps destroyed.")).

Definition cmd_foreground : executes := fun arg_list res_msg res_msg_size =>
  '(result, title_id) ← get_foreground_title_id [] FOREGROUND_TITLE_ID_SIZE;
  if result <? 0 then
    mret (snprintf res_msg_size (lit "Error: cannot read foreground title ID (0x" ++ fmt_08X result ++ line ")."))
  else mret (snprintf res_msg_size (lit "Foreground: " ++ title_id ++ [LF])).

(** [install_fuel] and [context] are those of [install_vpk]. *)
Definition cmd_install (install_fuel : nat) (context : SHA1_CTX) : executes := fun arg_list res_msg res_msg_size =>
  path ← lift (argument arg_list 1);
  '(result, title_id) ← on_disk (install_vpk install_fuel context (Some path) true 12);
  if result <? 0 then
    mret (snprintf res_msg_size (lit "Error: VPK installation failed (0x" ++ fmt_08X result ++ line ")."))
  else mret (snprintf res_msg_size (lit "Installed: " ++ default [] title_id ++ [LF])).

(** The polling loop: the name found if the launch was confirmed, or the last one seen. *)
Fixpoint confirm_launch (attempts : nat) (title : bytes) (foreground : bytes) : K (bool * bytes) :=
  match attempts with
  | O => mret (false, foreground)
  | S attempts =>
      '(result, foreground) ← get_foreground_title_id foreground FOREGROUND_TITLE_ID_SIZE;
      if (0 <=? result) && title_ids_equal foreground title then mret (true, foreground)
      else
        sys (sceKernelDelayThread LAUNCH_CONFIRM_INTERVAL_US);;
        confirm_launch attempts title foreground
  end.

Definition cmd_launch : executes := fun arg_list res_msg res_msg_size =>
  title ← lift (argument arg_list 1);
  let text := lit "psgm:play?titleid=" ++ title in
  let uri := snprintf 32 text in
  let uri_length := snprintf_ret text in
  if (uri_length <? 0) || (32 <=? uri_length) then
    mret (snprintf res_msg_size (line "Error: TITLEID is too long."))
  else
    result ← sys (sceAppMgrLaunchAppByUri 0x20000 uri);
    if result <? 0 then
      mret (snprintf res_msg_size
        (lit "Error: launch request failed for " ++ title ++ lit " (0x" ++ fmt_08X result ++ line ")."))
    else
      '(confirmed, foreground) ← confirm_launch LAUNCH_CONFIRM_ATTEMPTS title (lit "unknown");
      if (confirmed : bool) then mret (snprintf res_msg_size (lit "Launched: " ++ foreground ++ [LF]))
      else
        mret (snprintf res_msg_size
          (lit "Error: launch of " ++ title ++ lit " was not confirmed; foreground=" ++ foreground ++ line ".")).

Definition cmd_reboot : executes := fun arg_list res_msg res_msg_size =>
  '(ok, clients, transfer) ← on_ftp (ftpvita_prepare_for_reboot (0, 0));
  if negb ok then
    mret (snprintf res_msg_size
      (lit "Error: FTP busy; reboot refused (clients=" ++ fmt_d clients ++ lit " transfer=" ++ fmt_d transfer ++ line ")."))
  else
    let res_msg := snprintf res_msg_size (line "Rebooting...") in
    result ← sys scePowerRequestColdReset;
    if result <? 0 then
      on_ftp ftpvita_cancel_reboot;;
      mret (snprintf res_msg_size (lit "Error: cold reset request failed (0x" ++ fmt_08X result ++ line ")."))
    else mret res_msg.

Definition cmd_ftpstatus : executes := fun arg_list res_msg res_msg_size =>
  clients ← on_ftp ftpvita_get_active_client_count;
  transfer ← on_ftp ftpvita_has_active_transfer;
  guard ← on_ftp ftpvita_is_reboot_quiesced;
  failures ← on_ftp ftpvita_get_socket_timeout_failure_count;
  mret (snprintf res_msg_size
    (lit "FTP clients=" ++ fmt_d clients ++ lit " transfer=" ++ fmt_d (Z.b2z transfer) ++
     lit " reboot_guard=" ++ fmt_d (Z.b2z guard) ++ lit " timeout_failures=" ++ fmt_d failures ++ [LF])).

Definition cmd_ftpreset : executes := fun arg_list res_msg res_msg_size =>
  clients ← on_ftp ftpvita_get_active_client_count;
  transfer ← on_ftp ftpvita_has_active_transfer;
  aborted ← on_ftpvita ftpvita_abort_clients;
  mret (snprintf res_msg_size
    (lit "FTP reset requested clients=" ++ fmt_d clients ++ lit " transfer=" ++ fmt_d (Z.b2z transfer) ++
     lit " aborted=" ++ fmt_d aborted ++ line ".")).

Definition cmd_screen : executes := fun arg_list res_msg res_msg_size =>
  state ← lift (argument arg_list 1);
  if decide (state = lit "on") then
    sys scePowerRequestDisplayOn;; mret (snprintf res_msg_size (line "Turning display on..."))
  else if decide (state = lit "off") then
    sys scePowerRequestDisplayOff;; mret (snprintf res_msg_size (line "Turning display off..."))
  else mret (snprintf res_msg_size (line "Error: param should be 'on' or 'off'")).

Definition cmd_battery : executes := fun arg_list res_msg res_msg_size =>
  percent ← sys scePowerGetBatteryLifePercent;
  charging ← sys scePowerIsBatteryCharging;
  if 0 <=? percent then
    mret (snprintf res_msg_size
      (lit "Battery: " ++ fmt_d percent ++ lit "% (" ++
       (if negb (charging =? 0) then lit "Charging" else lit "Not charging") ++ line ")"))
  else mret (snprintf res_msg_size (line "Error: Could not read battery percentage")).

(** * Screenshots *)

(** The result, with what was written through [stub_out]. *)
Definition module_get_offset (modid segidx offset : Z) (stub_out : bool) : K (Z * option Z) :=
  if 3 <? segidx then mret (-1, None)
  else if negb stub_out then mret (-2, None)
  else
    '(res, segments) ← sys (sceKernelGetModuleInfo modid);
    if res <? 0 then mret (res, None)
    else
      match (if 0 <=? segidx then segments !! Z.to_nat segidx else None) with
      | None => lift Undefined
      | Some seg =>
          if memsz seg <? u32 offset then mret (-3, None)
          else mret (0, Some (u32 (vaddr seg + offset)))
      end.

(** The offset of the routine in the known versions of the module. *)
Definition offset_shellshot (nid : Z) : option Z :=
  if nid =? 0x0552F692 then Some 0x14a928
  else if (nid =? 0x6CB01295) || (nid =? 0xEAB89D5C) then Some 0x142d5c
  else if nid =? 0x5549BF1F then Some 0x14a980
  else if (nid =? 0x34B4D82E) || (nid =? 0x12DAC0F3) || (nid =? 0x0703C828) || (nid =? 0x2053B5A5) ||
          (nid =? 0xF476E785) || (nid =? 0x939FFBE9) || (nid =? 0x734D476A) || (nid =? 0xE6A02F2B) ||
          (nid =? 0x587F9CED) then Some 0x142db4
  else None.

Definition init_shellshot : K unit :=
  initialized ← gets shellshot_initialized;
  if (initialized : bool) then mret tt
  else
    modify (set_shellshot_initialized true);;
    modify (set_shellshot_available false);;
    '(ret, tai_info) ← sys (taiGetModuleInfo (lit "SceShell"));
    if ret <? 0 then mret tt
    else
      match offset_shellshot (module_nid tai_info) return K unit with
      | None => mret tt
      | Some offset =>
          if offset <? 0 then mret tt
          else
            '(r, out) ← module_get_offset (modid tai_info) 0 (Z.lor offset 1) true;
            (match out with Some p => modify (set_shellShot p) | None => mret tt end);;
            if r <? 0 then modify (set_shellShot 0)
            else
              p ← gets shellShot;
              if negb (p =? 0) then modify (set_shellshot_available true) else mret tt
      end.

Definition cmd_screenshot : executes := fun arg_list res_msg res_msg_size =>
  init_shellshot;;
  s ← get;
  if negb (shellshot_available s) || (shellShot s =? 0) then
    mret (snprintf res_msg_size (line "[ERROR] shellShot() not available."))
  else
    ret ← sys (call_shellShot (shellShot s));
    mret (snprintf res_msg_size
      (if 0 <=? ret then lit "[OK] Screenshot triggered (0x" ++ fmt_08X ret ++ line ")."
       else lit "[ERROR] Screenshot trigger failed (0x" ++ fmt_08X ret ++ line ").")).

(** The function a row of the table points to. *)
Definition execute (install_fuel : nat) (context : SHA1_CTX) (e : cmd_executor) : executes :=
  match e with
  | exec_version => cmd_version
  | exec_help => cmd_help
  | exec_destroy => cmd_destroy
  | exec_foreground => cmd_foreground
  | exec_install => cmd_install install_fuel context
  | exec_launch => cmd_launch
  | exec_kill => cmd_kill
  | exec_ftpstatus => cmd_ftpstatus
  | exec_ftpreset => cmd_ftpreset
  | exec_reboot => cmd_reboot
  | exec_screen => cmd_screen
  | exec_battery => cmd_battery
  | exec_screenshot => cmd_screenshot
  end.
End commands.

(** * Texts *)

Definition nul_free (s : bytes) : Prop := Forall (fun c => c <> NUL) s.

Lemma nul_free_app s t : nul_free s -> nul_free t -> nul_free (s ++ t).
Proof. intros. by apply Forall_app. Qed.

Lemma nul_free_concrete s : forallb (fun c => negb (c =? NUL)) s = true -> nul_free s.
Proof.
  intros H. apply Forall_forall. intros c Hc. apply list_elem_of_In in Hc.
  rewrite forallb_forall in H. specialize (H c Hc). lia.
Qed.

Lemma decimal_digits_nul_free fuel z : 0 <= z -> nul_free (decimal_digits fuel z).
Proof.
  revert z. induction fuel as [|fuel IH]; intros z Hz; cbn [decimal_digits]; [constructor|].
  destruct (z <? 10) eqn:E; [constructor; [unfold NUL; lia|constructor]|].
  apply nul_free_app; [apply IH; apply Z.div_pos; lia|]. constructor; [unfold NUL|constructor].
  pose proof (Z.mod_pos_bound z 10). lia.
Qed.

Lemma fmt_d_nul_free z : nul_free (fmt_d z).
Proof.
  unfold fmt_d, fmt_u. destruct (z <? 0) eqn:E.
  - constructor; [done|]. apply decimal_digits_nul_free. lia.
  - apply decimal_digits_nul_free. lia.
Qed.

Lemma fmt_08X_nul_free z : nul_free (fmt_08X z).
Proof.
  unfold fmt_08X. apply Forall_fmap, Forall_forall. intros i _. cbn. unfold hex_digit, NUL.
  assert (0 <= Z.land (Z.shiftr (u32 z) (4 * i)) 15) by (apply Z.land_nonneg; lia).
  destruct (_ <? 10); lia.
Qed.

Lemma cstr_nul_free p s : cstr p = Done s -> nul_free s.
Proof. intros [Hs _]%cstr_terminated. done. Qed.

Lemma nul_free_snprintf size s : nul_free s -> nul_free (snprintf size s).
Proof. intros. unfold snprintf. by apply Forall_take. Qed.

Lemma valid_title_id_nul_free id : valid_title_id id = true -> nul_free id.
Proof.
  unfold valid_title_id. destruct (negb _); [done|]. intros H. apply Forall_forall. intros c Hc.
  apply list_elem_of_In in Hc. rewrite forallb_forall in H. specialize (H c Hc). unfold NUL. lia.
Qed.

#[export] Hint Resolve nul_free_app fmt_d_nul_free fmt_08X_nul_free cstr_nul_free nul_free_snprintf valid_title_id_nul_free : vita.
Ltac literal := apply nul_free_concrete; vm_compute; reflexivity.

(** A response: a C string that is not empty and fits its buffer. *)
Definition response_ok (size : Z) (res_msg : bytes) : Prop :=
  nul_free res_msg /\ res_msg <> [] /\ Z.of_nat (length res_msg) < size.

Lemma response_snprintf size t : 1 < size -> nul_free t -> t <> [] -> response_ok size (snprintf size t).
Proof.
  intros Hs Ht Hne. split_and!; [auto with vita| |]; unfold snprintf.
  - destruct t; [done|]. destruct (Z.to_nat (size - 1)) eqn:E; [lia|done].
  - rewrite length_take. lia.
Qed.

Lemma append_response_ok size res t :
  1 < size -> nul_free res -> nul_free t -> Z.of_nat (length res) < size -> res ++ t <> [] ->
  response_ok size (append_response res size t).
Proof.
  intros Hs Hr Ht Hlen Hne. unfold append_response. replace (size <=? Z.of_nat (length res)) with false by lia.
  split_and!; [auto with vita| |rewrite length_app; unfold snprintf; rewrite length_take; lia].
  intros [-> Hnil]%app_nil. unfold snprintf in Hnil. destruct t; [done|].
  destruct (Z.to_nat (size - Z.of_nat (length []) - 1)) eqn:E; [cbn in E; lia|done].
Qed.

(** * Title ids *)

Lemma title_ids_equal_iff a b : title_ids_equal a b = true <-> upper <$> a = upper <$> b.
Proof.
  revert b. induction a as [|x a IH]; intros [|y b]; cbn; try done.
  destruct (Z.eqb_spec (upper x) (upper y)) as [->|Hne].
  - rewrite IH. split; [by intros ->|by intros [=]].
  - split; [done|]. by intros [=].
Qed.

(** The C string in an array in which the console wrote a name. *)
Definition title_text `{Sdk} (name : bytes) : bytes :=
  take_while (fun c => negb (c =? NUL)) (take (Z.to_nat SCE_APPMGR_MAX_APP_NAME_LENGTH) name).

(** What the program relies on: the contract of the file system, the size of an
    application's name and the four segments of a module. *)
Record console_ok `{Sdk} (env : environment) : Prop := {
  disk_ok : io_ok env;
  name_max : 0 <= SCE_APPMGR_MAX_APP_NAME_LENGTH;
  name_ok h pid : Z.of_nat (length (snd (env h (sceAppMgrGetNameById pid)))) <= FOREGROUND_TITLE_ID_SIZE;
  segments_ok h m : length (snd (env h (sceKernelGetModuleInfo m))) = 4%nat
}.

(** The last thing the console said is that [title] is in the foreground. *)
Definition reported `{Sdk} (h : history) (title : bytes) : Prop :=
  match h with
  | Ev (sceAppMgrGetAppIdByAppId _) id :: _ => id <= 0 /\ title = snprintf FOREGROUND_TITLE_ID_SIZE (lit "main")
  | Ev (sceAppMgrGetNameById _) (r, name) :: _ => 0 <= r /\ title = title_text name
  | _ => False
  end.

Lemma cstr_take_while p : NUL ∈ p -> cstr p = Done (take_while (fun c => negb (c =? NUL)) p).
Proof.
  induction p as [|c p IH]; intros Hin; [by apply not_elem_of_nil in Hin|]. cbn [cstr take_while].
  destruct (Z.eqb_spec c NUL) as [->|Hc]; [done|].
  apply elem_of_cons in Hin as [Heq|Hin]; [congruence|]. by rewrite (IH Hin).
Qed.

Lemma take_while_take (f : Z -> bool) p k n : f 0 = false ->
  take_while f (take n p ++ 0 :: k) = take_while f (take n p).
Proof.
  intros H0. revert n. induction p as [|c p IH]; intros [|n]; cbn; rewrite ?H0; try done.
  destruct (f c); [by rewrite IH|done].
Qed.

Section foreground.
Context `{Sdk} (env : environment) (Hok : console_ok env).

(** The text left in [title_id] by a name of at most its size. *)
Lemma title_buffer name :
  Z.of_nat (length name) <= FOREGROUND_TITLE_ID_SIZE ->
  exists buffer, store (name ++ drop (length name) (replicate (Z.to_nat FOREGROUND_TITLE_ID_SIZE) 0))
      (FOREGROUND_TITLE_ID_SIZE - 1) NUL = Done buffer /\ cstr buffer = Done (title_text name).
Proof using Hok.
  intros Hlen. pose proof (name_max env Hok) as Hmax. unfold FOREGROUND_TITLE_ID_SIZE in *.
  set (n := Z.to_nat SCE_APPMGR_MAX_APP_NAME_LENGTH).
  replace (Z.to_nat (SCE_APPMGR_MAX_APP_NAME_LENGTH + 1)) with (S n) by lia.
  rewrite drop_replicate. set (rest := replicate (S n - length name) 0).
  assert (length (name ++ rest) = S n) as Hl by (unfold rest; rewrite length_app, length_replicate; lia).
  rewrite store_in by lia. eexists. split; [reflexivity|].
  replace (Z.to_nat (SCE_APPMGR_MAX_APP_NAME_LENGTH + 1 - 1)) with n by lia.
  rewrite insert_take_drop by lia. rewrite (drop_ge (name ++ rest)) by lia.
  rewrite cstr_take_while by (apply elem_of_app; right; by left). f_equal.
  unfold NUL. rewrite take_while_take by done.
  unfold title_text. fold n. destruct (decide (n <= length name)%nat).
  - by rewrite take_app_le.
  - rewrite (take_ge name) by lia. rewrite take_app_ge by lia. unfold rest. rewrite take_replicate.
    destruct ((n - length name) `min` (S n - length name))%nat as [|k] eqn:E; [lia|].
    pose proof (take_while_take (fun c => negb (c =? 0)) name (replicate k 0) (length name) eq_refl) as Ht.
    rewrite (take_ge name) in Ht by lia. exact Ht.
Qed.

Lemma foreground_spec {nofuel : Prop} old (s : console) h (Q : Z * bytes -> console -> history -> Prop) :
  (forall r title h', nul_free title -> (0 <= r -> reported h' title) ->
     (exists es, h' = es ++ h /\ Forall (fun e => forall us, ev_call e <> sceKernelDelayThread us) es) ->
     Q (r, title) s h') ->
  run_spec nofuel (get_foreground_title_id old FOREGROUND_TITLE_ID_SIZE) Q env s h.
Proof using Hok.
  intros HQ. unfold get_foreground_title_id. replace (_ <? _) with false by lia. cbv iota zeta.
  do 2 wp_step. destruct (a <=? 0) eqn:Ha.
  - apply wp_ret. apply HQ; [apply nul_free_snprintf; literal|intros _; cbn; split; [lia|done]|].
    eexists [_]. split; [reflexivity|]. by repeat constructor.
  - do 3 wp_step.
    + apply wp_ret. apply HQ; [constructor|lia|]. eexists [_; _]. split; [reflexivity|]. by repeat constructor.
    + do 2 wp_step. destruct a1 as [r name].
      match goal with E : (r, name) = env ?h' (sceAppMgrGetNameById ?pid) |- _ =>
        pose proof (name_ok env Hok h' pid) as Hname; rewrite <-E in Hname; cbn [snd] in Hname end.
      replace (_ <? _) with false by lia. cbv iota.
      destruct (title_buffer name Hname) as (buffer & Hstore & Htext).
      rewrite Hstore. do 2 wp_step. rewrite Htext. do 2 wp_step. apply wp_ret. apply HQ.
      * by eapply cstr_nul_free.
      * intros Hr. cbn. done.
      * eexists [_; _; _]. split; [reflexivity|]. by repeat constructor.
Qed.

Definition is_delay (c : call) : bool := match c with sceKernelDelayThread _ => true | _ => false end.

Lemma no_delays (es : list event) :
  Forall (fun e => forall us, ev_call e <> sceKernelDelayThread us) es -> filter (fun e => is_delay (ev_call e) = true) es = [].
Proof.
  induction 1 as [|e es He _ IH]; [done|]. rewrite filter_cons_False; [done|].
  destruct e as [[] a]; try done. by destruct (He us).
Qed.

(** At most [attempts] polls, each but a successful one followed by a delay. *)
Lemma confirm_spec attempts title fg (s : console) h :
  nul_free fg ->
  wp (confirm_launch attempts title fg) (fun '(confirmed, fg') s' h' =>
    s' = s /\ nul_free fg' /\
    exists es, h' = es ++ h /\
    let polls := length (filter (fun e => is_delay (ev_call e) = true) es) in
    if (confirmed : bool) then upper <$> fg' = upper <$> title /\ reported h' fg' /\ (polls < attempts)%nat
    else polls = attempts) env s h.
Proof using Hok.
  revert fg h. induction attempts as [|attempts IH]; intros fg h Hfg; cbn [confirm_launch].
  - apply wp_ret. split_and!; [done..|]. by exists [].
  - apply wp_bind. apply foreground_spec. intros r fg' h1 Hfg' Hrep (es & -> & Hes). cbn beta iota.
    destruct ((0 <=? r) && title_ids_equal fg' title) eqn:E.
    + apply wp_ret. apply andb_true_iff in E as [Hr Heq%title_ids_equal_iff].
      split_and!; [done..|]. exists es. rewrite (no_delays es Hes). cbn. split_and!; [done|done| |lia].
      apply Hrep. lia.
    + do 2 wp_step. eapply wp_mono; [by apply IH|]. intros [confirmed fg2] s' h' (-> & Hfg2 & es' & -> & Hpolls).
      split_and!; [done..|]. exists (es' ++ Ev (sceKernelDelayThread LAUNCH_CONFIRM_INTERVAL_US) a :: es).
      split; [by rewrite <-app_assoc|]. rewrite filter_app, length_app, filter_cons_True, (no_delays es Hes) by done. cbn.
      destruct confirmed; [destruct Hpolls as (? & ? & ?); split_and!; [done..|]|]; lia.
Qed.
End foreground.

(** * What every command does *)

(** A command changes nothing of the FTP server but the reboot flag. *)
Definition requiesced (q : Z) (sv : server) : server := set_globals (set_reboot_quiesce_requested q (globals sv)) sv.

Lemma requiesced_same sv : requiesced (reboot_quiesce_requested (globals sv)) sv = sv.
Proof. by destruct sv as [[] ? ?]. Qed.

Lemma represents_requiesced q sv r :
  represents sv r -> represents (requiesced q sv) (Registry (members r) (allocated r) (negb (q =? 0))).
Proof. intros []. by split. Qed.

(** The outcome of a command: its response, and a server that changed at most
    in the reboot flag. *)
Definition served (size : Z) (s : console) (res : bytes) (s' : console) : Prop :=
  response_ok size res /\ exists q, ftpvita s' = requiesced q (ftpvita s).

Section executors.
Context `{Sdk} `{!Crc} (env : environment) (Hok : console_ok env).
Context (install_fuel : nat) (context : SHA1_CTX) (Hctx : block_ok (Sha1.data context)).
Context (size : Z) (Hsize : 1 < size).

Lemma served_same s res : response_ok size res -> served size s res s.
Proof using Type. intros Hres. split; [done|]. exists (reboot_quiesce_requested (globals (ftpvita s))). by rewrite requiesced_same. Qed.

Lemma served_text s t : nul_free t -> t <> [] -> served size s (snprintf size t) s.
Proof using Hsize. intros. by apply served_same, response_snprintf. Qed.

Lemma help_entries_ok l res :
  response_ok size res -> Forall (fun d => nul_free (cmd_name d) /\ nul_free (description d)) l ->
  response_ok size (help_entries l res size).
Proof using Hsize.
  intros Hres Hl. revert res Hres. induction Hl as [|d l [Hn Hd] _ IH]; intros res (Hnf & Hne & Hlen); cbn [help_entries]; [done|].
  apply IH, append_response_ok; try done.
  - repeat apply nul_free_app; try done; literal.
  - destruct res; done.
Qed.

Lemma table_texts : Forall (fun d => nul_free (cmd_name d) /\ nul_free (description d)) cmd_definitions.
Proof using Type. repeat (constructor; [split; literal|]). constructor. Qed.

Lemma help_ok : response_ok size (append_response (help_entries cmd_definitions (append_response [] size (lit "Commands")) size) size [LF]).
Proof using Hsize.
  assert (response_ok size (help_entries cmd_definitions (append_response [] size (lit "Commands")) size)) as (Hnf & Hne & Hlen).
  { apply help_entries_ok; [|apply table_texts]. apply append_response_ok; [done|constructor|literal|cbn; lia|done]. }
  apply append_response_ok; [done|done|literal|done|]. by destruct (help_entries _ _ _).
Qed.

Ltac texts :=
  lazymatch goal with
  | |- nul_free (_ ++ _) => apply nul_free_app; texts
  | |- nul_free (fmt_d _) => apply fmt_d_nul_free
  | |- nul_free (fmt_08X _) => apply fmt_08X_nul_free
  | |- nul_free (if ?b then _ else _) => destruct b; texts
  | |- nul_free (lit _) => literal
  | |- nul_free (line _) => literal
  | |- nul_free [LF] => literal
  | |- _ => eauto with vita
  end.
Ltac answer := apply wp_ret; apply served_text; [texts|done].

Lemma version_spec args s h : wp (cmd_version args [] size) (fun res s' _ => served size s res s') env s h.
Proof using Hsize. unfold cmd_version. answer. Qed.

Lemma help_spec args s h : wp (cmd_help args [] size) (fun res s' _ => served size s res s') env s h.
Proof using Hsize. unfold cmd_help. apply wp_ret, served_same, help_ok. Qed.

Lemma kill_spec name title s h :
  wp (cmd_kill [name; title] [] size) (fun res s' _ => served size s res s') env s h.
Proof using Hsize. unfold cmd_kill. cbn [argument lookup list_lookup]. do 5 wp_step; answer. Qed.

Lemma destroy_spec args s h : wp (cmd_destroy args [] size) (fun res s' _ => served size s res s') env s h.
Proof using Hsize. unfold cmd_destroy. do 2 wp_step. answer. Qed.

Lemma cmd_foreground_spec args s h : wp (cmd_foreground args [] size) (fun res s' _ => served size s res s') env s h.
Proof using Hok Hsize.
  unfold cmd_foreground. apply wp_bind. apply foreground_spec; [done|]. intros r title h' Ht _ _. cbn beta iota.
  wp_step; answer.
Qed.

Lemma install_spec name path s h :
  wlp (cmd_install install_fuel context [name; path] [] size) (fun res s' _ => served size s res s') env s h.
Proof using All.
  unfold cmd_install, on_disk. cbn [argument lookup list_lookup]. do 4 wp_step. eapply wp_mono; [apply install_vpk_spec; [apply (disk_ok env Hok)|done..]|].
  intros [r out] s' h' [_ Hr]. cbn beta iota. wp_step; [answer|].
  destruct (Hr ltac:(lia)) as (_ & id & -> & Hid). cbn [default]. answer.
Qed.

Lemma launch_spec name title s h :
  nul_free title ->
  wp (cmd_launch [name; title] [] size) (fun res s' h' =>
    response_ok size res /\ s' = s /\
    if 32 <=? 18 + Z.of_nat (length title) then
      h' = h /\ res = snprintf size (line "Error: TITLEID is too long.")
    else exists a es, h' = es ++ Ev (sceAppMgrLaunchAppByUri 0x20000 (lit "psgm:play?titleid=" ++ title)) a :: h /\
      let polls := length (filter (fun e => is_delay (ev_call e) = true) es) in
      if a <? 0 then
        es = [] /\ res = snprintf size (lit "Error: launch request failed for " ++ title ++ lit " (0x" ++ fmt_08X a ++ line ").")
      else exists fg,
        upper <$> fg = upper <$> title /\ reported h' fg /\ (polls < LAUNCH_CONFIRM_ATTEMPTS)%nat /\
          res = snprintf size (lit "Launched: " ++ fg ++ [LF]) \/
        polls = LAUNCH_CONFIRM_ATTEMPTS /\
          res = snprintf size (lit "Error: launch of " ++ title ++ lit " was not confirmed; foreground=" ++ fg ++ line ".")) env s h.
Proof using Hok Hsize.
  intros Ht. unfold cmd_launch. cbn [argument lookup list_lookup]. cbn zeta. do 2 wp_step.
  unfold snprintf_ret. rewrite length_app. change (length (lit "psgm:play?titleid=")) with 18%nat.
  replace (Z.of_nat (18 + length title)) with (18 + Z.of_nat (length title)) by lia.
  replace (18 + Z.of_nat (length title) <? 0) with false by lia. cbn [orb].
  assert (forall t, nul_free t -> t <> [] -> response_ok size (snprintf size t)) as Hres by auto using response_snprintf.
  destruct (32 <=? 18 + Z.of_nat (length title)) eqn:Hlong.
  - apply wp_ret. split_and!; [apply Hres; [texts|done]|done..].
  - assert (snprintf 32 (lit "psgm:play?titleid=" ++ title) = lit "psgm:play?titleid=" ++ title) as ->.
    { unfold snprintf. apply take_ge. rewrite length_app. change (length (lit "psgm:play?titleid=")) with 18%nat. lia. }
    do 2 wp_step.
    destruct (a <? 0) eqn:Ha; cbv iota.
    + apply wp_ret. split_and!; [apply Hres; [texts|done]|done|]. exists a, []. rewrite Ha. done.
    + apply wp_bind. eapply wp_mono; [apply confirm_spec; [done|literal]|].
      intros [confirmed fg] s' h' (-> & Hfg & es & -> & Hpolls). destruct confirmed; apply wp_ret.
      * split_and!; [apply Hres; [texts|done]|done|]. exists a, es. rewrite Ha. split; [done|].
        destruct Hpolls as (? & ? & ?). exists fg. left. done.
      * split_and!; [apply Hres; [texts|done]|done|]. exists a, es. rewrite Ha. split; [done|]. exists fg. right. done.
Qed.

(** Whether [ftpvita_prepare_for_reboot] succeeds. *)
Definition can_reboot (f : ftp) (locks : bool) : bool :=
  ftp_initialized f && (0 <=? client_list_mtx f) && (reboot_quiesce_requested f =? 0) && locks &&
  (number_clients f =? 0) && (transfer_active f =? 0).

Lemma reboot_spec args s h :
  let f := globals (ftpvita s) in
  let mtx := client_list_mtx f in
  let idle := can_reboot f (0 <=? env h (sceKernelLockMutex mtx)) in
  wp (cmd_reboot args [] size) (fun res s' h' =>
    response_ok size res /\
    if idle then exists h1 r, h' = Ev scePowerRequestColdReset r :: h1 /\
      traced [sceKernelLockMutex mtx; sceKernelUnlockMutex mtx] h h1 /\
      if r <? 0 then s' = s /\ res = snprintf size (lit "Error: cold reset request failed (0x" ++ fmt_08X r ++ line ").")
      else s' = set_ftpvita (requiesced 1 (ftpvita s)) s /\ res = snprintf size (line "Rebooting...")
    else s' = s /\
      (traced [] h h' \/ traced [sceKernelLockMutex mtx] h h' \/ traced [sceKernelLockMutex mtx; sceKernelUnlockMutex mtx] h h')) env s h.
Proof using Hsize.
  intros f mtx idle. unfold cmd_reboot, on_ftp, on_ftpvita, on_globals. do 3 wp_step. eapply wp_mono; [apply prepare_spec|].
  intros [[ok clients] transfer] f' h1 (Hok' & -> & _ & Ht). fold f in Hok', Ht. fold mtx in Hok', Ht.
  change (client_list_mtx (globals (ftpvita s))) with mtx in *.
  replace (_ && _ && _ && _ && _ && _) with idle in Hok' by done. subst ok.
  assert (forall t, nul_free t -> t <> [] -> response_ok size (snprintf size t)) as Hres by auto using response_snprintf.
  destruct idle eqn:Hidle; cbn [negb]; cbv iota beta.
  - unfold idle, can_reboot in Hidle. rewrite !andb_true_iff in Hidle. destruct Hidle as [[[[[Hi Hm] Hq] Hl] Hn] Hta].
    fold mtx in Hm. rewrite Hi, Hm, Hq, Hl in Ht. cbn in Ht. do 3 wp_step.
    + repeat wp_step. apply wp_ret. split; [apply Hres; [texts|done]|]. exists h1, a. split; [done|]. split; [done|].
      rewrite Heqb. split; [|done]. destruct s as [[g hp cl] p i av]. cbn in Hq |- *. unfold set_ftpvita, set_globals. cbn.
      apply Z.eqb_eq in Hq. do 2 f_equal. destruct g. cbn in *. by subst.
    + apply wp_ret. split; [apply Hres; [texts|done]|]. exists h1, a. rewrite Heqb. split_and!; done.
  - apply wp_ret. split; [apply Hres; [texts|done]|]. split.
    + by destruct s as [[g hp cl] p i av].
    + destruct (negb _); [by left|]. destruct (0 <=? _); [right; by right|right; by left].
Qed.

Lemma ftpstatus_spec args s h : wp (cmd_ftpstatus args [] size) (fun res s' _ => served size s res s') env s h.
Proof using Hsize.
  unfold cmd_ftpstatus, on_ftp, on_ftpvita, on_globals, ftpvita_get_active_client_count, ftpvita_has_active_transfer,
    ftpvita_is_reboot_quiesced, ftpvita_get_socket_timeout_failure_count.
  do 16 wp_step. destruct s as [[g hp cl] p i av]. answer.
Qed.

Lemma ftpreset_spec args s r h :
  represents (ftpvita s) r ->
  wp (cmd_ftpreset args [] size) (fun res s' _ => served size s res s') env s h.
Proof using Hsize.
  intros Hr. unfold cmd_ftpreset, on_ftp, on_ftpvita, on_globals, ftpvita_get_active_client_count, ftpvita_has_active_transfer.
  do 10 wp_step. eapply wp_mono; [apply abort_spec; destruct s as [[g hp cl] p i av]; exact Hr|].
  intros n s' h' (-> & _). destruct s as [[g hp cl] p i av]. answer.
Qed.

Lemma screen_spec name state s h :
  wp (cmd_screen [name; state] [] size) (fun res s' _ => served size s res s') env s h.
Proof using Hsize.
  unfold cmd_screen. cbn [argument lookup list_lookup]. do 2 wp_step.
  destruct (decide (state = lit "on")); [do 2 wp_step; answer|].
  destruct (decide (state = lit "off")); [do 2 wp_step; answer|]. answer.
Qed.

Lemma battery_spec args s h : wp (cmd_battery args [] size) (fun res s' _ => served size s res s') env s h.
Proof using Hsize. unfold cmd_battery. do 5 wp_step; answer. Qed.

Lemma module_get_offset_spec modid offset s h :
  wp (module_get_offset modid 0 offset true) (fun '(r, out) s' h' =>
    s' = s /\ (0 <= r -> exists base limit, out = Some (u32 (base + offset)) /\ u32 offset <= limit)) env s h.
Proof using Hok.
  unfold module_get_offset. cbn [negb]. change (3 <? 0) with false. cbv iota. do 3 wp_step.
  match goal with E : (z, l) = env ?h' (sceKernelGetModuleInfo ?m) |- _ =>
    pose proof (segments_ok env Hok h' m) as Hl; rewrite <-E in Hl; cbn [snd] in Hl end.
  wp_step; [apply wp_ret; split; [done|lia]|]. destruct l as [|seg l]; [done|].
  change (0 <=? 0) with true. change (Z.to_nat 0) with O. cbn [lookup list_lookup].
  wp_step; apply wp_ret; (split; [done|]); [lia|]. intros _. exists (vaddr seg), (memsz seg). split; [done|lia].
Qed.

Lemma init_shellshot_spec s h :
  wp init_shellshot (fun _ s' _ => ftpvita s' = ftpvita s) env s h.
Proof using Hok.
  unfold init_shellshot. do 3 wp_step; [by apply wp_ret|]. do 8 wp_step; [by apply wp_ret|].
  destruct (offset_shellshot _) as [offset|]; [|by apply wp_ret]. wp_step; [by apply wp_ret|].
  apply wp_bind. eapply wp_mono; [apply module_get_offset_spec|]. intros [r out] s' h' [-> _]. cbn beta iota.
  destruct out as [p|]; repeat wp_step; done.
Qed.

Lemma screenshot_spec args s h : wp (cmd_screenshot args [] size) (fun res s' _ => served size s res s') env s h.
Proof using Hok Hsize.
  unfold cmd_screenshot. apply wp_bind. eapply wp_mono; [apply init_shellshot_spec|]. intros ? s1 h1 Hs1.
  assert (forall t, nul_free t -> t <> [] -> served size s (snprintf size t) s1) as Hserved.
  { intros t Ht Hne. split; [by apply response_snprintf|]. rewrite Hs1.
    exists (reboot_quiesce_requested (globals (ftpvita s))). by rewrite requiesced_same. }
  do 3 wp_step; [apply wp_ret, Hserved; [texts|done]|]. do 2 wp_step. apply wp_ret, Hserved; [texts|by case_match].
Qed.

(** Every command of the table, given as many words as it announces. *)
Lemma execute_spec d args s r h :
  d ∈ cmd_definitions -> Z.of_nat (length args) = arg_count d + 1 -> Forall nul_free args ->
  represents (ftpvita s) r ->
  wlp (execute install_fuel context (executor d) args [] size) (fun res s' _ => served size s res s') env s h.
Proof using All.
  intros Hd Hlen Hargs Hr.
  repeat (apply elem_of_cons in Hd as [->|Hd]); [..|by apply not_elem_of_nil in Hd];
    cbn [executor arg_count execute] in *;
    try (destruct args as [|name [|arg [|]]]; cbn [length] in Hlen; try lia).
  - apply wp_any, version_spec.
  - apply wp_any, help_spec.
  - apply wp_any, destroy_spec.
  - apply wp_any, cmd_foreground_spec.
  - apply install_spec.
  - apply wp_any. eapply wp_mono; [apply launch_spec; by repeat (apply Forall_cons in Hargs as [? Hargs])|].
    intros res s' h' (Hres & -> & _). by apply served_same.
  - apply wp_any, kill_spec.
  - apply wp_any, ftpstatus_spec.
  - by eapply wp_any, ftpreset_spec.
  - apply wp_any. eapply wp_mono; [apply reboot_spec|]. intros res s' h' [Hres Hs']. destruct (can_reboot _ _).
    + destruct Hs' as (h1 & a & _ & _ & Hs'). destruct (a <? 0); destruct Hs' as [-> _]; [by apply served_same|].
      split; [done|]. by exists 1.
    + destruct Hs' as [-> _]. by apply served_same.
  - apply wp_any, screen_spec.
  - apply wp_any, battery_spec.
  - apply wp_any, screenshot_spec.
Qed.
End executors.

(** * The calls a command makes *)

(** A command opens, serves and closes no socket; only [reboot] resets the console,
    only [launch] launches and only [install] touches the disk. *)
Definition command_call (e : cmd_executor) (c : call) : Prop :=
  match c with
  | sceNetSocket _ | sceNetBind _ _ | sceNetListen _ _ | sceNetAccept _ | sceNetConnect _ _ | sceNetSend _ _
  | sceNetRecv _ _ | sceNetSetsockopt _ _ _ | sceNetSocketClose _ => False
  | scePowerRequestColdReset => e = exec_reboot
  | sceAppMgrLaunchAppByUri _ _ => e = exec_launch
  | sceIoOpen _ _ _ | sceIoWrite _ _ | sceIoRemove _ | sceIoRename _ _ | sceIoMkdir _ _ | sceIoRmdir _ => e = exec_install
  | _ => True
  end.

Section calls.
Context `{Sdk} `{!Crc} (env : environment) (Hok : console_ok env).
Context (install_fuel : nat) (context : SHA1_CTX) (Hctx : block_ok (Sha1.data context)).

Abbreviation calls e m := (only (adds (command_call e)) m env).

Ltac only_step :=
  lazymatch goal with
  | |- only _ (mret _) _ => apply only_ret; exact _
  | |- only _ (mbind _ _) _ => apply only_bind; [exact _| |intros ?]
  | |- @only ?S _ ?R (sys ?c) ?env => refine (@only_sys S R env c _); intros ? ?; apply adds_call; done
  | |- only _ get _ => apply only_get; exact _
  | |- only _ (gets _) _ => apply only_gets; exact _
  | |- only _ (modify _) _ => apply only_modify; exact _
  | |- only _ (lift _) _ => apply only_lift; exact _
  | |- only _ (zoom _ _ _) _ => apply only_zoom
  | |- only _ (if ?b then _ else _) _ => destruct b
  | |- only _ (let '(_, _) := ?p in _) _ => destruct p
  | |- only _ (match ?p with _ => _ end) _ => destruct p
  end.
Ltac onlys := repeat only_step.

Lemma foreground_calls e old size : calls e (get_foreground_title_id old size).
Proof using Type. unfold get_foreground_title_id. onlys. Qed.

Lemma confirm_calls e attempts title fg : calls e (confirm_launch attempts title fg).
Proof using Type.
  revert fg. induction attempts as [|attempts IH]; intros fg; cbn [confirm_launch]; onlys; [apply foreground_calls|apply IH].
Qed.

Lemma abort_calls e : calls e ftpvita_abort_clients.
Proof using Type.
  assert (forall fuel it n, calls e (abort_loop fuel it n)) as Hloop.
  { induction fuel as [|fuel IH]; intros it n; cbn [abort_loop]; unfold abort_sockets, abort_socket, deref; onlys; apply IH. }
  unfold ftpvita_abort_clients, unlock_list. onlys. apply Hloop.
Qed.

Lemma install_calls path size : calls exec_install (install_vpk install_fuel context (Some path) true size).
Proof using Hok Hctx H0.
  apply only_wlp. intros s h. eapply wp_mono; [by apply (install_vpk_spec env (disk_ok env Hok) path)|].
  intros [r out] s' h' [[Hadds _] _]. eapply adds_mono; [|exact Hadds]. intros [] Hc; done.
Qed.

Lemma execute_calls e args res size : calls e (execute install_fuel context e args res size).
Proof using Hok Hctx H0.
  destruct e; cbn [execute];
    unfold cmd_version, cmd_help, cmd_destroy, cmd_foreground, cmd_install, cmd_launch, cmd_kill, cmd_ftpstatus,
      cmd_ftpreset, cmd_reboot, cmd_screen, cmd_battery, cmd_screenshot, on_ftp, on_ftpvita, on_globals, on_disk, ftpvita_prepare_for_reboot,
      ftpvita_get_active_client_count, ftpvita_has_active_transfer, ftpvita_is_reboot_quiesced,
      ftpvita_get_socket_timeout_failure_count, ftpvita_cancel_reboot, compare_and_swap,
      init_shellshot, module_get_offset;
    onlys; auto using foreground_calls, confirm_calls, abort_calls, install_calls.
Qed.
End calls.

(** * Properties *)

(** The size of the buffer the command server passes. *)
Definition CMD_RESPONSE_BYTES : Z := 1024.

(** C9: the console is reset only when the FTP server is idle. [reboot] asks for a
    cold reset exactly when the FTP server runs, no reboot is already prepared, its
    mutex can be taken and there is neither a client nor a transfer; the request
    comes after the mutex was released. If it is accepted the reboot stays
    prepared; if it fails the reservation is given back. When the server is busy
    nothing is asked for and the state is what it was. On every branch there is an
    answer that fits the buffer. *)
Theorem reboot_only_when_idle `{Sdk} (env : environment) args s h :
  let f := globals (ftpvita s) in
  let mtx := client_list_mtx f in
  let idle := can_reboot f (0 <=? env h (sceKernelLockMutex mtx)) in
  let size := CMD_RESPONSE_BYTES in
  wp (cmd_reboot args [] size) (fun res s' h' =>
    response_ok size res /\
    if idle then exists h1 r, h' = Ev scePowerRequestColdReset r :: h1 /\
      traced [sceKernelLockMutex mtx; sceKernelUnlockMutex mtx] h h1 /\
      if r <? 0 then s' = s /\ res = snprintf size (lit "Error: cold reset request failed (0x" ++ fmt_08X r ++ line ").")
      else s' = set_ftpvita (requiesced 1 (ftpvita s)) s /\ res = line "Rebooting..."
    else s' = s /\
      (traced [] h h' \/ traced [sceKernelLockMutex mtx] h h' \/ traced [sceKernelLockMutex mtx; sceKernelUnlockMutex mtx] h h')) env s h.
Proof. intros f mtx idle size. apply reboot_spec. done. Qed.

(** C33: a launch is reported as done only when it was seen. For any title id, the
    command ends; an id that does not fit the launch address launches nothing;
    otherwise one launch is requested, with the whole id, and [Launched] is
    answered only if the last thing the console said is that a title equal to the
    id, letter case apart, is in the foreground. Without that confirmation the
    command gives up after 80 polls and reports an error. *)
Theorem launch_confirmed `{Sdk} (env : environment) name title s h :
  console_ok env -> nul_free title ->
  let size := CMD_RESPONSE_BYTES in
  wp (cmd_launch [name; title] [] size) (fun res s' h' =>
    response_ok size res /\ s' = s /\
    if 32 <=? 18 + Z.of_nat (length title) then
      h' = h /\ res = line "Error: TITLEID is too long."
    else exists a es, h' = es ++ Ev (sceAppMgrLaunchAppByUri 0x20000 (lit "psgm:play?titleid=" ++ title)) a :: h /\
      let polls := length (filter (fun e => is_delay (ev_call e) = true) es) in
      if a <? 0 then
        es = [] /\ res = snprintf size (lit "Error: launch request failed for " ++ title ++ lit " (0x" ++ fmt_08X a ++ line ").")
      else exists fg,
        upper <$> fg = upper <$> title /\ reported h' fg /\ (polls < LAUNCH_CONFIRM_ATTEMPTS)%nat /\
          res = snprintf size (lit "Launched: " ++ fg ++ [LF]) \/
        polls = LAUNCH_CONFIRM_ATTEMPTS /\
          res = snprintf size (lit "Error: launch of " ++ title ++ lit " was not confirmed; foreground=" ++ fg ++ line ".")) env s h.
Proof. intros Hok Ht size. by apply launch_spec. Qed.

(** The silent console, whose modules have four segments: the shell is in the
    foreground. *)
Definition quiet_console : environment := fun h c =>
  match c return answer c with
  | sceKernelGetModuleInfo m => (0, replicate 4 (Segment 0 0))
  | c => silent h c
  end.

Lemma quiet_console_ok : console_ok (H := demo_sdk) quiet_console.
Proof. split; [split; intros; cbn; try done; try lia|done|done|done]. Qed.

Definition demo_console : console := Console demo_server 0 false false.

Lemma launch_confirmed_witness :
  exists s' h', cmd_launch (H := demo_sdk) [lit "launch"; lit "MAIN"] [] 1024 quiet_console demo_console [] =
    Done (lit "Launched: main" ++ [LF], s', h') /\ s' = demo_console.
Proof.
  pose proof (launch_confirmed (H := demo_sdk) quiet_console (lit "launch") (lit "MAIN") demo_console []
    quiet_console_ok ltac:(literal)) as Hw.
  apply wp_done in Hw as (res & s' & h' & E & _ & Hs & _). 
  vm_compute in E. injection E as <- <- <-. eexists _, _. split; [vm_compute; reflexivity|exact Hs].
Defined.
