(* ===== verification/CmdServer.v ===== *)
(** The command server: src/cmd.c, with the variables it shares with src/net.c and
    src/main.c.

    The server's thread runs beside the network thread, the FTP threads and the
    thread that stops the plugin.  [others] is what they do while this thread
    waits: it runs after every call to the system, and it is arbitrary, so it can
    close the sockets, change the flags and make calls of its own.  A command is
    one step. *)

From S2P Require Import Prelude System CmdParse Sha1 Package FtpState ClientList CmdDefs.

Definition CMD_PORT : Z := 1338.
Definition ARG_MAX : Z := 20.
Definition CMD_REQUEST_BYTES : Z := 256.
Definition CMD_SOCKET_IO_TIMEOUT_US : Z := 5 * 1000 * 1000.
Definition CMD_START_PENDING : Z := 0x7fffffff.
Definition CMD_START_TIMEOUT_MS : nat := Z.to_nat 2000.

(** The statics of cmd.c, net.c and main.c, with those of the commands. *)
Record plugin := Plugin {
commands : console;
loader_thid : Z;
loader_sockfd : Z;
active_client_sockfd : Z;
loader_start_status : Z;
run : Z;
all_is_up : Z;
net_connected : Z;
net_thid : Z;
netctl_cb_id : Z;
desired_connected : Z;
netctl_initialized : Z
}.

Definition set_commands (v : console) (r : plugin) : plugin :=
  Plugin v (loader_thid r) (loader_sockfd r) (active_client_sockfd r) (loader_start_status r) (run r) (all_is_up r) (net_connected r) (net_thid r) (netctl_cb_id r) (desired_connected r) (netctl_initialized r).
Definition set_loader_thid (v : Z) (r : plugin) : plugin :=
  Plugin (commands r) v (loader_sockfd r) (active_client_sockfd r) (loader_start_status r) (run r) (all_is_up r) (net_connected r) (net_thid r) (netctl_cb_id r) (desired_connected r) (netctl_initialized r).
Definition set_loader_sockfd (v : Z) (r : plugin) : plugin :=
  Plugin (commands r) (loader_thid r) v (active_client_sockfd r) (loader_start_status r) (run r) (all_is_up r) (net_connected r) (net_thid r) (netctl_cb_id r) (desired_connected r) (netctl_initialized r).
Definition set_active_client_sockfd (v : Z) (r : plugin) : plugin :=
  Plugin (commands r) (loader_thid r) (loader_sockfd r) v (loader_start_status r) (run r) (all_is_up r) (net_connected r) (net_thid r) (netctl_cb_id r) (desired_connected r) (netctl_initialized r).
Definition set_loader_start_status (v : Z) (r : plugin) : plugin :=
  Plugin (commands r) (loader_thid r) (loader_sockfd r) (active_client_sockfd r) v (run r) (all_is_up r) (net_connected r) (net_thid r) (netctl_cb_id r) (desired_connected r) (netctl_initialized r).
Definition set_run (v : Z) (r : plugin) : plugin :=
  Plugin (commands r) (loader_thid r) (loader_sockfd r) (active_client_sockfd r) (loader_start_status r) v (all_is_up r) (net_connected r) (net_thid r) (netctl_cb_id r) (desired_connected r) (netctl_initialized r).
Definition set_all_is_up (v : Z) (r : plugin) : plugin :=
  Plugin (commands r) (loader_thid r) (loader_sockfd r) (active_client_sockfd r) (loader_start_status r) (run r) v (net_connected r) (net_thid r) (netctl_cb_id r) (desired_connected r) (netctl_initialized r).
Definition set_net_connected (v : Z) (r : plugin) : plugin :=
  Plugin (commands r) (loader_thid r) (loader_sockfd r) (active_client_sockfd r) (loader_start_status r) (run r) (all_is_up r) v (net_thid r) (netctl_cb_id r) (desired_connected r) (netctl_initialized r).
Definition set_net_thid (v : Z) (r : plugin) : plugin :=
  Plugin (commands r) (loader_thid r) (loader_sockfd r) (active_client_sockfd r) (loader_start_status r) (run r) (all_is_up r) (net_connected r) v (netctl_cb_id r) (desired_connected r) (netctl_initialized r).
Definition set_netctl_cb_id (v : Z) (r : plugin) : plugin :=
  Plugin (commands r) (loader_thid r) (loader_sockfd r) (active_client_sockfd r) (loader_start_status r) (run r) (all_is_up r) (net_connected r) (net_thid r) v (desired_connected r) (netctl_initialized r).
Definition set_desired_connected (v : Z) (r : plugin) : plugin :=
  Plugin (commands r) (loader_thid r) (loader_sockfd r) (active_client_sockfd r) (loader_start_status r) (run r) (all_is_up r) (net_connected r) (net_thid r) (netctl_cb_id r) v (netctl_initialized r).
Definition set_netctl_initialized (v : Z) (r : plugin) : plugin :=
  Plugin (commands r) (loader_thid r) (loader_sockfd r) (active_client_sockfd r) (loader_start_status r) (run r) (all_is_up r) (net_connected r) (net_thid r) (netctl_cb_id r) (desired_connected r) v.

(** Their initial values. *)
Definition plugin_initial : plugin :=
  Plugin (Console (Server ftp_initial ∅ NULL) 0 false false) (-1) (-1) (-1) CMD_START_PENDING 0 0 0 (-1) (-1) 0 0.

Abbreviation P := (M plugin).

Definition on_commands {A} (m : M console A) : P A := zoom commands set_commands m.

(** The atomic exchange, then the close. *)
Definition close_socket_slot (slot : plugin -> Z) (set_slot : Z -> plugin -> plugin) : P unit :=
  sockfd ← gets slot;
  modify (set_slot (-1));;
  if 0 <=? sockfd then sys (sceNetSocketClose sockfd);; mret tt else mret tt.

Definition close_loader : P unit := close_socket_slot loader_sockfd set_loader_sockfd.
Definition close_active : P unit := close_socket_slot active_client_sockfd set_active_client_sockfd.

Definition set_response (res_msg_size : Z) (message : bytes) : bytes := snprintf res_msg_size message.

(** * A request *)

(** [cmd] is the buffer and [cmd_size] the number of bytes received. *)
Definition cmd_handle `{Sdk} (install_fuel : nat) (context : SHA1_CTX) (cmd : bytes) (cmd_size : Z)
    (res_msg : bytes) (res_msg_size : Z) : M console bytes :=
  '(count, cmd, arg_list) ← lift (parse_cmd (Some cmd) cmd_size (Some (replicate (Z.to_nat ARG_MAX) 0)) ARG_MAX);
  if count =? PARSE_CMD_TOO_MANY_ARGS then mret (set_response res_msg_size (line "Error: Too many arguments."))
  else if count =? 0 then mret (set_response res_msg_size (line "Error: Empty command."))
  else
    words ← lift (mapM (fun off => cstr (drop (Z.to_nat off) (default [] cmd)))
                       (take (Z.to_nat count) (default [] arg_list)));
    name ← lift (argument words 0);
    match cmd_get_definition name with
    | NULL => mret (set_response res_msg_size (line "Error: Unknown command."))
    | Some cmd_def =>
        if negb (arg_count cmd_def =? u32 (count - 1)) then
          mret (set_response res_msg_size (line "Error: Incorrect number of arguments."))
        else execute install_fuel context (executor cmd_def) words res_msg res_msg_size
    end.

(** [memchr(cmd, '\n', used) != NULL]; looking past the buffer is undefined. *)
Definition holds_newline (cmd : bytes) (used : Z) : outcome bool :=
  if Z.of_nat (length cmd) <? used then Undefined
  else Done (existsb (fun c => c =? LF) (take (Z.to_nat used) cmd)).

Section server.
Context `{Sdk} (others : P unit).

Definition pause (c : call) : P (answer c) := a ← sys c; others;; mret a.

Definition configure_socket_io_timeout (sockfd : Z) : P Z :=
  ret ← pause (sceNetSetsockopt sockfd SCE_NET_SO_SNDTIMEO CMD_SOCKET_IO_TIMEOUT_US);
  if ret <? 0 then mret ret
  else pause (sceNetSetsockopt sockfd SCE_NET_SO_RCVTIMEO CMD_SOCKET_IO_TIMEOUT_US).

(** The receive loop: an error, or the buffer and the number of bytes in it. The
    call writes the data it returns into the buffer. *)
Fixpoint receive_loop (fuel : nat) (sockfd : Z) (cmd : bytes) (used capacity : Z) : P (Z + bytes * Z) :=
  if capacity <=? used then mret (inr (cmd, used))
  else
    match fuel with
    | O => lift NoFuel
    | S fuel =>
        '(received, data) ← pause (sceNetRecv sockfd (capacity - used));
        if received <? 0 then mret (inl received)
        else if received =? 0 then mret (inr (cmd, used))
        else if Z.of_nat (length cmd) <? used + Z.of_nat (length data) then lift Undefined
        else
          let cmd := list_inserts (Z.to_nat used) data cmd in
          let used := u32 (used + received) in
          newline ← lift (holds_newline cmd used);
          if (newline : bool) then mret (inr (cmd, used))
          else receive_loop fuel sockfd cmd used capacity
    end.

(** The result, the buffer and [*too_long]. Every call but the last receives a
    byte, so [capacity] of them are enough. *)
Definition receive_command (sockfd : Z) (cmd : bytes) (capacity : Z) : P (Z * bytes * bool) :=
  r ← receive_loop (Z.to_nat capacity) sockfd cmd 0 capacity;
  match r with
  | inl e => mret (e, cmd, false)
  | inr (cmd, used) =>
      newline ← lift (holds_newline cmd used);
      cmd ← lift (store cmd used NUL);
      mret (used, cmd, (used =? capacity) && negb newline)
  end.

(** The loop of [send_response] on what remains of the response. An answer above
    what was offered would move the pointer out of the string. *)
Fixpoint send_loop (fuel : nat) (sockfd : Z) (response : bytes) : P unit :=
  match response, fuel with
  | [], _ => mret tt
  | _, O => lift NoFuel
  | _, S fuel =>
      sent ← pause (sceNetSend sockfd response);
      if sent <=? 0 then mret tt
      else if Z.of_nat (length response) <? sent then lift Undefined
      else send_loop fuel sockfd (drop (Z.to_nat sent) response)
  end.

Definition send_response (sockfd : Z) (response : bytes) : P unit := send_loop (length response) sockfd response.

(** * The thread *)

Context (install_fuel : nat) (context : SHA1_CTX).

(** The response to the request that comes in on the socket. *)
Definition answer_request (client_sockfd : Z) : P bytes :=
  let cmd := replicate (Z.to_nat (CMD_REQUEST_BYTES + 1)) 0 in
  let res_msg := [] in
  let size := CMD_RESPONSE_BYTES in
  ret ← configure_socket_io_timeout client_sockfd;
  if ret <? 0 then mret (set_response size (line "Error: Cannot configure command timeout."))
  else
    '(used, cmd, too_long) ← receive_command client_sockfd cmd CMD_REQUEST_BYTES;
    if (too_long : bool) then mret (set_response size (line "Error: Command is too long."))
    else if 0 <? used then
      res_msg ← on_commands (cmd_handle install_fuel context cmd (u32 used) res_msg size);
      others;;
      mret res_msg
    else if used =? 0 then mret (set_response size (line "Error: Empty command."))
    else mret (set_response size (line "Error: Command receive failed or timed out.")).

(** One connection. *)
Definition serve_client (client_sockfd : Z) : P unit :=
  modify (set_active_client_sockfd client_sockfd);;
  res_msg ← answer_request client_sockfd;
  let res_msg := if decide (res_msg = []) then set_response CMD_RESPONSE_BYTES (line "Error: Empty response.")
                 else res_msg in
  send_response client_sockfd res_msg;;
  close_active.

Fixpoint accept_loop (fuel : nat) : P unit :=
  match fuel with
  | O => lift NoFuel
  | S fuel =>
      s ← get;
      if negb (run s =? 0) && negb (net_connected s =? 0) then
        '(client_sockfd, _) ← pause (sceNetAccept (loader_sockfd s));
        if 0 <=? client_sockfd then serve_client client_sockfd;; accept_loop fuel
        else mret tt
      else mret tt
  end.

Definition start_loader : P bool :=
  sockfd ← pause (sceNetSocket (lit "vitacompanion_cmd_sock"));
  modify (set_loader_sockfd sockfd);;
  s ← get;
  if loader_sockfd s <? 0 then modify (set_loader_start_status (loader_sockfd s));; mret false
  else
    any ← sys (sceNetHtonl SCE_NET_INADDR_ANY);
    port ← sys (sceNetHtons CMD_PORT);
    ret ← pause (sceNetBind (loader_sockfd s) (SockaddrIn any port));
    if ret <? 0 then modify (set_loader_start_status ret);; mret false
    else
      sockfd ← gets loader_sockfd;
      ret ← pause (sceNetListen sockfd 8);
      if ret <? 0 then modify (set_loader_start_status ret);; mret false
      else modify (set_loader_start_status 0);; mret true.

Definition cmd_thread (fuel : nat) : P Z :=
  started ← start_loader;
  (if (started : bool) then accept_loop fuel else mret tt);;
  modify (fun s => if loader_start_status s =? CMD_START_PENDING then set_loader_start_status (-1) s else s);;
  close_active;;
  close_loader;;
  sys sceKernelExitThread;;
  mret 0.

(** * Starting and stopping it *)

(** [waited] is what is left of the time allowed. *)
Fixpoint wait_started (waited : nat) : P unit :=
  match waited with
  | O => mret tt
  | S waited =>
      status ← gets loader_start_status;
      if status =? CMD_START_PENDING then pause (sceKernelDelayThread 1000);; wait_started waited
      else mret tt
  end.

Definition cmd_start : P Z :=
  s ← get;
  if 0 <=? loader_thid s then mret 0
  else
    modify (set_loader_start_status CMD_START_PENDING);;
    thid ← sys (sceKernelCreateThread (lit "vitacompanion_cmd_thread"));
    modify (set_loader_thid thid);;
    if thid <? 0 then mret thid
    else
      ret ← pause (sceKernelStartThread thid);
      if ret <? 0 then
        sys (sceKernelDeleteThread thid);;
        modify (set_loader_thid (-1));;
        mret ret
      else
        wait_started CMD_START_TIMEOUT_MS;;
        status ← gets loader_start_status;
        if negb (status =? 0) then
          let ret := if status =? CMD_START_PENDING then -1 else status in
          close_loader;;
          pause (sceKernelWaitThreadEnd thid);;
          sys (sceKernelDeleteThread thid);;
          modify (set_loader_thid (-1));;
          mret ret
        else mret 0.

Definition cmd_end : P unit :=
  close_loader;;
  close_active;;
  thid ← gets loader_thid;
  if 0 <=? thid then
    pause (sceKernelWaitThreadEnd thid);;
    sys (sceKernelDeleteThread thid);;
    modify (set_loader_thid (-1))
  else mret tt.
End server.

(** * The reference: a request is its words *)

Definition handle_words `{Sdk} (install_fuel : nat) (context : SHA1_CTX) (ws : list bytes)
    (res_msg : bytes) (res_msg_size : Z) : M console bytes :=
  if ARG_MAX <? Z.of_nat (length ws) then mret (set_response res_msg_size (line "Error: Too many arguments."))
  else match ws with
  | [] => mret (set_response res_msg_size (line "Error: Empty command."))
  | name :: arguments =>
      match find (fun d => bool_decide (cmd_name d = name)) cmd_definitions with
      | None => mret (set_response res_msg_size (line "Error: Unknown command."))
      | Some d =>
          if arg_count d =? Z.of_nat (length arguments) then
            execute install_fuel context (executor d) ws res_msg res_msg_size
          else mret (set_response res_msg_size (line "Error: Incorrect number of arguments."))
      end
  end.

(** * Lemmas *)

Lemma find_definition name l :
  snd <$> list_find (fun d => name = cmd_name d) l = find (fun d => bool_decide (cmd_name d = name)) l.
Proof.
  induction l as [|d l IH]; [done|]. cbn. destruct (decide (name = cmd_name d)) as [Heq|Hne].
  - by rewrite bool_decide_eq_true_2.
  - rewrite bool_decide_eq_false_2 by done. rewrite <-IH. by destruct (list_find _ l) as [[]|].
Qed.

Lemma find_in (name : bytes) l d : find (fun d => bool_decide (cmd_name d = name)) l = Some d -> d ∈ l.
Proof. intros [Hin _]%find_some. by apply list_elem_of_In. Qed.

(** Reading the words through the pointers [parse_cmd] filled in. *)
Lemma read_words (cmd : bytes) (offs : list Z) (ws : list bytes) :
  (forall i w, ws !! i = Some w -> exists off, offs !! i = Some off /\ cstr (drop (Z.to_nat off) cmd) = Done w) ->
  mapM (fun off => cstr (drop (Z.to_nat off) cmd)) (take (length ws) offs) = Done ws.
Proof.
  revert offs. induction ws as [|w ws IH]; intros offs Hw; [done|].
  destruct (Hw 0%nat w eq_refl) as (off & Hoff & Hc). destruct offs as [|o offs]; [done|]. cbn in Hoff. injection Hoff as ->.
  cbn [length firstn]. cbn. rewrite Hc. cbn. rewrite IH; [done|]. intros i w' Hi. apply (Hw (S i) w' Hi).
Qed.

Lemma words_nul_free (cmd : bytes) ws (offs : list Z) :
  (forall i w, ws !! i = Some w -> exists off, offs !! i = Some off /\ cstr (drop (Z.to_nat off) cmd) = Done w) ->
  Forall nul_free ws.
Proof.
  intros Hw. apply Forall_lookup. intros i w Hi. destruct (Hw i w Hi) as (off & _ & Hc). by eapply cstr_nul_free.
Qed.

Section requests.
Context `{Sdk} (install_fuel : nat) (context : SHA1_CTX).

Lemma parse_request body tl :
  Z.of_nat (length body) < 2 ^ 31 ->
  exists ret cmd args,
    parse_cmd (Some (body ++ NUL :: tl)) (Z.of_nat (length body)) (Some (replicate (Z.to_nat ARG_MAX) 0)) ARG_MAX
      = Done (ret, Some cmd, Some args) /\
    let ws := words (first_line body) in
    if Z.of_nat (length ws) <=? ARG_MAX then ret = Z.of_nat (length ws) /\
      forall i w, ws !! i = Some w -> exists off, args !! i = Some off /\ cstr (drop (Z.to_nat off) cmd) = Done w
    else ret = PARSE_CMD_TOO_MANY_ARGS.
Proof using Type.
  intros Hlen. destruct (parse_cmd_run body tl (replicate (Z.to_nat ARG_MAX) 0) ARG_MAX)
    as (ret & cmd & args & E & _ & _ & Hws); [done|rewrite length_replicate; done|done|].
  exists ret, cmd, args. split; [exact E|]. cbn zeta. destruct (_ <=? _); [|done].
  destruct Hws as [-> Hws]. split; [done|]. intros i w Hi. destruct (Hws i w Hi) as (off & ? & _ & ?). eauto.
Qed.

Lemma handle_eq body tl res size env s h :
  Z.of_nat (length body) < 2 ^ 31 ->
  cmd_handle install_fuel context (body ++ NUL :: tl) (Z.of_nat (length body)) res size env s h =
  handle_words install_fuel context (words (first_line body)) res size env s h.
Proof using Type.
  intros Hlen. destruct (parse_request body tl Hlen) as (ret & cmd & args & E & Hws). cbn zeta in Hws.
  unfold cmd_handle. set (ws := words (first_line body)) in *.
  unfold mbind at 1, M_bind at 1. unfold lift at 1. rewrite E. unfold handle_words.
  destruct (Z.leb_spec (Z.of_nat (length ws)) ARG_MAX) as [Hle|Hgt].
  - destruct Hws as [-> Hws]. replace (ARG_MAX <? Z.of_nat (length ws)) with false by lia.
    replace (Z.of_nat (length ws) =? PARSE_CMD_TOO_MANY_ARGS) with false
      by (change PARSE_CMD_TOO_MANY_ARGS with 4294967295; unfold ARG_MAX in Hle; lia).
    pose proof (read_words cmd args ws Hws) as Hread. rewrite Nat2Z.id.
    destruct ws as [|name arguments] eqn:Ews; [done|].
    replace (Z.of_nat (length (name :: arguments)) =? 0) with false by (cbn [length]; lia).
    unfold mbind, M_bind, lift. cbn [default]. cbn iota. unfold id. rewrite Hread. cbn [argument lookup list_lookup].
    unfold cmd_get_definition. rewrite find_definition. destruct (find _ cmd_definitions) as [d|]; [|done].
    replace (u32 (Z.of_nat (length (name :: arguments)) - 1)) with (Z.of_nat (length arguments))
      by (rewrite u32_small; cbn [length] in *; unfold ARG_MAX in Hle; lia).
    by destruct (arg_count d =? Z.of_nat (length arguments)).
  - subst ret. replace (ARG_MAX <? Z.of_nat (length ws)) with true by lia. done.
Qed.
End requests.

(** A call that opens, serves and closes no socket. *)
Definition no_socket_call (c : call) : Prop :=
  match c with
  | sceNetSocket _ | sceNetAccept _ | sceNetSend _ _ | sceNetRecv _ _ | sceNetSocketClose _ => False
  | _ => True
  end.

Lemma sockets_no_call h h' : adds no_socket_call h h' -> sockets h' = sockets h.
Proof.
  intros (es & -> & Hes). induction Hes as [|[c a] es Hc _ IH]; [done|]. cbn [app]. rewrite sockets_cons, IH.
  destruct c; done.
Qed.

Section answers.
Context `{Sdk} `{!Crc} (env : environment) (Hok : console_ok env).
Context (install_fuel : nat) (context : SHA1_CTX) (Hctx : block_ok (Sha1.data context)).

Lemma handle_words_spec ws s r h :
  Forall nul_free ws -> represents (ftpvita s) r ->
  wlp (handle_words install_fuel context ws [] CMD_RESPONSE_BYTES)
    (fun res s' _ => served CMD_RESPONSE_BYTES s res s') env s h.
Proof using All.
  intros Hws Hr. unfold handle_words, set_response.
  assert (forall t, nul_free t -> t <> [] -> served CMD_RESPONSE_BYTES s (snprintf CMD_RESPONSE_BYTES t) s) as Hserved
    by (intros; by apply served_text).
  destruct (_ <? _); [apply wp_ret, Hserved; [literal|done]|].
  destruct ws as [|name args]; [apply wp_ret, Hserved; [literal|done]|].
  destruct (find _ cmd_definitions) as [d|] eqn:Hd; [|apply wp_ret, Hserved; [literal|done]].
  destruct (Z.eqb_spec (arg_count d) (Z.of_nat (length args))) as [Hcount|]; [|apply wp_ret, Hserved; [literal|done]].
  eapply execute_spec; [done|done|done|by eapply find_in|cbn [length]; lia|done|done].
Qed.

Lemma handle_words_calls ws res size : only (adds no_socket_call) (handle_words install_fuel context ws res size) env.
Proof using H0 Hctx Hok.
  assert (forall e h h', adds (command_call e) h h' -> adds no_socket_call h h') as Hadds
    by (intros e h h'; apply adds_mono; by intros []).
  unfold handle_words. destruct (_ <? _); [apply only_ret; exact _|]. destruct ws; [apply only_ret; exact _|].
  destruct (find _ _) as [d|]; [|apply only_ret; exact _]. destruct (_ =? _); [|apply only_ret; exact _].
  intros s h a s' h' E. by eapply Hadds, (execute_calls env Hok install_fuel context Hctx _ _ _ _ _ _ _ _ _ E).
Qed.

Lemma handle_spec body tl s r h :
  Z.of_nat (length body) < 2 ^ 31 -> represents (ftpvita s) r ->
  wlp (cmd_handle install_fuel context (body ++ NUL :: tl) (Z.of_nat (length body)) [] CMD_RESPONSE_BYTES)
    (fun res s' h' => served CMD_RESPONSE_BYTES s res s' /\ adds no_socket_call h h' /\
       handle_words install_fuel context (words (first_line body)) [] CMD_RESPONSE_BYTES env s h = Done (res, s', h')) env s h.
Proof using All.
  intros Hlen Hr. destruct (parse_request body tl Hlen) as (ret & cmd & args & E & Hws). cbn zeta in Hws.
  unfold run_spec. rewrite handle_eq by done.
  assert (wlp (handle_words install_fuel context (words (first_line body)) [] CMD_RESPONSE_BYTES)
    (fun res s' _ => served CMD_RESPONSE_BYTES s res s') env s h) as Hw.
  { destruct (Z.leb_spec (Z.of_nat (length (words (first_line body)))) ARG_MAX).
    - destruct Hws as [_ Hws]. eapply handle_words_spec; [by eapply words_nul_free|done].
    - unfold handle_words. replace (ARG_MAX <? _) with true by lia. apply wp_ret, served_text; [done|literal|done]. }
  pose proof (handle_words_calls (words (first_line body)) [] CMD_RESPONSE_BYTES s h) as Hcalls.
  unfold run_spec in Hw. destruct (handle_words _ _ _ _ _ _ _ _) as [[[res s'] h']| |]; [|done..].
  split_and!; [done| |done]. by eapply Hcalls.
Qed.
End answers.

(** * One connection, with the other threads between its steps *)

(** An event moves nothing through a socket. *)
Definition foreign (fd : Z) (e : event) : Prop := received_bytes fd e = [] /\ sent_bytes fd e = [].

Lemma moved_foreign f es (h : history) : Forall (fun e => f e = []) es -> moved f (es ++ h) = moved f h.
Proof. induction 1 as [|e es He _ IH]; cbn; [done|]. by rewrite IH, He, app_nil_r. Qed.

(** The calls a connection waits in. *)
Definition connection_call (c : call) : Prop :=
  match c with sceNetRecv _ _ | sceNetSend _ _ | sceNetSetsockopt _ _ _ => True | _ => False end.

(** [I] holds of the state and the history whenever the other threads can run,
    and they keep it; all their calls are in [own]. *)
Record rely (env : environment) (others : P unit) (I : plugin -> history -> Prop) (own : event -> Prop) : Prop := {
  rely_others s h : I s h ->
    wp others (fun _ s' h' => I s' h' /\ exists es, h' = es ++ h /\ Forall own es) env s h;
  rely_call c (a : answer c) s h : connection_call c -> I s h -> I s (Ev c a :: h)
}.

Section connection.
Context `{Sdk} (env : environment) (Hcounts : io_counts env).
Context (others : P unit) (I : plugin -> history -> Prop) (own : event -> Prop) (Hrely : rely env others I own).
Context (fd : Z).

(** The other threads leave the socket alone. *)
Definition quiet : Prop := forall e, own e -> foreign fd e.

Lemma pause_spec {nofuel : Prop} c (Q : answer c -> plugin -> history -> Prop) s h :
  connection_call c -> I s h ->
  (forall a s' es, a = env h c -> Forall own es -> I s' (es ++ Ev c a :: h) -> Q a s' (es ++ Ev c a :: h)) ->
  run_spec nofuel (pause others c) Q env s h.
Proof using Hrely.
  intros Hc HI HQ. unfold pause. apply wp_bind, wp_sys. intros a Ha. apply wp_bind, wp_any.
  eapply wp_mono; [apply (rely_others _ _ _ _ Hrely), (rely_call _ _ _ _ Hrely); done|].
  intros ? s' h' (HI' & es & -> & Hes). apply wp_ret. by apply HQ.
Qed.

Ltac pause_step :=
  lazymatch goal with
  | |- run_spec ?nofuel (pause _ ?c) ?Q _ ?s ?h => refine (@pause_spec nofuel c Q s h _ _ _)
  end; [exact Logic.I|assumption|].

(** What moved in a stretch of the run that made one call of this connection. *)
Lemma moved_call f es (e : event) es' :
  (forall e', foreign fd e' -> f e' = []) -> quiet -> Forall own es ->
  moved f (es' ++ es ++ [e]) = f e ++ moved f es'.
Proof using Type.
  intros Hf Hq Hes. rewrite moved_app. f_equal. rewrite moved_foreign; [cbn; done|].
  eapply Forall_impl; [exact Hes|]. auto.
Qed.

Lemma holds_newline_in cmd used :
  0 <= used <= Z.of_nat (length cmd) ->
  holds_newline cmd used = Done (existsb (fun c => c =? LF) (take (Z.to_nat used) cmd)).
Proof using Type. intros Hu. unfold holds_newline. by replace (_ <? _) with false by lia. Qed.

(** The bytes that came in and that went out through the socket. *)
Definition received (es : history) : bytes := moved (received_bytes fd) es.
Definition sent (es : history) : bytes := moved (sent_bytes fd) es.

(** The peer closed its side, or the connection failed. *)
Definition recv_stopped (es : history) : Prop :=
  exists len n rest, n <= 0 /\ In (Ev (sceNetRecv fd len) (n, rest)) es.
Definition send_stopped (es : history) : Prop :=
  exists rest n, n <= 0 /\ In (Ev (sceNetSend fd rest) n) es.

Lemma recv_stopped_app es es' : recv_stopped es -> recv_stopped (es ++ es').
Proof using Type. intros (len & k & rs & ? & ?). exists len, k, rs. split; [done|]. apply in_or_app. by left. Qed.

Lemma send_stopped_app es es' : send_stopped es -> send_stopped (es ++ es').
Proof using Type. intros (rs & k & ? & ?). exists rs, k. split; [done|]. apply in_or_app. by left. Qed.

Definition has_newline (data : bytes) : bool := existsb (fun c => c =? LF) data.

Lemma inserts_middle (got data rest : bytes) :
  (length data <= length rest)%nat ->
  list_inserts (length got) data (got ++ rest) = got ++ data ++ drop (length data) rest.
Proof using Type.
  intros Hlen. rewrite <-(Nat.add_0_r (length got)). rewrite list_inserts_app_r. by rewrite inserts_0.
Qed.

(** The data the loop took in after [got], of a request of [capacity] bytes. *)
Definition took_in (got data : bytes) (capacity : Z) (es : history) : Prop :=
  (quiet -> received es = data /\ sent es = []) /\ Z.of_nat (length (got ++ data)) <= capacity /\
  (has_newline (got ++ data) = true \/ Z.of_nat (length (got ++ data)) = capacity \/ recv_stopped es).

(** One more chunk. *)
Lemma took_in_chunk got chunk data capacity es es1 n len :
  took_in (got ++ chunk) data capacity es -> Forall own es1 -> length chunk = Z.to_nat n ->
  took_in got (chunk ++ data) capacity (es ++ es1 ++ [Ev (sceNetRecv fd len) (n, chunk)]).
Proof using Type.
  intros (Hq & Hlen & Hend) Hes Hn. rewrite <-app_assoc in Hlen, Hend. split_and!; [|done|].
  - intros Hquiet. destruct (Hq Hquiet) as [<- Hsent]. unfold received, sent.
    rewrite !moved_call; [|by intros e []|done|done|by intros e []|done|done].
    cbn. rewrite Z.eqb_refl. by rewrite <-Hn, firstn_all.
  - destruct Hend as [?|[?|?]]; [by left|right; by left|right; right; by apply recv_stopped_app].
Qed.

Lemma took_in_nothing got capacity es1 n len chunk :
  Forall own es1 -> Z.of_nat (length got) <= capacity -> n <= 0 -> length chunk = Z.to_nat n ->
  took_in got [] capacity (es1 ++ [Ev (sceNetRecv fd len) (n, chunk)]).
Proof using Type.
  intros Hes Hlen Hn Hc. assert (chunk = []) as -> by (destruct chunk; [done|cbn in Hc; lia]).
  split_and!; [|by rewrite app_nil_r|].
  - intros Hquiet. unfold received, sent. rewrite <-(app_nil_l (es1 ++ _)).
    rewrite !moved_call; [|by intros e []|done|done|by intros e []|done|done]. cbn. by destruct (fd =? fd), (Z.to_nat n).
  - right. right. exists len, n, []. split; [done|]. apply in_or_app. right. by left.
Qed.

Lemma receive_loop_spec fuel (got rest : bytes) capacity s h :
  capacity + 1 = Z.of_nat (length (got ++ rest)) -> Z.of_nat (length got) <= capacity ->
  capacity < 2 ^ 31 -> capacity - Z.of_nat (length got) <= Z.of_nat fuel -> I s h ->
  wp (receive_loop others fuel fd (got ++ rest) (Z.of_nat (length got)) capacity) (fun r s' h' =>
    I s' h' /\ exists es, h' = es ++ h /\
    match r with
    | inl e => e < 0 /\ recv_stopped es /\ (quiet -> sent es = [])
    | inr (cmd', used) => exists data rest', cmd' = (got ++ data) ++ rest' /\
        used = Z.of_nat (length (got ++ data)) /\ length cmd' = length (got ++ rest) /\ took_in got data capacity es
    end) env s h.
Proof using Hcounts Hrely.
  assert (forall got rest s h, (capacity <=? Z.of_nat (length got)) = true -> Z.of_nat (length got) <= capacity -> I s h ->
    I s h /\ exists es, h = es ++ h /\ exists data rest', got ++ rest = (got ++ data) ++ rest' /\
      Z.of_nat (length got) = Z.of_nat (length (got ++ data)) /\ length (got ++ rest) = length (got ++ rest) /\
      took_in got data capacity es) as Hdone.
  { intros g r s0 h0 Hge Hle HI. split; [done|]. exists []. split; [done|]. exists [], r. rewrite app_nil_r.
    split_and!; [done..|]. split_and!; [done|by rewrite app_nil_r|]. right. left. rewrite app_nil_r. lia. }
  revert got rest s h. induction fuel as [|fuel IH]; intros got rest s h Hcap Hgot Hmax Hfuel HI; cbn [receive_loop].
  { replace (capacity <=? _) with true by lia. apply wp_ret, Hdone; [lia|done|done]. }
  destruct (capacity <=? _) eqn:Hfull; [by apply wp_ret, Hdone|].
  apply wp_bind. pause_step. intros [n data] s1 es Ha Hes HI1. cbn beta iota.
  pose proof (recv_count env Hcounts h fd (capacity - Z.of_nat (length got))) as Hc. rewrite <-Ha in Hc.
  destruct Hc as [[Hint Hn] Hdata]. clear Ha. set (len := capacity - Z.of_nat (length got)) in *.
  rewrite (app_assoc es [_] h : es ++ _ :: h = _) in HI1 |- *. rewrite length_app in Hcap.
  destruct (n <? 0) eqn:Hneg.
  { apply wp_ret. split; [done|]. eexists. split; [reflexivity|].
    destruct (took_in_nothing got capacity es n len data Hes Hgot ltac:(lia) Hdata) as (Hq & _ & _).
    split; [lia|]. split; [|by apply Hq]. exists len, n, data. split; [lia|]. apply in_or_app. right. by left. }
  destruct (Z.eqb_spec n 0) as [->|Hn0].
  { apply wp_ret. split; [done|]. eexists. split; [reflexivity|]. exists [], rest. rewrite app_nil_r, length_app.
    split_and!; [done..|]. by apply took_in_nothing. }
  replace (Z.of_nat (length (got ++ rest)) <? _) with false by (rewrite length_app; lia). cbv iota zeta.
  rewrite Nat2Z.id, inserts_middle by lia. rewrite u32_small by lia.
  replace (Z.of_nat (length got) + n) with (Z.of_nat (length (got ++ data))) by (rewrite length_app; lia).
  rewrite app_assoc, holds_newline_in by (rewrite !length_app, length_drop; lia).
  rewrite Nat2Z.id, take_app_length. apply wp_bind. eapply wp_lift; [done|].
  destruct (existsb _ (got ++ data)) eqn:Hnl.
  - apply wp_ret. split; [done|]. eexists. split; [reflexivity|]. exists data, (drop (length data) rest).
    split_and!; [done|done|rewrite !length_app, length_drop; lia|].
    rewrite <-(app_nil_r data) at 1. apply (took_in_chunk got data [] capacity []); [|done|done].
    split_and!; [done|rewrite app_nil_r, length_app; lia|]. left. by rewrite app_nil_r.
  - eapply wp_mono.
    { apply (IH (got ++ data)); [..|done]; rewrite ?length_app, ?length_drop; lia. }
    intros r s' h' (HI' & es' & -> & Hr). split; [done|].
    exists (es' ++ es ++ [Ev (sceNetRecv fd len) (n, data)]). split; [by rewrite <-!app_assoc|].
    destruct r as [e|[cmd' used]].
    + destruct Hr as (? & Hstop & Hq). split_and!; [done|by apply recv_stopped_app|].
      intros Hquiet. unfold sent. rewrite moved_call; [|by intros ? []|done|done]. cbn. by apply Hq.
    + destruct Hr as (more & rest' & -> & -> & Hlen & Htook). exists (data ++ more), rest'. rewrite app_assoc.
      split_and!; [done|done| |by apply took_in_chunk]. rewrite Hlen, !length_app, length_drop. lia.
Qed.

(** [receive_command] into a buffer of [capacity + 1] bytes. *)
Lemma receive_command_spec cmd capacity s h :
  capacity + 1 = Z.of_nat (length cmd) -> 0 <= capacity < 2 ^ 31 -> I s h ->
  wp (receive_command others fd cmd capacity) (fun '(used, cmd', too_long) s' h' =>
    I s' h' /\ exists es, h' = es ++ h /\
    ((used < 0 /\ too_long = false /\ recv_stopped es /\ (quiet -> sent es = [])) \/
     exists data rest', cmd' = data ++ NUL :: rest' /\ length cmd' = length cmd /\ used = Z.of_nat (length data) /\
       took_in [] data capacity es /\ too_long = (used =? capacity) && negb (has_newline data))) env s h.
Proof using Hcounts Hrely.
  intros Hcap Hmax HI. unfold receive_command. apply wp_bind. eapply wp_mono.
  { apply (receive_loop_spec (Z.to_nat capacity) [] cmd); cbn [length app]; try done; lia. }
  intros r s' h' (HI' & es & -> & Hr). destruct r as [e|[cmd' used]].
  - destruct Hr as (He & Hstop & Hq). apply wp_ret. split; [done|]. exists es. split; [done|]. by left.
  - destruct Hr as (data & rest' & -> & -> & Hlen & Htook). cbn [app] in *.
    pose proof Htook as (_ & Hle & _). cbn [app] in Hle. rewrite length_app in Hlen.
    rewrite holds_newline_in by (rewrite length_app; lia). rewrite Nat2Z.id, take_app_length.
    apply wp_bind. eapply wp_lift; [done|]. rewrite store_in by (rewrite length_app; lia).
    apply wp_bind. eapply wp_lift; [done|]. apply wp_ret. split; [done|]. exists es. split; [done|]. right.
    rewrite Nat2Z.id. destruct rest' as [|c rest']; [cbn in Hlen; lia|]. exists data, rest'.
    split_and!; [|by rewrite length_insert, length_app|done|done|done].
    by rewrite <-(Nat.add_0_r (length data)), insert_app_r.
Qed.

Lemma configure_spec s h :
  I s h ->
  wp (configure_socket_io_timeout others fd) (fun _ s' h' =>
    I s' h' /\ exists es, h' = es ++ h /\ (quiet -> received es = [] /\ sent es = [])) env s h.
Proof using Hrely.
  intros HI. unfold configure_socket_io_timeout. apply wp_bind. pause_step. intros a s1 es1 _ Hes1 HI1. cbn beta.
  rewrite (app_assoc es1 [_] h : es1 ++ _ :: h = _) in HI1 |- *.
  assert (forall es, quiet -> received es = [] /\ sent es = [] ->
    received (es ++ es1 ++ [Ev (sceNetSetsockopt fd SCE_NET_SO_SNDTIMEO CMD_SOCKET_IO_TIMEOUT_US) a]) = [] /\
    sent (es ++ es1 ++ [Ev (sceNetSetsockopt fd SCE_NET_SO_SNDTIMEO CMD_SOCKET_IO_TIMEOUT_US) a]) = []) as Hcall.
  { intros es Hquiet [Hr Hs]. unfold received, sent in *.
    rewrite !moved_call; [|by intros e []|done|done|by intros e []|done|done]. done. }
  destruct (a <? 0).
  - apply wp_ret. split; [done|]. eexists. split; [done|]. intros Hquiet. by apply (Hcall []).
  - pause_step. intros b s2 es2 _ Hes2 HI2. split; [done|].
    exists ((es2 ++ [Ev (sceNetSetsockopt fd SCE_NET_SO_RCVTIMEO CMD_SOCKET_IO_TIMEOUT_US) b]) ++
            es1 ++ [Ev (sceNetSetsockopt fd SCE_NET_SO_SNDTIMEO CMD_SOCKET_IO_TIMEOUT_US) a]).
    split; [by rewrite <-!app_assoc|]. intros Hquiet. apply Hcall; [done|].
    unfold received, sent. rewrite <-(app_nil_l (es2 ++ _)).
    rewrite !moved_call; [|by intros e []|done|done|by intros e []|done|done]. done.
Qed.

Lemma send_loop_spec fuel response s h :
  (length response <= fuel)%nat -> I s h ->
  wp (send_loop others fuel fd response) (fun _ s' h' =>
    I s' h' /\ exists es, h' = es ++ h /\
    (quiet -> sent es = response \/ send_stopped es /\ sent es `prefix_of` response)) env s h.
Proof using Hcounts Hrely.
  revert response s h. induction fuel as [|fuel IH]; intros [|c response] s h Hlen HI; cbn [send_loop].
  1,3: apply wp_ret; split; [done|]; exists []; split; [done|by left].
  { cbn in Hlen. lia. }
  set (text := c :: response) in *. apply wp_bind. pause_step. intros n s1 es Ha Hes HI1. cbn beta.
  pose proof (send_count env Hcounts h fd text) as [Hint Hn]. rewrite <-Ha in Hint, Hn. clear Ha.
  rewrite (app_assoc es [_] h : es ++ _ :: h = _) in HI1 |- *.
  assert (forall es', quiet -> sent (es' ++ es ++ [Ev (sceNetSend fd text) n]) = take (Z.to_nat n) text ++ sent es') as Hsent.
  { intros es' Hquiet. unfold sent. rewrite moved_call; [|by intros e []|done|done]. cbn. by rewrite Z.eqb_refl. }
  destruct (n <=? 0) eqn:Hneg.
  - apply wp_ret. split; [done|]. eexists. split; [done|]. intros Hquiet. right. split.
    + exists text, n. split; [lia|]. apply in_or_app. right. by left.
    + rewrite <-(app_nil_l (es ++ _)), Hsent by done. replace (Z.to_nat n) with O by lia. apply prefix_nil.
  - replace (Z.of_nat (length text) <? n) with false by lia. cbv iota.
    eapply wp_mono; [apply IH; [rewrite length_drop; cbn [length text] in *; lia|done]|].
    intros ? s' h' (HI' & es' & -> & Hs). split; [done|]. eexists (es' ++ es ++ [_]).
    split; [by rewrite <-!app_assoc|]. intros Hquiet. rewrite Hsent by done.
    destruct (Hs Hquiet) as [->|[Hstop [k Hk]]].
    + left. apply take_drop.
    + right. split; [by apply send_stopped_app|]. exists k. by rewrite <-app_assoc, <-Hk, take_drop.
Qed.
End connection.

(** * The server among the other threads *)

Definition slot_socket (fd : Z) : list Z := if 0 <=? fd then [fd] else [].

(** The FTP server's client list is well formed, and the open sockets are those of
    the slots and those of the other owners. *)
Record plugin_ok (base : list Z) (s : plugin) (h : history) : Prop := {
  server_ok : exists r, represents (ftpvita (commands s)) r;
  sockets_ok : sockets h ≡ₚ slot_socket (loader_sockfd s) ++ slot_socket (active_client_sockfd s) ++ base
}.

(** Another thread only empties a slot. *)
Definition emptied (before after : Z) : Prop := after = before \/ after = -1.

(** What the server relies on: the other threads keep the client list well formed,
    close a socket of the server only through its slot, and leave its status to
    it. *)
Definition neighbours_ok (env : environment) (others : P unit) (own : event -> Prop) : Prop :=
  forall base s h, plugin_ok base s h ->
    wp others (fun _ s' h' => plugin_ok base s' h' /\ emptied (active_client_sockfd s) (active_client_sockfd s') /\
      emptied (loader_sockfd s) (loader_sockfd s') /\ loader_start_status s' = loader_start_status s /\
      loader_thid s' = loader_thid s /\ exists es, h' = es ++ h /\ Forall own es) env s h.

Lemma emptied_trans a b c : emptied a b -> emptied b c -> emptied a c.
Proof. unfold emptied. intuition congruence. Qed.

Lemma remove_one_Permutation x l k : l ≡ₚ x :: k -> remove_one x l ≡ₚ k.
Proof.
  revert k. induction l as [|y l IH]; intros k Hp; [by apply Permutation_nil_cons in Hp|]. cbn.
  destruct (Z.eqb_spec x y) as [->|Hne]; [by apply Permutation_cons_inv in Hp|].
  assert (y ∈ k) as Hy.
  { assert (y ∈ x :: k) as Hin by (rewrite <-Hp; left). apply elem_of_cons in Hin as [?|?]; [congruence|done]. }
  apply list_elem_of_split in Hy as (k1 & k2 & ->).
  rewrite (IH (k1 ++ k2)); [apply Permutation_middle|].
  apply (Permutation_cons_inv (a := y)). rewrite Hp. rewrite <-Permutation_middle. apply Permutation_swap.
Qed.

(** Emptying a slot closes its socket. *)
Lemma close_loader_spec {nofuel : Prop} base s h (Q : unit -> plugin -> history -> Prop) env :
  plugin_ok base s h ->
  (forall h', plugin_ok base (set_loader_sockfd (-1) s) h' -> (exists es, h' = es ++ h) -> Q tt (set_loader_sockfd (-1) s) h') ->
  run_spec nofuel close_loader Q env s h.
Proof.
  intros [Hr Hs] HQ. unfold close_loader, close_socket_slot. repeat wp_step.
  - apply HQ; [|by eexists [_]]. split; [done|]. rewrite sockets_cons. cbn [track_socket loader_sockfd active_client_sockfd set_loader_sockfd].
    unfold slot_socket at 1 in Hs. rewrite Heqb in Hs. by apply remove_one_Permutation.
  - apply HQ; [|by exists []]. split; [done|]. unfold slot_socket at 1 in Hs. rewrite Heqb in Hs. done.
Qed.

Lemma close_active_spec {nofuel : Prop} base s h (Q : unit -> plugin -> history -> Prop) env :
  plugin_ok base s h ->
  (forall es, plugin_ok base (set_active_client_sockfd (-1) s) (es ++ h) ->
     ev_call <$> es = sceNetSocketClose <$> slot_socket (active_client_sockfd s) ->
     Q tt (set_active_client_sockfd (-1) s) (es ++ h)) ->
  run_spec nofuel close_active Q env s h.
Proof.
  intros [Hr Hs] HQ. unfold close_active, close_socket_slot. repeat wp_step; unfold slot_socket in HQ.
  - apply (HQ [_]); [|by rewrite Heqb]. split; [done|]. cbn [app]. rewrite sockets_cons.
    cbn [track_socket loader_sockfd active_client_sockfd set_active_client_sockfd].
    apply remove_one_Permutation. rewrite Hs. unfold slot_socket at 2. rewrite Heqb. cbn. solve_Permutation.
  - apply (HQ []); [|by rewrite Heqb]. split; [done|]. unfold slot_socket at 2 in Hs. rewrite Heqb in Hs. done.
Qed.

Section serving.
Context `{Sdk} `{!Crc} (env : environment) (Hok : console_ok env) (Hcounts : io_counts env).
Context (install_fuel : nat) (context : SHA1_CTX) (Hctx : block_ok (Sha1.data context)).
Context (others : P unit) (own : event -> Prop) (Hothers : neighbours_ok env others own).

(** While a connection is served. *)
Definition serving (base : list Z) (fd : Z) (before s : plugin) (h : history) : Prop :=
  plugin_ok base s h /\ emptied fd (active_client_sockfd s) /\
  emptied (loader_sockfd before) (loader_sockfd s) /\ loader_start_status s = loader_start_status before /\
  loader_thid s = loader_thid before.

Lemma serving_rely base fd before : rely env others (serving base fd before) own.
Proof using Hothers.
  split.
  - intros s h (Hp & Ha & Hl & Hst & Hth). eapply wp_mono; [by apply (Hothers base)|].
    intros ? s' h' (Hp' & Ha' & Hl' & Hst' & Hth' & es & -> & Hes). split; [|eauto].
    split_and!; [done|by eapply emptied_trans|by eapply emptied_trans|congruence|congruence].
  - intros c a s h Hc ([Hr Hs] & Hrest). split; [|done]. split; [done|]. rewrite sockets_cons.
    by destruct c.
Qed.

(** The requests that never reach a command, and the response to each. *)
Inductive refused (fd : Z) (es : history) : bytes -> Prop :=
| refused_timeout :
    (quiet own fd -> received fd es = []) -> refused fd es (line "Error: Cannot configure command timeout.")
| refused_failed :
    recv_stopped fd es -> refused fd es (line "Error: Command receive failed or timed out.")
| refused_long data :
    (quiet own fd -> received fd es = data) -> Z.of_nat (length data) = CMD_REQUEST_BYTES -> has_newline data = false ->
    refused fd es (line "Error: Command is too long.")
| refused_empty :
    (quiet own fd -> received fd es = []) -> recv_stopped fd es -> refused fd es (line "Error: Empty command.").

(** The run [es] took a request in and [res] is the answer: a refusal, or what the
    command of the words of its first line answered. *)
Definition answers (fd : Z) (h h' : history) (res : bytes) : Prop :=
  exists es, (quiet own fd -> sent fd es = []) /\
  ((refused fd es res /\ h' = es ++ h) \/
   exists data s1 k2 h2 es2, (quiet own fd -> received fd es = data) /\ data <> [] /\
     Z.of_nat (length data) <= CMD_REQUEST_BYTES /\
     (has_newline data = true \/ recv_stopped fd es) /\
     handle_words install_fuel context (words (first_line data)) [] CMD_RESPONSE_BYTES env s1 (es ++ h)
       = Done (res, k2, h2) /\
     h' = es2 ++ h2 /\ Forall own es2).

Lemma refused_ok fd es res : refused fd es res -> response_ok CMD_RESPONSE_BYTES res.
Proof using Type. destruct 1; (split_and!; [literal|done|vm_compute; done]). Qed.

Lemma answer_request_spec base fd before s h :
  serving base fd before s h ->
  wlp (answer_request others install_fuel context fd) (fun res s' h' =>
    serving base fd before s' h' /\ response_ok CMD_RESPONSE_BYTES res /\ answers fd h h' res) env s h.
Proof using All.
  intros Hs. pose proof (serving_rely base fd before) as Hrely. unfold answer_request. cbn zeta.
  apply wp_bind, wp_any. eapply wp_mono; [by apply (configure_spec env others _ own Hrely)|].
  intros ret s1 h1 (Hs1 & es1 & -> & Hq1).
  assert (forall es res, refused fd (es ++ es1) res -> (quiet own fd -> sent fd (es ++ es1) = []) ->
    forall s', serving base fd before s' (es ++ es1 ++ h) ->
    serving base fd before s' (es ++ es1 ++ h) /\ response_ok CMD_RESPONSE_BYTES res /\ answers fd h (es ++ es1 ++ h) res) as Hrefused.
  { intros es res Href Hq s' Hs'. split; [done|]. split; [by eapply refused_ok|].
    exists (es ++ es1). split; [done|]. left. split; [done|by rewrite app_assoc]. }
  destruct (ret <? 0).
  { apply wp_ret. apply (Hrefused []); [|intros; by apply Hq1|done]. apply refused_timeout. intros; by apply Hq1. }
  apply wp_bind, wp_any. eapply wp_mono.
  { eapply (receive_command_spec env Hcounts others _ own Hrely fd _ CMD_REQUEST_BYTES); [rewrite length_replicate; done|done|done]. }
  intros [[used cmd'] too_long] s2 h2 (Hs2 & es2 & -> & Hgot). cbn beta iota.
  assert (recv_stopped fd es2 -> recv_stopped fd (es2 ++ es1)) as Hstop by apply recv_stopped_app.
  destruct Hgot as [(Hneg & -> & Hstopped & Hq2)|(data & rest' & -> & Hlen & -> & (Hq2 & Hle & Hend) & ->)].
  - replace (0 <? used) with false by lia. replace (used =? 0) with false by lia. apply wp_ret.
    apply (Hrefused es2); [apply refused_failed; auto| |done].
    intros Hquiet. destruct (Hq1 Hquiet) as [_ E1]. specialize (Hq2 Hquiet). unfold sent in *. by rewrite moved_app, E1, Hq2.
  - cbn [app] in Hle, Hend.
    assert (quiet own fd -> received fd (es2 ++ es1) = data /\ sent fd (es2 ++ es1) = []) as Hq.
    { intros Hquiet. unfold received, sent in *. rewrite !moved_app.
      destruct (Hq1 Hquiet) as [-> ->], (Hq2 Hquiet) as [-> ->]. done. }
    destruct (_ && _) eqn:Hlong.
    { apply andb_true_iff in Hlong as [Hfull Hnl]. apply wp_ret. apply (Hrefused es2); [|apply Hq|done].
      eapply (refused_long _ _ data); [apply Hq|lia|by destruct (has_newline data)]. }
    destruct data as [|c data'] eqn:Hdata.
    { apply wp_ret. apply (Hrefused es2); [|apply Hq|done]. apply refused_empty; [apply Hq|].
      destruct Hend as [?|[Hz|?]]; [done|by cbv in Hz|auto]. }
    rewrite <-Hdata in *. replace (0 <? _) with true by (rewrite Hdata; cbn [length]; lia). cbv iota.
    rewrite u32_small by (unfold CMD_REQUEST_BYTES in *; lia). apply wp_bind. unfold on_commands. apply wp_zoom.
    destruct Hs2 as ([[r Hr] Hsock] & Ha & Hl & Hst & Hth).
    eapply wp_mono; [eapply (handle_spec env Hok install_fuel context Hctx data rest' (commands s2) r); [unfold CMD_REQUEST_BYTES in *; lia|done]|].
    intros res k2 h2 ([Hres [q Hsv]] & Hadds & Hrun).
    assert (serving base fd before (set_commands k2 s2) h2) as Hs3.
    { split_and!; [|done..]. split; cbn [commands set_commands loader_sockfd active_client_sockfd].
      - rewrite Hsv. eexists. by apply represents_requiesced.
      - by rewrite (sockets_no_call _ _ Hadds). }
    apply wp_bind, wp_any. eapply wp_mono; [by apply (rely_others _ _ _ _ Hrely)|].
    intros ? s3 h3 (Hs3' & es3 & -> & Hes3). apply wp_ret. split_and!; [done|done|].
    exists (es2 ++ es1). split; [apply Hq|]. right. rewrite <-app_assoc.
    exists data, (commands s2), k2, h2, es3. split_and!; [apply Hq|by rewrite Hdata|done| |done|done|done].
    apply andb_false_iff in Hlong. destruct Hend as [?|[?|?]]; [by left| |right; auto].
    left. destruct (has_newline data); [done|]. destruct Hlong as [?|?]; [lia|done].
Qed.

(** One connection: the request is answered, the answer is sent, and the socket is
    closed unless another thread closed it. *)
Lemma serve_client_spec base fd s h :
  0 <= fd -> active_client_sockfd s = -1 -> plugin_ok (fd :: base) s h ->
  wlp (serve_client others install_fuel context fd) (fun _ s' h' =>
    serving base (-1) s s' h' /\
    exists res h1 es2 es3, response_ok CMD_RESPONSE_BYTES res /\ answers fd h h1 res /\
      h' = es3 ++ es2 ++ h1 /\
      (quiet own fd -> sent fd es2 = res \/ send_stopped fd es2 /\ sent fd es2 `prefix_of` res) /\
      (ev_call <$> es3 = [sceNetSocketClose fd] \/ es3 = [])) env s h.
Proof using All.
  intros Hfd Hslot [Hr Hsock]. unfold serve_client. wp_step. wp_step.
  assert (serving base fd s (set_active_client_sockfd fd s) h) as Hs.
  { split_and!; [|by left|by left|done|done]. split; [done|]. cbn [loader_sockfd active_client_sockfd set_active_client_sockfd].
    rewrite Hsock, Hslot. unfold slot_socket at 2 4. replace (0 <=? fd) with true by lia. cbn. done. }
  apply wp_bind. eapply wp_mono; [by apply answer_request_spec|]. intros res s1 h1 (Hs1 & Hres & Hans).
  cbn zeta. rewrite decide_False by apply Hres. apply wp_bind, wp_any.
  eapply wp_mono; [eapply (send_loop_spec env Hcounts others _ own (serving_rely base fd s)); [done|exact Hs1]|].
  intros ? s2 h2 ((Hp2 & Ha2 & Hl2 & Hst2 & Hth2) & es2 & -> & Hsent).
  eapply close_active_spec; [exact Hp2|]. intros es3 Hp3 Hcalls. split.
  { split_and!; [done|by left|done|done|done]. }
  exists res, h1, es2, es3. split_and!; [done| |done|done|].
  - destruct Hans as (es & Hq & Hans). exists es. done.
  - destruct Ha2 as [E|E]; rewrite E in Hcalls; unfold slot_socket in Hcalls.
    + left. rewrite Hcalls. by replace (0 <=? fd) with true by lia.
    + right. by destruct es3.
Qed.

(** * The thread *)

(** Nothing is served, and the status is that of [before]. *)
Definition waiting (base : list Z) (s : plugin) (h : history) : Prop :=
  plugin_ok base s h /\ active_client_sockfd s = -1.

(** The other threads between two steps. *)
Lemma neighbours_spec {nofuel : Prop} base s h (Q : unit -> plugin -> history -> Prop) :
  waiting base s h ->
  (forall s' h', waiting base s' h' -> emptied (loader_sockfd s) (loader_sockfd s') ->
     loader_start_status s' = loader_start_status s -> Q tt s' h') ->
  run_spec nofuel others Q env s h.
Proof using Hothers.
  intros [Hp Ha] HQ. apply wp_any. eapply wp_mono; [by apply (Hothers base)|].
  intros [] s' h' (Hp' & Ha' & Hl' & Hst' & _). apply HQ; [|done|done]. split; [done|].
  rewrite Ha in Ha'. by destruct Ha'.
Qed.

Lemma waiting_event base c (a : answer c) s h :
  (forall l, track_socket (Ev c a) l = l) -> waiting base s h -> waiting base s (Ev c a :: h).
Proof using Type. intros Ht [[Hr Hs] Ha]. split; [|done]. split; [done|]. by rewrite sockets_cons, Ht. Qed.

Lemma accept_loop_spec fuel base s h :
  waiting base s h ->
  wlp (accept_loop others install_fuel context fuel) (fun _ s' h' =>
    waiting base s' h' /\ loader_start_status s' = loader_start_status s) env s h.
Proof using All.
  revert s h. induction fuel as [|fuel IH]; intros s h Hw; cbn [accept_loop]; [done|].
  wp_step. wp_step. destruct (_ && _); [|by apply wp_ret]. unfold pause. do 4 wp_step. destruct a as [fd peer].
  destruct (0 <=? fd) eqn:Hfd.
  - eapply (neighbours_spec (fd :: base)).
    { destruct Hw as [[Hr Hs] Ha]. split; [|done]. split; [done|]. rewrite sockets_cons. cbn [track_socket].
      replace (fd <? 0) with false by lia. rewrite Hs. solve_Permutation. }
    intros s1 h1 [Hp1 Ha1] _ Hst1. apply wp_ret. cbn beta iota. rewrite Hfd. apply wp_bind.
    eapply wp_mono; [apply serve_client_spec; [lia|done|exact Hp1]|].
    intros ? s2 h2 ((Hp2 & Ha2 & _ & Hst2 & _) & _). eapply wp_mono; [apply IH; split; [done|by destruct Ha2]|].
    intros ? s3 h3 [Hw3 Hst3]. split; [done|congruence].
  - eapply (neighbours_spec base).
    { apply waiting_event; [|done]. intros l. cbn. by replace (fd <? 0) with true by lia. }
    intros s1 h1 Hw1 _ Hst1. apply wp_ret. cbn beta iota. rewrite Hfd. by apply wp_ret.
Qed.

Lemma start_loader_spec base s h :
  waiting base s h -> loader_sockfd s = -1 ->
  wp (start_loader others) (fun _ s' h' => waiting base s' h') env s h.
Proof using Hothers.
  intros Hw Hl. unfold start_loader, pause. do 4 wp_step. eapply (neighbours_spec (slot_socket a ++ base)).
  { destruct Hw as [[Hr Hs] Ha]. split; [|done]. split; [done|]. rewrite sockets_cons. cbn [track_socket].
    unfold slot_socket at 3. destruct (Z.ltb_spec a 0), (Z.leb_spec 0 a); try lia; cbn; [done|]. rewrite Hs. solve_Permutation. }
  intros s1 h1 Hw1 Hl1 _. assert (loader_sockfd s1 = -1) as Hl1' by (rewrite Hl in Hl1; by destruct Hl1). clear Hl1.
  apply wp_ret. wp_step. wp_step.
  assert (waiting base (set_loader_sockfd a s1) h1) as Hw2.
  { destruct Hw1 as [[Hr Hs] Ha]. split; [|done]. split; [done|]. cbn [loader_sockfd active_client_sockfd set_loader_sockfd].
    rewrite Hs, Hl1', Ha. unfold slot_socket. cbn. done. }
  clear Hw1. generalize dependent (set_loader_sockfd a s1). intros s2 Hw2. wp_step. wp_step.
  assert (forall v s h, waiting base s h -> waiting base (set_loader_start_status v s) h) as Hstatus
    by (intros v s' h' [[? ?] ?]; by split).
  destruct (loader_sockfd s2 <? 0); [repeat wp_step; by apply Hstatus|].
  do 8 wp_step. eapply (neighbours_spec base); [by repeat (apply waiting_event; [done|])|].
  intros s3 h3 Hw3 _ _. apply wp_ret. wp_step; [repeat wp_step; by apply Hstatus|].
  do 6 wp_step. eapply (neighbours_spec base); [by apply waiting_event|].
  intros s4 h4 Hw4 _ _. apply wp_ret. wp_step; repeat wp_step; by apply Hstatus.
Qed.

Lemma cmd_thread_spec fuel base s h :
  waiting base s h -> loader_sockfd s = -1 ->
  wlp (cmd_thread others install_fuel context fuel) (fun _ s' h' =>
    plugin_ok base s' h' /\ loader_sockfd s' = -1 /\ active_client_sockfd s' = -1 /\
    loader_start_status s' <> CMD_START_PENDING) env s h.
Proof using All.
  intros Hw Hl. unfold cmd_thread. apply wp_bind, wp_any. eapply wp_mono; [by apply start_loader_spec|].
  intros started s1 h1 Hw1. apply wp_bind. eapply wp_mono.
  { instantiate (1 := fun _ s2 h2 => waiting base s2 h2). destruct started; [|by apply wp_ret].
    eapply wp_mono; [by apply accept_loop_spec|]. by intros ? ? ? [? _]. }
  intros ? s2 h2 Hw2. wp_step. wp_step.
  assert (exists s3, s3 = (if loader_start_status s2 =? CMD_START_PENDING then set_loader_start_status (-1) s2 else s2) /\
    waiting base s3 h2 /\ loader_start_status s3 <> CMD_START_PENDING) as (s3 & <- & [Hp3 Ha3] & Hst3).
  { eexists. split; [reflexivity|]. destruct Hw2 as [[? ?] ?]. destruct (Z.eqb_spec (loader_start_status s2) CMD_START_PENDING); done. }
  apply wp_bind. eapply close_active_spec; [exact Hp3|]. intros es Hp4 _.
  apply wp_bind. eapply close_loader_spec; [exact Hp4|]. intros h5 Hp5 _. repeat wp_step.
  split_and!; [|done|done|done]. destruct Hp5 as [Hr Hs]. split; [done|]. by rewrite sockets_cons.
Qed.
End serving.

(** The thread that stops the plugin is a neighbour: [cmd_end] takes the sockets
    through their slots. *)
Definition closing (e : event) : Prop := exists fd, ev_call e = sceNetSocketClose fd.

Lemma close_both_neighbour env : neighbours_ok env (close_loader;; close_active) closing.
Proof.
  intros base s h Hp. apply wp_bind. unfold close_loader, close_socket_slot.
  assert (forall nofuel h' s', s' = set_loader_sockfd (-1) s -> plugin_ok base s' h' -> (exists es, h' = es ++ h /\ Forall closing es) ->
    run_spec nofuel close_active (fun _ s'' h'' => plugin_ok base s'' h'' /\
      emptied (active_client_sockfd s) (active_client_sockfd s'') /\ emptied (loader_sockfd s) (loader_sockfd s'') /\
      loader_start_status s'' = loader_start_status s /\ loader_thid s'' = loader_thid s /\
      exists es, h'' = es ++ h /\ Forall closing es) env s' h') as Hactive.
  { intros nofuel h' s' -> Hp' (es & -> & Hes). eapply close_active_spec; [exact Hp'|]. intros es' Hp'' Hcalls.
    split_and!; [done|by right|by right|done|done|]. exists (es' ++ es). rewrite app_assoc. split; [done|].
    apply Forall_app. split; [|done]. apply Forall_forall. intros e He.
    assert (ev_call e ∈ (ev_call <$> es')) as Hin by (apply list_elem_of_fmap; eauto).
    rewrite Hcalls in Hin. apply list_elem_of_fmap in Hin as (fd & Hfd & _). by exists fd. }
  destruct Hp as [Hr Hs]. repeat wp_step; apply Hactive; try done; unfold slot_socket at 1 in Hs; rewrite Heqb in Hs.
  - split; [done|]. rewrite sockets_cons. cbn. by apply remove_one_Permutation.
  - eexists [_]. split; [done|]. constructor; [by eexists|constructor].
  - by split.
  - by exists [].
Qed.

(** * Properties *)

(** C14: a request is handled by its words. For any request of fewer than 2^31 bytes
    and any bytes after its terminator, tokenizing it in place and running the
    command found in the table is the same run as the reference, which looks up the
    words of the first line: more than twenty words, no word, an unknown command
    and a wrong number of arguments are each refused without running anything. No
    command reads outside the buffer or an argument that is not there, every one
    leaves in the response buffer a text that is not empty and fits, and none
    changes more of the FTP server than its reboot flag or touches a socket. *)
Theorem cmd_handle_correct `{Sdk} `{!Crc} env install_fuel context body tl s r h :
  console_ok env -> block_ok (Sha1.data context) -> Z.of_nat (length body) < 2 ^ 31 -> represents (ftpvita s) r ->
  cmd_handle install_fuel context (body ++ NUL :: tl) (Z.of_nat (length body)) [] CMD_RESPONSE_BYTES env s h =
    handle_words install_fuel context (words (first_line body)) [] CMD_RESPONSE_BYTES env s h /\
  wlp (cmd_handle install_fuel context (body ++ NUL :: tl) (Z.of_nat (length body)) [] CMD_RESPONSE_BYTES)
    (fun res s' h' => served CMD_RESPONSE_BYTES s res s' /\ adds no_socket_call h h') env s h.
Proof.
  intros Hok Hctx Hlen Hr. split; [by apply handle_eq|].
  eapply wp_mono; [by eapply handle_spec|]. by intros res s' h' (? & ? & _).
Qed.

Definition demo_context : SHA1_CTX := Sha1Ctx (replicate 64 0) 0 0 [] [].
Lemma demo_context_ok : block_ok (Sha1.data demo_context).
Proof. split; [reflexivity|solve_bytes]. Qed.

Lemma cmd_handle_correct_witness :
  exists s' h', cmd_handle (H := demo_sdk) 9 demo_context (lit "screen  on" ++ [LF; NUL]) 11 [] CMD_RESPONSE_BYTES
      quiet_console demo_console [] = Done (line "Turning display on...", s', h') /\ adds no_socket_call [] h'.
Proof.
  destruct (cmd_handle_correct (H := demo_sdk) (H0 := demo_crc) quiet_console 9 demo_context (lit "screen  on" ++ [LF]) []
    demo_console demo_registry [] quiet_console_ok demo_context_ok ltac:(vm_compute; done) demo_represents) as [_ Hw].
  unfold run_spec in Hw. eexists _, _. split; [vm_compute; reflexivity|].
  vm_compute (cmd_handle _ _ _ _ _ _ _ _ _) in Hw. apply Hw.
Defined.

(** C15: every connection is answered. Whatever the peer sends, in however many
    pieces, and whatever the other threads do meanwhile within what they owe the
    server, serving an accepted connection reaches no undefined behaviour; there is
    a response, a text that is not empty and fits its buffer: the refusal of a
    request that did not arrive, was empty or was too long, or what the command
    named by the first line of the bytes received answered. The bytes sent are the
    whole response, or a prefix of it when the connection fails; and afterwards the
    socket is closed, by this thread or by the thread that emptied its slot, never
    by both. *)
Theorem serve_client_answers `{Sdk} `{!Crc} env install_fuel context others own base fd s h :
  console_ok env -> io_counts env -> block_ok (Sha1.data context) -> neighbours_ok env others own ->
  0 <= fd -> active_client_sockfd s = -1 -> plugin_ok (fd :: base) s h ->
  wlp (serve_client others install_fuel context fd) (fun _ s' h' =>
    plugin_ok base s' h' /\ active_client_sockfd s' = -1 /\
    exists res h1 es2 es3, response_ok CMD_RESPONSE_BYTES res /\
      answers env install_fuel context own fd h h1 res /\ h' = es3 ++ es2 ++ h1 /\
      (quiet own fd -> sent fd es2 = res \/ send_stopped fd es2 /\ sent fd es2 `prefix_of` res) /\
      (ev_call <$> es3 = [sceNetSocketClose fd] \/ es3 = [])) env s h.
Proof.
  intros Hok Hcounts Hctx Hothers Hfd Hslot Hp.
  eapply wp_mono; [by eapply (serve_client_spec env Hok Hcounts install_fuel context Hctx others own Hothers base)|].
  intros ? s' h' ((Hp' & Ha & _) & Hrest). split_and!; [done|by destruct Ha|done].
Qed.

(** A peer that sends one line in two pieces. *)
Definition demo_peer : environment := fun h c =>
  match c return answer c with
  | sceNetAccept _ => (if existsb (fun e => match ev_call e with sceNetAccept _ => true | _ => false end) h then -1 else 5,
                       SockaddrIn 0 0)
  | sceNetRecv _ len =>
      let data := if existsb (fun e => match ev_call e with sceNetRecv _ _ => true | _ => false end) h
                  then lit "een on" ++ [LF] else lit "scr" in
      let data := take (Z.to_nat (Z.min len INT_MAX)) data in (Z.of_nat (length data), data)
  | sceNetSend _ data => Z.min (Z.of_nat (length data)) INT_MAX
  | sceIoWrite _ data => Z.min (Z.of_nat (length data)) INT_MAX
  | sceNetSocket _ => 4
  | c => quiet_console h c
  end.

Lemma demo_peer_ok : console_ok (H := demo_sdk) demo_peer.
Proof. split; [split; intros; cbn; try done; try lia|done|done|done]. Qed.

Lemma demo_peer_counts : io_counts demo_peer.
Proof.
  assert (forall (data : bytes) len, count_ok (Z.of_nat (length (take (Z.to_nat (Z.min len INT_MAX)) data))) len) as Htake.
  { intros data len. unfold count_ok, INT_MAX in *. rewrite length_take. lia. }
  split; intros; cbn [demo_peer quiet_console silent].
  - split; [unfold count_ok, INT_MAX; lia|done].
  - split; [apply Htake|by rewrite Nat2Z.id].
  - unfold count_ok, INT_MAX. lia.
  - unfold count_ok, INT_MAX. lia.
Qed.

Definition demo_plugin : plugin :=
  set_net_connected 1 (set_run 1 (set_commands demo_console plugin_initial)).

(** The other threads idle, or stop the server at its first wait. *)
Lemma idle_neighbour env : neighbours_ok env (mret tt) (fun _ => False).
Proof. intros base s h Hp. apply wp_ret. split_and!; [done|by left|by left|done|done|]. by exists []. Qed.

Lemma serve_client_answers_witness :
  exists s' h' res, serve_client (H := demo_sdk) (mret tt) 9 demo_context 5 demo_peer demo_plugin
      [Ev (sceNetAccept 4) (5, SockaddrIn 0 0)] = Done (tt, s', h') /\
    sockets h' = [] /\ res = line "Turning display on..." /\ received 5 h' = lit "screen on" ++ [LF] /\ sent 5 h' = res.
Proof.
  assert (plugin_ok [5] demo_plugin [Ev (sceNetAccept 4) (5, SockaddrIn 0 0)]) as Hp
    by (split; [exists demo_registry; exact demo_represents|done]).
  pose proof (serve_client_answers (H := demo_sdk) (H0 := demo_crc) demo_peer 9 demo_context (mret tt) (fun _ => False) [] 5
    demo_plugin _ demo_peer_ok demo_peer_counts demo_context_ok (idle_neighbour demo_peer) ltac:(done) eq_refl Hp) as Hw.
  assert (match serve_client (H := demo_sdk) (mret tt) 9 demo_context 5 demo_peer demo_plugin
      [Ev (sceNetAccept 4) (5, SockaddrIn 0 0)] with
          | Done (_, s', h') => Some (received 5 h', sent 5 h', slot_socket (loader_sockfd s'), slot_socket (active_client_sockfd s')) | _ => None end =
      Some (lit "screen on" ++ [LF], line "Turning display on...", [], [])) as Hout by (vm_compute; reflexivity).
  destruct (serve_client (H := demo_sdk) (mret tt) 9 demo_context 5 demo_peer demo_plugin _)
    as [[[[] s'] h']| |] eqn:E; [|discriminate Hout..].
  apply (inj Some) in Hout. injection Hout as Hrecv Hsent Hl Ha. exists s', h', (line "Turning display on..."). destruct (wlp_done _ _ _ _ _ _ _ _ Hw E) as (Hp' & _).
  pose proof (sockets_ok _ _ _ Hp') as Hperm. rewrite Hl, Ha in Hperm.
  assert (sockets h' = []) as Hs by (by apply Permutation_nil_r).
  exact (conj eq_refl (conj Hs (conj eq_refl (conj Hrecv Hsent)))).
Defined.

(** C16: the command server leaves no socket behind. Started with empty slots, and
    however its connections and the other threads interleave, when its thread ends
    both slots are empty, the sockets open are exactly those of the other owners,
    the FTP server's client list is still well formed, and the thread that started
    it is told whether it listens. *)
Theorem cmd_thread_releases_sockets `{Sdk} `{!Crc} env install_fuel context others own fuel base s h :
  console_ok env -> io_counts env -> block_ok (Sha1.data context) -> neighbours_ok env others own ->
  loader_sockfd s = -1 -> active_client_sockfd s = -1 -> plugin_ok base s h ->
  wlp (cmd_thread others install_fuel context fuel) (fun _ s' h' =>
    loader_sockfd s' = -1 /\ active_client_sockfd s' = -1 /\ sockets h' ≡ₚ base /\
    (exists r, represents (ftpvita (commands s')) r) /\ loader_start_status s' <> CMD_START_PENDING) env s h.
Proof.
  intros Hok Hcounts Hctx Hothers Hl Ha Hp.
  eapply wp_mono; [by eapply (cmd_thread_spec env Hok Hcounts install_fuel context Hctx others own Hothers fuel base)|].
  intros ? s' h' ([Hr Hs] & Hl' & Ha' & Hst). rewrite Hl', Ha' in Hs. done.
Qed.

(** The server is stopped while it serves its first connection. *)
Lemma cmd_thread_releases_sockets_witness :
  exists s' h', cmd_thread (H := demo_sdk) (close_loader;; close_active) 9 demo_context 3 demo_peer demo_plugin [] = Done (0, s', h') /\
    sockets h' ≡ₚ [] /\ loader_start_status s' = 0.
Proof.
  assert (plugin_ok [] demo_plugin []) as Hp by (split; [exists demo_registry; exact demo_represents|done]).
  pose proof (cmd_thread_releases_sockets (H := demo_sdk) (H0 := demo_crc) demo_peer 9 demo_context (close_loader;; close_active)
    closing 3 [] demo_plugin _ demo_peer_ok demo_peer_counts demo_context_ok (close_both_neighbour demo_peer) eq_refl eq_refl Hp) as Hw.
  assert (match cmd_thread (H := demo_sdk) (close_loader;; close_active) 9 demo_context 3 demo_peer demo_plugin [] with
          | Done (a, s', _) => Some (a, loader_start_status s') | _ => None end = Some (0, 0)) as Hout
    by (vm_compute; reflexivity).
  destruct (cmd_thread (H := demo_sdk) (close_loader;; close_active) 9 demo_context 3 demo_peer demo_plugin [])
    as [[[a s'] h']| |] eqn:E; [|discriminate Hout..].
  injection Hout as -> Hst. exists s', h'. destruct (wlp_done _ _ _ _ _ _ _ _ Hw E) as (_ & _ & Hs & _).
  exact (conj eq_refl (conj Hs Hst)).
Defined.
