(* ===== verification/FtpServer.v ===== *)
(** The threads of the FTP server: the thread that serves a client, the thread that
    accepts clients, and the start and the end of the server, in
    libftpvita/ftpvita.c.

    The history of a run is that of one thread.  The statics, the client list and
    the client structures are shared: [others] is what the other threads make of
    them while this one waits in the system, and is arbitrary.  A command of a
    client is one step. *)

From S2P Require Import Prelude System FtpState FtpParse FtpCmds FtpSafe ClientList.

Definition FTP_PORT : Z := 1337.
Definition NET_INIT_SIZE : Z := 64 * 1024.
Definition SERVER_START_TIMEOUT_MS : nat := Z.to_nat 2000.
Definition NET_CTL_ERROR_NOT_TERMINATED : Z := 0x80412102.
Definition FTP_DEFAULT_PATH : bytes := lit "/".

(** The sizes of [recv_buffer], of [cmd] in [client_thread], and of a client. *)
Definition RECV_BUFFER : Z := 512.
Definition CMD_WORD : Z := 16.
Definition sizeof_client : Z := 2660.

Abbreviation V := (M server).

(** A computation on the statics and on the client at [c]. *)
Definition on_client {A} (c : loc) (m : C A) : V A := fun env s h =>
  match heap s !! c with
  | None => Undefined
  | Some n =>
      match m env (globals s, info n) h with
      | Done (a, (f, i), h) => Done (a, Server f (<[c := set_info i n]> (heap s)) (client_list s), h)
      | Undefined => Undefined
      | NoFuel => NoFuel
      end
  end.

Section threads.
Context `{Sdk} (others : history -> server -> server) (custom_command : Z -> C unit) (fuel : nat).

(** A call the thread can wait in. *)
Definition pause (c : call) : V (answer c) := fun env s h =>
  let a := env h c in Done (a, others (Ev c a :: h) s, Ev c a :: h).

(** * The thread of a client *)

(** [recv] writes what it received at the start of the buffer. *)
Definition receive_line (c : loc) : V Z :=
  on_client c (set_client (set_recv_buffer (replicate (Z.to_nat RECV_BUFFER) 0)));;
  n ← deref (Some c);
  '(received, data) ← pause (sceNetRecv (ctrl_sockfd (info n)) (RECV_BUFFER - 1));
  on_client c (
    buffer ← of_client recv_buffer;
    (if Z.of_nat (length buffer) <? Z.of_nat (length data) then lift Undefined
     else set_client (set_recv_buffer (list_inserts 0 data buffer)));;
    set_client (set_n_recv received));;
  mret received.

(** One turn of the loop: whether there is another. *)
Definition client_turn (c : loc) : V bool :=
  received ← receive_line c;
  if 0 <? received then
    r ← on_client c (
      buffer ← of_client recv_buffer;
      buffer ← lift (store buffer received NUL);
      set_client (set_recv_buffer buffer);;
      arguments ← of_client recv_cmd_args;
      r ← lift (ftpvita_parse_command_line (Some buffer) (Some (replicate (Z.to_nat CMD_WORD) 0)) CMD_WORD (Some arguments));
      set_client (set_recv_cmd_args (cl_arguments r));;
      mret r);
    if cl_ret r =? 0 then on_client c (client_send_ctrl_msg (msg "500 Empty command."));; mret true
    else
      pause (sceKernelDelayThread 1000);;
      word ← lift (match cl_command r with Some p => cstr p | NULL => Undefined end);
      on_client c (
        f ← get_dispatch_func custom_command fuel word;
        match f with
        | Some f => f;; quit ← of_client quit_requested; mret (negb quit)
        | NULL => client_send_ctrl_msg (msg "502 Sorry, command not implemented. :(");; mret true
        end)
  else mret false.

Fixpoint client_loop (turns : nat) (c : loc) : V unit :=
  match turns with
  | O => lift NoFuel
  | S turns =>
      again ← client_turn c;
      if (again : bool) then client_loop turns c else mret tt
  end.

(** [close_socket(&client->ctrl_sockfd)] *)
Definition close_ctrl_socket : C unit :=
  sockfd ← of_client ctrl_sockfd;
  if 0 <=? sockfd then sys (sceNetSocketClose sockfd);; set_client (set_ctrl_sockfd (-1)) else mret tt.

(** The last call does not return. *)
Definition client_thread (turns : nat) (c : loc) : V Z :=
  on_client c (client_send_ctrl_msg (msg "220 FTPVita Server ready."));;
  client_loop turns c;;
  delete_own_thread ← client_list_delete c;
  on_client c close_ctrl_socket;;
  on_client c client_close_data_connection;;
  free_client c;;
  if (delete_own_thread : bool) then sys sceKernelExitDeleteThread;; mret 0
  else sys sceKernelExitThread;; mret 0.

(** * The thread that accepts *)

(** The initial contents of a client's structure; its number is an [int]. *)
Definition new_client (num sockfd : Z) : client :=
  Client (s32 num) sockfd (-1) FTP_DATA_CONNECTION_NONE (SockaddrIn 0 0) (SockaddrIn 0 0) (-1) 0
    (replicate (Z.to_nat RECV_BUFFER) 0) NULL FTP_DEFAULT_PATH [] false 0.

(** A connection that is not served is closed, and its structure freed. *)
Definition drop_client (c : loc) : V unit :=
  on_client c close_ctrl_socket;;
  free_client c.

Definition admit_client (client_sockfd : Z) (clientaddr : SceNetSockaddrIn) (client_num : Z) : V unit :=
  block ← sys (malloc sizeof_client);
  if negb block then
    sys (sceNetSend client_sockfd (msg "421 Server is out of memory."));;
    sys (sceNetSocketClose client_sockfd);;
    mret tt
  else
    s ← get;
    let c := fresh (dom (heap s)) in
    modify (set_heap (<[c := Node (new_client client_num client_sockfd) 0 clientaddr NULL NULL false]> (heap s)));;
    client_thid ← sys (sceKernelCreateThread
      (snprintf 64 (lit "FTPVita_client_" ++ fmt_u client_num ++ lit "_thread")));
    if client_thid <? 0 then
      on_client c (client_send_ctrl_msg (msg "421 Server cannot create a client thread."));;
      drop_client c
    else
      assign (Some c) (set_thid client_thid);;
      added ← client_list_add c;
      if negb added then
        on_client c (client_send_ctrl_msg (msg "421 Too many FTP clients."));;
        sys (sceKernelDeleteThread client_thid);;
        drop_client c
      else
        ret ← pause (sceKernelStartThread client_thid);
        if ret <? 0 then
          client_list_delete c;;
          sys (sceKernelDeleteThread client_thid);;
          drop_client c
        else mret tt.

(** One turn of the accept loop: whether there is another. *)
Definition accept_turn : V bool :=
  sockfd ← gets (fun s => server_sockfd (globals s));
  '(client_sockfd, clientaddr) ← pause (sceNetAccept sockfd);
  if 0 <=? client_sockfd then
    on_globals (configure_socket_io_timeout client_sockfd);;
    sys (sceNetInetNtop (s_addr clientaddr));;
    client_num ← on_globals (gets next_client_num);
    on_globals (modify (set_next_client_num (u32 (client_num + 1))));;
    admit_client client_sockfd clientaddr client_num;;
    mret true
  else mret false.

Fixpoint server_loop (turns : nat) : V unit :=
  match turns with
  | O => lift NoFuel
  | S turns =>
      again ← accept_turn;
      if (again : bool) then server_loop turns else mret tt
  end.

Definition on_status (status : Z) : V unit := on_globals (modify (set_server_start_status status)).

(** The listening socket: whether the server can accept. *)
Definition start_server : V bool :=
  sockfd ← pause (sceNetSocket (lit "FTPVita_server_sock"));
  on_globals (modify (set_server_sockfd sockfd));;
  f ← gets globals;
  if server_sockfd f <? 0 then on_status (server_sockfd f);; mret false
  else
    any ← sys (sceNetHtonl SCE_NET_INADDR_ANY);
    port ← sys (sceNetHtons FTP_PORT);
    ret ← pause (sceNetBind (server_sockfd f) (SockaddrIn any port));
    if ret <? 0 then on_status ret;; on_globals close_server_socket;; mret false
    else
      f ← gets globals;
      ret ← pause (sceNetListen (server_sockfd f) 128);
      if ret <? 0 then on_status ret;; on_globals close_server_socket;; mret false
      else on_status 0;; mret true.

Definition server_thread (turns : nat) : V Z :=
  started ← start_server;
  (if (started : bool) then server_loop turns else mret tt);;
  on_globals (modify (fun f => if server_start_status f =? SERVER_START_PENDING then set_server_start_status (-1) f else f));;
  sys sceKernelExitThread;;
  mret 0.

(** * Starting and stopping the server *)

(** Release from each of the points where the start can fail, in the order of the
    labels. *)
Definition error_netinit : V unit :=
  memory ← on_globals (gets net_memory);
  if (memory : bool) then sys (free true);; on_globals (modify (set_net_memory false)) else mret tt.

Definition error_netctlinit : V unit :=
  net ← on_globals (gets net_init);
  (if net =? 0 then sys sceNetTerm;; on_globals (modify (set_net_init (-1))) else mret tt);;
  error_netinit.

Definition error_netctlgetinfo : V unit :=
  netctl ← on_globals (gets netctl_init);
  (if netctl =? 0 then sys sceNetCtlTerm;; on_globals (modify (set_netctl_init (-1))) else mret tt);;
  error_netctlinit.

Definition error_server_thread : V unit :=
  mtx ← on_globals (gets client_list_mtx);
  sys (sceKernelDeleteMutex mtx);;
  on_globals (modify (set_client_list_mtx (-1)));;
  error_netctlgetinfo.

Definition error_server_start : V unit :=
  thid ← on_globals (gets server_thid);
  sys (sceKernelDeleteThread thid);;
  on_globals (modify (set_server_thid (-1)));;
  error_server_thread.

(** The tables and the flags at the start of the server. *)
Definition reset_statics (f : ftp) : ftp :=
  set_server_start_status SERVER_START_PENDING (set_server_sockfd (-1)
  (set_reboot_quiesce_requested 0 (set_transfer_active 0 (set_next_client_num 0 (set_number_clients 0
  (set_custom_command_dispatchers ((fun d => Custom (cmd d) (func d) false) <$> custom_command_dispatchers f)
  (set_device_list ((fun d => Device (name d) false) <$> device_list f) f))))))).

Fixpoint wait_started (waited : nat) : V unit :=
  match waited with
  | O => mret tt
  | S waited =>
      status ← on_globals (gets server_start_status);
      if status =? SERVER_START_PENDING then pause (sceKernelDelayThread 1000);; wait_started waited
      else mret tt
  end.

(** From the creation of the list's mutex on. *)
Definition init_server : V Z :=
  mtx ← sys (sceKernelCreateMutex (lit "FTPVita_client_list_mutex"));
  on_globals (modify (set_client_list_mtx mtx));;
  if mtx <? 0 then error_netctlgetinfo;; mret mtx
  else
    thid ← sys (sceKernelCreateThread (lit "FTPVita_server_thread"));
    on_globals (modify (set_server_thid thid));;
    if thid <? 0 then error_server_thread;; mret thid
    else
      on_globals (modify reset_statics);;
      modify (set_client_list NULL);;
      ret ← pause (sceKernelStartThread thid);
      if ret <? 0 then error_server_start;; mret ret
      else
        wait_started SERVER_START_TIMEOUT_MS;;
        status ← on_globals (gets server_start_status);
        if negb (status =? 0) then
          on_globals close_server_socket;;
          pause (sceKernelWaitThreadEnd thid);;
          error_server_start;;
          mret (if status =? SERVER_START_PENDING then -1 else status)
        else
          on_globals (modify (set_ftp_initialized true));;
          mret 0.

(** From the start of NetCtl on; the address is a C string in an array of 16. *)
Definition init_netctl : V (Z * option (bytes * Z)) :=
  netctl ← sys sceNetCtlInit;
  on_globals (modify (set_netctl_init netctl));;
  if (netctl <? 0) && negb (u32 netctl =? NET_CTL_ERROR_NOT_TERMINATED) then error_netctlinit;; mret (netctl, None)
  else
    '(ret, ip_address) ← sys sceNetCtlInetGetInfo;
    if ret <? 0 then error_netctlgetinfo;; mret (ret, None)
    else
      vita_ip ← lift (strcpy 16 ip_address);
      addr ← sys (sceNetInetPton ip_address);
      on_globals (modify (set_vita_addr addr));;
      ret ← init_server;
      mret (ret, Some (vita_ip, FTP_PORT)).

(** The result, with the address and the port written for the caller. *)
Definition ftpvita_init : V (Z * option (bytes * Z)) :=
  f ← gets globals;
  if ftp_initialized f then mret (-1, None)
  else
    ret ← sys sceNetShowNetstat;
    if ret =? 0 then on_globals (modify (set_net_init (-1)));; init_netctl
    else if ret =? SCE_NET_ERROR_ENOTINIT then
      memory ← sys (malloc NET_INIT_SIZE);
      on_globals (modify (set_net_memory memory));;
      if negb memory then error_netinit;; mret (-1, None)
      else
        net ← sys (sceNetInit NET_INIT_SIZE);
        on_globals (modify (set_net_init net));;
        if net <? 0 then error_netinit;; mret (net, None)
        else init_netctl
    else mret (ret, None).

(** Waiting for the detached clients, each by the thread id that was noted. *)
Fixpoint wait_clients (client_thids : list Z) : V unit :=
  match client_thids with
  | [] => mret tt
  | thid :: client_thids =>
      pause (sceKernelWaitThreadEnd thid);;
      sys (sceKernelDeleteThread thid);;
      wait_clients client_thids
  end.

Definition client_list_thread_end : V unit :=
  f ← gets globals;
  if client_list_mtx f <? 0 then mret tt
  else
    client_thids ← detach_clients;
    wait_clients client_thids.

(** The steps of [ftpvita_fini]. *)
Definition end_server_thread : V unit :=
  thid ← on_globals (gets server_thid);
  if 0 <=? thid then
    pause (sceKernelWaitThreadEnd thid);;
    sys (sceKernelDeleteThread thid);;
    on_globals (modify (set_server_thid (-1)))
  else mret tt.

Definition delete_list_mutex : V unit :=
  mtx ← on_globals (gets client_list_mtx);
  if 0 <=? mtx then sys (sceKernelDeleteMutex mtx);; on_globals (modify (set_client_list_mtx (-1))) else mret tt.

Definition release_network : V unit :=
  f ← gets globals;
  (if netctl_init f =? 0 then sys sceNetCtlTerm;; mret tt else mret tt);;
  (if net_init f =? 0 then sys sceNetTerm;; mret tt else mret tt);;
  (if net_memory f then sys (free true);; mret tt else mret tt);;
  on_globals (modify (fun f => set_net_memory false (set_net_init (-1) (set_netctl_init (-1) f)))).

Definition ftpvita_fini : V unit :=
  f ← gets globals;
  if negb (ftp_initialized f) then mret tt
  else
    on_globals (modify (set_ftp_initialized false));;
    on_globals close_server_socket;;
    end_server_thread;;
    client_list_thread_end;;
    delete_list_mutex;;
    modify (set_client_list NULL);;
    on_globals (modify (fun f => set_reboot_quiesce_requested 0 (set_transfer_active 0 (set_number_clients 0 f))));;
    release_network.
End threads.

(** * The start *)

(** What the start of the server acquired, in terms of the statics that say so. *)
Definition setup (f : ftp) := (server_thid f, client_list_mtx f, net_init f, netctl_init f, net_memory f, ftp_initialized f).

Record acquired `{Sdk} (k : kernel) (b : Z) (thids mtxs : list Z) (f : ftp) (h : history) : Prop := {
  acq_kernel : kernel_of h = Kernel (thids ++ threads k) (mtxs ++ mutexes k)
    (nets k + Z.b2z (net_init f =? 0)) (netctls k + Z.b2z (netctl_init f =? 0));
  acq_blocks : blocks (holds h) = b + Z.b2z (net_memory f);
  acq_initialized : ftp_initialized f = false
}.

(** Everything was given back, and the statics say so. *)
Record released `{Sdk} (k : kernel) (b : Z) (f : ftp) (h : history) : Prop := {
  rel_kernel : kernel_of h = k;
  rel_blocks : blocks (holds h) = b;
  rel_initialized : ftp_initialized f = false;
  rel_net : net_init f <> 0;
  rel_netctl : netctl_init f <> 0;
  rel_memory : net_memory f = false
}.

Section starting.
Context `{Sdk} (env : environment) {nofuel : Prop}.
Abbreviation spec := (run_spec nofuel).

Lemma acquired_neutral k b thids mtxs f c (a : answer c) h :
  (forall r, track (Ev c a) r = r) -> (forall r, track_kernel (Ev c a) r = r) ->
  acquired k b thids mtxs f h -> acquired k b thids mtxs f (Ev c a :: h).
Proof using Type. intros Ht Hk []. split; [by rewrite kernel_cons, Hk|by rewrite holds_cons, Ht|done]. Qed.

Lemma acquired_setup k b thids mtxs f f' h : setup f' = setup f -> acquired k b thids mtxs f h -> acquired k b thids mtxs f' h.
Proof using Type. intros [= _ _ Hn Hc Hm Hi] []. split; congruence. Qed.

(** The statics as a whole, for symbolic execution. *)
Ltac on_statics := unfold on_globals, on_status; repeat wp_step; cbn [globals set_globals].

Lemma error_netinit_spec k b s h (Q : unit -> server -> history -> Prop) :
  acquired k b [] [] (globals s) h -> net_init (globals s) <> 0 -> netctl_init (globals s) <> 0 ->
  (forall s' h', released k b (globals s') h' -> Q tt s' h') -> spec error_netinit Q env s h.
Proof using Type.
  intros [Hk Hb Hi] Hn Hc HQ. unfold error_netinit, on_globals. repeat wp_step; apply HQ.
  - split; cbn [globals set_globals]; rewrite ?kernel_cons, ?holds_cons.
    + cbn [track_kernel]. rewrite Hk. cbn. destruct (Z.eqb_spec (net_init (globals s)) 0), (Z.eqb_spec (netctl_init (globals s)) 0); try done.
      destruct k. cbn. f_equal; lia.
    + cbn [track blocks]. rewrite Hb. replace (net_memory (globals s)) with true. cbn. lia.
    + done.
    + done.
    + done.
    + done.
  - destruct s as [g hp cl]. cbn in *. split; try done.
    + rewrite Hk. destruct (Z.eqb_spec (net_init g) 0), (Z.eqb_spec (netctl_init g) 0); try done.
      destruct k. cbn. f_equal; lia.
    + rewrite Hb. replace (net_memory g) with false. cbn. lia.
Qed.

Lemma error_netctlinit_spec k b s h (Q : unit -> server -> history -> Prop) :
  acquired k b [] [] (globals s) h -> netctl_init (globals s) <> 0 ->
  (forall s' h', released k b (globals s') h' -> Q tt s' h') -> spec error_netctlinit Q env s h.
Proof using Type.
  intros Ha Hc HQ. unfold error_netctlinit, on_globals. do 4 wp_step.
  replace (set_globals (globals s) s) with s by by destruct s.
  do 2 wp_step.
  - repeat wp_step. apply (error_netinit_spec k b); [|done|done|done]. destruct Ha as [Hk Hb Hi].
    split; cbn [globals set_globals]; [|by rewrite holds_cons|done].
    rewrite kernel_cons. cbn [track_kernel]. rewrite Hk. cbn. replace (net_init (globals s) =? 0) with true. cbn.
    f_equal. lia.
  - repeat wp_step. apply (error_netinit_spec k b); [done|lia|done|done].
Qed.

Lemma error_netctlgetinfo_spec k b s h (Q : unit -> server -> history -> Prop) :
  acquired k b [] [] (globals s) h ->
  (forall s' h', released k b (globals s') h' -> Q tt s' h') -> spec error_netctlgetinfo Q env s h.
Proof using Type.
  intros Ha HQ. unfold error_netctlgetinfo, on_globals. do 4 wp_step.
  replace (set_globals (globals s) s) with s by by destruct s.
  do 2 wp_step.
  - repeat wp_step. apply (error_netctlinit_spec k b); [|done|done]. destruct Ha as [Hk Hb Hi].
    split; cbn [globals set_globals]; [|by rewrite holds_cons|done].
    rewrite kernel_cons. cbn [track_kernel]. rewrite Hk. cbn. replace (netctl_init (globals s) =? 0) with true. cbn.
    f_equal. lia.
  - repeat wp_step. apply (error_netctlinit_spec k b); [done|lia|done].
Qed.

Lemma error_server_thread_spec k b s h (Q : unit -> server -> history -> Prop) :
  acquired k b [] [client_list_mtx (globals s)] (globals s) h ->
  (forall s' h', released k b (globals s') h' -> Q tt s' h') -> spec error_server_thread Q env s h.
Proof using Type.
  intros Ha HQ. unfold error_server_thread, on_globals. repeat wp_step. apply (error_netctlgetinfo_spec k b); [|done].
  destruct Ha as [Hk Hb Hi]. split; cbn [globals set_globals]; [|by rewrite holds_cons|done].
  rewrite kernel_cons. cbn [track_kernel]. rewrite Hk. cbn [mutexes app]. by rewrite remove_one_head.
Qed.

Lemma error_server_start_spec k b s h (Q : unit -> server -> history -> Prop) :
  acquired k b [server_thid (globals s)] [client_list_mtx (globals s)] (globals s) h ->
  (forall s' h', released k b (globals s') h' -> Q tt s' h') -> spec error_server_start Q env s h.
Proof using Type.
  intros Ha HQ. unfold error_server_start, on_globals. repeat wp_step. apply (error_server_thread_spec k b); [|done].
  destruct Ha as [Hk Hb Hi]. split; cbn [globals set_globals]; [|by rewrite holds_cons|done].
  rewrite kernel_cons. cbn [track_kernel]. rewrite Hk. cbn [threads app]. by rewrite remove_one_head.
Qed.
End starting.

Lemma close_server_spec {nofuel : Prop} (env : environment) f h (Q : unit -> ftp -> history -> Prop) :
  (forall h', (h' = h /\ server_sockfd f < 0) \/
     (0 <= server_sockfd f /\ exists a, h' = Ev (sceNetSocketClose (server_sockfd f)) a :: h) ->
     Q tt (set_server_sockfd (-1) f) h') ->
  run_spec nofuel close_server_socket Q env f h.
Proof.
  intros HQ. unfold close_server_socket. repeat wp_step; apply HQ; [right|left]; (split; [lia || done|]); [eauto|lia].
Qed.

(** The other threads leave what the start acquired to the thread that started the
    server. *)
Definition keeps_setup (others : history -> server -> server) : Prop :=
  forall h s, setup (globals (others h s)) = setup (globals s).

Section init.
Context `{Sdk} (env : environment) (others : history -> server -> server) (Hothers : keeps_setup others).

(** The server runs: it owns a thread, a mutex and what it started. *)
Record running (k : kernel) (b : Z) (f : ftp) (h : history) : Prop := {
  run_kernel : kernel_of h = Kernel (server_thid f :: threads k) (client_list_mtx f :: mutexes k)
    (nets k + Z.b2z (net_init f =? 0)) (netctls k + Z.b2z (netctl_init f =? 0));
  run_blocks : blocks (holds h) = b + Z.b2z (net_memory f);
  run_thread : 0 <= server_thid f;
  run_mutex : 0 <= client_list_mtx f;
  run_initialized : ftp_initialized f = true
}.

(** The outcome of the start: everything, or nothing and an error. *)
Definition started (k : kernel) (b : Z) (r : Z) (s : server) (h : history) : Prop :=
  if r =? 0 then running k b (globals s) h else released k b (globals s) h.

Lemma wp_pause {nofuel : Prop} c (Q : answer c -> server -> history -> Prop) s h :
  (forall a, a = env h c -> Q a (others (Ev c a :: h) s) (Ev c a :: h)) -> run_spec nofuel (pause others c) Q env s h.
Proof using Type. intros HQ. by apply HQ. Qed.

Ltac pause_step :=
  lazymatch goal with |- run_spec ?nofuel (pause _ ?c) ?Q _ ?s ?h => refine (@wp_pause nofuel c Q s h _) end.

Lemma wait_started_spec waited k b thids mtxs s h :
  acquired k b thids mtxs (globals s) h ->
  wp (wait_started others waited) (fun _ s' h' =>
    acquired k b thids mtxs (globals s') h' /\ setup (globals s') = setup (globals s)) env s h.
Proof using Hothers.
  revert s h. induction waited as [|waited IH]; intros s h Ha; cbn [wait_started]; [by apply wp_ret|].
  unfold on_globals. do 3 wp_step. replace (set_globals (globals s) s) with s by by destruct s.
  destruct (_ =? _); [|by apply wp_ret]. apply wp_bind. pause_step. intros a _.
  eapply wp_mono; [apply IH; eapply acquired_setup; [apply Hothers|]; by apply acquired_neutral|].
  intros ? s' h' [? Hsetup]. split; [done|]. rewrite Hsetup. apply Hothers.
Qed.

Lemma init_server_spec k b s h :
  acquired k b [] [] (globals s) h ->
  wp (init_server others) (fun r s' h' => started k b r s' h') env s h.
Proof using Hothers.
  intros Ha. unfold init_server, on_globals. do 5 wp_step. rename a into mtx.
  assert (acquired k b [] (if mtx <? 0 then [] else [mtx]) (set_client_list_mtx mtx (globals s))
    (Ev (sceKernelCreateMutex (lit "FTPVita_client_list_mutex")) mtx :: h)) as Ha1.
  { destruct Ha as [Hk Hb Hi]. split; [|by rewrite holds_cons|done]. rewrite kernel_cons. cbn [track_kernel]. rewrite Hk.
    by destruct (mtx <? 0). }
  clear Ha. wp_step.
  { apply wp_bind. eapply (error_netctlgetinfo_spec env k b); [exact Ha1|]. intros s' h' Hr. apply wp_ret.
    unfold started. by replace (mtx =? 0) with false by lia. }
  do 5 wp_step. rename a into thid.
  match goal with |- run_spec _ _ _ _ ?s2 ?h2 =>
    assert (acquired k b (if thid <? 0 then [] else [thid]) [mtx] (globals s2) h2) as Ha2 end.
  { destruct Ha1 as [Hk Hb Hi]. cbn [globals set_globals] in *. split; [|by rewrite holds_cons|done].
    rewrite kernel_cons. cbn [track_kernel]. rewrite Hk. by destruct (thid <? 0). }
  cbn [globals set_globals] in Ha2 |- *. clear Ha1. wp_step.
  { apply wp_bind. eapply (error_server_thread_spec env k b); [exact Ha2|]. intros s' h' Hr. apply wp_ret.
    unfold started. by replace (thid =? 0) with false by lia. }
  do 5 wp_step. apply wp_bind. pause_step. intros ret _.
  match goal with |- run_spec _ _ _ _ (others ?h' ?s') ?h3 =>
    assert (acquired k b [thid] [mtx] (globals (others h' s')) h3 /\
      setup (globals (others h' s')) = setup (set_server_thid thid (set_client_list_mtx mtx (globals s)))) as [Ha3 Hs3] end.
  { split; [|by rewrite Hothers]. eapply acquired_setup; [rewrite Hothers; reflexivity|].
    apply acquired_neutral; [done|done|]. eapply acquired_setup; [|exact Ha2]. done. }
  clear Ha2. generalize dependent (Ev (sceKernelStartThread thid) ret). intros e.
  match goal with |- context [others ?h' ?s'] => generalize (others h' s') end. intros s3 Ha3 Hs3.
  generalize dependent (e :: Ev (sceKernelCreateThread (lit "FTPVita_server_thread")) thid ::
    Ev (sceKernelCreateMutex (lit "FTPVita_client_list_mutex")) mtx :: h). intros h3 Ha3.
  assert (forall s4 h4, setup (globals s4) = setup (globals s3) -> acquired k b [thid] [mtx] (globals s4) h4 ->
    acquired k b [server_thid (globals s4)] [client_list_mtx (globals s4)] (globals s4) h4) as Hown.
  { intros s4 h4 E Ha4. rewrite Hs3 in E. injection E as Et Em _ _ _ _. by rewrite Et, Em. }
  wp_step.
  { apply wp_bind. eapply (error_server_start_spec env k b); [by apply Hown|]. intros s' h' Hr. apply wp_ret.
    unfold started. by replace (ret =? 0) with false by lia. }
  apply wp_bind. eapply wp_mono; [by apply wait_started_spec|]. intros ? s4 h4 [Ha4 Hs4]. do 3 wp_step.
  replace (set_globals (globals s4) s4) with s4 by by destruct s4. destruct (Z.eqb_spec (server_start_status (globals s4)) 0) as [Hz|Hnz]; cbn [negb].
  - repeat wp_step. unfold started. cbn [globals set_globals]. pose proof (Hown s4 h4 Hs4 Ha4) as [Hk Hb Hi].
    assert (server_thid (globals s4) = thid /\ client_list_mtx (globals s4) = mtx) as [Et Em]
      by (rewrite Hs3 in Hs4; by injection Hs4).
    split; cbn [setup]; try done; [cbn; lia..].
  - apply wp_bind, wp_zoom. apply close_server_spec. intros h5 Hh5. apply wp_bind. pause_step. intros a5 _.
    match goal with |- run_spec _ _ _ _ (others ?h' ?s') _ => set (s6 := others h' s') end.
    assert (setup (globals s6) = setup (globals s4)) as Hs6 by (unfold s6; rewrite Hothers; reflexivity).
    apply wp_bind. eapply (error_server_start_spec env k b).
    + apply Hown; [congruence|]. eapply acquired_setup; [exact Hs6|]. apply acquired_neutral; [done|done|].
      destruct Hh5 as [[-> _]|[_ [x ->]]]; [done|]. by apply acquired_neutral.
    + intros s' h' Hr. apply wp_ret. unfold started.
      destruct (_ =? SERVER_START_PENDING); [done|]. by replace (_ =? 0) with false by lia.
Qed.

Lemma init_netctl_spec k b s h :
  (forall h, Z.of_nat (length (snd (env h sceNetCtlInetGetInfo))) < 16) ->
  acquired k b [] [] (globals s) h -> netctl_init (globals s) <> 0 ->
  wp (init_netctl others) (fun '(r, _) s' h' => started k b r s' h') env s h.
Proof using Hothers.
  intros Hip Ha Hc. unfold init_netctl, on_globals. do 5 wp_step. rename a into netctl.
  match goal with |- run_spec _ _ _ _ ?s1 ?h1 => assert (acquired k b [] [] (globals s1) h1) as Ha1 end.
  { destruct Ha as [Hk Hb Hi]. split; cbn [globals set_globals]; [|by rewrite holds_cons|done].
    rewrite kernel_cons. cbn [track_kernel]. rewrite Hk. cbn. replace (netctl_init (globals s) =? 0) with false by lia.
    destruct (netctl =? 0); cbn; f_equal; lia. }
  clear Ha. wp_step.
  { apply wp_bind. eapply (error_netctlinit_spec env k b); [exact Ha1|cbn; lia|]. intros s' h' Hr. apply wp_ret.
    unfold started. by replace (netctl =? 0) with false by lia. }
  do 3 wp_step.
  match goal with E : (z, _) = env ?h' _ |- _ => pose proof (Hip h') as Hlen; rewrite <-E in Hlen; cbn [snd] in Hlen; clear E end.
  match goal with |- run_spec _ _ _ _ _ ?h1 => assert (acquired k b [] [] (set_netctl_init netctl (globals s)) h1) as Ha2
    by (by apply acquired_neutral) end.
  wp_step.
  { apply wp_bind. eapply (error_netctlgetinfo_spec env k b); [exact Ha2|]. intros s' h' Hr. apply wp_ret.
    unfold started. by replace (z =? 0) with false by lia. }
  unfold strcpy. replace (_ <? 16) with true by lia. do 8 wp_step. eapply wp_mono.
  { apply (init_server_spec k b). eapply acquired_setup; [|apply acquired_neutral; [..|exact Ha2]]; done. }
  intros r s' h' Hr. by apply wp_ret.
Qed.

Lemma ftpvita_init_spec k b s h :
  (forall h, Z.of_nat (length (snd (env h sceNetCtlInetGetInfo))) < 16) -> SCE_NET_ERROR_ENOTINIT <> 0 ->
  released k b (globals s) h ->
  wp (ftpvita_init others) (fun '(r, _) s' h' => started k b r s' h') env s h.
Proof using Hothers.
  intros Hip Hconst Hrel. unfold ftpvita_init, on_globals. do 2 wp_step. rewrite (rel_initialized _ _ _ _ Hrel).
  do 2 wp_step. rename a into netstat.
  assert (released k b (globals s) (Ev sceNetShowNetstat netstat :: h)) as Hrel1
    by (destruct Hrel; split; by rewrite ?kernel_cons, ?holds_cons).
  assert (forall h', released k b (globals s) h' -> acquired k b [] [] (globals s) h') as Hacq.
  { intros h' [Hk Hb Hi Hn Hc Hm]. split; [|by rewrite Hb, Hm, Z.add_0_r|done]. rewrite Hk.
    replace (net_init _ =? 0) with false by lia. replace (netctl_init _ =? 0) with false by lia.
    cbn. destruct k. cbn. f_equal; lia. }
  pose proof Hrel as [_ _ _ Hn Hc Hm]. wp_step.
  - do 3 wp_step. apply init_netctl_spec; [done| |done]. destruct (Hacq _ Hrel1) as [Hk Hb Hi].
    split; [|done|done]. rewrite Hk. cbn. by replace (net_init (globals s) =? 0) with false by lia.
  - wp_step; [|apply wp_ret; unfold started; by replace (netstat =? 0) with false].
    do 5 wp_step.
    match goal with |- run_spec _ _ _ _ ?s1 ?h1 => assert (acquired k b [] [] (globals s1) h1) as Ha1 end.
    { destruct (Hacq _ Hrel1) as [Hk Hb Hi]. split; cbn [globals set_globals]; [by rewrite kernel_cons| |done].
      rewrite holds_cons. cbn [track]. rewrite Hm in Hb. destruct a; cbn in *; lia. }
    wp_step.
    { apply wp_bind. eapply (error_netinit_spec env k b); [exact Ha1|done|done|]. intros s' h' Hr. by apply wp_ret. }
    do 5 wp_step. rename a0 into net.
    match goal with |- run_spec _ _ _ _ ?s1 ?h1 => assert (acquired k b [] [] (globals s1) h1) as Ha2 end.
    { destruct Ha1 as [Hk Hb Hi]. cbn [globals set_globals] in *. split; [|by rewrite holds_cons|done].
      rewrite kernel_cons. cbn [track_kernel]. rewrite Hk. cbn. replace (net_init (globals s) =? 0) with false by lia.
      destruct (net =? 0); cbn; f_equal; lia. }
    wp_step.
    { apply wp_bind. eapply (error_netinit_spec env k b); [exact Ha2|cbn; lia|done|]. intros s' h' Hr. apply wp_ret.
      unfold started. by replace (net =? 0) with false by lia. }
    by apply init_netctl_spec.
Qed.
End init.

(** * The end *)

(** The client list as the other threads leave it is well formed. *)
Definition keeps_list (others : history -> server -> server) : Prop :=
  forall h s r, represents s r -> exists r', represents (others h s) r'.

Lemma represents_globals g g' hp cl r :
  number_clients g' = number_clients g -> reboot_quiesce_requested g' = reboot_quiesce_requested g ->
  client_list_mtx g' = client_list_mtx g -> represents (Server g hp cl) r -> represents (Server g' hp cl) r.
Proof. intros Hn Hq Hm []. split; cbn in *; rewrite ?Hn, ?Hq, ?Hm; done. Qed.

(** The calls of the teardown: the listening socket, the server's thread, the
    abort of every client under the mutex, then each client's thread, and last the
    mutex and the network layers that the start had brought up. *)
Definition end_thread (thid : Z) : list call := [sceKernelWaitThreadEnd thid; sceKernelDeleteThread thid].

(** The server as the other threads left it when its own thread has ended: from then on
    there are no new clients. *)
Definition listener_closed (f : ftp) (env : environment) (h : history) : history :=
  if 0 <=? server_sockfd f then Ev (sceNetSocketClose (server_sockfd f)) (env h (sceNetSocketClose (server_sockfd f))) :: h else h.

Definition thread_gone (others : history -> server -> server) (env : environment) (s : server) (h : history) : server :=
  let wait := sceKernelWaitThreadEnd (server_thid (globals s)) in
  others (Ev wait (env h wait) :: h) s.

Definition clients_left (others : history -> server -> server) (env : environment) (s : server) (h : history) : server :=
  thread_gone others env (set_globals (set_server_sockfd (-1) (set_ftp_initialized false (globals s))) s) (listener_closed (globals s) env h).

Definition teardown_calls `{Sdk} (f : ftp) (clients : list node) : list call :=
  (if 0 <=? server_sockfd f then [sceNetSocketClose (server_sockfd f)] else []) ++
  end_thread (server_thid f) ++
  (sceKernelLockMutex (client_list_mtx f) :: concat (connection_aborts ∘ info <$> clients) ++
     [sceKernelUnlockMutex (client_list_mtx f)]) ++
  concat (end_thread ∘ thid <$> clients) ++
  [sceKernelDeleteMutex (client_list_mtx f)] ++
  (if netctl_init f =? 0 then [sceNetCtlTerm] else []) ++
  (if net_init f =? 0 then [sceNetTerm] else []) ++
  (if net_memory f then [free true] else []).

Section ending.
Context `{Sdk} (env : environment) (others : history -> server -> server).
Context (Hsetup : keeps_setup others) (Hlist : keeps_list others).

Lemma wait_clients_spec thids s h :
  wp (wait_clients others thids) (fun _ s' h' =>
    setup (globals s') = setup (globals s) /\ traced (concat (end_thread <$> thids)) h h') env s h.
Proof using Hsetup.
  revert s h. induction thids as [|t thids IH]; intros s h; cbn [wait_clients].
  - apply wp_ret. split; [done|apply traced_nil].
  - apply wp_bind. refine (wp_pause env others (sceKernelWaitThreadEnd t) _ s h _). intros a _. do 2 wp_step.
    eapply wp_mono; [apply IH|]. intros ? s' h' [Hs Ht]. split; [rewrite Hs; apply Hsetup|].
    cbn. by do 2 eapply traced_cons.
Qed.

Lemma end_server_thread_spec s r h :
  represents s r -> 0 <= server_thid (globals s) ->
  wp (end_server_thread others) (fun _ s' h' =>
    (exists r', represents s' r' /\ represents (thread_gone others env s h) r' /\ heap s' = heap (thread_gone others env s h)) /\
    setup (globals s') = setup (set_server_thid (-1) (globals s)) /\
    traced (end_thread (server_thid (globals s))) h h') env s h.
Proof using Hsetup Hlist.
  intros Hr Hthid. unfold end_server_thread, on_globals. do 3 wp_step.
  replace (set_globals (globals s) s) with s by by destruct s. replace (0 <=? _) with true by lia.
  apply wp_bind. refine (wp_pause env others (sceKernelWaitThreadEnd _) _ s h _). intros a ->. repeat wp_step.
  unfold thread_gone. match goal with |- context [others ?h' s] =>
    pose proof (Hsetup h' s) as Hs; destruct (Hlist h' s r Hr) as [r' Hr']; destruct (others h' s) as [g hp cl] end.
  cbn in *. split_and!.
  - exists r'. split_and!; [by apply (represents_globals g)|done|done].
  - unfold setup in *. cbn. injection Hs as _ -> -> -> -> ->. done.
  - by eapply traced_cons, traced_call.
Qed.

Lemma client_list_thread_end_spec s r h :
  represents s r ->
  wp (client_list_thread_end others) (fun _ s' h' =>
    setup (globals s') = setup (globals s) /\
    traced ((sceKernelLockMutex (client_list_mtx (globals s)) :: concat (connection_aborts ∘ info <$> nodes_of (heap s) (members r)) ++
      [sceKernelUnlockMutex (client_list_mtx (globals s))]) ++
      concat (end_thread ∘ thid <$> nodes_of (heap s) (members r))) h h') env s h.
Proof using Hsetup.
  intros Hr. pose proof (rep_mutex s r Hr). unfold client_list_thread_end. do 2 wp_step.
  replace (_ <? 0) with false by lia. apply wp_bind. eapply wp_mono; [by apply detach_spec|].
  intros thids s1 h1 (_ & _ & Hg & -> & Ht). eapply wp_mono; [apply wait_clients_spec|].
  intros ? s2 h2 [Hs Ht2]. split; [by rewrite Hs, Hg|]. rewrite <-list_fmap_compose in Ht2.
  by eapply traced_app.
Qed.

Lemma delete_list_mutex_spec s h :
  0 <= client_list_mtx (globals s) ->
  wp delete_list_mutex (fun _ s' h' =>
    setup (globals s') = setup (set_client_list_mtx (-1) (globals s)) /\
    traced [sceKernelDeleteMutex (client_list_mtx (globals s))] h h') env s h.
Proof using Type.
  intros Hm. unfold delete_list_mutex, on_globals. do 3 wp_step.
  replace (set_globals (globals s) s) with s by by destruct s. replace (0 <=? _) with true by lia.
  repeat wp_step. split; [done|]. apply traced_call.
Qed.

Lemma release_network_spec s h :
  wp release_network (fun _ s' h' =>
    s' = set_globals (set_net_memory false (set_net_init (-1) (set_netctl_init (-1) (globals s)))) s /\
    traced ((if netctl_init (globals s) =? 0 then [sceNetCtlTerm] else []) ++
      (if net_init (globals s) =? 0 then [sceNetTerm] else []) ++ (if net_memory (globals s) then [free true] else [])) h h') env s h.
Proof using Type.
  unfold release_network, on_globals. do 2 wp_step.
  destruct (netctl_init _ =? 0), (net_init _ =? 0), (net_memory _); repeat wp_step; (split; [done|]); cbn [app];
    repeat eapply traced_cons; apply traced_nil.
Qed.

Lemma close_server_run f h : close_server_socket env f h = Done (tt, set_server_sockfd (-1) f, listener_closed f env h).
Proof using Type. unfold close_server_socket, listener_closed. cbv [mbind M_bind gets modify sys mret M_ret]. by destruct (0 <=? _). Qed.

Lemma ftpvita_fini_spec s r h :
  represents s r -> ftp_initialized (globals s) = true -> 0 <= server_thid (globals s) ->
  wp (ftpvita_fini others) (fun _ s' h' =>
    client_list s' = NULL /\ number_clients (globals s') = 0 /\ transfer_active (globals s') = 0 /\
    reboot_quiesce_requested (globals s') = 0 /\
    setup (globals s') = (-1, -1, -1, -1, false, false) /\
    let left := clients_left others env s h in
    exists r1, represents left r1 /\ traced (teardown_calls (globals s) (nodes_of (heap left) (members r1))) h h') env s h.
Proof using Hsetup Hlist.
  intros Hr Hi Hthid. pose proof (rep_mutex s r Hr) as Hmtx. unfold ftpvita_fini, on_globals. do 2 wp_step. rewrite Hi. cbn [negb].
  do 5 wp_step. unfold run_spec at 1. rewrite close_server_run. cbn [globals set_globals].
  change (listener_closed (set_ftp_initialized false (globals s))) with (listener_closed (globals s)).
  assert (traced (if 0 <=? server_sockfd (globals s) then [sceNetSocketClose (server_sockfd (globals s))] else []) h
    (listener_closed (globals s) env h)) as Ht1
    by (unfold listener_closed; destruct (0 <=? _); [apply traced_call|apply traced_nil]).
  unfold clients_left. set (h1 := listener_closed _ _ _) in *. set (s1 := set_globals _ _).
  assert (represents s1 r) as Hr1 by (destruct s as [g hp cl]; by apply (represents_globals g)).
  apply wp_bind. eapply wp_mono; [by eapply end_server_thread_spec|]. intros ? s2 h2 ((r2 & Hr2 & Hgone & Eheap) & Hs2 & Ht2).
  apply wp_bind. eapply wp_mono; [by apply client_list_thread_end_spec|]. intros ? s3 h3 (Hs3 & Ht3).
  assert (setup (globals s3) = setup (set_server_thid (-1) (globals s1))) as Hs3' by congruence.
  assert (client_list_mtx (globals s2) = client_list_mtx (globals s) /\ client_list_mtx (globals s3) = client_list_mtx (globals s)) as [Em2 Em3].
  { split; [by injection Hs2|by injection Hs3']. }
  apply wp_bind. eapply wp_mono; [apply delete_list_mutex_spec; by rewrite Em3|]. intros ? s4 h4 (Hs4 & Ht4).
  do 5 wp_step. eapply wp_mono; [apply release_network_spec|]. intros ? s5 h5 (-> & Ht5).
  cbn [globals set_globals client_list set_client_list] in *. rewrite Em2 in Ht3. rewrite Em3 in Ht4.
  assert (setup (globals s4) = setup (set_client_list_mtx (-1) (set_server_thid (-1) (globals s1)))) as Hs4'.
  { rewrite Hs4. unfold setup in *. cbn in *. injection Hs3' as -> _ -> -> -> ->. done. }
  split_and!; [done|done|done|done| |].
  { unfold setup in *. cbn in *. injection Hs4' as -> -> _ _ _ ->. done. }
  exists r2. split; [exact Hgone|]. rewrite <-Eheap. unfold teardown_calls. unfold setup in Hs4'. cbn in Hs4', Ht5.
  injection Hs4' as _ _ En Ec Eb _. rewrite En, Ec, Eb in Ht5.
  eapply traced_app; [exact Ht1|]. eapply traced_app; [exact Ht2|]. rewrite app_assoc.
  eapply traced_app; [exact Ht3|]. eapply traced_app; [exact Ht4|exact Ht5].
Qed.
End ending.

(** * Clients come and go *)

Section nodes.
Implicit Types (hp : gmap loc node) (r : registry) (c : loc).

(** The links of the list do not change when other fields of a node do. *)
Lemma seg_update hp c n n' b p l e :
  hp !! c = Some n -> next n' = next n -> prev n' = prev n -> in_client_list n' = in_client_list n ->
  seg hp b p l e -> seg (<[c := n']> hp) b p l e.
Proof.
  intros Hc Hn Hp Hf. revert b p. induction l as [|x l IH]; intros b p Hs; [done|].
  destruct Hs as (-> & m & Hm & Hb & Hin & Hs). split; [done|]. destruct (decide (x = c)) as [->|Hne].
  - rewrite Hc in Hm. injection Hm as <-. exists n'. rewrite lookup_insert_eq, Hn, Hp, Hf. split_and!; auto.
  - exists m. rewrite lookup_insert_ne by done. split_and!; auto.
Qed.

Lemma represents_update g hp p r c n n' :
  hp !! c = Some n -> next n' = next n -> prev n' = prev n -> in_client_list n' = in_client_list n ->
  represents (Server g hp p) r -> represents (Server g (<[c := n']> hp) p) r.
Proof.
  intros Hc Hn Hp Hf [Hs ? ? ? Hflag Hdom ? ?]. split; cbn in *; try done.
  - by eapply seg_update.
  - intros x m. destruct (decide (x = c)) as [->|].
    + rewrite lookup_insert_eq. intros [= <-]. rewrite Hf. by apply Hflag.
    + rewrite lookup_insert_ne by done. apply Hflag.
  - by rewrite dom_insert_lookup_L.
Qed.

(** A new node. *)
Lemma represents_alloc g hp p r c n :
  c ∉ allocated r -> in_client_list n = false ->
  represents (Server g hp p) r ->
  represents (Server g (<[c := n]> hp) p) (Registry (members r) ({[c]} ∪ allocated r) (quiesced r)).
Proof.
  intros Hc Hf Hr. pose proof Hr as [Hs ? ? ? Hflag Hdom ? ?]. split; cbn in *; try done.
  - apply seg_insert_ne; [|done]. intros Hin. destruct (member_allocated _ r c Hr Hin) as (m & Hm & _). cbn in Hm.
    apply Hc. rewrite <-Hdom. by eapply elem_of_dom_2.
  - intros x m. destruct (decide (x = c)) as [->|].
    + rewrite lookup_insert_eq. intros [= <-]. by rewrite Hf.
    + rewrite lookup_insert_ne by done. apply Hflag.
  - by rewrite dom_insert_L, Hdom.
Qed.
End nodes.

Section accepting.
Context `{Sdk} (env : environment).
Context (others : history -> server -> server) (Hlist : keeps_list others).

(** A thread that does not start leaves its client alone. *)
Definition start_failures_keep : Prop := forall h s c n t (a : Z), a < 0 ->
  heap s !! c = Some n -> thid n = t ->
  exists n', heap (others (Ev (sceKernelStartThread t) a :: h) s) !! c = Some n' /\ same_client n n'.
Context (Hfail : start_failures_keep).

Lemma wp_on_client {A} {nofuel : Prop} c n (m : C A) (Q : A -> server -> history -> Prop) s h :
  heap s !! c = Some n ->
  run_spec nofuel m (fun a s' h' => Q a (Server s'.1 (<[c := set_info s'.2 n]> (heap s)) (client_list s)) h') env (globals s, info n) h ->
  run_spec nofuel (on_client c m) Q env s h.
Proof using Type.
  intros Hc. unfold run_spec, on_client. rewrite Hc.
  by destruct (m env (globals s, info n) h) as [[[a [f i]] h']| |].
Qed.

(** The call was made, and nothing else happened. *)
Lemma say_spec {nofuel : Prop} c n text s h (Q : unit -> server -> history -> Prop) :
  heap s !! c = Some n -> (forall a, Q tt s (Ev (sceNetSend (ctrl_sockfd (info n)) text) a :: h)) ->
  run_spec nofuel (on_client c (client_send_ctrl_msg text)) Q env s h.
Proof using Type.
  intros Hc HQ. eapply wp_on_client; [exact Hc|]. unfold client_send_ctrl_msg, of_client. repeat wp_step. cbn [fst snd].
  replace (set_info (info n) n) with n by by destruct n. rewrite insert_id by done. destruct s as [g hp p]. apply HQ.
Qed.

(** The connection was closed, and nothing of it is left. *)
Definition turned_away (l : list Z) (h h' : history) : Prop :=
  sockets h' = l /\ holds h' = holds h /\ kernel_of h' = kernel_of h.

(** The connection is held with a block of memory and the threads [ts]. *)
Definition carrying (fd : Z) (l ts : list Z) (h h1 : history) : Prop :=
  sockets h1 = fd :: l /\
  holds h1 = Held (files (holds h)) (dirs (holds h)) (blocks (holds h) + 1) (streams (holds h)) /\
  kernel_of h1 = Kernel (ts ++ threads (kernel_of h)) (mutexes (kernel_of h)) (nets (kernel_of h)) (netctls (kernel_of h)).

Lemma carrying_cons fd l ts h e h1 :
  (forall r, track e r = r) -> (forall r, track_kernel e r = r) -> (forall r, track_socket e r = r) ->
  carrying fd l ts h h1 -> carrying fd l ts h (e :: h1).
Proof using Type. intros Hr Hk Hs (Es & Eh & Ek). split_and!; by rewrite ?sockets_cons, ?holds_cons, ?kernel_cons, ?Hs, ?Hr, ?Hk. Qed.

Lemma carrying_delete fd l t h a h1 : carrying fd l [t] h h1 -> carrying fd l [] h (Ev (sceKernelDeleteThread t) a :: h1).
Proof using Type.
  intros (Es & Eh & Ek). split_and!; rewrite ?sockets_cons, ?holds_cons, ?kernel_cons; [done|done|].
  cbn [track_kernel]. rewrite Ek. cbn [threads app mutexes nets netctls]. by rewrite remove_one_head.
Qed.

Lemma carrying_locked fd l ts h h1 h2 m :
  carrying fd l ts h h1 -> traced [sceKernelLockMutex m; sceKernelUnlockMutex m] h1 h2 -> carrying fd l ts h h2.
Proof using Type.
  clear env. intros Hc (es & -> & He). destruct es as [|[c1 a1] [|[c2 a2] [|]]]; cbn in He; simplify_eq/=.
  - by do 2 (apply carrying_cons; [done..|]).
  - clear -He. apply (f_equal length) in He. rewrite !fmap_app, !length_app in He. cbn in He. lia.
Qed.

Lemma drop_client_spec c n l s r h h1 :
  represents s r -> heap s !! c = Some n -> c ∉ members r -> 0 <= ctrl_sockfd (info n) ->
  carrying (ctrl_sockfd (info n)) l [] h h1 ->
  wp (drop_client c) (fun _ s' h' => (exists r', represents s' r') /\ turned_away l h h') env s h1.
Proof using Type.
  intros Hr Hc Hnot Hfd (Es & Eh & Ek). unfold drop_client. apply wp_bind. eapply wp_on_client; [exact Hc|].
  unfold close_ctrl_socket, of_client, set_client. do 2 wp_step. cbn [fst snd].
  replace (0 <=? _) with true by lia. repeat wp_step. cbn [fst snd].
  match goal with |- run_spec _ _ _ _ ?s1 _ => assert (represents s1 r) as Hr1 end.
  { destruct s as [g hp p]. by eapply represents_update. }
  eapply wp_mono; [eapply free_spec; [exact Hr1|]|].
  { split; [|done]. rewrite <-(rep_allocated _ _ Hr). by eapply elem_of_dom_2. }
  intros ? s' h' (_ & Hr' & _ & ->). split; [eauto|].
  split_and!; rewrite ?sockets_cons, ?holds_cons, ?kernel_cons; cbn [track_socket track track_kernel].
  - rewrite Es. by rewrite remove_one_head.
  - rewrite Eh. destruct (holds h). cbn. f_equal. lia.
  - rewrite Ek. by destruct (kernel_of h).
Qed.

(** The client's thread was started: it is registered, with a fresh structure for
    the accepted socket, which it now owns with the structure and the thread. *)
Definition handed_over (fd num : Z) (l : list Z) (h : history) (s' : server) (h' : history) : Prop :=
  exists c n s1 r1 h1 (ret : Z), 0 <= ret /\ h' = Ev (sceKernelStartThread (thid n)) ret :: h1 /\ s' = others h' s1 /\
    represents s1 r1 /\ c ∈ members r1 /\ heap s1 !! c = Some n /\ info n = new_client num fd /\
    carrying fd l [thid n] h h1.

Ltac pause_step :=
  lazymatch goal with |- run_spec ?nofuel (pause _ ?c) ?Q _ ?s ?h => refine (@wp_pause env others nofuel c Q s h _) end.
Ltac quiet_event := apply carrying_cons; [done..|].

(** The structure is there and the thread was created. *)
Lemma enlist_spec c n fd num l s r h h1 :
  represents s r -> heap s !! c = Some n -> c ∉ members r -> 0 <= fd -> info n = new_client num fd ->
  carrying fd l [thid n] h h1 ->
  wp (added ← client_list_add c;
      if negb added then
        on_client c (client_send_ctrl_msg (msg "421 Too many FTP clients."));;
        sys (sceKernelDeleteThread (thid n));;
        drop_client c
      else
        ret ← pause others (sceKernelStartThread (thid n));
        if ret <? 0 then
          client_list_delete c;;
          sys (sceKernelDeleteThread (thid n));;
          drop_client c
        else mret tt) (fun _ s' h' =>
    (exists r', represents s' r') /\ (turned_away l h h' \/ handed_over fd num l h s' h')) env s h1.
Proof using All.
  intros Hr Hc Hnot Hfd Hi Hcar.
  assert (c ∈ allocated r) as Hin by (rewrite <-(rep_allocated s r Hr); by eapply elem_of_dom_2).
  apply wp_bind. eapply wp_mono; [by eapply add_spec|].
  intros b s2 h2 (r2 & Hstep & Hr2 & Hkept & _ & Ht). eapply carrying_locked in Hcar; [|exact Ht]. clear Ht.
  assert (c ∈ allocated r2) as Hin2 by (inversion Hstep; by subst).
  destruct (heap s2 !! c) as [n2|] eqn:Hn2; last first.
  { exfalso. rewrite <-(rep_allocated s2 r2 Hr2) in Hin2. apply elem_of_dom in Hin2 as [? ?]. congruence. }
  destruct (Hkept c n2 Hn2) as (n' & Hn' & Hsame). rewrite Hc in Hn'. injection Hn' as <-.
  assert (thid n2 = thid n /\ info n2 = new_client num fd) as [Et Ei2].
  { destruct Hsame as [Hd Hrp]. split; [exact (f_equal (fun d => d.1.2) Hd)|].
    pose proof (f_equal (fun d => d.1.1) Hd) as Hd1. cbn in Hd1. rewrite Hi in Hd1, Hrp.
    assert (restore_point (info n2) = 0) as E0 by by destruct Hrp.
    replace (info n2) with (set_restore_point (restore_point (info n2)) (set_restore_point 0 (info n2))) by by destruct (info n2).
    by rewrite E0, Hd1. }
  destruct b; cbn [negb]; cbv iota.
  - apply wp_bind. pause_step. intros ret Eret. set (e := Ev _ ret).
    destruct (Z.ltb_spec ret 0) as [Hret|Hret].
    + destruct (Hlist (e :: h2) s2 r2 Hr2) as [r3 Hr3].
      destruct (Hfail h2 s2 c n2 (thid n) ret Hret Hn2 Et) as (n3 & Hn3 & Hs3).
      assert (c ∈ allocated r3) as Hin3 by (rewrite <-(rep_allocated _ r3 Hr3); by eapply elem_of_dom_2).
      apply wp_bind. eapply wp_mono; [by eapply delete_spec|].
      intros b s4 h4 (r4 & Hstep4 & Hr4 & Hkept4 & _ & Ht4).
      eapply (carrying_locked _ _ _ _ (e :: h2)) in Ht4; [|quiet_event; exact Hcar]. wp_step. wp_step.
      destruct (step_delete_out r3 c b r4 (rep_nodup _ _ Hr3) Hstep4) as [Hnot4 Ha4].
      destruct (heap s4 !! c) as [n4|] eqn:Hn4; last first.
      { exfalso. rewrite <-Ha4, <-(rep_allocated s4 r4 Hr4) in Hin3. apply elem_of_dom in Hin3 as [? ?]. congruence. }
      destruct (Hkept4 c n4 Hn4) as (n' & Hn' & Hs4).
      assert (n' = n3) as -> by (apply (inj Some); by rewrite <-Hn', <-Hn3).
      assert (ctrl_sockfd (info n4) = fd) as Efd.
      { assert (same_client n2 n4) as [Hd _] by (transitivity n3; [exact Hs3|exact Hs4]). pose proof (f_equal (fun d => ctrl_sockfd d.1.1) Hd) as Hd1.
        cbn in Hd1. by rewrite Hd1, Ei2. }
      eapply wp_mono; [eapply (drop_client_spec c n4 l s4 r4); [done|done|done|lia|rewrite Efd; by apply carrying_delete]|].
      intros ? s' h' [? ?]. auto.
    + apply wp_ret. split; [by eapply Hlist|]. right. exists c, n2, s2, r2, h2, ret. rewrite Et. split_and!; try done.
      inversion Hstep; subst; cbn; left.
  - apply wp_bind. eapply say_spec; [exact Hn2|]. intros a. do 2 wp_step.
    eapply wp_mono; [eapply (drop_client_spec c n2 l s2 r2); [done|done| | |]|].
    + inversion Hstep; by subst.
    + rewrite Ei2. done.
    + rewrite Ei2. apply carrying_delete. by quiet_event.
    + intros ? s' h' [? ?]. auto.
Qed.

Lemma admit_client_spec fd addr num l s r h :
  represents s r -> 0 <= fd -> sockets h = fd :: l ->
  wp (admit_client others fd addr num) (fun _ s' h' =>
    (exists r', represents s' r') /\ (turned_away l h h' \/ handed_over fd num l h s' h')) env s h.
Proof using All.
  intros Hr Hfd Hsock. unfold admit_client. do 2 wp_step. destruct a; cbn [negb]; cbv iota; last first.
  { repeat wp_step. split; [eauto|]. left. split_and!; rewrite ?sockets_cons, ?holds_cons, ?kernel_cons; try done.
    cbn [track_socket]. rewrite Hsock. by rewrite remove_one_head. }
  do 2 wp_step. set (c := fresh (dom (heap s))). do 2 wp_step.
  set (n0 := Node (new_client num fd) 0 addr NULL NULL false).
  assert (c ∉ allocated r) as Hfresh by (rewrite <-(rep_allocated s r Hr); apply is_fresh).
  destruct s as [g hp p]. unfold set_heap. cbn [globals heap client_list] in *.
  pose proof (represents_alloc g hp p r c n0 Hfresh eq_refl Hr) as Hr1.
  set (r1 := Registry (members r) ({[c]} ∪ allocated r) (quiesced r)) in *.
  assert (c ∉ members r1) as Hnot.
  { intros Hin. destruct (member_allocated _ r c Hr Hin) as (m & Hm & _). apply Hfresh. rewrite <-(rep_allocated _ _ Hr).
    by eapply elem_of_dom_2. }
  do 2 wp_step. rename a into t. 
  set (e := Ev (sceKernelCreateThread (snprintf 64 (lit "FTPVita_client_" ++ fmt_u num ++ lit "_thread"))) t).
  set (e0 := Ev (malloc sizeof_client) true).
  assert (carrying fd l (if t <? 0 then [] else [t]) h (e :: e0 :: h)) as Hcar.
  { split_and!; rewrite ?sockets_cons, ?holds_cons, ?kernel_cons; cbn [track_socket track track_kernel e e0]; [done|done|].
    destruct (t <? 0); [by destruct (kernel_of h)|done]. }
  destruct (t <? 0).
  - apply wp_bind. eapply say_spec; [apply lookup_insert_eq|]. intros a.
    eapply wp_mono; [eapply (drop_client_spec c n0 l); [exact Hr1|apply lookup_insert_eq|done|done|by quiet_event]|].
    intros ? s' h' [? ?]. auto.
  - apply wp_bind. eapply wp_assign; [apply lookup_insert_eq|]. unfold set_heap. cbn [globals heap client_list].
    eapply (enlist_spec c (set_thid t n0) fd num l _ r1); [|apply lookup_insert_eq|exact Hnot|done|done|exact Hcar].
    eapply represents_update; [apply lookup_insert_eq|done..|exact Hr1].
Qed.

Lemma turned_away_before l h0 h h' :
  holds h0 = holds h -> kernel_of h0 = kernel_of h -> turned_away l h0 h' -> turned_away l h h'.
Proof using Type. unfold turned_away. by intros -> ->. Qed.

Lemma handed_over_before fd num l h0 h s' h' :
  holds h0 = holds h -> kernel_of h0 = kernel_of h -> handed_over fd num l h0 s' h' -> handed_over fd num l h s' h'.
Proof using Type. unfold handed_over, carrying. by intros -> ->. Qed.

(** The options of the accepted socket. *)
Lemma accepted_socket_spec fd l s r h0 h (Q : Z -> server -> history -> Prop) :
  represents s r -> sockets h = l -> holds h = holds h0 -> kernel_of h = kernel_of h0 ->
  (forall a s' h', represents s' r -> next_client_num (globals s') = next_client_num (globals s) ->
     sockets h' = l -> holds h' = holds h0 -> kernel_of h' = kernel_of h0 -> Q a s' h') ->
  wp (on_globals (configure_socket_io_timeout fd)) Q env s h.
Proof using Type.
  intros Hr Hs Hh Hk HQ. unfold on_globals, configure_socket_io_timeout. destruct s as [g hp p].
  repeat wp_step; apply HQ; unfold set_globals; cbn [globals heap client_list]; try done; by apply (represents_globals g).
Qed.
End accepting.

(** * A client's session *)

(** What a client's thread relies on: the statics it reads are in range, and the
    other threads leave its session to it. *)
Definition sane (f : ftp) : Prop := 0 <= file_buf_size f /\ custom_ok f.
Definition keeps_sane (others : history -> server -> server) : Prop :=
  forall h s, sane (globals s) -> sane (globals (others h s)).
Definition keeps_session_of (c : loc) (others : history -> server -> server) : Prop :=
  forall h s n, heap s !! c = Some n -> exists n', heap (others h s) !! c = Some n' /\ info n' = info n.

(** The contract of a receive. *)
Definition recv_ok (env : environment) : Prop :=
  forall h fd len, let '(n, data) := env h (sceNetRecv fd len) in count_ok n len /\ length data = Z.to_nat n.

#[local] Arguments sockets _ : simpl never.
#[local] Arguments holds _ _ : simpl never.

(** What a client's thread does before it leaves: the greeting and the commands. *)
Definition client_session `{Sdk} others custom_command fuel turns c : V unit :=
  on_client c (client_send_ctrl_msg (msg "220 FTPVita Server ready."));;
  client_loop others custom_command fuel turns c.

(** How it leaves the list: in the state [s1] that the session ended in the client is
    on the list or not; if it is, the thread takes it off and deletes itself; if it is
    not, the thread leaves itself to the one who did. *)
Definition left_list `{Sdk} others custom_command fuel turns c env (s : server) h (s' : server) h' : Prop :=
  exists s1 h1 r1 r2,
    client_session others custom_command fuel turns c env s h = Done (tt, s1, h1) /\ represents s1 r1 /\
    step r1 (Delete c) (Removed (bool_decide (c ∈ members r1))) r2 /\
    represents s' (Registry (members r2) (allocated r2 ∖ {[c]}) (quiesced r2)) /\
    exists a before, h' = Ev (if bool_decide (c ∈ members r1) then sceKernelExitDeleteThread else sceKernelExitThread) a :: before.

Lemma step_delete_member r c b r' : step r (Delete c) (Removed b) r' -> b = bool_decide (c ∈ members r).
Proof.
  intros Hs. inversion Hs; subst; symmetry; [apply bool_decide_eq_true_2|by apply bool_decide_eq_false_2].
  match goal with E : members _ = _ |- _ => rewrite E end. set_solver.
Qed.

Section serving.
Context `{Sdk} (env : environment) (Hio : ftp_io_ok env) (Hrecv : recv_ok env).
Context (others : history -> server -> server) (custom_command : Z -> C unit) (fuel : nat).
Context (c : loc) (fd : Z) (K : held) (base : list Z).
Context (Hlist : keeps_list others) (Hsane : keeps_sane others) (Hown : keeps_session_of c others).

(** What surrounds a command that starts with the statics [g] after [k] loop calls. *)
Definition surroundings (g : ftp) (k : nat) : frame := Frame g fd K (fd :: base) k.

Definition custom_commands_keep : Prop := forall x fr s h,
  frame_ok fr -> kept fr s h -> wp (custom_command x) (fun _ s' h' => kept fr s' h') env s h.
Context (Hcustom : custom_commands_keep).

(** Between commands, with at least [k] loop calls made. *)
Definition serving (k : nat) (s : server) (h : history) : Prop :=
  exists r n, represents s r /\ heap s !! c = Some n /\ sane (globals s) /\
    kept (surroundings (globals s) k) (globals s, info n) h.

Lemma same_statics (f g : ftp) :
  set_socket_timeout_config_failures 0 f = set_socket_timeout_config_failures 0 g ->
  number_clients f = number_clients g /\ reboot_quiesce_requested f = reboot_quiesce_requested g /\
  client_list_mtx f = client_list_mtx g /\ (sane g -> sane f).
Proof using Type.
  intros E. split_and!; [exact (f_equal number_clients E)|exact (f_equal reboot_quiesce_requested E)|
    exact (f_equal client_list_mtx E)|].
  unfold sane, custom_ok. pose proof (f_equal file_buf_size E) as E1. pose proof (f_equal custom_command_dispatchers E) as E2.
  cbn in E1, E2. by rewrite E1, E2.
Qed.

Lemma kept_again g k k' s h : (k' <= loop_calls h)%nat ->
  kept (surroundings g k) s h -> kept (surroundings s.1 k') s h.
Proof using Type. intros Hk [[] Hi]. split; [|done]. by split. Qed.

(** After a step of the session. *)
Lemma serving_step k k' (s : server) f i (h' : history) n r :
  represents s r -> heap s !! c = Some n -> sane (globals s) -> (k' <= loop_calls h')%nat ->
  kept (surroundings (globals s) k) (f, i) h' ->
  serving k' (Server f (<[c := set_info i n]> (heap s)) (client_list s)) h'.
Proof using Type.
  intros Hr Hc Hs Hk' Hkept. destruct (same_statics f (globals s)) as (E1 & E2 & E3 & Hf); [exact (ok_server _ _ _ (proj1 Hkept))|].
  exists r, (set_info i n). split_and!.
  - destruct s as [g hp p]. cbn in *. eapply (represents_globals g); [done..|]. by eapply represents_update.
  - apply lookup_insert_eq.
  - by apply Hf.
  - by eapply kept_again in Hkept.
Qed.

(** A command of the session. *)
Lemma wp_session {A} {nofuel : Prop} (m : C A) (Q : A -> server -> history -> Prop) k s h :
  serving k s h ->
  (forall n, heap s !! c = Some n -> kept (surroundings (globals s) (loop_calls h)) (globals s, info n) h -> sane (globals s) ->
     run_spec nofuel m (fun a s' h' => kept (surroundings (globals s) (loop_calls h)) s' h' /\
       (forall s2, serving (loop_calls h) s2 h' -> globals s2 = s'.1 ->
          (exists n2, heap s2 !! c = Some n2 /\ info n2 = s'.2) -> Q a s2 h')) env (globals s, info n) h) ->
  run_spec nofuel (on_client c m) Q env s h.
Proof using Type.
  intros (r & n & Hr & Hc & Hs & Hk) Hm. eapply wp_on_client; [exact Hc|].
  pose proof (kept_again _ k (loop_calls h) _ h (le_n _) Hk) as Hk'. cbn [fst] in Hk'.
  eapply wp_mono; [by apply Hm|]. intros a [f i] h' [Hkept HQ]. cbn [fst snd] in *.
  pose proof (ok_seen _ _ _ (proj1 Hkept)) as Hseen. cbn in Hseen.
  apply HQ; [by eapply serving_step|done|]. eexists. split; [apply lookup_insert_eq|done].
Qed.

Lemma serving_pause k s h call (a : answer call) :
  neutral call = true -> serving k s h -> serving k (others (Ev call a :: h) s) (Ev call a :: h).
Proof using Hlist Hsane Hown.
  intros Hn (r & n & Hr & Hc & Hs & Hok & Hi). destruct (Hlist (Ev call a :: h) s r Hr) as [r' Hr'].
  destruct (Hown (Ev call a :: h) s n Hc) as (n' & Hn' & Ei). exists r', n'. split_and!; [done|done|by apply Hsane|].
  rewrite Ei. split; [|done]. apply session_neutral; [done|].
  destruct Hok. by split.
Qed.

Ltac pause_step :=
  lazymatch goal with |- run_spec ?nofuel (pause _ ?c) ?Q _ ?s ?h => refine (@wp_pause env others nofuel c Q s h _) end.

Lemma serving_say {nofuel : Prop} k text s h (Q : unit -> server -> history -> Prop) :
  serving k s h -> (forall s' h', serving k s' h' -> (loop_calls h <= loop_calls h')%nat -> Q tt s' h') ->
  run_spec nofuel (on_client c (client_send_ctrl_msg text)) Q env s h.
Proof using Type.
  intros Hs HQ. destruct Hs as (r & n & Hr & Hc & Hsn & Hok & Hi). eapply say_spec; [exact Hc|]. intros a.
  apply HQ; [|by apply loop_calls_later]. exists r, n. split_and!; [done..|]. split; [|done]. by apply session_neutral.
Qed.

(** The client's fields the commands' invariant does not speak of. *)
Lemma kept_client fr f i i' h :
  kept fr (f, i) h -> owned i' = owned i -> ctrl_sockfd i' = ctrl_sockfd i -> cur_path i' = cur_path i ->
  rename_path i' = rename_path i -> restore_point i' = restore_point i -> pasv_sockfd i' = pasv_sockfd i ->
  args_ok (recv_cmd_args i') -> kept fr (f, i') h.
Proof using Type.
  intros [[] Hi] Ho Hc Hp Hn Hr Hv Ha. unfold idle in *. cbn in *.
  split; [split; cbn; rewrite ?Ho, ?Hc, ?Hp, ?Hn, ?Hr; done|unfold idle; cbn; by rewrite Hv].
Qed.

(** After a receive: the buffer holds what came, with room for the terminator. *)
Lemma receive_line_spec {nofuel : Prop} k s h :
  serving k s h ->
  run_spec nofuel (receive_line others c) (fun received s' h' =>
    serving k s' h' /\ (S (loop_calls h) <= loop_calls h')%nat /\ received <= RECV_BUFFER - 1 /\
    (forall j, loops_end env j -> 0 < received -> (loop_calls h < j)%nat) /\
    exists n, heap s' !! c = Some n /\ length (recv_buffer (info n)) = Z.to_nat RECV_BUFFER) env s h.
Proof using Hrecv Hlist Hsane Hown.
  intros (r & n & Hr & Hc & Hs & Hk). unfold receive_line, set_client. apply wp_bind.
  eapply wp_on_client; [exact Hc|]. apply wp_modify. cbn [fst snd].
  set (i1 := set_recv_buffer _ (info n)).
  assert (serving k (Server (globals s) (<[c := set_info i1 n]> (heap s)) (client_list s)) h) as Hs1.
  { eapply (serving_step k); [done|done|done|exact (ok_seen _ _ _ (proj1 Hk))|].
    eapply kept_client; [exact Hk|done..|]. exact (ok_args _ _ _ (proj1 Hk)). }
  assert (heap (Server (globals s) (<[c := set_info i1 n]> (heap s)) (client_list s)) !! c = Some (set_info i1 n)) as Hc1
    by apply lookup_insert_eq.
  apply wp_bind. eapply wp_deref; [apply lookup_insert_eq|]. apply wp_bind.
  refine (@wp_pause env others nofuel (sceNetRecv _ _) _ _ _ _). intros [received data] Ea.
  apply (serving_pause _ _ _ (sceNetRecv (ctrl_sockfd (info (set_info i1 n))) (RECV_BUFFER - 1)) (received, data) eq_refl) in Hs1.
  destruct (Hown (Ev (sceNetRecv (ctrl_sockfd (info (set_info i1 n))) (RECV_BUFFER - 1)) (received, data) :: h) _ _ Hc1)
    as (n2 & Hn2 & Ei2).
  pose proof (Hrecv h (ctrl_sockfd (info (set_info i1 n))) (RECV_BUFFER - 1)) as Hcount. rewrite <-Ea in Hcount.
  destruct Hcount as [[Hrange Hmax] Hlen].
  assert (forall j, loops_end env j -> 0 < received -> (loop_calls h < j)%nat) as Hends.
  { intros j Hj Hpos. destruct (decide (j <= loop_calls h)%nat) as [Hle|]; [|lia].
    pose proof (proj2 (Hj h Hle) (ctrl_sockfd (info (set_info i1 n))) (RECV_BUFFER - 1)) as Hz.
    rewrite <-Ea in Hz. cbn [fst] in Hz. unfold s32, INT_MAX, RECV_BUFFER in *. rewrite Z.mod_small in Hz by lia. lia. }
  assert (S (loop_calls h) <= loop_calls (Ev (sceNetRecv (ctrl_sockfd (info (set_info i1 n))) (RECV_BUFFER - 1)) (received, data) :: h))%nat
    as Hseen by done.
  generalize dependent (Ev (sceNetRecv (ctrl_sockfd (info (set_info i1 n))) (RECV_BUFFER - 1)) (received, data) :: h).
  intros h2 Hs2 Hn2 Hseen. cbn [set_info info] in Ei2. destruct Hs2 as (r2 & n2' & Hr2 & Hc2 & Hsn2 & Hk2).
  assert (n2' = n2) as -> by (apply (inj Some); by rewrite <-Hc2, <-Hn2). rewrite Ei2 in Hk2.
  apply wp_bind. eapply wp_on_client; [exact Hn2|]. unfold of_client. rewrite Ei2. do 2 wp_step. cbn [snd].
  assert (length (recv_buffer i1) = Z.to_nat RECV_BUFFER) as Hbuf by (unfold i1; cbn; apply length_replicate).
  replace (Z.of_nat (length (recv_buffer i1)) <? _) with false by (rewrite Hbuf; unfold RECV_BUFFER in *; lia).
  wp_step. do 2 wp_step. cbn [fst snd]. apply wp_ret.
  split_and!; [|done|unfold RECV_BUFFER in *; lia|done|].
  - eapply (serving_step k); [done|done|done|exact (ok_seen _ _ _ (proj1 Hk2))|].
    eapply kept_client; [exact Hk2|done..|]. exact (ok_args _ _ _ (proj1 Hk2)).
  - eexists. split; [apply lookup_insert_eq|]. cbn. by rewrite length_inserts.
Qed.
(** The line is parsed in place: a terminated word, and arguments in the buffer. *)
Lemma parse_received (buffer : bytes) received (arguments : ptr bytes) :
  length buffer = Z.to_nat RECV_BUFFER -> 0 < received <= RECV_BUFFER - 1 -> args_ok arguments ->
  exists buffer' r, store buffer received NUL = Done buffer' /\
    ftpvita_parse_command_line (Some buffer') (Some (replicate (Z.to_nat CMD_WORD) 0)) CMD_WORD (Some arguments) = Done r /\
    args_ok (cl_arguments r) /\
    (cl_ret r <> 0 -> exists p word, cl_command r = Some p /\ cstr p = Done word).
Proof using Type.
  intros Hlen Hr Ha. exists (<[Z.to_nat received := NUL]> buffer).
  assert (<[Z.to_nat received := NUL]> buffer !! Z.to_nat received = Some NUL) as Hnul
    by (apply list_lookup_insert_eq; unfold RECV_BUFFER in *; lia).
  destruct (cstr_at _ _ Hnul) as (s & Hs & Hsl).
  destruct (parse_command_line_run _ s (replicate (Z.to_nat CMD_WORD) 0) CMD_WORD arguments Hs) as (command' & _ & Hargs & E).
  { unfold CMD_WORD. lia. }
  { rewrite length_replicate. unfold CMD_WORD. lia. }
  eexists. split; [apply store_in; unfold RECV_BUFFER in *; lia|]. split; [exact E|].
  destruct (_ && _) eqn:Hfit; cbn [cl_arguments cl_ret cl_command].
  - split.
    + intros p [= <-]. exists (command_arguments s). split; [exact Hargs|].
      unfold command_arguments. pose proof (length_while is_blank (drop_while (fun c => negb (ends_word c)) (drop_while is_blank s))).
      pose proof (length_while (fun c => negb (ends_word c)) (drop_while is_blank s)).
      pose proof (length_while is_blank s). unfold RECV_BUFFER in *. lia.
    + intros _. eexists _, (command_word s). split; [done|]. apply cstr_lit. apply cstr_terminated in Hs as [Hfree _].
      unfold command_word. auto with vita.
  - split; [done|]. done.
Qed.

Lemma enough_now k h j : loops_end env j -> (j < fuel)%nat -> k = loop_calls h -> forall g, enough env fuel (surroundings g k).
Proof using Type.
  intros Hj Hf -> g. exists (Nat.max j (loop_calls h)). cbn. split; [|lia].
  intros h' Hle. apply Hj. lia.
Qed.

(** The command that a word names. *)
Lemma run_command_spec {nofuel : Prop} word k s h (Q : bool -> server -> history -> Prop) :
  nofuel \/ (exists j, loops_end env j /\ (j < fuel)%nat) -> serving k s h ->
  (forall again s' h', serving (loop_calls h) s' h' -> Q again s' h') ->
  run_spec nofuel (on_client c (
    f ← get_dispatch_func custom_command fuel word;
    match f with
    | Some f => f;; quit ← of_client quit_requested; mret (negb quit)
    | NULL => client_send_ctrl_msg (msg "502 Sorry, command not implemented. :(");; mret true
    end)) Q env s h.
Proof using Hio Hcustom.
  intros Hn Hs HQ. eapply wp_session; [exact Hs|]. intros n Hc Hk Hsn.
  set (fr := surroundings (globals s) (loop_calls h)) in *.
  assert (frame_ok fr) as Hf by apply Hsn.
  assert (forall f : C unit, run_spec nofuel f (fun _ s' h' => kept fr s' h') env (globals s, info n) h ->
    run_spec nofuel (f;; quit ← of_client quit_requested; mret (negb quit)) (fun a s' h' => kept fr s' h' /\
       (forall s2, serving (loop_calls h) s2 h' -> globals s2 = s'.1 ->
          (exists n2, heap s2 !! c = Some n2 /\ info n2 = s'.2) -> Q a s2 h')) env (globals s, info n) h) as Hthen.
  { intros f Hrun. apply wp_bind. eapply wp_mono; [exact Hrun|]. intros [] s' h' Hk'. unfold of_client. repeat wp_step.
    split; [done|]. intros s2 Hs2 _ _. by apply HQ. }
  apply wp_bind. unfold run_spec at 1. rewrite get_dispatch_run by apply Hsn.
  destruct (find_command word (cmd_dispatch_table fuel)) as [g|] eqn:Eg.
  - apply Hthen. assert (In (word, g) (cmd_dispatch_table fuel)) as Hin by by apply find_command_Some.
    eapply (run_spec_weaken (word ∈ listing_or_upload /\ ~ enough env fuel fr)).
    { intros [_ Hno]. destruct Hn as [|(j & Hj & Hjf)]; [done|]. destruct Hno. by eapply (enough_now _ h). }
    eapply wp_mono; [by eapply builtin_commands_kept|]. by intros ? s' h' [? _].
  - destruct (custom_slot word _) as [x|]; cbn [fmap option_fmap option_map].
    + apply Hthen, wp_any, Hcustom; done.
    + apply wp_bind. eapply send_ctrl_ok; [apply Hk|]. intros h' Hok. apply wp_ret. split; [split; [done|apply Hk]|].
      intros s2 Hs2 _ _. by apply HQ.
Qed.

(** One turn: another follows only while the peer sends. *)
Lemma client_turn_spec {nofuel : Prop} k s h :
  nofuel \/ (exists j, loops_end env j /\ (j < fuel)%nat) -> serving k s h ->
  run_spec nofuel (client_turn others custom_command fuel c) (fun again s' h' =>
    serving k s' h' /\ (S (loop_calls h) <= loop_calls h')%nat /\
    ((again : bool) = true -> forall j, loops_end env j -> (loop_calls h < j)%nat)) env s h.
Proof using All.
  intros Hn Hs. unfold client_turn. apply wp_bind. eapply wp_mono; [by eapply receive_line_spec|].
  intros received s1 h1 (Hs1 & Hseen & Hmax & Hends & n & Hc & Hbuf).
  destruct (Z.ltb_spec 0 received) as [Hpos|]; [|by apply wp_ret].
  destruct Hs1 as (r & n' & Hr & Hc' & Hsn & Hk). rewrite Hc in Hc'. injection Hc' as <-.
  destruct (parse_received (recv_buffer (info n)) received (recv_cmd_args (info n)) Hbuf ltac:(lia) (ok_args _ _ _ (proj1 Hk)))
    as (buffer & res & Hstore & Hparse & Hargs & Hword).
  apply wp_bind. eapply wp_on_client; [exact Hc|]. unfold of_client, set_client. do 2 wp_step. cbn [snd].
  apply wp_bind. eapply wp_lift; [exact Hstore|]. do 4 wp_step. cbn [fst snd].
  apply wp_bind. eapply wp_lift; [exact Hparse|]. do 3 wp_step. cbn [fst snd].
  match goal with |- run_spec _ _ _ _ ?s2 _ => assert (serving k s2 h1) as Hs2 end.
  { eapply (serving_step k); [done|done|done|exact (ok_seen _ _ _ (proj1 Hk))|]. eapply kept_client; [exact Hk|done..]. }
  match goal with |- run_spec _ _ _ _ ?s2 _ => generalize dependent s2 end. intros s2 Hs2.
  destruct (Z.eqb_spec (cl_ret res) 0) as [Hz|Hnz].
  - apply wp_bind. eapply serving_say; [exact Hs2|]. intros s3 h3 Hs3 Hl3. apply wp_ret.
    split_and!; [done|lia|]. intros _ j Hj. by apply Hends.
  - destruct (Hword Hnz) as (p & word & Ep & Hp). apply wp_bind.
    refine (@wp_pause env others nofuel (sceKernelDelayThread 1000) _ _ _ _). intros a _.
    apply (serving_pause _ _ _ (sceKernelDelayThread 1000) a eq_refl) in Hs2.
    assert (loop_calls (Ev (sceKernelDelayThread 1000) a :: h1) = loop_calls h1) as El by done.
    rewrite Ep. apply wp_bind. eapply wp_lift; [exact Hp|].
    eapply (run_command_spec word); [done|exact Hs2|]. intros again s3 h3 Hs3. rewrite El in Hs3.
    assert (loop_calls h1 <= loop_calls h3)%nat as Hl3.
    { destruct Hs3 as (? & ? & _ & _ & _ & Hk3). exact (ok_seen _ _ _ (proj1 Hk3)). }
    split_and!; [|lia|intros _ j Hj; by apply Hends].
    destruct Hs3 as (r3 & n3 & Hr3 & Hc3 & Hsn3 & Hk3). exists r3, n3. split_and!; try done.
    eapply (kept_again _ _ k) in Hk3; [exact Hk3|]. pose proof (ok_seen _ _ _ (proj1 Hk)) as Hkk. cbn in Hkk. lia.
Qed.

Lemma client_loop_spec {nofuel : Prop} turns k s h :
  nofuel \/ (exists j, loops_end env j /\ (j < fuel)%nat /\ (j < turns + loop_calls h)%nat /\ (1 <= turns)%nat) -> serving k s h ->
  run_spec nofuel (client_loop others custom_command fuel turns c) (fun _ s' h' => serving k s' h') env s h.
Proof using All.
  revert s h. induction turns as [|turns IH]; intros s h Hn Hs; cbn [client_loop].
  - apply wp_nofuel. destruct Hn as [|(j & _ & _ & _ & ?)]; [done|lia].
  - apply wp_bind. eapply wp_mono; [eapply client_turn_spec; [|exact Hs]|].
    { destruct Hn as [|(j & ? & ? & _)]; eauto. }
    intros again s1 h1 (Hs1 & Hseen & Hagain). destruct again; [|by apply wp_ret].
    apply IH; [|done]. destruct Hn as [|(j & Hj & Hjf & Hjt & _)]; [by left|right].
    pose proof (Hagain eq_refl j Hj). exists j. split_and!; [done|done|lia|lia].
Qed.
(** Taking the client off the list keeps its session. *)
Lemma same_client_info n n' : same_client n n' ->
  info n' = set_restore_point (restore_point (info n')) (info n) /\
  (restore_point (info n') = restore_point (info n) \/ restore_point (info n') = 0).
Proof using Type.
  intros [Hd Hr]. split; [|done]. pose proof (f_equal (fun d => d.1.1) Hd) as E. cbn in E.
  replace (info n') with (set_restore_point (restore_point (info n')) (set_restore_point 0 (info n'))) at 1 by by destruct (info n').
  by rewrite E.
Qed.

Lemma kept_after_list k s s' n n' len m h h' :
  kept (surroundings (globals s) k) (globals s, info n) h -> same_client n n' -> recounted s s' len ->
  traced [sceKernelLockMutex m; sceKernelUnlockMutex m] h h' ->
  kept (surroundings (globals s') k) (globals s', info n') h'.
Proof using Type.
  intros [Hok Hi] Hsame Hre (es & -> & He). destruct (same_client_info n n' Hsame) as [E Hrest].
  assert (session_ok (surroundings (globals s) k) (globals s, info n) (es ++ h)) as Hok'.
  { destruct es as [|[c1 a1] [|[c2 a2] [|]]]; cbn in He; simplify_eq/=.
    - by do 2 (apply session_neutral; [done|]).
    - apply (f_equal length) in He. rewrite !fmap_app, !length_app in He. cbn in He. lia. }
  destruct Hok'. cbn in *. split; [|unfold idle; cbn; by rewrite E]. rewrite E.
  split; cbn; try done. destruct Hrest as [->| ->]; [done|lia].
Qed.

Lemma run_spec_bind_assoc {S A B D} {nofuel : Prop} (m : M S A) (m' : M S B) (m'' : M S D) Q s h :
  run_spec nofuel ((m;; m');; m'') Q env s h -> run_spec nofuel (m;; m';; m'') Q env s h.
Proof using Type.
  unfold run_spec, mbind, M_bind. destruct (m env s h) as [[[a s'] h']| |]; [|done..]. by destruct (m' env s' h') as [[[b s''] h'']| |].
Qed.

(** The end of the session: the control socket, then the data connection. *)
Lemma close_session_spec {nofuel : Prop} g k f i h (Q : unit -> session -> history -> Prop) :
  0 <= fd -> kept (surroundings g k) (f, i) h ->
  (forall s' h', set_socket_timeout_config_failures 0 s'.1 = set_socket_timeout_config_failures 0 g ->
     sockets h' = base -> holds h' = K -> Q tt s' h') ->
  run_spec nofuel (close_ctrl_socket;; client_close_data_connection) Q env (f, i) h.
Proof using Type.
  intros Hfd [Hok Hi] HQ. pose proof Hok as [Hserver Hheld Hs Hctrl Hcur Hren Hargs Hrest Hseen]. cbn in *.
  unfold close_ctrl_socket, of_client, set_client. apply wp_bind. do 2 wp_step. cbn [snd].
  rewrite Hctrl. replace (0 <=? fd) with true by lia. repeat wp_step. cbn [fst snd].
  match goal with |- run_spec _ _ _ _ ?s1 ?h1 => assert (session_ok (Frame g (-1) K base k) s1 h1) as Hok1 end.
  { split; cbn; try done. rewrite sockets_cons, Hs. unfold owned, idle in *. cbn in *.
    replace (0 <=? pasv_sockfd i) with false by lia. destruct (0 <=? data_sockfd i); cbn [app].
    - by rewrite remove_one_second.
    - by rewrite remove_one_head. }
  apply (close_connection_ok env _ _ _ _ Hok1). intros s' h' Hok' Hclosed.
  apply HQ; [exact (ok_server _ _ _ Hok')| |exact (ok_held _ _ _ Hok')].
  by rewrite (closed_sockets _ _ _ Hok' Hclosed).
Qed.

Lemma wp_on_client_seq {A B} {nofuel : Prop} (m : C A) (m' : C B) (Q : B -> server -> history -> Prop) s h :
  run_spec nofuel (on_client c (m;; m')) Q env s h ->
  run_spec nofuel (on_client c m;; on_client c m') Q env s h.
Proof using Type.
  unfold run_spec, on_client, mbind, M_bind. destruct (heap s !! c) as [n|] eqn:Hc; [|done].
  destruct (m env (globals s, info n) h) as [[[a [f i]] h']| |]; [|done..]. cbn [heap]. rewrite lookup_insert_eq.
  cbn [globals info set_info client_list]. destruct (m' env (f, i) h') as [[[b [f' i']] h'']| |]; [|done..].
  by rewrite insert_insert_eq.
Qed.

Lemma client_thread_spec {nofuel : Prop} turns s h r n :
  nofuel \/ (exists j, loops_end env j /\ (j < fuel)%nat /\ (j < turns)%nat) ->
  represents s r -> heap s !! c = Some n -> sane (globals s) -> 0 <= fd ->
  kept (surroundings (globals s) 0) (globals s, info n) h ->
  run_spec nofuel (client_thread others custom_command fuel turns c) (fun _ s' h' =>
    sockets h' = base /\ holds h' = Held (files K) (dirs K) (blocks K - 1) (streams K) /\
    left_list others custom_command fuel turns c env s h s' h') env s h.
Proof using All.
  intros Hn Hr Hc Hs Hfd Hk. unfold client_thread.
  eapply (wp_bind_run _ _ (fun _ s1 h1 => serving 0 s1 h1)); [eapply serving_say; [exists r, n; done|done]|].
  intros [] s1 h1 Egreeting Hs1. eapply wp_bind_run; [eapply (client_loop_spec turns 0); [|exact Hs1]|].
  { destruct Hn as [|(j & Hj & ? & ?)]; [by left|right]. exists j. split_and!; [done|done|lia|lia]. }
  intros [] s2 h2 Eloop (r2 & n2 & Hr2 & Hc2 & Hsn2 & Hk2).
  assert (c ∈ allocated r2) as Hin2 by (rewrite <-(rep_allocated s2 r2 Hr2); by eapply elem_of_dom_2).
  apply wp_bind, wp_any. eapply wp_mono; [by eapply delete_spec|].
  intros b s3 h3 (r3 & Hstep & Hr3 & Hkept & Hre & Ht).
  destruct (step_delete_out r2 c b r3 (rep_nodup _ _ Hr2) Hstep) as [Hnot Ha].
  pose proof (step_delete_member _ _ _ _ Hstep) as Hb.
  destruct (heap s3 !! c) as [n3|] eqn:Hc3; last first.
  { exfalso. rewrite <-Ha, <-(rep_allocated s3 r3 Hr3) in Hin2. apply elem_of_dom in Hin2 as [? ?]. congruence. }
  assert (kept (surroundings (globals s3) 0) (globals s3, info n3) h3) as Hk3.
  { destruct (Hkept c n3 Hc3) as (n' & Hn' & Hsame). assert (n' = n2) as -> by (apply (inj Some); by rewrite <-Hn', <-Hc2).
    by eapply kept_after_list. }
  eapply (run_spec_bind_assoc (on_client c close_ctrl_socket)), wp_bind, wp_on_client_seq.
  eapply wp_on_client; [exact Hc3|]. eapply close_session_spec; [done|exact Hk3|]. intros [f i] h4 Hf Hso Hho. cbn [fst snd] in *.
  apply wp_bind, wp_any. eapply wp_mono.
  { eapply (free_spec _ _ _ r3).
    - destruct (same_statics f (globals s3) Hf) as (E1 & E2 & E3 & _). destruct s3 as [g hp p]. cbn in *.
      eapply (represents_globals g); [done..|]. by eapply represents_update.
    - split; [by rewrite Ha|done]. }
  intros ? s5 h5 (_ & Hr5 & _ & ->).
  destruct b; repeat wp_step; (split; [exact Hso|]; split; [by rewrite !holds_cons, Hho|]);
    (exists s2, h2, r2, r3; rewrite <-Hb; split_and!;
      [unfold client_session, mbind, M_bind; by rewrite Egreeting, Eloop|exact Hr2|exact Hstep|exact Hr5|eauto]).
Qed.
End serving.

(** * Properties *)

(** C12: one turn of the accept loop, whatever the SDK answers and the other
    threads do to the list while this one waits. The turn ends without touching
    null or freed memory and leaves the list well formed. When the accept fails
    the loop ends. Otherwise the connection is either turned away, and then
    nothing is left of it: its socket, its structure and its thread are gone
    (no memory, no thread, no room or a reboot under way, a thread that does not
    start); or it is handed over, and then exactly its socket, one block and one
    thread are held in addition, the client is registered, and its structure is
    a fresh session in the root directory with no data connection. *)
Theorem accept_turn_all_or_nothing `{Sdk} (env : environment) others s r h :
  keeps_list others -> start_failures_keep others -> represents s r ->
  wp (accept_turn others) (fun again s' h' =>
    (exists r', represents s' r') /\
    let accept := sceNetAccept (server_sockfd (globals s)) in
    let fd := (env h accept).1 in
    if fd <? 0 then again = false /\ turned_away (sockets h) h h'
    else again = true /\
      (turned_away (sockets h) h h' \/
       handed_over others fd (next_client_num (globals (others (Ev accept (env h accept) :: h) s))) (sockets h) h s' h')) env s h.
Proof.
  intros Hlist Hfail Hr. unfold accept_turn. do 2 wp_step. apply wp_bind.
  refine (@wp_pause env others False (sceNetAccept _) _ s h _). intros a ->. cbv zeta.
  destruct (env h (sceNetAccept (server_sockfd (globals s)))) as [fd peer] eqn:Ea.
  destruct (Hlist (Ev (sceNetAccept (server_sockfd (globals s))) (fd, peer) :: h) s r Hr) as [r1 Hr1].
  set (e := Ev (sceNetAccept (server_sockfd (globals s))) (fd, peer)) in *. set (s1 := others _ _) in *. cbn [fst].
  destruct (Z.leb_spec 0 fd) as [Hfd|Hfd].
  - replace (fd <? 0) with false by lia. apply wp_bind.
    eapply (accepted_socket_spec env fd (fd :: sockets h) s1 r1 h); [done| |done|done|].
    { rewrite sockets_cons. cbn [track_socket e]. by replace (fd <? 0) with false by lia. }
    intros a s2 h2 Hr2 Hnum Hs Hh Hk. do 2 wp_step. unfold on_globals. do 5 wp_step.
    unfold set_globals. cbn [globals heap client_list].
    apply wp_bind. eapply wp_mono.
    { eapply (admit_client_spec env others Hlist Hfail fd peer _ (sockets h)); [|done|exact Hs].
      destruct s2 as [g hp p]. by apply (represents_globals g). }
    intros ? s3 h3 [Hr3 Hout]. apply wp_ret. split; [done|]. split; [done|]. rewrite <-Hnum.
    destruct Hout as [Hout|Hout]; [left; by eapply turned_away_before in Hout|right; by eapply handed_over_before in Hout].
  - replace (fd <? 0) with true by lia. apply wp_ret. split; [eauto|]. split; [done|].
    split_and!; [|done|done]. rewrite sockets_cons. cbn [track_socket e]. by replace (fd <? 0) with true by lia.
Qed.

(** C13: the start of the FTP server is all or nothing. From a server that holds
    nothing, whatever the SDK answers and the other threads do in the meantime
    except touch the handles the start fills in, [ftpvita_init] ends; when it
    returns 0 the server runs and owns exactly one thread and one mutex more, and
    each network layer and the block for the network exactly if it is the one that
    brought it up; when it returns anything else every thread, mutex, network layer
    and block it acquired on the way has been given back, and the statics say that
    nothing is held. *)
Theorem ftpvita_init_all_or_nothing `{Sdk} (env : environment) others k b s h :
  keeps_setup others -> (forall h, Z.of_nat (length (snd (env h sceNetCtlInetGetInfo))) < 16) ->
  SCE_NET_ERROR_ENOTINIT <> 0 -> released k b (globals s) h ->
  wp (ftpvita_init others) (fun '(r, _) s' h' =>
    if r =? 0 then running k b (globals s') h' else released k b (globals s') h') env s h.
Proof. intros. by apply ftpvita_init_spec. Qed.

(** C21: the order of the teardown. [ftpvita_fini] on a running server closes the
    listening socket, waits for the server's thread and deletes it, and only then,
    under the mutex, aborts the sockets of every client that is still on the list -
    in the state [left] in which the other threads left the server when its own thread
    had ended; it waits for each of these clients' threads and deletes it, and last
    deletes the mutex and shuts down exactly the network layers that the start had
    brought up. These are all its calls. Afterwards no client is listed, no transfer
    is recorded, no reboot is prepared, and the server can be started again. *)
Theorem ftpvita_fini_teardown `{Sdk} (env : environment) others s r h :
  keeps_setup others -> keeps_list others ->
  represents s r -> ftp_initialized (globals s) = true -> 0 <= server_thid (globals s) ->
  wp (ftpvita_fini others) (fun _ s' h' =>
    client_list s' = NULL /\ number_clients (globals s') = 0 /\ transfer_active (globals s') = 0 /\
    reboot_quiesce_requested (globals s') = 0 /\
    setup (globals s') = (-1, -1, -1, -1, false, false) /\
    let left := clients_left others env s h in
    exists r1, represents left r1 /\ traced (teardown_calls (globals s) (nodes_of (heap left) (members r1))) h h') env s h.
Proof. intros. by eapply ftpvita_fini_spec. Qed.

(** A machine on which everything works, with one connection that arrives. *)
Definition working : environment := fun h c =>
  match c return answer c with
  | sceNetAccept _ => (7, SockaddrIn 0x0100007f 4242)
  | malloc _ => true
  | sceKernelCreateThread _ => 70
  | sceKernelCreateMutex _ => 9
  | sceNetShowNetstat => 5
  | sceNetCtlInetGetInfo => (0, lit "192.168.0.7")
  | c => silent h c
  end.

(** The server's thread reports that it started; nothing else happens meanwhile. *)
Definition started_meanwhile (h : history) (s : server) : server :=
  match h with
  | Ev (sceKernelStartThread _) _ :: _ => set_globals (set_server_start_status 0 (globals s)) s
  | _ => s
  end.

Lemma started_meanwhile_list : keeps_list started_meanwhile.
Proof.
  intros h s r Hr. exists r. destruct h as [|[[]] h]; try done. destruct s as [g hp p]. by apply (represents_globals g).
Qed.

Lemma started_meanwhile_setup : keeps_setup started_meanwhile.
Proof. intros h s. by destruct h as [|[[]] h]. Qed.

Lemma started_meanwhile_failures : start_failures_keep started_meanwhile.
Proof. intros h s c n t a _ Hc _. by exists n. Qed.

Lemma accept_turn_all_or_nothing_witness :
  exists s' h', accept_turn (H := demo_sdk) started_meanwhile working demo_server [] = Done (true, s', h') /\
    sockets h' = [7] /\ threads (kernel_of h') = [70] /\
    handed_over (H := demo_sdk) started_meanwhile 7 0 [] [] s' h'.
Proof.
  assert (represents demo_server demo_registry) as Hr by exact demo_represents.
  pose proof (accept_turn_all_or_nothing (H := demo_sdk) working started_meanwhile demo_server demo_registry []
    started_meanwhile_list started_meanwhile_failures Hr) as Hw.
  apply wp_done in Hw as (again & s' & h' & E & _ & Hw).
  assert (match accept_turn (H := demo_sdk) started_meanwhile working demo_server [] with
          | Done (again, s', h') => (again, sockets h', threads (kernel_of h')) | _ => (false, [], []) end = (true, [7], [70]))
    as Hout by (vm_compute; reflexivity).
  rewrite E in Hout. injection Hout as -> Hs Ht. exists s', h'. split; [exact E|]. split; [exact Hs|]. split; [exact Ht|].
  cbv zeta in Hw. change ((working [] (sceNetAccept (server_sockfd (globals demo_server)))).1) with 7 in Hw.
  change (7 <? 0) with false in Hw. cbv iota in Hw. destruct Hw as [_ [Hw|Hw]]; [|exact Hw].
  destruct Hw as (Hs' & _). rewrite Hs in Hs'. discriminate Hs'.
Defined.

Lemma ftpvita_init_all_or_nothing_witness :
  exists a s' h', ftpvita_init (H := demo_sdk) started_meanwhile working (Server ftp_initial ∅ NULL) [] = Done ((0, a), s', h') /\
    running (H := demo_sdk) (Kernel [] [] 0 0) 0 (globals s') h'.
Proof.
  assert (released (H := demo_sdk) (Kernel [] [] 0 0) 0 (globals (Server ftp_initial ∅ NULL)) []) as Hr by (split; (reflexivity || discriminate)).
  assert (forall h, Z.of_nat (length (snd (working h sceNetCtlInetGetInfo))) < 16) as Hip by (intros h; reflexivity).
  assert (SCE_NET_ERROR_ENOTINIT (Sdk := demo_sdk) <> 0) as Hc by discriminate.
  pose proof (ftpvita_init_all_or_nothing (H := demo_sdk) working started_meanwhile _ _ _ _ started_meanwhile_setup Hip Hc Hr) as Hw.
  apply wp_done in Hw as ([r a] & s' & h' & E & Hw).
  assert (match ftpvita_init (H := demo_sdk) started_meanwhile working (Server ftp_initial ∅ NULL) [] with
          | Done ((r, _), _, _) => r | _ => -1 end = 0) as Hout by (vm_compute; reflexivity).
  rewrite E in Hout. subst r. exists a, s', h'. exact (conj E Hw).
Defined.

(** A running server with one client that is registered. *)
Definition running_server : server :=
  Server (set_server_sockfd 3 (set_server_thid 60 (set_ftp_initialized true (set_number_clients 1 (set_client_list_mtx 9 ftp_initial)))))
    {[1%positive := set_in_client_list true (demo_node 4)]} (Some 1%positive).

Lemma ftpvita_fini_teardown_witness :
  exists s' h', ftpvita_fini (H := demo_sdk) started_meanwhile silent running_server [] = Done (tt, s', h') /\
    client_list s' = NULL /\ setup (globals s') = (-1, -1, -1, -1, false, false) /\
    ev_call <$> rev h' = [sceNetSocketClose 3; sceKernelWaitThreadEnd 60; sceKernelDeleteThread 60; sceKernelLockMutex 9;
      sceNetSocketAbort 4 1; sceKernelUnlockMutex 9; sceKernelWaitThreadEnd 104; sceKernelDeleteThread 104; sceKernelDeleteMutex 9].
Proof.
  assert (represents running_server (Registry [1%positive] {[1%positive]} false)) as Hr.
  { split; try (vm_compute; done); try (constructor; [by intros ?%elem_of_nil|constructor]).
    - cbn. split; [done|]. eexists. split; [reflexivity|]. split_and!; done.
    - intros c n Hc _. cbn in Hc. apply lookup_singleton_Some in Hc as [<- _]. left. }
  pose proof (ftpvita_fini_teardown (H := demo_sdk) silent started_meanwhile running_server _ [] started_meanwhile_setup
    started_meanwhile_list Hr eq_refl ltac:(vm_compute; discriminate)) as Hw.
  apply wp_done in Hw as ([] & s' & h' & E & Hl & _ & _ & _ & Hs & _). exists s', h'.
  assert (match ftpvita_fini (H := demo_sdk) started_meanwhile silent running_server [] with
    | Done (_, _, h) => Some (ev_call <$> rev h) | _ => None end = Some [sceNetSocketClose 3; sceKernelWaitThreadEnd 60;
      sceKernelDeleteThread 60; sceKernelLockMutex 9; sceNetSocketAbort 4 1; sceKernelUnlockMutex 9;
      sceKernelWaitThreadEnd 104; sceKernelDeleteThread 104; sceKernelDeleteMutex 9]) as Hcalls by (vm_compute; reflexivity).
  rewrite E in Hcalls. injection Hcalls as Hcalls. exact (conj E (conj Hl (conj Hs Hcalls))).
Defined.

(** C4: a client's thread gives everything back. From the state in which the
    accepting thread hands it its client - a fresh structure and the accepted
    socket - and for every environment within the contract and every behaviour of
    the other threads that leaves the session alone, the thread reaches no
    undefined behaviour, whatever lines the peer sends; at its end the control
    socket, the data connection, every file and directory and the client's
    structure have been released, and the client is not on the list. Its last call
    deletes the thread itself exactly if the client was still on the list in the state
    in which its session - the greeting and the commands - ended, so that it took the
    client off; otherwise the teardown had, and deletes the thread. It does end when
    the bounds are above the number of directory entries and receives after which the
    directories and the peer have nothing more. *)
Theorem client_thread_releases `{Sdk} (env : environment) others custom_command fuel turns c fd num base s h r n :
  ftp_io_ok env -> recv_ok env -> keeps_list others -> keeps_sane others -> keeps_session_of c others ->
  custom_commands_keep env custom_command ->
  represents s r -> heap s !! c = Some n -> info n = new_client num fd -> 0 <= fd -> sane (globals s) ->
  sockets h = fd :: base ->
  run_spec (~ exists j, loops_end env j /\ (j < fuel)%nat /\ (j < turns)%nat)
    (client_thread others custom_command fuel turns c) (fun _ s' h' =>
    sockets h' = base /\
    holds h' = Held (files (holds h)) (dirs (holds h)) (blocks (holds h) - 1) (streams (holds h)) /\
    left_list others custom_command fuel turns c env s h s' h') env s h.
Proof.
  intros Hio Hrecv Hlist Hsane Hown Hcustom Hr Hc Hi Hfd Hs Hso.
  assert (kept (surroundings fd (holds h) base (globals s) 0) (globals s, info n) h) as Hk.
  { rewrite Hi. split; [|unfold idle; cbn; lia]. split; cbn; try done; [apply path_ok_root|lia]. }
  apply run_spec_unless; [|intros Hb]; (eapply client_thread_spec; try eassumption; auto).
Qed.

(** The peer sends QUIT and nothing more. *)
Definition quitting : environment := fun h c =>
  match c return answer c with
  | sceNetRecv _ len => match loop_calls h with
      | O => let data := take (Z.to_nat len) (lit "QUIT" ++ [CR; LF]) in (Z.of_nat (length data), data)
      | _ => (0, [])
      end
  | sceIoGetstat path => (match path with Some _ => 0 | NULL => -1 end, empty_stat)
  | c => silent h c
  end.

Definition quit_server : server :=
  Server (set_number_clients 1 (set_client_list_mtx 9 ftp_initial))
    {[1%positive := Node (new_client 0 4) 70 (SockaddrIn 0 0) NULL NULL true]} (Some 1%positive).

Definition noop_command `{Sdk} (x : Z) : C unit := cmd_NOOP_func.

(** The contracts hold of it. *)
Lemma quit_server_represents : represents quit_server (Registry [1%positive] {[1%positive]} false).
Proof.
  split; try (vm_compute; done); try (constructor; [by intros ?%elem_of_nil|constructor]).
  - cbn. split; [done|]. eexists. split; [reflexivity|]. split_and!; done.
  - intros c n Hc _. cbn in Hc. apply lookup_singleton_Some in Hc as [<- _]. left.
Qed.

Lemma quit_server_sane : sane (globals quit_server).
Proof. split; [vm_compute; discriminate|by repeat constructor]. Qed.

Lemma quitting_io : ftp_io_ok quitting.
Proof. split; intros; cbn [quitting silent fst]; lia. Qed.

Lemma quitting_recv : recv_ok quitting.
Proof.
  intros h fd len. cbn [quitting]. destruct (loop_calls h); [|split; [unfold count_ok, INT_MAX; lia|done]].
  split; [|by rewrite Nat2Z.id]. rewrite length_take. unfold count_ok, INT_MAX. cbn. lia.
Qed.

Lemma alone_keeps_list : keeps_list (fun _ s => s).
Proof. intros h s r ?. by exists r. Qed.
Lemma alone_keeps_sane : keeps_sane (fun _ s => s).
Proof. intros h s ?. assumption. Qed.
Lemma alone_keeps_session c : keeps_session_of c (fun _ s => s).
Proof. intros h s n ?. by exists n. Qed.

Lemma noop_keeps : custom_commands_keep (H := demo_sdk) quitting (noop_command (H := demo_sdk)).
Proof. intros x fr s h _ Hk. by apply (NOOP_kept (H := demo_sdk)). Qed.

Lemma client_thread_releases_witness :
  exists s' h', client_thread (H := demo_sdk) (fun _ s => s) (noop_command (H := demo_sdk)) 2 2 1 quitting quit_server
      [Ev (sceNetAccept 3) (4, SockaddrIn 0 0)] = Done (0, s', h') /\
    sockets h' = [] /\ blocks (holds (H := demo_sdk) h') = -1 /\ client_list s' = NULL /\
    ev_call <$> head h' = Some sceKernelExitDeleteThread.
Proof.
  pose proof (client_thread_releases (H := demo_sdk) quitting (fun _ s => s) noop_command 2 2 1 4 0 [] quit_server
    [Ev (sceNetAccept 3) (4, SockaddrIn 0 0)] _ _ quitting_io quitting_recv
    alone_keeps_list alone_keeps_sane (alone_keeps_session _) noop_keeps quit_server_represents eq_refl eq_refl ltac:(lia)
    quit_server_sane eq_refl) as Hw.
  assert (match client_thread (H := demo_sdk) (fun _ s => s) (noop_command (H := demo_sdk)) 2 2 1 quitting quit_server
      [Ev (sceNetAccept 3) (4, SockaddrIn 0 0)] with Done (a, s', h') => Some (a, client_list s', ev_call <$> head h') | _ => None end =
    Some (0, NULL, Some sceKernelExitDeleteThread)) as Hout by (vm_compute; reflexivity).
  destruct (client_thread (H := demo_sdk) (fun _ s => s) (noop_command (H := demo_sdk)) 2 2 1 quitting quit_server
      [Ev (sceNetAccept 3) (4, SockaddrIn 0 0)]) as [[[a s'] h']| |] eqn:E; [|discriminate Hout..].
  injection Hout as -> Hl Hx. exists s', h'. pose proof (run_spec_done _ _ _ _ _ _ _ _ _ Hw E) as (Hso & Hh & _).
  split; [reflexivity|]. split; [exact Hso|]. split; [exact (f_equal blocks Hh)|exact (conj Hl Hx)].
Defined.
