(* ===== verification/FtpDebts.v ===== *)
(** The debts of the FTP server: a start leaves what the statics record, or nothing
    when it fails, and the end pays all of it. *)

From stdpp Require Import gmultiset.
From S2P Require Import Prelude System Debts FtpState ClientList FtpServer.

Implicit Types (env : environment) (h : history).

(** What the statics of the FTP server say it acquired. *)
Definition layers_held (f : ftp) : gmultiset debt :=
  (if netctl_init f =? 0 then {[+ NetCtlLayer +]} else ∅) ⊎ (if net_init f =? 0 then {[+ NetLayer +]} else ∅).
Definition thread_held (thid : Z) : gmultiset debt := if 0 <=? thid then {[+ Running thid; Thread thid +]} else ∅.
Definition mutex_held (uid : Z) : gmultiset debt := if 0 <=? uid then {[+ Mutex uid +]} else ∅.
Definition ftp_held (f : ftp) : gmultiset debt :=
  thread_held (server_thid f) ⊎ mutex_held (client_list_mtx f) ⊎ layers_held f.

Section ftp_debts.
Context `{Sdk} env.
Implicit Types (sv : server).

Lemma error_netinit_pays sv h D : owed h ⊆ D -> returns error_netinit (fun _ _ h' => owed h' ⊆ D) env sv h.
Proof using Type. intros Ho. unfold error_netinit, on_globals. repeat returns_step; [settle|done]. Qed.

Lemma error_netctlinit_pays sv h D :
  owed h ⊆ (if net_init (globals sv) =? 0 then {[+ NetLayer +]} else ∅) ⊎ D ->
  returns error_netctlinit (fun _ _ h' => owed h' ⊆ D) env sv h.
Proof using Type.
  intros Ho. unfold error_netctlinit, on_globals. do 4 returns_step.
  destruct (net_init (globals sv) =? 0); repeat returns_step; apply error_netinit_pays; settle.
Qed.

Lemma error_netctlgetinfo_pays sv h D :
  owed h ⊆ layers_held (globals sv) ⊎ D -> returns error_netctlgetinfo (fun _ _ h' => owed h' ⊆ D) env sv h.
Proof using Type.
  intros Ho. unfold error_netctlgetinfo, on_globals, layers_held in *. do 4 returns_step.
  destruct (netctl_init (globals sv) =? 0); repeat returns_step; apply error_netctlinit_pays; cbn [globals set_globals net_init set_netctl_init];
    set (n := if net_init _ =? 0 then _ else _) in *; settle.
Qed.

Lemma error_server_thread_pays sv h D :
  owed h ⊆ {[+ Mutex (client_list_mtx (globals sv)) +]} ⊎ layers_held (globals sv) ⊎ D ->
  returns error_server_thread (fun _ _ h' => owed h' ⊆ D) env sv h.
Proof using Type.
  intros Ho. unfold error_server_thread, on_globals. repeat returns_step. apply error_netctlgetinfo_pays.
  change (layers_held _) with (layers_held (globals sv)). settle.
Qed.

Lemma error_server_start_pays sv h D :
  owed h ⊆ {[+ Thread (server_thid (globals sv)); Mutex (client_list_mtx (globals sv)) +]} ⊎ layers_held (globals sv) ⊎ D ->
  returns error_server_start (fun _ _ h' => owed h' ⊆ D) env sv h.
Proof using Type.
  intros Ho. unfold error_server_start, on_globals. repeat returns_step. apply error_server_thread_pays.
  change (layers_held _) with (layers_held (globals sv)). cbn [client_list_mtx globals set_globals set_server_thid]. settle.
Qed.
Lemma delete_list_mutex_pays sv h D :
  owed h ⊆ mutex_held (client_list_mtx (globals sv)) ⊎ D ->
  returns delete_list_mutex (fun _ sv' h' => layers_held (globals sv') = layers_held (globals sv) /\ owed h' ⊆ D) env sv h.
Proof using Type.
  intros Ho. unfold delete_list_mutex, on_globals, mutex_held in *. do 3 returns_step.
  destruct (0 <=? client_list_mtx (globals sv)); repeat returns_step; (split; [done|]); [settle|by rewrite (left_id_L ∅ (⊎)) in Ho].
Qed.

Lemma release_network_pays sv h D :
  owed h ⊆ layers_held (globals sv) ⊎ D -> returns release_network (fun _ _ h' => owed h' ⊆ D) env sv h.
Proof using Type.
  intros Ho. unfold release_network, on_globals, layers_held in *. do 3 returns_step.
  destruct (netctl_init (globals sv) =? 0), (net_init (globals sv) =? 0), (net_memory (globals sv)); repeat returns_step; settle.
Qed.
End ftp_debts.

Lemma layers_setup f f' : setup f' = setup f -> layers_held f' = layers_held f.
Proof. intros [= _ _ En Ec _ _]. unfold layers_held. by rewrite En, Ec. Qed.

Lemma held_setup f f' : setup f' = setup f -> ftp_held f' = ftp_held f.
Proof. intros E. unfold ftp_held. rewrite (layers_setup _ _ E). injection E as -> -> _ _ _ _. done. Qed.

(** A server that does not run owes nothing. *)
Definition ftp_debts (f : ftp) : gmultiset debt := if ftp_initialized f then ftp_held f else ∅.

(** What a start leaves: what it acquired when it succeeded, nothing when it did not. *)
Definition start_pays (D : gmultiset debt) (ret : Z) (sv : server) h : Prop :=
  if ret =? 0 then owed h ⊆ ftp_held (globals sv) ⊎ D /\ ftp_initialized (globals sv) = true else owed h ⊆ D.

Lemma failed_pays D ret sv h : ret <> 0 -> owed h ⊆ D -> start_pays D ret sv h.
Proof. intros Hr Ho. unfold start_pays. by replace (ret =? 0) with false by lia. Qed.

Section ftp_start.
Context `{Sdk} env (ftp_others : history -> server -> server) (Hsetup : keeps_setup ftp_others).
Implicit Types (sv : server).

Lemma ftp_pause c (Q : answer c -> server -> history -> Prop) sv h :
  (forall a sv', setup (globals sv') = setup (globals sv) -> Q a sv' (Ev c a :: h)) ->
  returns (FtpServer.pause ftp_others c) Q env sv h.
Proof using Hsetup. intros HQ a sv' h' [= <- <- <-]. apply HQ. apply Hsetup. Qed.

Ltac pause_step :=
  apply returns_bind;
  lazymatch goal with |- @returns _ _ (FtpServer.pause _ ?c) ?Q _ ?sv ?h => refine (ftp_pause c Q sv h _); cbn [answer] end.

Lemma wait_started_pays waited sv h D :
  owed h ⊆ D ->
  returns (FtpServer.wait_started ftp_others waited) (fun _ sv' h' => setup (globals sv') = setup (globals sv) /\ owed h' ⊆ D) env sv h.
Proof using Hsetup.
  revert sv h. induction waited as [|waited IH]; intros sv h Ho; cbn [FtpServer.wait_started]; [by apply returns_ret|].
  unfold on_globals. do 3 returns_step. replace (set_globals (globals sv) sv) with sv by by destruct sv.
  destruct (_ =? _); [|by apply returns_ret]. pause_step. intros a sv1 E1.
  eapply returns_mono; [apply IH; settle|]. intros ? sv2 h2 [E2 Ho2]. split; [congruence|done].
Qed.

Lemma init_server_pays sv h D :
  owed h ⊆ layers_held (globals sv) ⊎ D ->
  returns (init_server ftp_others) (start_pays D) env sv h.
Proof using Hsetup.
  intros Ho. unfold init_server, on_globals. do 5 returns_step. rename a into mtx.
  set (L := layers_held (globals sv)) in *.
  assert (owed (Ev (sceKernelCreateMutex (lit "FTPVita_client_list_mutex")) mtx :: h) ⊆
    (if 0 <=? mtx then {[+ Mutex mtx +]} else ∅) ⊎ (L ⊎ D)) as Ho1 by by apply owed_gained.
  returns_step.
  { apply returns_bind. eapply returns_mono; [apply (error_netctlgetinfo_pays _ _ _ D)|].
    - change (layers_held _) with L. by replace (0 <=? mtx) with false in Ho1 by lia; rewrite (left_id_L ∅ (⊎)) in Ho1.
    - intros ? ? ? Hr. apply returns_ret. apply failed_pays; [lia|done]. }
  replace (0 <=? mtx) with true in Ho1 by lia. do 5 returns_step. rename a into thid.
  assert (owed (Ev (sceKernelCreateThread (lit "FTPVita_server_thread")) thid ::
    Ev (sceKernelCreateMutex (lit "FTPVita_client_list_mutex")) mtx :: h) ⊆
    (if 0 <=? thid then {[+ Thread thid +]} else ∅) ⊎ ({[+ Mutex mtx +]} ⊎ (L ⊎ D))) as Ho2 by by apply owed_gained.
  clear Ho Ho1. generalize dependent (Ev (sceKernelCreateMutex (lit "FTPVita_client_list_mutex")) mtx :: h). clear h. intros h Ho2.
  generalize dependent (Ev (sceKernelCreateThread (lit "FTPVita_server_thread")) thid :: h). clear h. intros h Ho2.
  returns_step.
  { apply returns_bind. eapply returns_mono; [apply (error_server_thread_pays _ _ _ D)|].
    - change (layers_held _) with L. cbn [client_list_mtx globals set_globals set_server_thid set_client_list_mtx].
      replace (0 <=? thid) with false in Ho2 by lia. rewrite (left_id_L ∅ (⊎)) in Ho2. clear -Ho2. multiset_solver.
    - intros ? ? ? Hr. apply returns_ret. apply failed_pays; [lia|done]. }
  replace (0 <=? thid) with true in Ho2 by lia. do 5 returns_step. pause_step. intros ret sv3 E3. cbn in E3.
  assert (layers_held (globals sv3) = L /\ server_thid (globals sv3) = thid /\ client_list_mtx (globals sv3) = mtx) as (EL & Et & Em).
  { split_and!; [|by injection E3..]. unfold L. unfold layers_held. by injection E3 as _ _ -> -> _ _. }
  clearbody L. clear E3 sv. returns_step.
  { apply returns_bind. eapply returns_mono; [apply (error_server_start_pays _ _ _ D)|].
    - rewrite EL, Et, Em. etrans; [apply owed_not_started; [lia|exact Ho2]|]. clear. multiset_solver.
    - intros ? ? ? Hr. apply returns_ret. apply failed_pays; [lia|done]. }
  eapply owed_started in Ho2; [|by apply Z.ltb_ge].
  apply returns_bind. eapply returns_mono; [by eapply wait_started_pays|]. intros ? sv4 h4 [E4 Ho4]. clear Ho2.
  rewrite <-(layers_setup _ _ E4) in EL. assert (server_thid (globals sv4) = thid /\ client_list_mtx (globals sv4) = mtx) as [Et4 Em4]
    by (injection E4; intros; split; congruence).
  do 3 returns_step. replace (set_globals (globals sv4) sv4) with sv4 by by destruct sv4.
  destruct (Z.eqb_spec (server_start_status (globals sv4)) 0) as [Hz|Hnz]; cbn [negb].
  - repeat returns_step. split; [|done]. cbn [globals set_globals]. unfold ftp_held, thread_held, mutex_held. change (layers_held _) with (layers_held (globals sv4)).
    cbn [client_list_mtx server_thid set_ftp_initialized]. rewrite EL, Et4, Em4. replace (0 <=? thid) with true by lia. replace (0 <=? mtx) with true by lia.
    clear -Ho4. multiset_solver.
  - apply returns_bind, (returns_mono _ (fun _ sv' h' => setup (globals sv') = setup (globals sv4) /\ owed h' ⊆ {[+ Running thid +]} ⊎ ({[+ Thread thid +]} ⊎ ({[+ Mutex mtx +]} ⊎ (L ⊎ D))))).
    { unfold on_globals, close_server_socket. repeat returns_step; (split; [done|]); [apply owed_frugal; [done|exact Ho4]|exact Ho4]. }
    intros ? sv5 h5 [E5 Ho5]. pause_step. intros ? sv6 E6. apply returns_bind.
    eapply returns_mono; [apply (error_server_start_pays _ _ _ D)|].
    + rewrite (layers_setup _ _ E6), (layers_setup _ _ E5), EL. injection E6 as -> -> _ _ _ _. injection E5 as -> -> _ _ _ _. rewrite Et4, Em4.
      apply owed_paid; [done|]. clear -Ho5. cbn [paid]. multiset_solver.
    + intros ? ? ? Hr. apply returns_ret. apply failed_pays; [by destruct (_ =? SERVER_START_PENDING)|done].
Qed.

Lemma init_netctl_pays sv h D :
  owed h ⊆ (if net_init (globals sv) =? 0 then {[+ NetLayer +]} else ∅) ⊎ D ->
  returns (init_netctl ftp_others) (fun '(ret, _) => start_pays D ret) env sv h.
Proof using Hsetup.
  intros Ho. unfold init_netctl, on_globals. do 5 returns_step. rename a into netctl. 
  apply (owed_gained sceNetCtlInit netctl) in Ho. cbn [gained] in Ho.
  generalize dependent (Ev sceNetCtlInit netctl :: h). clear h. intros h Ho.
  assert (forall sv' h, net_init (globals sv') = net_init (globals sv) -> netctl_init (globals sv') = netctl ->
    owed h ⊆ (if netctl =? 0 then {[+ NetCtlLayer +]} else ∅) ⊎ ((if net_init (globals sv) =? 0 then {[+ NetLayer +]} else ∅) ⊎ D) ->
    owed h ⊆ layers_held (globals sv') ⊎ D) as Hlayers.
  { intros sv' h' En Ec Ho'. unfold layers_held. rewrite En, Ec. clear -Ho'. multiset_solver. }
  returns_step.
  { apply returns_bind. eapply returns_mono; [apply (error_netctlinit_pays _ _ _ D)|].
    - cbn [globals set_globals net_init set_netctl_init]. replace (netctl =? 0) with false in Ho by lia. by rewrite (left_id_L ∅ (⊎)) in Ho.
    - intros ? ? ? Hr. apply returns_ret. apply failed_pays; [lia|done]. }
  do 3 returns_step.
  returns_step.
  { apply returns_bind. eapply returns_mono; [apply (error_netctlgetinfo_pays _ _ _ D)|].
    - apply Hlayers; [done|done|]. by apply owed_frugal.
    - intros ? ? ? Hr. apply returns_ret. apply failed_pays; [lia|done]. }
  do 7 returns_step. apply returns_bind. eapply returns_mono; [apply (init_server_pays _ _ D)|].
  - apply Hlayers; [done|done|]. by do 2 (apply owed_frugal; [done|]).
  - intros ret sv' h' Hr. by apply returns_ret.
Qed.

Lemma ftpvita_init_pays sv h D :
  net_init (globals sv) <> 0 -> owed h ⊆ D ->
  returns (ftpvita_init ftp_others) (fun '(ret, _) => start_pays D ret) env sv h.
Proof using Hsetup.
  intros Hn Ho. unfold ftpvita_init, on_globals. do 2 returns_step. returns_step; [by apply returns_ret, failed_pays|].
  do 2 returns_step. apply (owed_frugal sceNetShowNetstat a) in Ho; [|done].
  generalize dependent (Ev sceNetShowNetstat a :: h). clear h. intros h Ho. returns_step.
  { do 3 returns_step. apply init_netctl_pays. cbn [net_init globals set_globals set_net_init]. clear -Ho. multiset_solver. }
  returns_step; [|returns_step; apply failed_pays; [lia|done]].
  do 5 returns_step. apply (owed_frugal (malloc NET_INIT_SIZE) a0) in Ho; [|done].
  generalize dependent (Ev (malloc NET_INIT_SIZE) a0 :: h). clear h. intros h Ho. returns_step.
  { apply returns_bind. eapply returns_mono; [by apply (error_netinit_pays _ _ _ D)|]. intros ? ? ? Hr. by apply returns_ret, failed_pays. }
  do 5 returns_step. rename a1 into net. apply (owed_gained (sceNetInit NET_INIT_SIZE) net) in Ho. cbn [gained] in Ho.
  returns_step.
  { apply returns_bind. replace (net =? 0) with false in Ho by lia. rewrite (left_id_L ∅ (⊎)) in Ho.
    eapply returns_mono; [by apply (error_netinit_pays _ _ _ D)|]. intros ? ? ? Hr. apply returns_ret, failed_pays; [lia|done]. }
  apply init_netctl_pays. exact Ho.
Qed.

(** The steps of the end, each of which leaves the rest of what is held. *)
Lemma wait_clients_pays thids sv h D :
  owed h ⊆ D ->
  returns (wait_clients ftp_others thids) (fun _ sv' h' => setup (globals sv') = setup (globals sv) /\ owed h' ⊆ D) env sv h.
Proof using Hsetup.
  revert sv h. induction thids as [|t thids IH]; intros sv h Ho; cbn [wait_clients]; [by apply returns_ret|].
  pause_step. intros a sv1 E1. do 2 returns_step.
  eapply returns_mono; [apply IH; by do 2 (apply owed_frugal; [done|])|]. intros ? sv2 h2 [E2 Ho2]. split; [congruence|done].
Qed.

Lemma detach_loop_pays room it sv h D :
  owed h ⊆ D -> returns (detach_loop room it) (fun _ sv' h' => globals sv' = globals sv /\ owed h' ⊆ D) env sv h.
Proof using Type.
  revert it sv h. induction room as [|room IH]; intros it sv h Ho; cbn [detach_loop]; [by apply returns_ret|].
  destruct it as [c|]; [|by apply returns_ret].
  unfold deref, abort_connection, abort_socket, assign. repeat (first [returns_step | done]).
  all: eapply returns_mono; [apply IH; by repeat (apply owed_frugal; [done|])|]; intros; by apply returns_ret.
Qed.

Lemma client_list_end_pays sv h D :
  owed h ⊆ D ->
  returns (client_list_thread_end ftp_others) (fun _ sv' h' => setup (globals sv') = setup (globals sv) /\ owed h' ⊆ D) env sv h.
Proof using Hsetup.
  intros Ho. unfold client_list_thread_end. do 2 returns_step. returns_step; [by returns_step|].
  apply returns_bind, (returns_mono _ (fun _ sv' h' => setup (globals sv') = setup (globals sv) /\ owed h' ⊆ D)).
  - unfold detach_clients, lock_list, unlock_list, on_globals. do 7 returns_step.
    eapply returns_mono; [apply detach_loop_pays; by apply owed_frugal|]. intros thids sv4 h4 [E4 Ho4]. repeat returns_step. cbn. rewrite E4.
    split; [done|]. by apply owed_frugal.
  - intros thids sv4 h4 [E4 Ho4]. eapply returns_mono; [by apply wait_clients_pays|]. intros ? sv5 h5 [E5 Ho5]. split; [congruence|done].
Qed.

(** What the later steps of the end still have to release. *)
Definition due_later (f : ftp) := (client_list_mtx f, net_init f, netctl_init f).

Lemma end_server_thread_pays sv h D :
  owed h ⊆ thread_held (server_thid (globals sv)) ⊎ D ->
  returns (end_server_thread ftp_others) (fun _ sv' h' => due_later (globals sv') = due_later (globals sv) /\ owed h' ⊆ D) env sv h.
Proof using Hsetup.
  intros Ho. unfold end_server_thread, on_globals, thread_held in *. do 3 returns_step. replace (set_globals (globals sv) sv) with sv by by destruct sv.
  destruct (0 <=? server_thid (globals sv)); [|returns_step; split; [done|by rewrite (left_id_L ∅ (⊎)) in Ho]].
  pause_step. intros ? sv1 E1. repeat returns_step. split; [by injection E1 as _ Em En Ec _ _; unfold due_later; cbn; congruence|]. settle.
Qed.

Lemma fini_pays sv h D :
  owed h ⊆ ftp_debts (globals sv) ⊎ D -> returns (ftpvita_fini ftp_others) (fun _ _ h' => owed h' ⊆ D) env sv h.
Proof using Hsetup.
  intros Ho. unfold ftpvita_fini. do 2 returns_step. unfold ftp_debts, ftp_held in Ho.
  destruct (ftp_initialized (globals sv)); cbn [negb]; cbv iota; [|apply returns_ret; by rewrite (left_id_L ∅ (⊎)) in Ho].
  rewrite <-!(assoc_L (⊎)) in Ho. returns_step. unfold on_globals at 1. do 2 returns_step.
  apply returns_bind, (returns_mono _ (fun _ sv' h' => (server_thid (globals sv'), due_later (globals sv')) = (server_thid (globals sv), due_later (globals sv)) /\
    owed h' ⊆ thread_held (server_thid (globals sv)) ⊎ (mutex_held (client_list_mtx (globals sv)) ⊎ (layers_held (globals sv) ⊎ D)))).
  { unfold on_globals, close_server_socket. repeat returns_step; (split; [done|]); [by apply owed_frugal|exact Ho]. }
  clear Ho. intros ? sv1 h1 [E1 Ho]. injection E1 as Et Em En Ec.
  apply returns_bind. rewrite <-Et in Ho. eapply returns_mono; [by apply end_server_thread_pays|].
  intros ? sv2 h2 [E2 Ho2]. apply returns_bind. eapply returns_mono; [by apply client_list_end_pays|].
  intros ? sv3 h3 [E3 Ho3]. injection E3 as _ Em3 En3 Ec3 _ _. injection E2 as Em2 En2 Ec2.
  apply returns_bind. eapply returns_mono; [apply delete_list_mutex_pays; rewrite Em3, Em2, Em; exact Ho3|].
  intros ? sv4 h4 [E4 Ho4]. do 2 returns_step. unfold on_globals. do 3 returns_step. apply release_network_pays.
  change (layers_held _) with (layers_held (globals sv4)). rewrite E4. unfold layers_held in *. rewrite En3, En2, En, Ec3, Ec2, Ec. exact Ho4.
Qed.
End ftp_start.

Lemma ftp_debts_setup f f' : setup f' = setup f -> ftp_debts f' = ftp_debts f.
Proof. intros E. unfold ftp_debts. rewrite (held_setup _ _ E). by injection E as _ _ _ _ _ ->. Qed.
