(* ===== verification/FtpControl.v ===== *)
(** The session of a client, against a reference: the lines as texts, the commands
    by name, without the in-place buffer and the tables. *)

From S2P Require Import Prelude System FtpState FtpParse FtpCmds FtpSafe ClientList FtpServer.

(** * The reference *)

(** The text of what was received: up to the first NUL. *)
Definition received_line (data : bytes) : bytes := take_while (fun c => negb (c =? NUL)) data.

(** What the buffer holds then, and from where the arguments are read. *)
Definition line_buffer (data : bytes) : bytes := data ++ replicate (Z.to_nat RECV_BUFFER - length data) NUL.
Definition arguments_at (data : bytes) : bytes :=
  command_arguments (received_line data) ++ drop (length (received_line data)) (line_buffer data).

Section reference.
Context `{Sdk} (others : history -> server -> server) (custom_command : Z -> C unit) (fuel : nat).

(** The command that a word names: a built-in one first. *)
Definition command_of (f : ftp) (word : bytes) : option (C unit) :=
  match find_command word (cmd_dispatch_table fuel) with
  | Some g => Some g
  | None => custom_command <$> custom_slot word (custom_command_dispatchers f)
  end.

(** Whether the session goes on after a command. *)
Definition obey (c : loc) (word : bytes) : V bool :=
  pause others (sceKernelDelayThread 1000);;
  on_client c ('(f, _) ← get;
    match command_of f word with
    | Some g => g;; quit ← of_client quit_requested; mret (negb quit)
    | None => client_send_ctrl_msg (msg "502 Sorry, command not implemented. :(");; mret true
    end).

Definition answer_line (c : loc) (data : bytes) : V bool :=
  let word := command_word (received_line data) in
  if (0 <? Z.of_nat (length word)) && (Z.of_nat (length word) <? CMD_WORD) then
    on_client c (set_client (set_recv_cmd_args (Some (arguments_at data))));;
    obey c word
  else on_client c (client_send_ctrl_msg (msg "500 Empty command."));; mret true.

Definition turn (c : loc) : V bool :=
  on_client c (set_client (set_recv_buffer (replicate (Z.to_nat RECV_BUFFER) 0)));;
  n ← deref (Some c);
  '(received, data) ← pause others (sceNetRecv (ctrl_sockfd (info n)) (RECV_BUFFER - 1));
  on_client c (set_client (set_recv_buffer (line_buffer data));; set_client (set_n_recv received));;
  if 0 <? received then answer_line c data else mret false.

Fixpoint conversation (turns : nat) (c : loc) : V unit :=
  match turns with
  | O => lift NoFuel
  | S turns => again ← turn c; if (again : bool) then conversation turns c else mret tt
  end.
End reference.

(** * The buffer *)

Lemma NUL_free_received_line data : Forall (fun c => c <> NUL) (received_line data).
Proof. unfold received_line. induction data as [|c data IH]; simpl; [done|]. destruct (Z.eqb_spec c NUL); simpl; auto. Qed.

Lemma received_line_at data t : cstr (data ++ NUL :: t) = Done (received_line data).
Proof.
  unfold received_line. induction data as [|c data IH]; [done|]. cbn [app cstr take_while].
  destruct (Z.eqb_spec c NUL); cbn [negb]; [done|]. by rewrite IH.
Qed.

Lemma line_buffer_text data : (length data < Z.to_nat RECV_BUFFER)%nat -> cstr (line_buffer data) = Done (received_line data).
Proof.
  intros Hl. unfold line_buffer. replace (Z.to_nat RECV_BUFFER - length data)%nat with (S (Z.to_nat RECV_BUFFER - length data - 1)) by lia.
  apply received_line_at.
Qed.

(** The arguments are read as a C string from inside the buffer. *)
Lemma arguments_at_text data : (length data < Z.to_nat RECV_BUFFER)%nat ->
  cstr (arguments_at data) = Done (command_arguments (received_line data)) /\ arguments_at data `suffix_of` line_buffer data.
Proof.
  intros Hl. pose proof (line_buffer_text data Hl) as [Hfree [t Et]]%cstr_terminated. unfold arguments_at. rewrite Et, drop_app_length. split.
  - apply cstr_lit. auto with vita.
  - assert (forall f (p : bytes), drop_while f p `suffix_of` p) as Hd.
    { intros f p. induction p as [|x p IH]; [done|]. simpl. destruct (f x); [by apply suffix_cons_r|done]. }
    unfold command_arguments. destruct (Hd is_blank (drop_while (fun c => negb (ends_word c)) (drop_while is_blank (received_line data)))) as [a Ha].
    destruct (Hd (fun c => negb (ends_word c)) (drop_while is_blank (received_line data))) as [b Hb].
    destruct (Hd is_blank (received_line data)) as [d Hdd].
    exists (d ++ b ++ a). rewrite Hdd, Hb, Ha at 1. by rewrite <-!app_assoc.
Qed.

Lemma received_buffer received data : count_ok received (RECV_BUFFER - 1) -> length data = Z.to_nat received ->
  list_inserts 0 data (replicate (Z.to_nat RECV_BUFFER) NUL) = line_buffer data /\ (length data < Z.to_nat RECV_BUFFER)%nat.
Proof.
  intros [_ Hmax] Hlen. assert (length data < Z.to_nat RECV_BUFFER)%nat as Hl by (unfold RECV_BUFFER in *; lia). split; [|done].
  rewrite inserts_0 by (rewrite length_replicate; lia). unfold line_buffer. by rewrite drop_replicate.
Qed.

(** The terminator is stored over the zero that is already there. *)
Lemma terminated_already received data : 0 <= received -> length data = Z.to_nat received -> (length data < Z.to_nat RECV_BUFFER)%nat ->
  store (line_buffer data) received NUL = Done (line_buffer data).
Proof.
  intros Hr Hlen Hl. rewrite store_in by (unfold line_buffer; rewrite length_app, length_replicate; lia). f_equal.
  apply list_insert_id. unfold line_buffer. rewrite lookup_app_r by lia. apply lookup_replicate. lia.
Qed.

(** * The equivalence *)

(** Running the parts of a computation whose result is known. *)
Lemma run_bind {S A B} (m : M S A) (f : A -> M S B) env s h a s' h' :
  m env s h = Done (a, s', h') -> (m ≫= f) env s h = f a env s' h'.
Proof. intros E. unfold mbind, M_bind. by rewrite E. Qed.

Lemma run_on_client {A} c n (m : C A) env s h a f i h' :
  heap s !! c = Some n -> m env (globals s, info n) h = Done (a, (f, i), h') ->
  on_client c m env s h = Done (a, Server f (<[c := set_info i n]> (heap s)) (client_list s), h').
Proof. intros Hc E. unfold on_client. by rewrite Hc, E. Qed.

Lemma run_set_client c n (f : client -> client) env s h :
  heap s !! c = Some n ->
  on_client c (set_client f) env s h = Done (tt, Server (globals s) (<[c := set_info (f (info n)) n]> (heap s)) (client_list s), h).
Proof. intros Hc. by apply run_on_client. Qed.

Lemma run_deref c n env s h : heap s !! c = Some n -> deref (Some c) env s h = Done (n, s, h).
Proof. intros Hc. unfold deref. cbv [mbind M_bind gets lift]. cbn. by rewrite Hc. Qed.

Section equivalence.
Context `{Sdk} (env : environment) (Hrecv : recv_ok env).
Context (others : history -> server -> server) (custom_command : Z -> C unit) (fuel : nat) (c : loc).
Context (Hsane : keeps_sane others) (Hown : keeps_session_of c others).

(** Reading the line in place. *)
Lemma receive_run s n h :
  heap s !! c = Some n ->
  let cleared := set_recv_buffer (replicate (Z.to_nat RECV_BUFFER) NUL) (info n) in
  let cl := sceNetRecv (ctrl_sockfd (info n)) (RECV_BUFFER - 1) in
  let h' := Ev cl (env h cl) :: h in
  let s' := others h' (Server (globals s) (<[c := set_info cleared n]> (heap s)) (client_list s)) in
  exists n', heap s' !! c = Some n' /\ info n' = cleared /\
    receive_line others c env s h =
      Done ((env h cl).1, Server (globals s') (<[c := set_info (set_n_recv (env h cl).1 (set_recv_buffer (line_buffer (env h cl).2) cleared)) n']> (heap s')) (client_list s'), h') /\
    turn others custom_command fuel c env s h =
      (if 0 <? (env h cl).1 then answer_line others custom_command fuel c (env h cl).2 else mret false) env
        (Server (globals s') (<[c := set_info (set_n_recv (env h cl).1 (set_recv_buffer (line_buffer (env h cl).2) cleared)) n']> (heap s')) (client_list s')) h'.
Proof using Type Hown Hrecv.
  intros Hc cleared cl h' s'.
  destruct (Hown h' (Server (globals s) (<[c := set_info cleared n]> (heap s)) (client_list s)) _ (lookup_insert_eq _ _ _)) as (n' & Hn' & Ei).
  pose proof (Hrecv h (ctrl_sockfd (info n)) (RECV_BUFFER - 1)) as Hcount. fold cl in Hcount.
  destruct (env h cl) as [received data] eqn:Ea. destruct Hcount as [Hcount Hlen].
  destruct (received_buffer received data Hcount Hlen) as [Hbuf Hl].
  exists n'. split; [exact Hn'|]. split; [exact Ei|]. cbn [fst snd].
  assert (pause others cl env (Server (globals s) (<[c := set_info cleared n]> (heap s)) (client_list s)) h = Done ((received, data), s', h')) as Ep
    by (unfold pause, s', h'; by rewrite Ea).
  split; [unfold receive_line|unfold turn].
  - erewrite run_bind by by apply run_set_client. erewrite run_bind by by apply run_deref, lookup_insert_eq.
    erewrite run_bind by exact Ep. cbv beta iota.
    erewrite run_bind; [reflexivity|]. eapply run_on_client; [exact Hn'|]. rewrite Ei.
    unfold of_client, set_client. cbv [mbind M_bind zoom gets modify]. cbn [fst snd].
    replace (recv_buffer (info _)) with (replicate (Z.to_nat RECV_BUFFER) NUL) by done.
    rewrite length_replicate, Hbuf. replace (Z.of_nat _ <? _) with false by lia. done.
  - erewrite run_bind by by apply run_set_client. erewrite run_bind by by apply run_deref, lookup_insert_eq.
    erewrite run_bind by exact Ep. cbv beta iota.
    erewrite run_bind; [reflexivity|]. eapply run_on_client; [exact Hn'|]. by rewrite Ei.
Qed.

(** Looking the word up and running what it names. *)
Lemma obey_run s n word t h :
  heap s !! c = Some n -> sane (globals s) -> Forall (fun x => x <> NUL) word ->
  (pause others (sceKernelDelayThread 1000);;
   word ← lift (cstr (word ++ NUL :: t));
   on_client c (
     f ← get_dispatch_func custom_command fuel word;
     match f with
     | Some f => f;; quit ← of_client quit_requested; mret (negb quit)
     | NULL => client_send_ctrl_msg (msg "502 Sorry, command not implemented. :(");; mret true
     end)) env s h = obey others custom_command fuel c word env s h.
Proof using Type Hown Hsane.
  intros Hc Hs Hw. unfold obey. erewrite !(run_bind (pause _ _)) by reflexivity.
  erewrite run_bind by (unfold lift; by rewrite cstr_lit).
  set (h1 := Ev _ _ :: h). destruct (Hown h1 s n Hc) as (n' & Hn' & _). apply (Hsane h1) in Hs.
  unfold on_client. rewrite Hn'.
  erewrite (run_bind (get_dispatch_func _ _ _)) by (apply get_dispatch_run, Hs). erewrite (run_bind get) by reflexivity. done.
Qed.

(** One turn is a turn of the reference. *)
Lemma client_turn_run s n h :
  heap s !! c = Some n -> sane (globals s) ->
  client_turn others custom_command fuel c env s h = turn others custom_command fuel c env s h.
Proof using Type Hown Hrecv Hsane.
  intros Hc Hs. destruct (receive_run s n h Hc) as (n' & Hn' & Ei & Erecv & Eturn). rewrite Eturn.
  pose proof (Hrecv h (ctrl_sockfd (info n)) (RECV_BUFFER - 1)) as Hcount.
  unfold client_turn. erewrite run_bind by exact Erecv. clear Erecv Eturn.
  set (s1 := others _ _) in *. assert (sane (globals s1)) as Hs1 by by apply Hsane. clearbody s1.
  set (h1 := Ev _ _ :: h). clearbody h1.
  destruct (env h (sceNetRecv (ctrl_sockfd (info n)) (RECV_BUFFER - 1))) as [received data]. cbn [fst snd] in *.
  destruct Hcount as [Hcount Hlen]. destruct (received_buffer received data Hcount Hlen) as [_ Hl].
  destruct (Z.ltb_spec 0 received) as [Hpos|]; [|done].
  set (i1 := set_n_recv _ _). set (s2 := Server _ _ _).
  assert (heap s2 !! c = Some (set_info i1 n')) as Hc2 by apply lookup_insert_eq.
  destruct (parse_command_line_run (line_buffer data) (received_line data) (replicate (Z.to_nat CMD_WORD) 0) CMD_WORD (recv_cmd_args i1)
    (line_buffer_text data Hl)) as (command' & _ & _ & Eparse); [unfold CMD_WORD; lia|rewrite length_replicate; unfold CMD_WORD; lia|].
  fold (arguments_at data) in Eparse.
  set (fits := (0 <? Z.of_nat (length (command_word (received_line data)))) && _) in *.
  set (i2 := set_recv_cmd_args (if fits then Some (arguments_at data) else recv_cmd_args i1) i1).
  match type of Eparse with _ = Done ?parsed => assert (on_client c (
      buffer ← of_client recv_buffer;
      buffer ← lift (store buffer received NUL);
      set_client (set_recv_buffer buffer);;
      arguments ← of_client recv_cmd_args;
      r ← lift (ftpvita_parse_command_line (Some buffer) (Some (replicate (Z.to_nat CMD_WORD) 0)) CMD_WORD (Some arguments));
      set_client (set_recv_cmd_args (cl_arguments r));;
      mret r) env s2 h1 = Done (parsed, Server (globals s2) (<[c := set_info i2 (set_info i1 n')]> (heap s2)) (client_list s2), h1)) as Erun end.
  { eapply run_on_client; [exact Hc2|]. cbv [of_client set_client mbind M_bind zoom gets modify lift]. cbn [fst snd set_info info].
    change (recv_buffer i1) with (line_buffer data). rewrite terminated_already by lia. cbn [fst snd].
    change (recv_cmd_args (set_recv_buffer _ i1)) with (recv_cmd_args i1).
    rewrite Eparse. unfold i2. by destruct fits. }
  erewrite run_bind by exact Erun. clear Erun Eparse. unfold answer_line. fold fits. destruct fits; cbn [cl_ret].
  - erewrite (run_bind (on_client c (set_client _))) by by apply run_set_client.
    eapply obey_run; [apply lookup_insert_eq|exact Hs1|]. unfold command_word. pose proof (NUL_free_received_line data). auto with vita.
  - change (set_info i2 (set_info i1 n')) with (set_info i1 n'). by rewrite (insert_id (heap s2)) by exact Hc2.
Qed.
End equivalence.

(** The loop, as long as the session is served. *)
Lemma client_loop_run `{Sdk} env others custom_command fuel turns c fd K base k s h :
  ftp_io_ok env -> recv_ok env -> keeps_list others -> keeps_sane others -> keeps_session_of c others ->
  custom_commands_keep env custom_command -> serving c fd K base k s h ->
  client_loop others custom_command fuel turns c env s h = conversation others custom_command fuel turns c env s h.
Proof.
  intros Hio Hrecv Hlist Hsane Hown Hcustom. revert s h.
  induction turns as [|turns IH]; intros s h Hs; cbn [client_loop conversation]; [done|].
  assert (client_turn others custom_command fuel c env s h = turn others custom_command fuel c env s h) as Eturn
    by (destruct Hs as (r & n & _ & Hc & Hsn & _); by eapply client_turn_run).
  assert (wlp (client_turn others custom_command fuel c) (fun _ s' h' => serving c fd K base k s' h') env s h) as Hturn.
  { eapply wp_mono; [eapply client_turn_spec; eauto|]. by intros ? ? ? [? _]. }
  unfold mbind, M_bind. rewrite <-Eturn. unfold run_spec in Hturn.
  destruct (client_turn others custom_command fuel c env s h) as [[[[] s1] h1]| |]; [by apply IH|done..].
Qed.

(** * Property *)

(** C10: the session of a client is the conversation of the reference. From the state in
    which the accepting thread hands a client over, the loop of [client_thread] makes
    the same calls and ends in the same state as [conversation], which reads what came
    up to a NUL as a line, takes its first word and its arguments as texts, and then
    runs the built-in command of that name, or else the first custom command in use
    with it, or replies 502 when there is none, and 500 when the word is missing or has
    16 bytes or more; it goes on until the peer closes, the socket fails or a command
    asks to quit. The buffer is reused for every line, and the arguments that a command
    reads are those of its own line, inside the buffer. *)
Theorem session_is_conversation `{Sdk} (env : environment) others custom_command fuel turns c fd num base s h r n :
  ftp_io_ok env -> recv_ok env -> keeps_list others -> keeps_sane others -> keeps_session_of c others ->
  custom_commands_keep env custom_command ->
  represents s r -> heap s !! c = Some n -> info n = new_client num fd -> sane (globals s) ->
  sockets h = fd :: base ->
  client_loop others custom_command fuel turns c env s h = conversation others custom_command fuel turns c env s h /\
  (forall data, (length data < Z.to_nat RECV_BUFFER)%nat ->
     cstr (arguments_at data) = Done (command_arguments (received_line data)) /\ arguments_at data `suffix_of` line_buffer data).
Proof.
  intros Hio Hrecv Hlist Hsane Hown Hcustom Hr Hc Hi Hs Hso. split; [|exact arguments_at_text].
  eapply (client_loop_run env others custom_command fuel turns c fd (holds h) base 0); [done..|].
  exists r, n. split_and!; [done..|]. rewrite Hi. split; [|unfold idle; cbn; lia].
  split; cbn; try done; [apply path_ok_root|lia].
Qed.

Lemma session_is_conversation_witness :
  let env := quitting in
  client_loop (H := demo_sdk) (fun _ s => s) (noop_command (H := demo_sdk)) 2 2 1 env quit_server [Ev (sceNetAccept 3) (4, SockaddrIn 0 0)] =
    conversation (H := demo_sdk) (fun _ s => s) (noop_command (H := demo_sdk)) 2 2 1 env quit_server [Ev (sceNetAccept 3) (4, SockaddrIn 0 0)] /\
  exists s' h', client_loop (H := demo_sdk) (fun _ s => s) (noop_command (H := demo_sdk)) 2 2 1 env quit_server
    [Ev (sceNetAccept 3) (4, SockaddrIn 0 0)] = Done (tt, s', h').
Proof.
  intros env. split; [|eexists _, _; vm_compute; reflexivity].
  exact (proj1 (session_is_conversation (H := demo_sdk) env (fun _ s => s) noop_command 2 2 1 4 0 [] quit_server
    [Ev (sceNetAccept 3) (4, SockaddrIn 0 0)] _ _ quitting_io quitting_recv alone_keeps_list alone_keeps_sane (alone_keeps_session _)
    noop_keeps quit_server_represents eq_refl eq_refl quit_server_sane eq_refl)).
Defined.
