(* ===== verification/Interlock.v ===== *)
(** The reboot interlock of libftpvita/ftpvita.c under every interleaving: one
    step is one access to the shared flags, so the clients, the accepting thread
    and the command server's thread may be anywhere inside their functions.

    The flags are the fields of the statics; beside them the model keeps who holds
    the list's mutex and where each thread is.  A thread inside one of the functions
    is at a program counter named after what it does next.  That a thread which is
    not interrupted does what the functions of FtpState and ClientList do is a
    theorem of its own. *)

From S2P Require Import Prelude System FtpState ClientList.

Implicit Types (env : environment) (h : history).

(** * The threads *)

(** A client's thread: in [client_begin_transfer] after the first look at the guard
    and after the swap; transferring; in [client_list_delete] under the mutex. *)
Inductive client_pc := Outside | Guarded | Swapped | Retreating | Transferring | Deleting | Deleted.

Record person := Person { pc : client_pc; listed : bool }.

(** The accepting thread, in [client_list_add] for one client. *)
Inductive acceptor_pc := Accepting | Adding (i : nat) | Checked (i : nat) | Admitting (i : nat) | Releasing.

(** The command server's thread, in [ftpvita_prepare_for_reboot]; a reboot is
    prepared until it is cancelled. *)
Inductive reboot_pc :=
| Running
| Claimed                                   (* won the guard, wants the mutex *)
| Counting                                  (* holds the mutex *)
| Counted (clients : Z)
| Seen (clients : Z) (transfer : bool)
| Refusing                                  (* gave the guard back *)
| Granting
| Prepared.

Inductive thread := Client (i : nat) | Acceptor | Rebooter.

#[export] Instance acceptor_pc_eq_dec : EqDecision acceptor_pc.
Proof. solve_decision. Defined.
#[export] Instance reboot_pc_eq_dec : EqDecision reboot_pc.
Proof. solve_decision. Defined.
#[export] Instance thread_eq_dec : EqDecision thread.
Proof. solve_decision. Defined.

(** The statics, whether the list's mutex is held, and the threads. *)
Record world := World {
flags : ftp;
held : bool;
people : list person;
acceptor : acceptor_pc;
rebooter : reboot_pc
}.

Definition set_flags (v : ftp) (w : world) : world := World v (held w) (people w) (acceptor w) (rebooter w).
Definition set_held (v : bool) (w : world) : world := World (flags w) v (people w) (acceptor w) (rebooter w).
Definition set_person (i : nat) (p : person) (w : world) : world :=
  World (flags w) (held w) (<[i := p]> (people w)) (acceptor w) (rebooter w).
Definition set_acceptor (v : acceptor_pc) (w : world) : world := World (flags w) (held w) (people w) v (rebooter w).
Definition set_rebooter (v : reboot_pc) (w : world) : world := World (flags w) (held w) (people w) (acceptor w) v.

(** [__sync_lock_release] of a flag. *)
Definition release_transfer (w : world) : world := set_flags (set_transfer_active 0 (flags w)) w.
Definition release_guard (w : world) : world := set_flags (set_reboot_quiesce_requested 0 (flags w)) w.

(** * The steps *)

(** The next step of client [i], which is at [p]. *)
Inductive client_step (w : world) (i : nat) (l : bool) : client_pc -> world -> Prop :=
(* client_begin_transfer *)
| begin_refused : reboot_quiesce_requested (flags w) <> 0 -> client_step w i l Outside w
| begin_guard : reboot_quiesce_requested (flags w) = 0 -> client_step w i l Outside (set_person i (Person Guarded l) w)
| begin_busy : transfer_active (flags w) <> 0 -> client_step w i l Guarded (set_person i (Person Outside l) w)
| begin_swap : transfer_active (flags w) = 0 ->
    client_step w i l Guarded (set_flags (set_transfer_active 1 (flags w)) (set_person i (Person Swapped l) w))
| begin_late : reboot_quiesce_requested (flags w) <> 0 -> client_step w i l Swapped (set_person i (Person Retreating l) w)
| begin_retreat : client_step w i l Retreating (release_transfer (set_person i (Person Outside l) w))
| begin_done : reboot_quiesce_requested (flags w) = 0 -> client_step w i l Swapped (set_person i (Person Transferring l) w)
(* client_end_transfer *)
| end_transfer : client_step w i l Transferring (release_transfer (set_person i (Person Outside l) w))
(* client_list_delete *)
| delete_lock : held w = false -> client_step w i l Outside (set_held true (set_person i (Person Deleting l) w))
| delete_gone : l = false -> client_step w i l Deleting (set_person i (Person Deleted false) w)
| delete_unlink : l = true ->
    client_step w i l Deleting (set_flags (if 0 <? number_clients (flags w)
      then set_number_clients (number_clients (flags w) - 1) (flags w) else flags w) (set_person i (Person Deleted false) w))
| delete_unlock : client_step w i l Deleted (set_held false (set_person i (Person Outside l) w)).

(** The next step of [client_list_add]. *)
Inductive acceptor_step (w : world) : acceptor_pc -> world -> Prop :=
| add_lock i p : people w !! i = Some p -> listed p = false -> held w = false ->
    acceptor_step w Accepting (set_held true (set_acceptor (Adding i) w))
| add_guarded i : reboot_quiesce_requested (flags w) <> 0 -> acceptor_step w (Adding i) (set_acceptor Releasing w)
| add_open i : reboot_quiesce_requested (flags w) = 0 -> acceptor_step w (Adding i) (set_acceptor (Checked i) w)
| add_full i : MAX_CLIENTS <= number_clients (flags w) -> acceptor_step w (Checked i) (set_acceptor Releasing w)
| add_room i : number_clients (flags w) < MAX_CLIENTS -> acceptor_step w (Checked i) (set_acceptor (Admitting i) w)
| add_link i p : people w !! i = Some p ->
    acceptor_step w (Admitting i) (set_flags (set_number_clients (s32 (number_clients (flags w) + 1)) (flags w))
      (set_acceptor Releasing (set_person i (Person (pc p) true) w)))
| add_unlock : acceptor_step w Releasing (set_held false (set_acceptor Accepting w)).

(** The next step of [ftpvita_prepare_for_reboot] or [ftpvita_cancel_reboot]; an
    attempt that the first conditions refuse changes nothing. *)
Inductive rebooter_step (w : world) : reboot_pc -> world -> Prop :=
| prepare_refused : rebooter_step w Running w
| prepare_swap : reboot_quiesce_requested (flags w) = 0 -> ftp_initialized (flags w) = true ->
    rebooter_step w Running (set_flags (set_reboot_quiesce_requested 1 (flags w)) (set_rebooter Claimed w))
| prepare_locked : held w = false -> rebooter_step w Claimed (set_held true (set_rebooter Counting w))
| prepare_no_lock : rebooter_step w Claimed (release_guard (set_rebooter Running w))
| prepare_clients : rebooter_step w Counting (set_rebooter (Counted (number_clients (flags w))) w)
| prepare_transfer clients :
    rebooter_step w (Counted clients) (set_rebooter (Seen clients (negb (transfer_active (flags w) =? 0))) w)
| prepare_busy clients transfer : clients <> 0 \/ transfer = true ->
    rebooter_step w (Seen clients transfer) (release_guard (set_rebooter Refusing w))
| prepare_idle : rebooter_step w (Seen 0 false) (set_rebooter Granting w)
| prepare_unlock_refused : rebooter_step w Refusing (set_held false (set_rebooter Running w))
| prepare_unlock : rebooter_step w Granting (set_held false (set_rebooter Prepared w))
| cancel : rebooter_step w Prepared (release_guard (set_rebooter Running w)).

Inductive step (w : world) : thread -> world -> Prop :=
| step_client i p w' : people w !! i = Some p -> client_step w i (listed p) (pc p) w' -> step w (Client i) w'
| step_acceptor w' : acceptor_step w (acceptor w) w' -> step w Acceptor w'
| step_rebooter w' : rebooter_step w (rebooter w) w' -> step w Rebooter w'.

Inductive steps (w : world) : list thread -> world -> Prop :=
| steps_refl : steps w [] w
| steps_one t w' ts w'' : step w t w' -> steps w' ts w'' -> steps w (t :: ts) w''.

(** The server has just been started; [n] client threads can come. *)
Definition initial (f : ftp) (n : nat) : world := World f false (replicate n (Person Outside false)) Accepting Running.
Definition at_start (f : ftp) : Prop :=
  number_clients f = 0 /\ transfer_active f = 0 /\ reboot_quiesce_requested f = 0.

Definition reachable (w : world) : Prop := exists f n ts, at_start f /\ steps (initial f n) ts w.

(** * The invariant *)

Definition total (g : person -> nat) (l : list person) : nat := sum_list_with g l.
Definition tally (q : person -> bool) (l : list person) : nat := total (fun p => Nat.b2n (q p)) l.
#[local] Arguments tally _ _ : simpl never.

(** Between the swap and the release of the transfer flag. *)
Definition owns (p : person) : bool := match pc p with Swapped | Retreating | Transferring => true | _ => false end.
Definition transferring (p : person) : bool := match pc p with Transferring => true | _ => false end.
Definition in_delete (p : person) : bool := match pc p with Deleting | Deleted => true | _ => false end.

Definition claimed (r : reboot_pc) : bool := match r with Running | Refusing => false | _ => true end.
Definition locked (r : reboot_pc) : bool := match r with Running | Claimed | Prepared => false | _ => true end.
Definition granted (r : reboot_pc) : bool := match r with Granting | Prepared => true | _ => false end.
Definition adding (a : acceptor_pc) : bool := match a with Accepting => false | _ => true end.
Definition past_guard (a : acceptor_pc) : bool := match a with Checked _ | Admitting _ => true | _ => false end.
Definition candidate (a : acceptor_pc) : option nat := match a with Adding i | Checked i | Admitting i => Some i | _ => None end.

Record invariant (w : world) : Prop := {
  inv_mutex : (tally in_delete (people w) + Nat.b2n (adding (acceptor w)) + Nat.b2n (locked (rebooter w)) = Nat.b2n (held w))%nat;
  inv_number : number_clients (flags w) = Z.of_nat (tally listed (people w));
  inv_max : number_clients (flags w) <= MAX_CLIENTS;
  inv_transfer : transfer_active (flags w) = Z.of_nat (tally owns (people w));
  inv_single : transfer_active (flags w) <= 1;
  inv_guard : reboot_quiesce_requested (flags w) = Z.b2z (claimed (rebooter w));
  inv_candidate i : candidate (acceptor w) = Some i -> exists p, people w !! i = Some p /\ listed p = false;
  inv_room i : acceptor w = Admitting i -> number_clients (flags w) < MAX_CLIENTS;
  inv_counted n : rebooter w = Counted n -> n = number_clients (flags w);
  inv_seen n t : rebooter w = Seen n t -> n = number_clients (flags w) /\ (t = false -> tally transferring (people w) = O);
  inv_calm : granted (rebooter w) = true -> number_clients (flags w) = 0 /\ tally transferring (people w) = O;
  inv_closed : rebooter w = Prepared -> past_guard (acceptor w) = false
}.

(** * Lemmas *)

Lemma total_insert g (l : list person) i p p' :
  l !! i = Some p -> (total g (<[i := p']> l) + g p = total g l + g p')%nat.
Proof.
  unfold total. revert i. induction l as [|x l IH]; intros [|i] Hi; [done..| |].
  - injection Hi as ->. cbn. lia.
  - specialize (IH i Hi). change (<[S i := p']> (x :: l)) with (x :: <[i := p']> l). cbn [sum_list_with]. lia.
Qed.

Lemma total_at g (l : list person) i p : l !! i = Some p -> (g p <= total g l)%nat.
Proof.
  unfold total. revert i. induction l as [|x l IH]; intros [|i] Hi; [done..| |].
  - injection Hi as ->. cbn. lia.
  - specialize (IH i Hi). cbn. lia.
Qed.

Lemma total_positive g (l : list person) : (0 < total g l)%nat -> exists i p, l !! i = Some p /\ (0 < g p)%nat.
Proof.
  unfold total. induction l as [|x l IH]; cbn; intros Hpos; [lia|]. destruct (decide (0 < g x)%nat).
  - by exists 0%nat, x.
  - destruct IH as (i & p & Hi & Hg); [lia|]. by exists (S i), p.
Qed.

Lemma tally_insert q l i p p' :
  l !! i = Some p -> (tally q (<[i := p']> l) + Nat.b2n (q p) = tally q l + Nat.b2n (q p'))%nat.
Proof. apply (total_insert (fun p => Nat.b2n (q p))). Qed.

Lemma tally_at q l i p : l !! i = Some p -> (Nat.b2n (q p) <= tally q l)%nat.
Proof. apply (total_at (fun p => Nat.b2n (q p))). Qed.

Lemma tally_mono (q q' : person -> bool) l : (forall p, q p = true -> q' p = true) -> (tally q l <= tally q' l)%nat.
Proof.
  intros Hq. unfold tally, total. induction l as [|x l IH]; [done|]. cbn. specialize (Hq x).
  destruct (q x), (q' x); cbn; lia.
Qed.

Lemma tally_zero q n p : q p = false -> tally q (replicate n p) = O.
Proof. intros Hq. unfold tally, total. induction n as [|n IH]; [done|]. cbn. by rewrite Hq, IH. Qed.

Lemma transferring_owns p : transferring p = true -> owns p = true.
Proof. unfold transferring, owns. by destruct (pc p). Qed.

Lemma initial_invariant f n : at_start f -> invariant (initial f n).
Proof.
  intros (Hn & Ht & Hq). split; cbn; rewrite ?Hn, ?Ht, ?Hq; rewrite ?tally_zero by done; try done.
Qed.

(** Every thread's next step keeps the invariant. *)
Ltac tallies :=
  repeat match goal with
  | Hi : ?l !! ?i = Some ?p |- context [tally ?q (<[?i := ?p']> ?l)] =>
      lazymatch goal with
      | _ : (tally q (<[i := p']> l) + _)%nat = _ |- _ => fail
      | _ => pose proof (tally_insert q l i p p' Hi)
      end
  end.

(** A client that the acceptor works on is still there and not listed. *)
Lemma candidate_kept (l : list person) i p p' j :
  l !! i = Some p -> (listed p = false -> listed p' = false) ->
  (exists q, l !! j = Some q /\ listed q = false) -> exists q, <[i := p']> l !! j = Some q /\ listed q = false.
Proof.
  intros Hp Hl (q & Hq & Hql). destruct (decide (j = i)) as [->|Hne].
  - exists p'. rewrite list_lookup_insert_eq by (by eapply lookup_lt_Some). split; [done|]. apply Hl. congruence.
  - exists q. by rewrite list_lookup_insert_ne.
Qed.

(** A client moves from [p] to [p']: what is owed to the invariant. *)
Lemma person_moves f f' m m' ps acc reb i p p' :
  invariant (World f m ps acc reb) -> ps !! i = Some p ->
  number_clients f' = number_clients f - Z.b2z (listed p) + Z.b2z (listed p') ->
  transfer_active f' = transfer_active f - Z.b2z (owns p) + Z.b2z (owns p') -> transfer_active f' <= 1 ->
  reboot_quiesce_requested f' = reboot_quiesce_requested f ->
  (Nat.b2n m' + Nat.b2n (in_delete p) = Nat.b2n m + Nat.b2n (in_delete p'))%nat ->
  (listed p' = listed p \/ in_delete p = true /\ listed p' = false) ->
  (transferring p' = true -> reboot_quiesce_requested f = 0) ->
  invariant (World f' m' (<[i := p']> ps) acc reb).
Proof.
  intros [Hm Hn Hmax Ht Hsingle Hg Hcand Hroom Hcnt Hseen Hcalm Hclosed] Hp En Et Hle Eg Em Hl Hq.
  cbn [flags held people acceptor rebooter] in *.
  pose proof (tally_insert in_delete ps i p p' Hp) as H1. pose proof (tally_insert listed ps i p p' Hp) as H2.
  pose proof (tally_insert owns ps i p p' Hp) as H3. pose proof (tally_insert transferring ps i p p' Hp) as H4.
  pose proof (tally_at in_delete ps i p Hp) as Hat.
  assert (number_clients f' <= number_clients f) as Hdown.
  { clear -En Hl. destruct Hl as [El|[_ El]]; rewrite El in En; destruct (listed p); cbn in En; lia. }
  assert (locked reb = true -> number_clients f' = number_clients f) as Hsame.
  { intros Hr. rewrite Hr in Hm. destruct Hl as [El|[Hd _]]; [clear -En El; rewrite El in En; lia|].
    clear -Hm Hat Hd. rewrite Hd in Hat. destruct m; cbn in *; lia. }
  assert (claimed reb = true -> tally transferring ps = O -> tally transferring (<[i := p']> ps) = O) as Hstay.
  { intros Hr Hz. destruct (transferring p'); [|clear -H4 Hz; cbn in H4; lia].
    specialize (Hq eq_refl). rewrite Hr, Hq in Hg. discriminate Hg. }
  split; cbn [flags held people acceptor rebooter].
  - clear -Hm H1 Em. lia.
  - clear -Hn H2 En. destruct (listed p), (listed p'); cbn in *; lia.
  - clear -Hmax Hdown. lia.
  - clear -Ht H3 Et. destruct (owns p), (owns p'); cbn in *; lia.
  - done.
  - by rewrite Eg.
  - intros j Hj. eapply candidate_kept; [exact Hp| |by apply Hcand]. intros E. destruct Hl as [El|[_ El]]; congruence.
  - intros j Hj. specialize (Hroom j Hj). clear -Hroom Hdown. lia.
  - intros n ->. rewrite Hsame by done. by apply Hcnt.
  - intros n t ->. destruct (Hseen n t eq_refl). rewrite Hsame by done. auto.
  - intros Hr. destruct (Hcalm Hr) as [Hz ?]. assert (claimed reb = true) by by destruct reb. split; [|auto].
    clear -En Hn H2 Hz Hdown. lia.
  - done.
Qed.

Lemma client_step_invariant w i p w' :
  invariant w -> people w !! i = Some p -> client_step w i (listed p) (pc p) w' -> invariant w'.
Proof.
  intros Hinv Hp Hs. pose proof (tally_at owns _ _ _ Hp) as Hat. pose proof (tally_at listed _ _ _ Hp) as Hatl.
  pose proof (inv_transfer _ Hinv) as Ht. pose proof (inv_single _ Hinv) as Hsingle. pose proof (inv_number _ Hinv) as Hn.
  pose proof (inv_mutex _ Hinv) as Hm. pose proof (tally_at in_delete _ _ _ Hp) as Hatd.
  destruct w as [f m ps acc reb], p as [pcp l]. cbn [flags held people acceptor rebooter listed pc] in *.
  inversion Hs; subst; clear Hs; try done;
    unfold set_person, set_flags, set_held, release_transfer; cbn [flags held people acceptor rebooter] in *;
    eapply person_moves; try exact Hinv; try exact Hp; cbn in *; try done; try lia; auto;
    destruct (Z.ltb_spec 0 (number_clients f)); cbn; lia.
Qed.

Lemma acceptor_step_invariant w w' : invariant w -> acceptor_step w (acceptor w) w' -> invariant w'.
Proof.
  intros [Hm Hn Hmax Ht Hsingle Hg Hcand Hroom Hcnt Hseen Hcalm Hclosed] Hs.
  destruct w as [f m ps acc reb]. cbn [flags held people acceptor rebooter] in *.
  inversion Hs as [i p Hp Hl Hfree| | | | |i p Hp|]; subst; clear Hs;
    cbn [flags held people acceptor rebooter set_flags set_held set_person set_acceptor adding candidate] in *.
  6: {
    destruct (Hcand i eq_refl) as (p0 & Hp0 & Hl0). rewrite Hp in Hp0. injection Hp0 as <-. specialize (Hroom i eq_refl).
    set (p' := Person (pc p) true).
    pose proof (tally_insert in_delete ps i p p' Hp) as H1. pose proof (tally_insert listed ps i p p' Hp) as H2.
    pose proof (tally_insert owns ps i p p' Hp) as H3. pose proof (tally_insert transferring ps i p p' Hp) as H4.
    assert (locked reb = false) as Hr by (clear -Hm; destruct m, (locked reb); cbn in *; done || lia).
    split; cbn [flags held people acceptor rebooter set_flags set_held set_person set_acceptor adding candidate
      number_clients set_number_clients transfer_active reboot_quiesce_requested]; try done.
    - change (in_delete p') with (in_delete p) in H1. clear -Hm H1. cbn in *. lia.
    - clear -Hn H2 Hl0 Hroom. rewrite Hl0 in H2. unfold MAX_CLIENTS in Hroom. rewrite s32_small by lia. cbn in *. lia.
    - clear -Hn Hroom. unfold MAX_CLIENTS in *. rewrite s32_small by lia. lia.
    - change (owns p') with (owns p) in H3. clear -Ht H3. lia.
    - intros n ->. discriminate Hr.
    - intros n t ->. discriminate Hr.
    - intros Hgr. destruct reb; try discriminate Hgr; try discriminate Hr. specialize (Hclosed eq_refl). discriminate Hclosed. }
  all: split; cbn [flags held people acceptor rebooter set_flags set_held set_person set_acceptor adding candidate]; try done.
  all: try (intros j [=]; subst; eauto; fail).
  all: try (clear -Hm Hfree; destruct m; cbn in *; lia || done).
  all: try (clear -Hm; destruct m; cbn in *; lia).
  all: try (intros ->; rewrite Hg in *; done).
Qed.

Lemma rebooter_step_invariant w w' : invariant w -> rebooter_step w (rebooter w) w' -> invariant w'.
Proof.
  intros [Hm Hn Hmax Ht Hsingle Hg Hcand Hroom Hcnt Hseen Hcalm Hclosed] Hs.
  pose proof (tally_mono transferring owns (people w) transferring_owns) as Hmono.
  destruct w as [f m ps acc reb]. cbn [flags held people acceptor rebooter] in *.
  inversion Hs; subst; clear Hs; try (by split);
    (split; cbn [flags held people acceptor rebooter set_flags set_held set_person set_rebooter release_guard locked claimed granted
      number_clients transfer_active reboot_quiesce_requested set_reboot_quiesce_requested] in *; try done).
  - clear -Hm H. subst m. cbn in *. lia.
  - by intros n [= <-].
  - intros n t [= <- <-]. split; [by apply Hcnt|]. intros Hz. clear -Hz Ht Hmono. lia.
  - intros _. destruct (Hseen 0 false eq_refl) as [<- Hz]. auto.
  - clear -Hm. destruct m; cbn in *; lia.
  - clear -Hm. destruct m; cbn in *; lia.
  - intros _. clear -Hm. destruct m, acc; cbn in *; done || lia.
Qed.

Lemma step_invariant w t w' : invariant w -> step w t w' -> invariant w'.
Proof.
  intros Hinv Hs. destruct Hs; [by eapply client_step_invariant|by eapply acceptor_step_invariant|by eapply rebooter_step_invariant].
Qed.

Lemma steps_invariant w ts w' : invariant w -> steps w ts w' -> invariant w'.
Proof. intros Hinv Hs. induction Hs; [done|]. by eapply IHHs, step_invariant. Qed.

Lemma reachable_invariant w : reachable w -> invariant w.
Proof. intros (f & n & ts & Hf & Hs). eapply steps_invariant; [|exact Hs]. by apply initial_invariant. Qed.

Lemma steps_app w ts w' ts' w'' : steps w ts w' -> steps w' ts' w'' -> steps w (ts ++ ts') w''.
Proof. intros Hs. revert ts' w''. induction Hs; intros; [done|]. econstructor; eauto. Qed.

Lemma steps_single w t w' : step w t w' -> steps w [t] w'.
Proof. intros Hs. econstructor; [exact Hs|constructor]. Qed.

(** * Progress

    What every thread has left to do before it is outside and no client is listed;
    a client that is linked will have to be removed again. *)

Definition client_work (p : person) : nat :=
  let base := if listed p then 3%nat else 0%nat in
  match pc p with
  | Outside => base
  | Guarded => base + 3
  | Swapped => base + 2
  | Retreating | Transferring => base + 1
  | Deleting => 2
  | Deleted => base + 1
  end.
Definition acceptor_work (a : acceptor_pc) : nat :=
  match a with Accepting => 0 | Adding _ => 7 | Checked _ => 6 | Admitting _ => 5 | Releasing => 1 end.
Definition rebooter_work (r : reboot_pc) : nat :=
  match r with Running | Prepared => 0 | Claimed => 6 | Counting => 5 | Counted _ => 4 | Seen _ _ => 3 | Refusing | Granting => 2 end.

Definition work (w : world) : nat :=
  total client_work (people w) + acceptor_work (acceptor w) + rebooter_work (rebooter w).

#[local] Arguments total _ _ : simpl never.

Definition advances (w : world) : Prop :=
  exists t w', step w t w' /\ (work w' < work w)%nat /\ ftp_initialized (flags w') = ftp_initialized (flags w).

(** The rule takes the client's step, which leaves less to do. *)
Ltac advance rule :=
  lazymatch goal with
  | Hp : people _ !! ?i = Some ?p, Epc : pc ?p = _, Hless : (forall w' p', _ -> _) |- _ =>
      eexists (Client i), _; split;
      [eapply step_client; [exact Hp|]; rewrite Epc; try match goal with El : listed p = _ |- _ => rewrite El end; by apply rule|];
      split; [eapply Hless; [done..|]; unfold client_work; rewrite Epc; cbn; repeat case_match; done || lia|cbn; by repeat case_match]
  end.

Lemma client_advances w i p :
  people w !! i = Some p -> (0 < client_work p)%nat -> (in_delete p = false -> pc p = Outside -> held w = false) -> advances w.
Proof.
  intros Hp Hpos Hfree.
  assert (forall w' p', people w' = <[i := p']> (people w) -> acceptor w' = acceptor w -> rebooter w' = rebooter w ->
    (client_work p' < client_work p)%nat -> (work w' < work w)%nat) as Hless.
  { intros w' p' E1 E2 E3 Hlt. unfold work. rewrite E1, E2, E3. pose proof (total_insert client_work _ _ _ p' Hp). lia. }
  destruct (pc p) eqn:Epc.
  - unfold client_work in Hpos. rewrite Epc in Hpos. destruct (listed p) eqn:El; [|lia].
    assert (held w = false) by (apply Hfree; [unfold in_delete; by rewrite Epc|done]). advance (delete_lock w i true).
  - destruct (decide (transfer_active (flags w) = 0)); [advance (begin_swap w i (listed p))|advance (begin_busy w i (listed p))].
  - destruct (decide (reboot_quiesce_requested (flags w) = 0)); [advance (begin_done w i (listed p))|advance (begin_late w i (listed p))].
  - advance (begin_retreat w i (listed p)).
  - advance (end_transfer w i (listed p)).
  - destruct (listed p) eqn:El; [advance (delete_unlink w i true)|advance (delete_gone w i false)].
  - advance (delete_unlock w i (listed p)).
Qed.

Lemma acceptor_advances w : invariant w -> acceptor w <> Accepting -> advances w.
Proof.
  intros Hinv Hne. assert (forall w', step w Acceptor w' -> (work w' < work w)%nat ->
    ftp_initialized (flags w') = ftp_initialized (flags w) -> advances w) as Hadv by (intros w'; by exists Acceptor, w').
  destruct (acceptor w) as [|i|i|i|] eqn:Ea; [done|..].
  - destruct (decide (reboot_quiesce_requested (flags w) = 0)) as [Hz|Hz].
    + eapply Hadv; [apply step_acceptor; rewrite Ea; by apply add_open|unfold work; rewrite Ea; cbn; lia|done].
    + eapply Hadv; [apply step_acceptor; rewrite Ea; by apply add_guarded|unfold work; rewrite Ea; cbn; lia|done].
  - destruct (Z.ltb_spec (number_clients (flags w)) MAX_CLIENTS).
    + eapply Hadv; [apply step_acceptor; rewrite Ea; by apply add_room|unfold work; rewrite Ea; cbn; lia|done].
    + eapply Hadv; [apply step_acceptor; rewrite Ea; by apply add_full|unfold work; rewrite Ea; cbn; lia|done].
  - destruct (inv_candidate w Hinv i) as (p & Hp & Hl); [by rewrite Ea|].
    eapply Hadv; [apply step_acceptor; rewrite Ea; by eapply add_link| |done].
    pose proof (total_insert client_work _ _ _ (Person (pc p) true) Hp) as Ht.
    assert (client_work (Person (pc p) true) <= client_work p + 3)%nat
      by (unfold client_work; rewrite Hl; cbn [pc listed]; destruct (pc p); lia).
    unfold work. rewrite Ea. cbn [people acceptor rebooter set_flags set_acceptor set_person acceptor_work]. lia.
  - eapply Hadv; [apply step_acceptor; rewrite Ea; apply add_unlock|unfold work; rewrite Ea; cbn; lia|done].
Qed.

Lemma rebooter_advances w :
  (rebooter w = Claimed -> held w = false) -> rebooter w <> Running -> rebooter w <> Prepared -> advances w.
Proof.
  intros Hfree Hr Hp. assert (forall w', step w Rebooter w' -> (work w' < work w)%nat ->
    ftp_initialized (flags w') = ftp_initialized (flags w) -> advances w) as Hadv by (intros w'; by exists Rebooter, w').
  destruct (rebooter w) as [| | |n|n b| | |] eqn:Er; try done.
  - eapply Hadv; [apply step_rebooter; rewrite Er; by apply prepare_locked, Hfree|unfold work; rewrite Er; cbn; lia|done].
  - eapply Hadv; [apply step_rebooter; rewrite Er; apply prepare_clients|unfold work; rewrite Er; cbn; lia|done].
  - eapply Hadv; [apply step_rebooter; rewrite Er; apply prepare_transfer|unfold work; rewrite Er; cbn; lia|done].
  - destruct (decide (n = 0 /\ b = false)) as [[-> ->]|Hbusy].
    + eapply Hadv; [apply step_rebooter; rewrite Er; apply prepare_idle|unfold work; rewrite Er; cbn; lia|done].
    + eapply Hadv; [apply step_rebooter; rewrite Er; apply prepare_busy|unfold work; rewrite Er; cbn; lia|done].
      destruct (decide (n = 0)); [right|by left]. destruct b; [done|]. by destruct Hbusy.
  - eapply Hadv; [apply step_rebooter; rewrite Er; apply prepare_unlock_refused|unfold work; rewrite Er; cbn; lia|done].
  - eapply Hadv; [apply step_rebooter; rewrite Er; apply prepare_unlock|unfold work; rewrite Er; cbn; lia|done].
Qed.

(** Somebody can go on: who holds the mutex, or anybody if it is free. *)
Lemma someone_advances w : invariant w -> (0 < work w)%nat -> rebooter w <> Prepared -> advances w.
Proof.
  intros Hinv Hwork Hp. pose proof (inv_mutex w Hinv) as Hm.
  destruct (decide (acceptor w = Accepting)) as [Ea|]; [|by apply acceptor_advances].
  destruct (held w) eqn:Eh.
  - destruct (locked (rebooter w)) eqn:El.
    + apply rebooter_advances; [intros Er; by rewrite Er in El|intros Er; by rewrite Er in El|done].
    + destruct (total_positive (fun p => Nat.b2n (in_delete p)) (people w)) as (i & p & Hi & Hd).
      { change (0 < tally in_delete (people w))%nat. rewrite Ea in Hm. cbn in Hm. lia. }
      assert (in_delete p = true) as Hdel by (destruct (in_delete p); [done|cbn in Hd; lia]).
      eapply client_advances; [exact Hi| |congruence].
      unfold in_delete in Hdel. unfold client_work. destruct (pc p); try done; lia.
  - destruct (decide (rebooter w = Running)) as [Er|Er]; [|by apply rebooter_advances].
    destruct (total_positive client_work (people w)) as (i & p & Hi & Hd); [|by eapply client_advances].
    unfold work in Hwork. rewrite Ea, Er in Hwork. cbn in Hwork. lia.
Qed.

(** Nothing is left to do but the reboot. *)
Lemma quiet_world w : invariant w -> work w = O -> rebooter w <> Prepared ->
  rebooter w = Running /\ held w = false /\ reboot_quiesce_requested (flags w) = 0 /\
  number_clients (flags w) = 0 /\ transfer_active (flags w) = 0.
Proof.
  intros Hinv Hwork Hp. pose proof (inv_mutex w Hinv) as Hm. pose proof (inv_guard w Hinv) as Hg.
  unfold work in Hwork.
  assert (acceptor w = Accepting) as Ea by (destruct (acceptor w); cbn in Hwork; done || lia).
  assert (rebooter w = Running) as Er by (destruct (rebooter w); cbn in Hwork; done || lia).
  rewrite Ea, Er in *. cbn in Hm, Hg, Hwork.
  assert (forall q : person -> bool, (forall p, q p = true -> (0 < client_work p)%nat) -> tally q (people w) = O) as Hzero.
  { intros q Hq. destruct (Nat.eq_dec (tally q (people w)) O) as [|Hne]; [done|].
    destruct (total_positive (fun p => Nat.b2n (q p)) (people w)) as (i & p & Hi & Hqp);
      [change (0 < tally q (people w))%nat; lia|].
    pose proof (total_at client_work _ _ _ Hi). specialize (Hq p). destruct (q p); [|cbn in Hqp; lia]. specialize (Hq eq_refl). lia. }
  assert (tally in_delete (people w) = O) as Hd.
  { apply Hzero. intros p. unfold in_delete, client_work. destruct (pc p); try done; lia. }
  rewrite (inv_number w Hinv), (inv_transfer w Hinv), (Hzero listed), (Hzero owns).
  - split_and!; try done. rewrite Hd in Hm. by destruct (held w).
  - intros p. unfold owns, client_work. destruct (pc p); try done; lia.
  - intros p Hl. unfold client_work. rewrite Hl. destruct (pc p); lia.
Qed.

Lemma reboot_when_quiet w :
  invariant w -> ftp_initialized (flags w) = true -> work w = O -> rebooter w <> Prepared ->
  exists ts w', steps w ts w' /\ rebooter w' = Prepared.
Proof.
  intros Hinv Hi Hwork Hp. destruct (quiet_world w Hinv Hwork Hp) as (Er & Eh & Eg & En & Et).
  exists (replicate 6 Rebooter). eexists. split.
  - eapply steps_one; [apply step_rebooter; rewrite Er; by apply prepare_swap|].
    eapply steps_one; [apply step_rebooter; by apply prepare_locked|].
    eapply steps_one; [apply step_rebooter; apply prepare_clients|].
    eapply steps_one; [apply step_rebooter; apply prepare_transfer|].
    eapply steps_one; [apply step_rebooter; cbn; rewrite En, Et; apply prepare_idle|].
    eapply steps_one; [apply step_rebooter; apply prepare_unlock|]. apply steps_refl.
  - done.
Qed.

(** * The functions, uninterrupted *)

Definition alone (t : thread) (w w' : world) : Prop := exists ts, steps w ts w' /\ Forall (fun u => u = t) ts.

Lemma alone_refl t w : alone t w w.
Proof. exists []. split; [constructor|done]. Qed.

Lemma alone_step t w w' w'' : step w t w' -> alone t w' w'' -> alone t w w''.
Proof. intros Hs (ts & Hts & Hall). exists (t :: ts). split; [by econstructor|by constructor]. Qed.

Section alone.
Context (f : ftp) (m : bool) (ps : list person) (acc : acceptor_pc) (reb : reboot_pc).
Implicit Types (l : bool).

Ltac person_at := cbn; rewrite ?list_lookup_insert_eq by (rewrite ?length_insert; by eapply lookup_lt_Some); first [reflexivity | eassumption].
Ltac tidy :=
  unfold set_person, set_flags, set_held, set_acceptor, set_rebooter, release_transfer, release_guard;
  cbn [flags held people acceptor rebooter]; rewrite ?list_insert_insert_eq.
(** One step of the thread that goes on. *)
Ltac go rule :=
  eapply alone_step;
  [first [eapply step_client; [person_at|] | apply step_acceptor | apply step_rebooter]; cbn; by eapply rule|]; tidy.

Lemma begin_alone i l env h :
  ps !! i = Some (Person Outside l) ->
  wp client_begin_transfer (fun admitted f' _ =>
    alone (Client i) (World f m ps acc reb)
      (World f' m (<[i := Person (if admitted : bool then Transferring else Outside) l]> ps) acc reb)) env f h.
Proof using Type.
  intros Hp. unfold run_spec. rewrite begin_transfer_run. cbv zeta.
  destruct (Z.eqb_spec (reboot_quiesce_requested f) 0) as [Hq|Hq]; cbn [andb]; [|rewrite list_insert_id by done; apply alone_refl].
  go begin_guard. destruct (Z.eqb_spec (transfer_active f) 0) as [Ht|Ht]; [|go begin_busy; apply alone_refl].
  go begin_swap. go begin_done. apply alone_refl.
Qed.

Lemma prepare_alone old env h :
  reb = Running -> m = false ->
  wp (ftpvita_prepare_for_reboot old) (fun '(ok, _, _) f' _ =>
    alone Rebooter (World f m ps acc reb) (World f' m ps acc (if ok : bool then Prepared else Running))) env f h.
Proof using Type.
  intros -> ->. eapply wp_mono; [apply prepare_spec|]. intros [[ok clients] transfer] f' h' (Hok & -> & _).
  assert (reboot_quiesce_requested f = 0 -> set_reboot_quiesce_requested 0 (set_reboot_quiesce_requested 1 f) = f) as Hback
    by (destruct f; cbn; by intros ->).
  destruct (ftp_initialized f) eqn:Hi; cbn [andb] in Hok; [|subst ok; apply alone_refl].
  destruct (0 <=? client_list_mtx f); cbn [andb] in Hok; [|subst ok; apply alone_refl].
  destruct (Z.eqb_spec (reboot_quiesce_requested f) 0) as [Hq|]; cbn [andb] in Hok; [|subst ok; apply alone_refl].
  go prepare_swap. destruct (0 <=? env h (sceKernelLockMutex (client_list_mtx f))); cbn [andb] in Hok;
    [|subst ok; go prepare_no_lock; rewrite Hback by done; apply alone_refl].
  go prepare_locked. go prepare_clients. go prepare_transfer.
  destruct (Z.eqb_spec (number_clients f) 0) as [Hn|Hn]; cbn [andb] in Hok.
  - cbn. rewrite Hn. destruct (Z.eqb_spec (transfer_active f) 0); subst ok; cbn [negb].
    + go prepare_idle. go prepare_unlock. apply alone_refl.
    + eapply alone_step; [apply step_rebooter, prepare_busy; by right|].
      tidy. rewrite Hback by done. go prepare_unlock_refused. apply alone_refl.
  - subst ok. eapply alone_step; [apply step_rebooter, prepare_busy; by left|].
    tidy. rewrite Hback by done. go prepare_unlock_refused. apply alone_refl.
Qed.

Lemma end_alone i l env h :
  ps !! i = Some (Person Transferring l) ->
  wp client_end_transfer (fun _ f' _ => alone (Client i) (World f m ps acc reb)
    (World f' m (<[i := Person Outside l]> ps) acc reb)) env f h.
Proof using Type. intros Hp. apply wp_modify. go end_transfer. apply alone_refl. Qed.

Lemma cancel_alone env h :
  reb = Prepared ->
  wp ftpvita_cancel_reboot (fun _ f' _ => alone Rebooter (World f m ps acc reb) (World f' m ps acc Running)) env f h.
Proof using Type. intros ->. apply wp_modify. go cancel. apply alone_refl. Qed.

Lemma add_alone i p c env s r h :
  globals s = f -> represents s r -> c ∈ allocated r -> c ∉ members r ->
  acc = Accepting -> m = false -> ps !! i = Some p -> listed p = false ->
  wp (client_list_add c) (fun b s' _ => alone Acceptor (World f m ps acc reb)
    (World (globals s') m (<[i := Person (pc p) b]> ps) acc reb)) env s h.
Proof using Type.
  intros Hf Hr Hc Hnew Hacc Hm Hp Hl. eapply wp_mono; [by eapply add_spec|]. rewrite Hacc, Hm.
  intros b s' h' (r' & Hstep & _ & _ & Hre & _). unfold recounted in Hre. rewrite Hf in Hre.
  pose proof (rep_count s r Hr) as Hn. pose proof (rep_bound s r Hr) as Hb. pose proof (rep_quiesced s r Hr) as Hq. rewrite Hf in Hn, Hq.
  go add_lock. inversion Hstep as [c0 Hquiet Hroom|c0 Hfull| | | | | |]; subst r'.
  - assert (reboot_quiesce_requested f = 0) by (rewrite Hquiet in Hq; destruct (Z.eqb_spec (reboot_quiesce_requested f) 0); [done|discriminate Hq]).
    assert (number_clients f < MAX_CLIENTS) by lia. go add_open. go add_room. go add_link. go add_unlock. cbn [length members] in Hre.
    replace (globals s') with (set_number_clients (s32 (number_clients f + 1)) f); [apply alone_refl|].
    rewrite Hre. f_equal. unfold MAX_CLIENTS in *. rewrite s32_small; lia.
  - replace (globals s') with f by (rewrite Hre, <-Hn; by destruct f).
    replace (<[i := Person (pc p) false]> ps) with ps by (symmetry; apply list_insert_id; rewrite Hp; destruct p; cbn in Hl; by subst).
    destruct (Z.eqb_spec (reboot_quiesce_requested f) 0) as [Hz|Hz].
    + assert (MAX_CLIENTS <= number_clients f) by (destruct Hfull as [Hfull|]; [rewrite Hfull in Hq; discriminate Hq|lia]).
      go add_open. go add_full. go add_unlock. apply alone_refl.
    + go add_guarded. go add_unlock. apply alone_refl.
Qed.

Lemma delete_alone i l c env s r h :
  globals s = f -> represents s r -> c ∈ allocated r -> (l = true <-> c ∈ members r) ->
  m = false -> ps !! i = Some (Person Outside l) ->
  wp (client_list_delete c) (fun b s' _ => b = l /\ alone (Client i) (World f m ps acc reb)
    (World (globals s') m (<[i := Person Outside false]> ps) acc reb)) env s h.
Proof using Type.
  intros Hf Hr Hc Hl Hm Hp. eapply wp_mono; [by eapply delete_spec|]. rewrite Hm.
  intros b s' h' (r' & Hstep & _ & _ & Hre & _). unfold recounted in Hre. rewrite Hf in Hre.
  pose proof (rep_count s r Hr) as Hn. rewrite Hf in Hn. inversion Hstep as [| |c' before after E|c' Hno| | | |]; subst.
  - assert (l = true) as -> by (apply Hl; rewrite E; apply elem_of_app; right; left). split; [done|].
    go delete_lock. go delete_unlink. go delete_unlock. rewrite Hre.
    rewrite E, length_app in Hn. cbn [length members] in *. rewrite length_app in *.
    replace (0 <? number_clients (globals s)) with true by lia.
    replace (number_clients (globals s) - 1) with (Z.of_nat (length before + length after)) by lia. apply alone_refl.
  - assert (l = false) as -> by (destruct l; [by destruct Hno; apply Hl|done]). split; [done|].
    go delete_lock. go delete_gone. go delete_unlock. rewrite Hre, <-Hn.
    replace (set_number_clients (number_clients (globals s)) (globals s)) with (globals s) by by destruct (globals s).
    apply alone_refl.
Qed.
End alone.

(** * Properties *)

(** C2: the reboot interlock is safe under every interleaving. However the accesses
    of the clients, the accepting thread and the command server to the two flags,
    the counter and the mutex are interleaved, and even if clients that are not on
    the list transfer: at most one transfer is under way and the transfer flag says
    whether one is; [number_clients] is the number of listed clients, at most eight;
    and once a reboot is prepared no client is listed and none transfers, and that
    stays so, whatever the other threads do, until the reboot is cancelled. *)
Theorem reboot_interlock_safe w :
  reachable w ->
  (tally transferring (people w) <= 1)%nat /\
  ((0 < tally transferring (people w))%nat -> transfer_active (flags w) = 1) /\
  number_clients (flags w) = Z.of_nat (tally listed (people w)) /\ number_clients (flags w) <= MAX_CLIENTS /\
  (rebooter w = Prepared -> forall ts w', Rebooter ∉ ts -> steps w ts w' ->
     rebooter w' = Prepared /\ tally listed (people w') = O /\ tally transferring (people w') = O).
Proof.
  intros Hw%reachable_invariant. pose proof (tally_mono transferring owns (people w) transferring_owns) as Hmono.
  pose proof (inv_transfer w Hw) as Ht. pose proof (inv_single w Hw) as Hs.
  split_and!; [lia|lia|apply Hw|apply Hw|].
  clear Hmono Ht Hs. intros Hp ts w' Hts Hsteps. induction Hsteps as [w|w t w1 ts w2 Hstep Hsteps IH].
  - split; [done|]. destruct (inv_calm w Hw) as [Hn Hz]; [by rewrite Hp|]. split; [|done].
    pose proof (inv_number w Hw). lia.
  - apply not_elem_of_cons in Hts as [Hne Hts]. apply IH; [by eapply step_invariant| |done].
    destruct Hstep as [i p w1 _ Hc|w1 Ha|]; [by destruct Hc|by destruct Ha|done].
Qed.

(** C20: the interlock cannot get stuck: from every state the running server can
    reach, wherever its threads are in these functions, some continuation ends with
    a reboot prepared - the mutex is always given back, a transfer that was admitted
    ends, and the guard of a refused attempt is released. *)
Theorem reboot_stays_possible w :
  reachable w -> ftp_initialized (flags w) = true -> exists ts w', steps w ts w' /\ rebooter w' = Prepared.
Proof.
  intros Hw%reachable_invariant. remember (work w) as k eqn:Hk. revert w Hw Hk.
  induction (lt_wf k) as [k _ IH]. intros w Hw -> Hi.
  destruct (decide (rebooter w = Prepared)) as [|Hne]; [exists [], w; split; [constructor|done]|].
  destruct (decide (work w = O)) as [Hz|Hz]; [by apply reboot_when_quiet|].
  destruct (someone_advances w Hw) as (t & w1 & Hstep & Hless & Hi1); [lia|done|].
  destruct (IH (work w1) Hless w1) as (ts & w' & Hsteps & Hp); [by eapply step_invariant|done|congruence|].
  exists (t :: ts), w'. split; [by econstructor|done].
Qed.

(** Two clients have come and one transfers. *)
Definition demo_flags : ftp := set_client_list_mtx 9 (set_ftp_initialized true ftp_initial).
Definition demo_world : world := initial demo_flags 2.
Definition demo_prepared : world :=
  World (set_reboot_quiesce_requested 1 demo_flags) false (people demo_world) Accepting Prepared.

Lemma demo_prepared_reachable : reachable demo_prepared.
Proof.
  exists demo_flags, 2%nat, (replicate 6 Rebooter). split; [done|].
  eapply steps_one; [apply step_rebooter; by apply prepare_swap|].
  eapply steps_one; [apply step_rebooter; by apply prepare_locked|].
  eapply steps_one; [apply step_rebooter; apply prepare_clients|].
  eapply steps_one; [apply step_rebooter; apply prepare_transfer|].
  eapply steps_one; [apply step_rebooter; apply prepare_idle|].
  eapply steps_one; [apply step_rebooter; apply prepare_unlock|]. apply steps_refl.
Qed.

Lemma reboot_interlock_safe_witness :
  rebooter demo_prepared = Prepared /\
  forall ts w', Rebooter ∉ ts -> steps demo_prepared ts w' -> tally listed (people w') = O /\ tally transferring (people w') = O.
Proof.
  split; [reflexivity|]. intros ts w' Hts Hs.
  destruct (reboot_interlock_safe demo_prepared demo_prepared_reachable) as (_ & _ & _ & _ & Hp).
  exact (proj2 (Hp eq_refl ts w' Hts Hs)).
Defined.

Lemma reboot_stays_possible_witness : exists ts w', steps demo_world ts w' /\ rebooter w' = Prepared.
Proof.
  apply (reboot_stays_possible demo_world); [|reflexivity].
  exists demo_flags, 2%nat, []. split; [done|constructor].
Defined.

(** C19: the steps are those of the code. A thread that is not interrupted takes,
    from the world in which it calls one of the functions of FtpState or ClientList,
    to the world that the function leaves: the same statics, and for the caller the
    program counter after the function returned what it returned. *)
Theorem functions_are_paths f m ps acc reb env :
  (forall i l h, ps !! i = Some (Person Outside l) ->
     wp client_begin_transfer (fun admitted f' _ => alone (Client i) (World f m ps acc reb)
       (World f' m (<[i := Person (if admitted : bool then Transferring else Outside) l]> ps) acc reb)) env f h) /\
  (forall i l h, ps !! i = Some (Person Transferring l) ->
     wp client_end_transfer (fun _ f' _ => alone (Client i) (World f m ps acc reb)
       (World f' m (<[i := Person Outside l]> ps) acc reb)) env f h) /\
  (forall old h, reb = Running -> m = false ->
     wp (ftpvita_prepare_for_reboot old) (fun '(ok, _, _) f' _ => alone Rebooter (World f m ps acc reb)
       (World f' m ps acc (if ok : bool then Prepared else Running))) env f h) /\
  (forall h, reb = Prepared ->
     wp ftpvita_cancel_reboot (fun _ f' _ => alone Rebooter (World f m ps acc reb) (World f' m ps acc Running)) env f h) /\
  (forall i p c s r h, globals s = f -> represents s r -> c ∈ allocated r -> (c ∉ members r) ->
     acc = Accepting -> m = false -> ps !! i = Some p -> listed p = false ->
     wp (client_list_add c) (fun b s' _ => alone Acceptor (World f m ps acc reb)
       (World (globals s') m (<[i := Person (pc p) b]> ps) acc reb)) env s h) /\
  (forall i l c s r h, globals s = f -> represents s r -> c ∈ allocated r -> (l = true <-> c ∈ members r) ->
     m = false -> ps !! i = Some (Person Outside l) ->
     wp (client_list_delete c) (fun b s' _ => b = l /\ alone (Client i) (World f m ps acc reb)
       (World (globals s') m (<[i := Person Outside false]> ps) acc reb)) env s h).
Proof.
  split_and!; intros; [by apply begin_alone|by apply end_alone|by apply prepare_alone|by apply cancel_alone|
    by eapply add_alone|by eapply delete_alone].
Qed.

Lemma functions_are_paths_witness :
  alone (Client 1) demo_world (World (set_transfer_active 1 demo_flags) false
    [Person Outside false; Person Transferring false] Accepting Running).
Proof.
  pose proof (proj1 (functions_are_paths demo_flags false (people demo_world) Accepting Running silent) 1%nat false [] eq_refl) as Hw.
  apply wp_done in Hw as (b & f' & h' & E & Ha). injection E as <- <- _. exact Ha.
Defined.
