(* ===== verification/Net.v ===== *)
(** The network thread and the module's entry points: src/net.c and src/main.c.

    The network thread brings the two servers up when the console is connected and
    takes them down when it is not.  It meets each of them through an interface, a
    start and a stop with the laws it relies on; the FTP server and the command
    server are instances of it. *)

From stdpp Require Import gmultiset.
From S2P Require Import Prelude System Debts FtpState ClientList CmdDefs CmdServer FtpServer FtpDebts.

Implicit Types (env : environment) (h : history) (s : plugin).

Definition NET_CONNECTED_STATE : Z := 3.
Definition FILE_BUF_SIZE : Z := 64 * 1024.
Definition TAIPOOL_SIZE : Z := 1 * 1024 * 1024.

(** The devices announced to the FTP server. *)
Definition devices_announced : list bytes := lit <$> ["ux0:"; "ur0:"; "uma0:"; "imc0:"; "xmc0:"; "grw0:"]%string.

Section net.
Context `{Sdk}.
(** What the other threads do while this one waits; to the FTP server's statics
    while this thread is in the FTP server's functions; and the events the NetCtl
    library reports when it is asked. *)
Context (others : P unit) (ftp_others : history -> server -> server) (events : history -> list Z).

Definition on_ftp_server {A} (m : M server A) : P A := on_commands (on_ftpvita m).

Definition start_ftp : P Z :=
  '(ret, _) ← on_ftp_server (ftpvita_init ftp_others);
  mret ret.
Definition stop_ftp : P unit := on_ftp_server (ftpvita_fini ftp_others).

Fixpoint add_devices (names : list bytes) : P unit :=
  match names with
  | [] => mret tt
  | name :: names => on_ftp_server (on_globals (ftpvita_add_device name));; add_devices names
  end.

Definition start_services : P Z :=
  on_ftp_server (on_globals (ftpvita_set_file_buf_size FILE_BUF_SIZE));;
  ret ← start_ftp;
  if ret <? 0 then mret (-1)
  else
    add_devices devices_announced;;
    modify (set_net_connected 1);;
    ret ← cmd_start others;
    if ret <? 0 then
      modify (set_net_connected 0);;
      stop_ftp;;
      mret (-1)
    else
      modify (set_all_is_up 1);;
      mret 0.

Definition stop_services : P unit :=
  modify (set_net_connected 0);;
  up ← gets all_is_up;
  if up =? 0 then mret tt
  else
    cmd_end others;;
    stop_ftp;;
    modify (set_all_is_up 0).

Definition netctl_cb (event_type : Z) : P unit :=
  if (event_type =? 1) || (event_type =? 2) then modify (set_desired_connected 0)
  else if event_type =? 3 then modify (set_desired_connected 1)
  else mret tt.

Fixpoint callbacks (event_types : list Z) : P unit :=
  match event_types with
  | [] => mret tt
  | event_type :: event_types => netctl_cb event_type;; callbacks event_types
  end.

(** [sceNetCtlCheckCallback] calls [netctl_cb] for every event that is pending. *)
Definition pending : P (list Z) := fun env s h => Done (events h, s, h).
Definition check_callback : P unit :=
  CmdServer.pause others sceNetCtlCheckCallback;;
  event_types ← pending;
  callbacks event_types.

(** Whether the console is connected now. *)
Definition sample_state : P Z :=
  '(ret, state) ← CmdServer.pause others sceNetCtlInetGetState;
  modify (set_desired_connected (Z.b2z ((0 <=? ret) && (state =? NET_CONNECTED_STATE))));;
  mret ret.

Fixpoint net_loop (turns : nat) : P unit :=
  running ← gets run;
  if running =? 0 then mret tt
  else
    match turns with
    | O => lift NoFuel
    | S turns =>
        check_callback;;
        s ← get;
        (if negb (desired_connected s =? 0) && (all_is_up s =? 0) then start_services;; mret tt
         else if (desired_connected s =? 0) && negb (all_is_up s =? 0) then stop_services
         else mret tt);;
        CmdServer.pause others (sceKernelDelayThread (1000 * 1000));;
        net_loop turns
    end.

Definition exit_netctl : P unit :=
  initialized ← gets netctl_initialized;
  if initialized =? 0 then mret tt
  else CmdServer.pause others sceNetCtlTerm;; modify (set_netctl_initialized 0).

Definition unregister : P unit :=
  id ← gets netctl_cb_id;
  if 0 <=? id then
    CmdServer.pause others (sceNetCtlInetUnregisterCallback id);;
    modify (set_netctl_cb_id (-1))
  else mret tt.

Definition net_thread (turns : nat) : P Z :=
  CmdServer.pause others (sceKernelDelayThread (3 * 1000 * 1000));;
  ret ← CmdServer.pause others sceNetCtlInit;
  if (ret <? 0) && negb (u32 ret =? NET_CTL_ERROR_NOT_TERMINATED) then mret ret
  else
    modify (set_netctl_initialized (Z.b2z (ret =? 0)));;
    sample_state;;
    '(ret, id) ← CmdServer.pause others sceNetCtlInetRegisterCallback;
    modify (set_netctl_cb_id id);;
    if ret <? 0 then exit_netctl;; mret ret
    else
      ret ← sample_state;
      net_loop turns;;
      stop_services;;
      unregister;;
      exit_netctl;;
      mret (if ret <? 0 then ret else 0).

Definition net_start : P Z :=
  thid ← gets net_thid;
  if 0 <=? thid then mret 0
  else
    thid ← CmdServer.pause others (sceKernelCreateThread (lit "vitacompanion_net_thread"));
    modify (set_net_thid thid);;
    if thid <? 0 then mret thid
    else
      ret ← CmdServer.pause others (sceKernelStartThread thid);
      (if ret <? 0 then
         CmdServer.pause others (sceKernelDeleteThread thid);;
         modify (set_net_thid (-1))
       else mret tt);;
      mret ret.

Definition net_end : P unit :=
  thid ← gets net_thid;
  if 0 <=? thid then
    CmdServer.pause others (sceKernelWaitThreadEnd thid);;
    CmdServer.pause others (sceKernelDeleteThread thid);;
    modify (set_net_thid (-1))
  else mret tt.

Definition module_start : P Z :=
  pool ← CmdServer.pause others (taipool_init TAIPOOL_SIZE);
  if pool <? 0 then mret SCE_KERNEL_START_FAILED
  else
    modify (set_run 1);;
    started ← net_start;
    if started <? 0 then
      modify (set_run 0);;
      CmdServer.pause others taipool_term;;
      mret SCE_KERNEL_START_FAILED
    else mret SCE_KERNEL_START_SUCCESS.

Definition module_stop : P Z :=
  modify (set_run 0);;
  net_end;;
  CmdServer.pause others taipool_term;;
  mret SCE_KERNEL_STOP_SUCCESS.
End net.

(** * The interface to a server *)

(** What the network thread owns: the statics that say which of the servers runs and
    what it registered itself. *)
Definition ftp_statics s : ftp := globals (ftpvita (commands s)).
Definition own_statics s : Z * Z * Z := (all_is_up s, netctl_cb_id s, netctl_initialized s).
Definition statics s := (setup (ftp_statics s), loader_thid s, own_statics s).

(** [down s]: the server is stopped and can be started.  A start that fails leaves
    it so, and a stop does, from every state that a start can leave; [same] is what
    a start and a stop leave alone, and [debts] what the statics say the server
    acquired and will give back: a start owes no more than that, and a stop pays it. *)
Class Service {A} (env : environment) (start : P Z) (stop : P unit) (down whole : plugin -> Prop) (same : plugin -> A)
    (debts : plugin -> gmultiset debt) := {
  down_whole s : down s -> whole s;
  down_debts s : down s -> debts s = ∅;
  start_law s h D : down s -> owed h ⊆ D ->
    returns start (fun ret s' h' => whole s' /\ (ret < 0 -> down s') /\ same s' = same s /\ owed h' ⊆ debts s' ⊎ D) env s h;
  stop_law s h D : whole s -> owed h ⊆ debts s ⊎ D ->
    returns stop (fun _ s' h' => down s' /\ same s' = same s /\ owed h' ⊆ D) env s h
}.

(** The FTP server is stopped: it holds nothing of the network. *)
Definition stopped (f : ftp) : Prop :=
  ftp_initialized f = false /\ net_init f <> 0 /\ netctl_init f <> 0 /\ net_memory f = false.
Definition ftp_down s : Prop := stopped (ftp_statics s).
Definition ftp_whole s : Prop := ftp_down s \/ ftp_initialized (ftp_statics s) = true.
Definition ftp_same s := (loader_thid s, own_statics s).

Definition cmd_down s : Prop := loader_thid s < 0.
Definition cmd_whole s : Prop := True.
Definition cmd_same s := (setup (ftp_statics s), own_statics s).

(** What the statics record of the command server, and of this thread itself. *)
Definition cmd_debts s : gmultiset debt := thread_held (loader_thid s).
Definition ftp_server_debts s : gmultiset debt := ftp_debts (ftp_statics s).
Definition callback_held (id : Z) : gmultiset debt := if 0 <=? id then {[+ Callback id +]} else ∅.
Definition netctl_held (initialized : Z) : gmultiset debt := if initialized =? 0 then ∅ else {[+ NetCtlLayer +]}.

(** The other threads leave to the network thread what it owns: its statics, and the
    threads of the two services, the mutexes, the network layers and the callbacks,
    of which they acquire none. *)
Definition keeps_owned env (others : P unit) : Prop :=
  forall s h, returns others (fun _ s' h' => statics s' = statics s /\ owed h' ⊆ owed h) env s h.

(** * The FTP server as a service *)

Section ftp_service.
Context `{Sdk} env (ftp_others : history -> server -> server) (Hsetup : keeps_setup ftp_others).
Context (Hip : forall h, Z.of_nat (length (snd (env h sceNetCtlInetGetInfo))) < 16) (Hconst : SCE_NET_ERROR_ENOTINIT <> 0).

Lemma detach_loop_setup room it (sv : server) h :
  returns (detach_loop room it) (fun _ sv' _ => globals sv' = globals sv) env sv h.
Proof using Type.
  revert it sv h. induction room as [|room IH]; intros it sv h; cbn [detach_loop]; [by apply returns_ret|].
  destruct it as [c|]; [|by apply returns_ret].
  unfold deref, abort_connection, abort_socket, assign. repeat (first [returns_step | done]).
  all: eapply returns_mono; [apply IH|]; intros; by apply returns_ret.
Qed.

Lemma wait_clients_setup thids (sv : server) h :
  returns (wait_clients ftp_others thids) (fun _ sv' _ => setup (globals sv') = setup (globals sv)) env sv h.
Proof using Hsetup.
  revert sv h. induction thids as [|t thids IH]; intros sv h; cbn [wait_clients]; [by apply returns_ret|].
  apply returns_bind, (ftp_pause env ftp_others Hsetup). intros a sv1 E1. do 2 returns_step.
  eapply returns_mono; [apply IH|]. intros ? sv2 h2 E2. by rewrite E2.
Qed.

Lemma setup_initialized f f' : setup f' = setup f -> ftp_initialized f' = ftp_initialized f.
Proof using Type. by intros [= _ _ _ _ _ ->]. Qed.

(** The end of the FTP server, as far as its statics go. *)
Lemma fini_stops (sv : server) h :
  stopped (globals sv) \/ ftp_initialized (globals sv) = true ->
  returns (ftpvita_fini ftp_others) (fun _ sv' _ => stopped (globals sv')) env sv h.
Proof using Hsetup.
  intros Hsv. unfold ftpvita_fini. do 2 returns_step. destruct (ftp_initialized (globals sv)) eqn:Hi; cbn [negb]; cbv iota;
    [|apply returns_ret; by destruct Hsv].
  clear Hsv Hi. returns_step. unfold on_globals at 1. do 2 returns_step. set (sv1 := set_globals _ sv).
  assert (ftp_initialized (globals sv1) = false) as H1 by done. clearbody sv1. clear sv.
  apply returns_bind, (returns_mono _ (fun _ sv' _ => ftp_initialized (globals sv') = false)).
  { unfold on_globals, close_server_socket. by repeat returns_step. }
  clear h sv1 H1. intros ? sv2 h H2.
  apply returns_bind, (returns_mono _ (fun _ sv' _ => ftp_initialized (globals sv') = false)).
  { unfold end_server_thread, on_globals. do 3 returns_step. replace (set_globals (globals sv2) sv2) with sv2 by by destruct sv2.
    returns_step; [|by returns_step]. apply returns_bind, (ftp_pause env ftp_others Hsetup). intros ? sv3 E3. repeat returns_step. cbn.
    by rewrite (setup_initialized _ _ E3). }
  intros ? sv3 h3 H3. clear sv2 H2 h.
  apply returns_bind, (returns_mono _ (fun _ sv' _ => ftp_initialized (globals sv') = false)).
  { unfold client_list_thread_end. do 2 returns_step. returns_step; [by returns_step|].
    apply returns_bind, (returns_mono _ (fun _ sv' _ => ftp_initialized (globals sv') = false)).
    - unfold detach_clients, lock_list, unlock_list, on_globals. do 5 returns_step. returns_step. returns_step.
      eapply returns_mono; [apply detach_loop_setup|]. intros thids sv4 h4 E4. repeat returns_step. cbn. by rewrite E4.
    - intros thids sv4 h4 H4. eapply returns_mono; [apply wait_clients_setup|].
      intros ? sv5 h5 E5. by rewrite (setup_initialized _ _ E5). }
  intros ? sv4 h4 H4. unfold delete_list_mutex, release_network, on_globals.
  repeat returns_step; cbn; by rewrite ?H4.
Qed.

#[export] Instance ftp_service :
  Service env (start_ftp ftp_others) (stop_ftp ftp_others) ftp_down ftp_whole ftp_same ftp_server_debts.
Proof using Hsetup Hip Hconst.
  split.
  - intros s Hs. by left.
  - intros s (Hi & _). unfold ftp_server_debts, ftp_debts. by rewrite Hi.
  - intros s h D (Hi & Hn & Hc & Hm) Ho. unfold start_ftp, on_ftp_server, on_commands, on_ftpvita. apply returns_bind, returns_zoom, returns_zoom.
    eapply returns_mono; [apply returns_and;
      [eapply (returns_run False), (ftpvita_init_spec env ftp_others Hsetup (kernel_of h) (blocks (holds h))); [done|done|by split]
      |by apply (ftpvita_init_pays env ftp_others Hsetup _ _ D)]|].
    intros [ret addr] sv' h' [Hst Hp]. apply returns_ret. unfold started in Hst. unfold start_pays in Hp. unfold ftp_whole, ftp_down, ftp_server_debts, ftp_statics. cbn.
    destruct (Z.eqb_spec ret 0) as [->|Hne].
    + destruct Hp as [Hp Hi']. split_and!; [by right|lia|done|]. unfold ftp_debts. by rewrite Hi'.
    + assert (stopped (globals sv')) by (destruct Hst; by split_and!). split_and!; [by left|done|done|]. clear -Hp. multiset_solver.
  - intros s h D Hs Ho. unfold stop_ftp, on_ftp_server, on_commands, on_ftpvita. apply returns_zoom, returns_zoom.
    eapply returns_mono; [apply returns_and; [by apply fini_stops|by apply (fini_pays env ftp_others Hsetup _ _ D)]|]. by intros ??? [??].
Qed.
End ftp_service.

(** * The command server as a service *)

Section cmd_service.
Context `{Sdk} env (others : P unit) (Hothers : keeps_owned env others).

Lemma pause_owned c (Q : answer c -> plugin -> history -> Prop) s h :
  (forall a s' h', a = env h c -> statics s' = statics s -> owed h' ⊆ owed (Ev c a :: h) -> Q a s' h') ->
  returns (CmdServer.pause others c) Q env s h.
Proof using Hothers.
  intros HQ. unfold CmdServer.pause. apply returns_bind. intros ? ? ? [= <- <- <-]. apply returns_bind. eapply returns_mono; [apply Hothers|].
  intros ? s' h' [E Ho]. apply returns_ret. by apply HQ.
Qed.

(** A call that acquires nothing pays what it gives back. *)
Lemma pause_pays c (Q : answer c -> plugin -> history -> Prop) s h D :
  frugal c = true -> owed h ⊆ paid c ⊎ D ->
  (forall a s' h', statics s' = statics s -> owed h' ⊆ D -> Q a s' h') -> returns (CmdServer.pause others c) Q env s h.
Proof using Hothers. intros Hc Ho HQ. apply pause_owned. intros a s' h' _ E Ho'. apply HQ; [done|]. etrans; [done|]. by apply owed_paid. Qed.

Lemma pause_frugal c (Q : answer c -> plugin -> history -> Prop) s h D :
  frugal c = true -> owed h ⊆ D ->
  (forall a s' h', statics s' = statics s -> owed h' ⊆ D -> Q a s' h') -> returns (CmdServer.pause others c) Q env s h.
Proof using Hothers. intros Hc Ho. apply pause_pays; [done|]. clear -Ho. multiset_solver. Qed.

(** The goal begins with a pause for a call that is known to acquire nothing. *)
Ltac pause_with lemma :=
  apply returns_bind;
  lazymatch goal with |- @returns _ _ (CmdServer.pause _ ?c) ?Q _ ?s ?h => eapply (lemma c Q s h); [reflexivity|..] end.

Lemma wait_owned waited s h D :
  owed h ⊆ D -> returns (CmdServer.wait_started others waited) (fun _ s' h' => statics s' = statics s /\ owed h' ⊆ D) env s h.
Proof using Hothers.
  revert s h. induction waited as [|waited IH]; intros s h Ho; cbn [CmdServer.wait_started]; [by apply returns_ret|].
  do 2 returns_step. returns_step; [|by returns_step]. pause_with pause_frugal; [exact Ho|]. intros a s1 h1 E1 Ho1.
  eapply returns_mono; [by apply IH|]. intros ? s2 h2 [E2 Ho2]. split; [congruence|done].
Qed.

Lemma owned_parts s s' : statics s' = statics s -> cmd_same s' = cmd_same s /\ ftp_same s' = ftp_same s.
Proof using Type.
  intros E. split; [exact (f_equal (fun o => (o.1.1, o.2)) E)|exact (f_equal (fun o => (o.1.2, o.2)) E)].
Qed.

(** The thread of the command server is waited for and deleted. *)
Lemma end_loader_pays {A} (rest : P A) Q thid s h D :
  owed h ⊆ {[+ Running thid; Thread thid +]} ⊎ D ->
  (forall s' h', cmd_same s' = cmd_same s -> owed h' ⊆ D -> returns rest Q env s' h') ->
  returns (CmdServer.pause others (sceKernelWaitThreadEnd thid);; sys (sceKernelDeleteThread thid);; rest) Q env s h.
Proof using Hothers.
  intros Ho HQ. pause_with (fun c Q s h => pause_pays c Q s h ({[+ Thread thid +]} ⊎ D)); [cbn [paid]; clear -Ho; multiset_solver|].
  intros a s1 h1 E1%owned_parts Ho1. do 2 returns_step. apply HQ; [apply E1|by apply owed_paid].
Qed.

Lemma close_slot_owes slot set s h D :
  owed h ⊆ D -> returns (close_socket_slot slot set) (fun _ s' h' => s' = set (-1) s /\ owed h' ⊆ D) env s h.
Proof using Type. intros Ho. unfold close_socket_slot. repeat returns_step; (split; [done|]); [by apply owed_frugal|done]. Qed.

Lemma cmd_start_law s h D :
  cmd_down s -> owed h ⊆ D ->
  returns (cmd_start others) (fun ret s' h' =>
    cmd_whole s' /\ (ret < 0 -> cmd_down s') /\ cmd_same s' = cmd_same s /\ owed h' ⊆ cmd_debts s' ⊎ D) env s h.
Proof using Hothers.
  intros Hd Ho. unfold cmd_start. do 2 returns_step. unfold cmd_down in Hd. replace (0 <=? loader_thid s) with false by lia.
  do 6 returns_step. rename a into thid.
  apply (owed_gained (sceKernelCreateThread (lit "vitacompanion_cmd_thread")) thid) in Ho.
  change (gained _ _) with (if 0 <=? thid then {[+ Thread thid +]} else ∅ : gmultiset debt) in Ho.
  generalize dependent (Ev (sceKernelCreateThread (lit "vitacompanion_cmd_thread")) thid :: h). clear h. intros h Ho.
  returns_step.
  { returns_step. split_and!; [done|done|done|]. replace (0 <=? thid) with false in Ho by lia. clear -Ho. multiset_solver. }
  replace (0 <=? thid) with true in Ho by lia. apply returns_bind.
  lazymatch goal with |- @returns _ _ (CmdServer.pause _ ?c) ?Q _ ?s ?h => refine (pause_owned c Q s h _) end.
  intros ret s1 h1 _ [Ec Ef]%owned_parts Ho1. returns_step.
  { repeat returns_step. split_and!; [done|done|exact Ec|]. apply owed_paid; [done|].
    etrans; [exact Ho1|]. apply owed_not_started; [lia|]. etrans; [exact Ho|]. cbn [paid]. clear. multiset_solver. }
  assert (owed h1 ⊆ {[+ Running thid; Thread thid +]} ⊎ D) as Ho2.
  { etrans; [exact Ho1|]. rewrite <-(assoc_L (⊎)). apply owed_started; [lia|done]. }
  clear Ho Ho1. apply returns_bind. eapply returns_mono; [by eapply wait_owned|].
  intros ? s2 h2 [[Ec2 Ef2]%owned_parts Ho3]. do 2 returns_step. returns_step.
  - apply returns_bind. eapply returns_mono; [by eapply close_slot_owes|]. intros ? s3 h3 [-> Ho4].
    eapply end_loader_pays; [exact Ho4|]. intros s4 h4 Ec4 Ho5. do 3 returns_step.
    split_and!; [done|done|by transitivity (cmd_same s4); [|rewrite Ec4; transitivity (cmd_same s2); [|rewrite Ec2, Ec]]|].
    clear -Ho5. multiset_solver.
  - returns_step. split_and!; [done|lia|by rewrite Ec2, Ec|]. 
    assert (loader_thid s2 = thid) as Et.
    { pose proof (f_equal fst Ef2) as E2. pose proof (f_equal fst Ef) as E1. cbn in E1, E2. congruence. }
    unfold cmd_debts, thread_held. rewrite Et. by replace (0 <=? thid) with true by lia.
Qed.

#[export] Instance cmd_service : Service env (cmd_start others) (cmd_end others) cmd_down cmd_whole cmd_same cmd_debts.
Proof using Hothers.
  split; [done|..].
  - intros s Hs. unfold cmd_debts, thread_held, cmd_down in *. by replace (0 <=? loader_thid s) with false by lia.
  - apply cmd_start_law.
  - intros s h D _ Ho. unfold cmd_end.
    apply returns_bind. eapply returns_mono; [by eapply close_slot_owes|]. intros ? s1 h1 [-> Ho1].
    apply returns_bind. eapply returns_mono; [by eapply close_slot_owes|]. intros ? s2 h2 [-> Ho2]. do 2 returns_step.
    unfold cmd_debts, thread_held in Ho2. cbn [loader_thid set_active_client_sockfd set_loader_sockfd].
    destruct (0 <=? loader_thid s) eqn:Et.
    + eapply end_loader_pays; [exact Ho2|]. intros s4 h4 Ec4 Ho4. returns_step. split_and!; [done|by transitivity (cmd_same s4); [|rewrite Ec4]|done].
    + returns_step. split_and!; [unfold cmd_down; cbn; lia|done|by rewrite (left_id_L ∅ (⊎)) in Ho2].
Qed.
End cmd_service.
(** * The network thread *)

(** Whichever server runs can be stopped, none runs unless it is recorded, and beyond
    [D] nothing is owed but what the two servers will pay. *)
Definition balanced (D : gmultiset debt) s h : Prop :=
  ftp_whole s /\ (all_is_up s = 0 -> ftp_down s /\ cmd_down s) /\ owed h ⊆ ftp_server_debts s ⊎ (cmd_debts s ⊎ D).
Definition registered s : Z * Z := (netctl_cb_id s, netctl_initialized s).
Definition at_rest s : Prop := all_is_up s = 0 /\ ftp_down s /\ cmd_down s.

Lemma setup_stopped f f' : setup f' = setup f -> stopped f -> stopped f'.
Proof. intros [= _ _ En Ec Em Ei] (H1 & H2 & H3 & H4). split_and!; congruence. Qed.

(** What the predicates depend on. *)
Lemma ftp_down_setup s s' : setup (ftp_statics s') = setup (ftp_statics s) -> ftp_down s -> ftp_down s'.
Proof. apply setup_stopped. Qed.

Lemma ftp_whole_setup s s' : setup (ftp_statics s') = setup (ftp_statics s) -> ftp_whole s -> ftp_whole s'.
Proof.
  intros E [Hd|Hi]; [left; by eapply ftp_down_setup|right]. by rewrite (setup_initialized _ _ E).
Qed.

Lemma ftp_server_debts_setup s s' : setup (ftp_statics s') = setup (ftp_statics s) -> ftp_server_debts s' = ftp_server_debts s.
Proof. apply ftp_debts_setup. Qed.

(** The parts of what the other threads leave alone. *)
Lemma statics_parts s s' : statics s' = statics s ->
  setup (ftp_statics s') = setup (ftp_statics s) /\ loader_thid s' = loader_thid s /\ all_is_up s' = all_is_up s /\
  registered s' = registered s.
Proof.
  intros E. split_and!; [exact (f_equal (fun o => o.1.1) E)|exact (f_equal (fun o => o.1.2) E)|exact (f_equal (fun o => o.2.1.1) E)|].
  exact (f_equal (fun o => (o.2.1.2, o.2.2)) E).
Qed.

Lemma cmd_same_parts s s' : cmd_same s' = cmd_same s ->
  setup (ftp_statics s') = setup (ftp_statics s) /\ all_is_up s' = all_is_up s /\ registered s' = registered s.
Proof.
  intros E. split_and!; [exact (f_equal fst E)|exact (f_equal (fun o => o.2.1.1) E)|exact (f_equal (fun o => (o.2.1.2, o.2.2)) E)].
Qed.

Lemma ftp_same_parts s s' : ftp_same s' = ftp_same s ->
  loader_thid s' = loader_thid s /\ all_is_up s' = all_is_up s /\ registered s' = registered s.
Proof.
  intros E. split_and!; [exact (f_equal fst E)|exact (f_equal (fun o => o.2.1.1) E)|exact (f_equal (fun o => (o.2.1.2, o.2.2)) E)].
Qed.

Lemma cmd_kept s s' : loader_thid s' = loader_thid s -> cmd_debts s' = cmd_debts s /\ (cmd_down s -> cmd_down s').
Proof. unfold cmd_debts, cmd_down. intros ->. done. Qed.

Lemma balanced_kept D s s' h h' : statics s' = statics s -> owed h' ⊆ owed h -> balanced D s h -> balanced D s' h'.
Proof.
  intros (Es & El & Eu & _)%statics_parts Ho (Hw & Hr & Hb). destruct (cmd_kept _ _ El) as [Ec Hc]. split_and!.
  - by eapply ftp_whole_setup.
  - rewrite Eu. intros Hup. destruct (Hr Hup) as [Hd Hc']. split; [by eapply ftp_down_setup|by apply Hc].
  - rewrite (ftp_server_debts_setup _ _ Es), Ec. by etrans.
Qed.

Lemma at_rest_kept s s' : statics s' = statics s -> at_rest s -> at_rest s'.
Proof.
  intros (Es & El & Eu & _)%statics_parts (Hu & Hd & Hc). split_and!; [congruence|by eapply ftp_down_setup|by apply (cmd_kept _ _ El)].
Qed.

Section thread.
Context `{Sdk} env (others : P unit) (ftp_others : history -> server -> server) (events : history -> list Z).
Context (Hothers : keeps_owned env others).
Context `{!Service env (start_ftp ftp_others) (stop_ftp ftp_others) ftp_down ftp_whole ftp_same ftp_server_debts}.
Context `{!Service env (cmd_start others) (cmd_end others) cmd_down cmd_whole cmd_same cmd_debts}.

Ltac pause_with lemma :=
  apply returns_bind;
  lazymatch goal with |- @returns _ _ (CmdServer.pause _ ?c) ?Q _ ?s ?h => eapply (lemma env others Hothers c Q s h); [reflexivity|..] end.

(** Nothing runs and nothing is owed beyond [D]. *)
Definition settled (D : gmultiset debt) s h : Prop := at_rest s /\ owed h ⊆ D.

Lemma settled_balanced D s h : settled D s h -> balanced D s h.
Proof using All. intros [(Hu & Hd & Hc) Ho]. split_and!; [by left|done|]. clear -Ho. multiset_solver. Qed.

Lemma balanced_down D s h : balanced D s h -> all_is_up s = 0 -> settled D s h.
Proof using All.
  intros (_ & Hr & Ho) Hup. destruct (Hr Hup) as [Hd Hc]. split; [done|].
  rewrite (down_debts (debts := ftp_server_debts) s Hd), (down_debts (debts := cmd_debts) s Hc) in Ho. by rewrite !(left_id_L ∅ (⊎)) in Ho.
Qed.

(** Announcing a device changes the table alone. *)
Lemma add_devices_kept names s h :
  returns (add_devices names) (fun _ s' h' => setup (ftp_statics s') = setup (ftp_statics s) /\ ftp_same s' = ftp_same s /\ h' = h) env s h.
Proof using Type.
  revert s h. induction names as [|name names IH]; intros s h; cbn [add_devices]; [by apply returns_ret|].
  unfold on_ftp_server, on_commands, on_ftpvita, on_globals, ftpvita_add_device.
  repeat returns_step; (eapply returns_mono; [apply IH|]; intros ? s' h' (-> & -> & ->); done).
Qed.

Lemma start_services_balanced D s h :
  balanced D s h -> all_is_up s = 0 ->
  returns (start_services others ftp_others) (fun _ s' h' => balanced D s' h' /\ registered s' = registered s) env s h.
Proof using All.
  intros Hb Hup. destruct (balanced_down _ _ _ Hb Hup) as [(_ & Hd & Hc) Ho]. clear Hb. unfold start_services. returns_step.
  unfold on_ftp_server, on_commands, on_ftpvita, on_globals, ftpvita_set_file_buf_size. do 4 returns_step.
  match goal with |- returns _ _ _ ?s1 _ => assert (ftp_down s1 /\ cmd_down s1 /\ all_is_up s1 = 0 /\ registered s1 = registered s)
    as (Hd1 & Hc1 & Hu1 & E1) by done; generalize dependent s1 end. clear Hd Hc Hup. intros s1 Hd Hc Hup E1. rewrite <-E1. clear E1 s.
  apply returns_bind. eapply returns_mono; [by apply (start_law (debts := ftp_server_debts) s1 h D)|].
  intros ret s2 h2 (Hw2 & Hd2 & (El2 & Eu2 & Er2)%ftp_same_parts & Ho2). destruct (cmd_kept _ _ El2) as [_ Hc2]. specialize (Hc2 Hc).
  returns_step.
  { returns_step. split; [|done]. split_and!; [done|split; [apply Hd2; lia|done]|]. clear -Ho2. multiset_solver. }
  apply returns_bind. eapply returns_mono; [apply add_devices_kept|]. intros ? s3 h3 (Es3 & (El3 & Eu3 & Er3)%ftp_same_parts & ->).
  destruct (cmd_kept _ _ El3) as [_ Hc3]. specialize (Hc3 Hc2). rewrite <-(ftp_server_debts_setup _ _ Es3) in Ho2.
  assert (ftp_whole s3) as Hw3 by by eapply ftp_whole_setup.
  do 2 returns_step. apply returns_bind. eapply returns_mono; [by apply (start_law (debts := cmd_debts) _ h2 (ftp_server_debts s3 ⊎ D))|].
  intros started s4 h4 (_ & Hc4 & (Es4 & Eu4 & Er4)%cmd_same_parts & Ho4).
  change (setup (ftp_statics s4) = setup (ftp_statics s3)) in Es4. change (registered s4 = registered s3) in Er4. rewrite <-(ftp_server_debts_setup _ _ Es4) in Ho4.
  assert (ftp_whole s4) as Hw4 by by eapply ftp_whole_setup. returns_step.
  - rewrite (down_debts (debts := cmd_debts) s4), (left_id_L ∅ (⊎)) in Ho4 by (apply Hc4; lia). do 2 returns_step.
    apply returns_bind. eapply returns_mono; [by apply (stop_law (debts := ftp_server_debts) (set_net_connected 0 s4) h4 D)|].
    intros ? s5 h5 (Hd5 & (El5 & Eu5 & Er5)%ftp_same_parts & Ho5). returns_step.
    split; [|rewrite Er5; change (registered s4 = registered s1); congruence]. apply settled_balanced. split; [|done].
    split_and!; [rewrite Eu5; change (all_is_up s4 = 0); rewrite Eu4; change (all_is_up s3 = 0); congruence|done|].
    apply (cmd_kept _ _ El5). apply Hc4. lia.
  - do 3 returns_step. split; [|change (registered s4 = registered s1); congruence]. split_and!; [done|done|].
    change (owed h4 ⊆ ftp_server_debts s4 ⊎ (cmd_debts s4 ⊎ D)). clear -Ho4. multiset_solver.
Qed.

Lemma stop_services_rest D s h :
  balanced D s h ->
  returns (stop_services others ftp_others) (fun _ s' h' => settled D s' h' /\ registered s' = registered s) env s h.
Proof using All.
  intros Hb. unfold stop_services. do 4 returns_step. cbn [all_is_up set_net_connected].
  returns_step; [returns_step; split; [|done]; apply (balanced_down _ _ _ Hb); by apply Z.eqb_eq|]. destruct Hb as (Hw & _ & Ho).
  apply returns_bind. eapply returns_mono; [apply (stop_law (debts := cmd_debts) _ h (ftp_server_debts s ⊎ D)); [done|]|].
  { change (owed h ⊆ cmd_debts s ⊎ (ftp_server_debts s ⊎ D)). clear -Ho. multiset_solver. }
  intros ? s2 h2 (Hc2 & (Es2 & _ & Er2)%cmd_same_parts & Ho2). change (setup (ftp_statics s2) = setup (ftp_statics s)) in Es2.
  rewrite <-(ftp_server_debts_setup _ _ Es2) in Ho2.
  apply returns_bind. eapply returns_mono; [apply (stop_law (debts := ftp_server_debts) s2 h2 D); [by eapply ftp_whole_setup|done]|].
  intros ? s3 h3 (Hd3 & (El3 & _ & Er3)%ftp_same_parts & Ho3). returns_step.
  split; [split; [split_and!; [done|exact Hd3|by apply (cmd_kept _ _ El3)]|done]|].
  change (registered s3 = registered s). rewrite Er3, Er2. done.
Qed.

Lemma callbacks_owned l s h : returns (callbacks l) (fun _ s' h' => statics s' = statics s /\ h' = h) env s h.
Proof using Type.
  revert s h. induction l as [|e l IH]; intros s h; cbn [callbacks]; [by apply returns_ret|].
  unfold netctl_cb. repeat returns_step; (eapply returns_mono; [apply IH|]; intros ? s' h' [-> ->]; done).
Qed.

Lemma check_callback_kept s h :
  returns (check_callback others events) (fun _ s' h' => statics s' = statics s /\ owed h' ⊆ owed h) env s h.
Proof using Hothers.
  unfold check_callback. pause_with pause_frugal; [reflexivity|]. intros ? s1 h1 E1 Ho1. apply returns_bind. intros l s' h' [= <- <- <-].
  eapply returns_mono; [apply callbacks_owned|]. intros ? s2 h2 [-> ->]. done.
Qed.

Lemma net_loop_balanced turns D s h :
  balanced D s h ->
  returns (net_loop others ftp_others events turns) (fun _ s' h' => balanced D s' h' /\ registered s' = registered s) env s h.
Proof using All.
  revert s h. induction turns as [|turns IH]; intros s h Hs; cbn [net_loop]; do 2 returns_step;
    (returns_step; [by apply returns_ret|]); [by intros a s' h'|].
  apply returns_bind. eapply returns_mono; [apply check_callback_kept|]. intros ? s1 h1 [E1 Ho1].
  assert (balanced D s1 h1) as Hs1 by by eapply balanced_kept. destruct (statics_parts _ _ E1) as (_ & _ & _ & Er1).
  do 2 returns_step. apply returns_bind, (returns_mono _ (fun _ s' h' => balanced D s' h' /\ registered s' = registered s1)).
  { returns_step.
    - apply andb_true_iff in Heqb0 as [_ Hup%Z.eqb_eq]. apply returns_bind. eapply returns_mono; [by apply start_services_balanced|].
      intros ? s2 h2 Hs2. by apply returns_ret.
    - returns_step; [|by apply returns_ret]. eapply returns_mono; [by apply stop_services_rest|].
      intros ? s2 h2 [Hs2 Er2]. split; [by apply settled_balanced|done]. }
  intros ? s2 h2 [Hs2 Er2]. pause_with pause_frugal; [reflexivity|]. intros ? s3 h3 E3 Ho3.
  eapply returns_mono; [apply IH; by eapply balanced_kept|]. intros ? s4 h4 [Hs4 Er4]. split; [done|].
  destruct (statics_parts _ _ E3) as (_ & _ & _ & Er3). congruence.
Qed.

Lemma exit_netctl_done D s h :
  settled (netctl_held (netctl_initialized s) ⊎ D) s h ->
  returns (exit_netctl others) (fun _ s' h' => settled D s' h' /\ netctl_initialized s' = 0 /\ netctl_cb_id s' = netctl_cb_id s) env s h.
Proof using Hothers.
  intros [Hs Ho]. unfold exit_netctl, netctl_held in *. do 2 returns_step. destruct (Z.eqb_spec (netctl_initialized s) 0).
  { returns_step. split_and!; [split; [done|by rewrite (left_id_L ∅ (⊎)) in Ho]|done|done]. }
  pause_with pause_pays; [exact Ho|]. intros ? s1 h1 E1 Ho1. returns_step.
  destruct (at_rest_kept _ _ E1 Hs) as (Hu & Hd & Hc). destruct (statics_parts _ _ E1) as (_ & _ & _ & [= Ecb _]). done.
Qed.

Lemma unregister_done D s h :
  settled (callback_held (netctl_cb_id s) ⊎ D) s h ->
  returns (unregister others) (fun _ s' h' => settled D s' h' /\ netctl_initialized s' = netctl_initialized s /\ netctl_cb_id s' < 0) env s h.
Proof using Hothers.
  intros [Hs Ho]. unfold unregister, callback_held in *. do 2 returns_step. destruct (Z.leb_spec 0 (netctl_cb_id s)).
  2: { returns_step. split_and!; [split; [done|by rewrite (left_id_L ∅ (⊎)) in Ho]|done|done]. }
  pause_with pause_pays; [exact Ho|]. intros ? s1 h1 E1 Ho1. returns_step.
  destruct (at_rest_kept _ _ E1 Hs) as (Hu & Hd & Hc). destruct (statics_parts _ _ E1) as (_ & _ & _ & [= _ En]). done.
Qed.

Lemma sample_state_owned s h : returns (sample_state others) (fun _ s' h' => statics s' = statics s /\ owed h' ⊆ owed h) env s h.
Proof using Hothers. unfold sample_state. pause_with pause_frugal; [reflexivity|]. intros [ret state] s1 h1 E1 Ho1. by repeat returns_step. Qed.
End thread.

(** * Properties *)

(** C22: the network thread leaves nothing running. Whatever connection events
    arrive, however often the services are brought up and down, with every failure
    of a start, and whatever the other threads do apart from touching what this
    thread owns: when [net_thread] returns, everything it acquired on the way was
    given back by the call that gives it back. Every thread of the two servers that
    was started was waited for and every one that was created was deleted, every
    mutex was deleted, every start of the network layers was undone and a callback
    that was registered was unregistered: the run owes no more than it did before.
    And the statics say so: both servers are stopped and can be started again, NetCtl
    is not held, and unless the callback could not be registered no id of one is
    kept. A registration that succeeds gives an id that is not negative. (That the
    servers' own functions are free of undefined behaviour is the subject of their
    theorems.) *)
Theorem net_thread_stops_services `{Sdk} env others ftp_others events turns s h :
  keeps_owned env others -> keeps_setup ftp_others ->
  (forall h, Z.of_nat (length (snd (env h sceNetCtlInetGetInfo))) < 16) -> SCE_NET_ERROR_ENOTINIT <> 0 ->
  (forall h, 0 <= fst (env h sceNetCtlInetRegisterCallback) -> 0 <= snd (env h sceNetCtlInetRegisterCallback)) ->
  at_rest s -> netctl_initialized s = 0 -> netctl_cb_id s < 0 ->
  returns (net_thread others ftp_others events turns) (fun ret s' h' =>
    owed h' ⊆ owed h /\ at_rest s' /\ netctl_initialized s' = 0 /\ (0 <= ret -> netctl_cb_id s' < 0)) env s h.
Proof.
  intros Hothers Hsetup Hip Hconst Hid Hs Hn Hcb.
  pose proof (ftp_service env ftp_others Hsetup Hip Hconst) as Hftp. pose proof (cmd_service env others Hothers) as Hcmd.
  unfold net_thread. apply returns_bind, (pause_frugal env others Hothers (sceKernelDelayThread _) _ s h (owed h)); [done|done|]. intros ? s1 h1 E1 Ho1.
  apply returns_bind, (pause_owned env others Hothers sceNetCtlInit). cbn [answer]. intros ret s2 h2 _ E2 Ho2.
  assert (settled (netctl_held (Z.b2z (ret =? 0)) ⊎ owed h) s2 h2) as Hs2.
  { split; [by do 2 (eapply at_rest_kept; [eassumption|])|]. etrans; [exact Ho2|]. etrans; [by apply owed_gained|].
    cbn [gained]. unfold netctl_held. by destruct (ret =? 0). }
  destruct (statics_parts _ _ E1) as (_ & _ & _ & [= Ecb1 En1]). destruct (statics_parts _ _ E2) as (_ & _ & _ & [= Ecb2 En2]).
  returns_step.
  { returns_step. destruct Hs2 as [Hr Ho]. replace (ret =? 0) with false in Ho by lia. split_and!; [|done|congruence|lia].
    change (owed h2 ⊆ ∅ ⊎ owed h) in Ho. by rewrite (left_id_L ∅ (⊎)) in Ho. }
  clear Hn Hcb Ho1 Ho2 E1 E2 Ecb1 En1 Ecb2 En2. do 2 returns_step. revert Hs2. generalize (Z.b2z (ret =? 0)). intros held Hs2.
  assert (settled (netctl_held (netctl_initialized (set_netctl_initialized held s2)) ⊎ owed h) (set_netctl_initialized held s2) h2) as Hs3 by exact Hs2.
  revert Hs3. generalize (set_netctl_initialized held s2). clear Hs2 s2. intros s2 [Hr2 Ho2].
  apply returns_bind. eapply returns_mono; [by apply sample_state_owned|]. intros ? s3 h3 [E3 Ho3].
  apply returns_bind, (pause_owned env others Hothers sceNetCtlInetRegisterCallback). intros [reg id] s4 h4 Ea E4 Ho4. cbn iota.
  specialize (Hid h3). rewrite <-Ea in Hid. cbn [fst snd] in Hid.
  destruct (statics_parts _ _ E3) as (_ & _ & _ & [= _ En3]). destruct (statics_parts _ _ E4) as (_ & _ & _ & [= _ En4]).
  assert (at_rest s4) as Hr4 by by do 2 (eapply at_rest_kept; [eassumption|]).
  assert (owed h4 ⊆ (if 0 <=? reg then {[+ Callback id +]} else ∅) ⊎ (netctl_held (netctl_initialized s4) ⊎ owed h)) as Ho5.
  { etrans; [exact Ho4|]. etrans; [by apply owed_gained|]. cbn [gained]. rewrite En4, En3. clear -Ho2 Ho3. multiset_solver. }
  clear Ho4 Ho3 Ho2 E3 E4 Ea En3 En4. do 2 returns_step.
  assert (at_rest (set_netctl_cb_id id s4)) as Hr5 by exact Hr4.
  change (netctl_initialized s4) with (netctl_initialized (set_netctl_cb_id id s4)) in Ho5.
  assert (netctl_cb_id (set_netctl_cb_id id s4) = id) as Eid by done.
  generalize dependent (set_netctl_cb_id id s4). clear Hr4 s4. intros s5 Ho5 Hr5 Eid.
  returns_step.
  { replace (0 <=? reg) with false in Ho5 by lia. rewrite (left_id_L ∅ (⊎)) in Ho5.
    apply returns_bind. eapply returns_mono; [by apply (exit_netctl_done env others Hothers (owed h))|]. intros ? s6 h6 ([Hr6 Ho6] & H2 & _). returns_step.
    split_and!; [done|done|done|lia]. }
  replace (0 <=? reg) with true in Ho5 by lia.
  apply returns_bind. eapply returns_mono; [by apply sample_state_owned|]. intros ret' s6 h6 [E6 Ho6].
  destruct (statics_parts _ _ E6) as (_ & _ & _ & [= Ecb6 En6]).
  assert (settled (callback_held (netctl_cb_id s6) ⊎ (netctl_held (netctl_initialized s6) ⊎ owed h)) s6 h6) as Hs6.
  { split; [by eapply at_rest_kept|]. rewrite Ecb6, En6, Eid. unfold callback_held. replace (0 <=? id) with true by lia. by etrans. }
  apply returns_bind. eapply returns_mono; [by eapply net_loop_balanced; [..|eapply settled_balanced]|]. intros ? s7 h7 [Hs7 [= Ecb7 En7]].
  apply returns_bind. eapply returns_mono; [by eapply stop_services_rest|]. intros ? s8 h8 [Hs8 [= Ecb8 En8]].
  rewrite <-Ecb7, <-Ecb8, <-En7, <-En8 in Hs8.
  apply returns_bind. eapply returns_mono; [by apply (unregister_done env others Hothers)|]. intros ? s9 h9 (Hs9 & En9 & Hcb9).
  rewrite <-En9 in Hs9. apply returns_bind. eapply returns_mono; [by apply (exit_netctl_done env others Hothers)|].
  intros ? s10 h10 ([H1 H2] & H3 & H4). returns_step. rewrite H4. by split_and!.
Qed.

(** The console is connected; the command server's thread reports that it started,
    and after a while the module is stopped. *)
Definition connected : environment := fun h c =>
  match c return answer c with
  | sceNetCtlInetGetState => (0, NET_CONNECTED_STATE)
  | c => working h c
  end.

Definition stopping : P unit := fun _ s h =>
  Done (tt, set_loader_start_status 0 (if (20 <? length h)%nat then set_run 0 s else s), h).

Lemma stopping_owned : keeps_owned connected stopping.
Proof. intros s h a s' h' [= _ <- <-]. split; [by destruct (20 <? length h)%nat|done]. Qed.

(** Both servers came up, and went down again. *)
Definition created (h : history) : bool :=
  existsb (fun e => match ev_call e with sceKernelCreateThread nm => bool_decide (nm = lit "vitacompanion_cmd_thread") | _ => false end) h.

Lemma net_thread_stops_services_witness :
  exists s' h', net_thread (H := demo_sdk) stopping started_meanwhile (fun _ => []) 20 connected (set_run 1 plugin_initial) [] = Done (0, s', h') /\
    created h' = true /\ owed h' ⊆ ∅ /\ at_rest s'.
Proof.
  assert (forall h, Z.of_nat (length (snd (connected h sceNetCtlInetGetInfo))) < 16) as Hip by (intros h; reflexivity).
  assert (SCE_NET_ERROR_ENOTINIT (Sdk := demo_sdk) <> 0) as Hc by discriminate.
  assert (forall h, 0 <= fst (connected h sceNetCtlInetRegisterCallback) -> 0 <= snd (connected h sceNetCtlInetRegisterCallback)) as Hid
    by (intros h Hr; exact Hr).
  assert (at_rest (set_run 1 plugin_initial)) as Hs by (split; [reflexivity|split; [split_and!; (reflexivity || discriminate)|reflexivity]]).
  pose proof (net_thread_stops_services (H := demo_sdk) connected stopping started_meanwhile (fun _ => []) 20 (set_run 1 plugin_initial) []
    stopping_owned started_meanwhile_setup Hip Hc Hid Hs eq_refl eq_refl) as Hw.
  assert (match net_thread (H := demo_sdk) stopping started_meanwhile (fun _ => []) 20 connected (set_run 1 plugin_initial) [] with
          | Done (ret, _, h') => (ret, created h') | _ => (-1, false) end = (0, true)) as Hout by (vm_compute; reflexivity).
  destruct (net_thread (H := demo_sdk) stopping started_meanwhile (fun _ => []) 20 connected (set_run 1 plugin_initial) [])
    as [[[ret s'] h']| |] eqn:E; [|discriminate Hout..].
  injection Hout as -> Hcr. exists s', h'. split; [reflexivity|]. split; [exact Hcr|]. destruct (Hw _ _ _ E) as (Ho & Hr & _). exact (conj Ho Hr).
Defined.

(** * The entry points *)

(** The calls of this thread, oldest first, with the calls of the other threads, which
    are among [foreign], after each of them. *)
Fixpoint interleaved (foreign : call -> Prop) (own : list event) (h h' : history) : Prop :=
  match own with
  | [] => h' = h
  | e :: own => exists h1, adds foreign (e :: h) h1 /\ interleaved foreign own h1 h'
  end.

Lemma interleaved_app foreign own1 own2 h1 h2 h3 :
  interleaved foreign own1 h1 h2 -> interleaved foreign own2 h2 h3 -> interleaved foreign (own1 ++ own2) h1 h3.
Proof.
  revert h1. induction own1 as [|e own1 IH]; intros h1 H1 H2; cbn in *; [by subst|].
  destruct H1 as (h' & Ha & H1). exists h'. split; [done|]. by apply IH.
Qed.

(** The other threads leave the entry points' statics alone. *)
Definition keeps_module env (foreign : call -> Prop) (others : P unit) : Prop :=
  forall s h, wp others (fun _ s' h' => run s' = run s /\ net_thid s' = net_thid s /\ adds foreign h h') env s h.

Definition net_thread_name : bytes := lit "vitacompanion_net_thread".

(** The network thread was created and started. *)
Definition thread_began (thid started : Z) : list event :=
  [Ev (sceKernelCreateThread net_thread_name) thid; Ev (sceKernelStartThread thid) started].

(** It ended, and was deleted. *)
Definition thread_ended (thid waited deleted : Z) : list event :=
  [Ev (sceKernelWaitThreadEnd thid) waited; Ev (sceKernelDeleteThread thid) deleted].

(** The calls of a start of the thread that fails: none is left. *)
Inductive not_begun : list event -> Prop :=
| not_created thid : thid < 0 -> not_begun [Ev (sceKernelCreateThread net_thread_name) thid]
| not_started thid ret deleted : 0 <= thid -> ret < 0 -> not_begun (thread_began thid ret ++ [Ev (sceKernelDeleteThread thid) deleted]).

Section module.
Context `{Sdk} env (foreign : call -> Prop) (others : P unit) (Hothers : keeps_module env foreign others).

Lemma module_pause c (Q : answer c -> plugin -> history -> Prop) s h :
  (forall a s' h', run s' = run s -> net_thid s' = net_thid s -> interleaved foreign [Ev c a] h h' -> Q a s' h') ->
  wp (CmdServer.pause others c) Q env s h.
Proof using Hothers.
  intros HQ. unfold CmdServer.pause. apply wp_bind, wp_sys. intros a _. apply wp_bind.
  eapply wp_mono; [apply Hothers|]. intros ? s' h' (E1 & E2 & E3). apply wp_ret. apply HQ; [done|done|by exists h'].
Qed.

Ltac module_step :=
  apply wp_bind;
  lazymatch goal with |- @run_spec _ _ _ (CmdServer.pause _ ?c) ?Q _ ?s ?h => refine (module_pause c Q s h _); cbn [answer] end.

Lemma net_start_spec s h :
  net_thid s < 0 ->
  wp (net_start others) (fun ret s' h' => run s' = run s /\
    (if ret <? 0 then net_thid s' < 0 /\ exists own, not_begun own /\ interleaved foreign own h h'
     else 0 <= net_thid s' /\ interleaved foreign (thread_began (net_thid s') ret) h h')) env s h.
Proof using Hothers.
  intros Ht. unfold net_start. do 2 wp_step. replace (0 <=? net_thid s) with false by lia.
  module_step. intros thid s1 h1 R1 T1 I1. do 2 wp_step. wp_step.
  { wp_step. replace (thid <? 0) with true. split_and!; [done|cbn; lia|]. eexists. split; [|exact I1]. constructor. lia. }
  module_step. intros ret s2 h2 R2 T2 I2. wp_step. destruct (ret <? 0) eqn:Hret.
  - module_step. intros a s3 h3 R3 T3 I3. wp_step. wp_step. rewrite Hret. cbn [net_thid set_net_thid run] in *. split_and!; [congruence|done|].
    eexists. split; [apply (not_started thid ret a); lia|].
    eapply interleaved_app; [|exact I3]. exact (interleaved_app _ [_] [_] _ _ _ I1 I2).
  - do 2 wp_step. rewrite Hret. cbn [net_thid set_net_thid run] in *. split_and!; [congruence|lia|]. rewrite T2.
    exact (interleaved_app _ [_] [_] _ _ _ I1 I2).
Qed.

(** The stop waits for the thread, deletes it and gives the pool back. *)
Lemma module_stop_spec s h :
  0 <= net_thid s ->
  wp (module_stop others) (fun _ s' h' => run s' = 0 /\ net_thid s' = -1 /\ exists waited deleted term,
    interleaved foreign (thread_ended (net_thid s) waited deleted ++ [Ev taipool_term term]) h h') env s h.
Proof using Hothers.
  intros Ht. unfold module_stop. do 2 wp_step. unfold net_end. apply wp_bind. do 2 wp_step. cbn [net_thid set_run].
  replace (0 <=? net_thid s) with true by lia.
  module_step. intros waited s3 h3 R3 T3 I3. module_step. intros deleted s4 h4 R4 T4 I4. wp_step.
  module_step. intros term s5 h5 R5 T5 I5. apply wp_ret. cbn [net_thid set_net_thid set_run run] in *. split_and!; [congruence|congruence|].
  exists waited, deleted, term. eapply interleaved_app; [|exact I5]. exact (interleaved_app _ [_] [_] _ _ _ I3 I4).
Qed.
End module.

(** C39: the module starts and stops as a whole. With no network thread yet,
    [module_start] ends, and it reports success exactly when these were its calls:
    the memory pool was set up, the network thread was created with its name, and
    this thread was started, each with an answer that is not negative; then the
    thread's id is kept and the module runs. Otherwise it reports the failure, the
    module does not run, no thread id is kept, and what had been acquired was given
    back: after the pool could not be set up there is no other call; after the thread
    could not be created the pool is given back; after it could not be started the
    thread is deleted and the pool is given back. After a success the calls of
    [module_stop] are to wait for this thread, to delete it and to give the pool back,
    in this order, and nothing is kept. Between its calls there are only calls of the
    other threads. *)
Theorem module_start_all_or_nothing `{Sdk} env foreign others s h :
  keeps_module env foreign others -> SCE_KERNEL_START_SUCCESS <> SCE_KERNEL_START_FAILED -> run s = 0 -> net_thid s < 0 ->
  wp (module_start others) (fun result s' h' =>
    (result = SCE_KERNEL_START_SUCCESS /\ run s' = 1 /\ 0 <= net_thid s' /\
       (exists pool started, 0 <= pool /\ 0 <= started /\
          interleaved foreign (Ev (taipool_init TAIPOOL_SIZE) pool :: thread_began (net_thid s') started) h h') /\
       wp (module_stop others) (fun _ s'' h'' => run s'' = 0 /\ net_thid s'' = -1 /\ exists waited deleted term,
          interleaved foreign (thread_ended (net_thid s') waited deleted ++ [Ev taipool_term term]) h' h'') env s' h') \/
    (result = SCE_KERNEL_START_FAILED /\ run s' = 0 /\ net_thid s' < 0 /\ exists pool,
       (pool < 0 /\ interleaved foreign [Ev (taipool_init TAIPOOL_SIZE) pool] h h') \/
       (0 <= pool /\ exists own term, not_begun own /\
          interleaved foreign (Ev (taipool_init TAIPOOL_SIZE) pool :: own ++ [Ev taipool_term term]) h h'))) env s h.
Proof.
  intros Hothers Hne Hrun Ht. unfold module_start. apply wp_bind.
  refine (module_pause env foreign others Hothers (taipool_init _) _ s h _). cbn [answer]. intros pool s1 h1 R1 T1 I1.
  destruct (Z.ltb_spec pool 0) as [Hp|Hp].
  { apply wp_ret. right. split_and!; [done|congruence|by rewrite T1|]. exists pool. by left. }
  do 2 wp_step. apply wp_bind. eapply wp_mono; [apply (net_start_spec env foreign others Hothers); cbn; by rewrite T1|].
  intros ret s2 h2 [R2 Hret]. destruct (ret <? 0) eqn:Hlt.
  - destruct Hret as (T2 & own & Hown & I2). do 2 wp_step. apply wp_bind.
    refine (module_pause env foreign others Hothers taipool_term _ _ h2 _). intros term s3 h3 R3 T3 I3.
    apply wp_ret. right. split_and!; [done|done|by rewrite T3|]. exists pool. right. split; [done|]. exists own, term. split; [done|].
    apply (interleaved_app _ [_] _ _ _ _ I1). by eapply interleaved_app.
  - destruct Hret as [T2 I2]. apply wp_ret. left. split_and!; [done|exact R2|done| |by apply module_stop_spec].
    exists pool, ret. split_and!; [done|lia|]. by apply (interleaved_app _ [_] _ _ _ _ I1).
Qed.

Lemma module_start_all_or_nothing_witness :
  exists s' h', module_start (H := demo_sdk) (mret tt) silent plugin_initial [] = Done (SCE_KERNEL_START_SUCCESS (Sdk := demo_sdk), s', h') /\
    run s' = 1 /\ rev (ev_call <$> h') =
      [taipool_init TAIPOOL_SIZE; sceKernelCreateThread net_thread_name; sceKernelStartThread (net_thid s')].
Proof.
  assert (keeps_module silent (fun _ => False) (mret tt)) as Hothers by (intros s h; apply wp_ret; split_and!; [done|done|by exists []]).
  assert (SCE_KERNEL_START_SUCCESS (Sdk := demo_sdk) <> SCE_KERNEL_START_FAILED (Sdk := demo_sdk)) as Hne by discriminate.
  pose proof (module_start_all_or_nothing (H := demo_sdk) silent (fun _ => False) (mret tt) plugin_initial [] Hothers Hne eq_refl eq_refl) as Hw.
  apply wp_done in Hw as (ret & s' & h' & E & Hw).
  assert (match module_start (H := demo_sdk) (mret tt) silent plugin_initial [] with Done (ret, _, _) => ret | _ => -1 end =
    SCE_KERNEL_START_SUCCESS (Sdk := demo_sdk)) as Hout by (vm_compute; reflexivity).
  rewrite E in Hout. subst ret. exists s', h'. destruct Hw as [(_ & Hr & _ & (pool & started & _ & _ & Hi) & _)|(Hf & _)]; [|discriminate Hf].
  split; [exact E|]. split; [exact Hr|].
  assert (forall e h1 h2, adds (fun _ => False) (e :: h1) h2 -> h2 = e :: h1) as Hnone.
  { intros e h1 h2 (es & -> & Hes). destruct Hes as [|? ? []]. reflexivity. }
  destruct Hi as (h1 & ->%Hnone & h2 & ->%Hnone & h3 & ->%Hnone & ->). reflexivity.
Defined.
