(* ===== verification/Log.v ===== *)
(** Logging: [LOG] of src/log.c, [log_func] and the two callbacks of
    libftpvita/ftpvita.c, and what the [ENABLE_LOGGING] sections of net.c and main.c
    add. The repository is built without ([ENABLE_LOGGING] is 0 in main.h); both builds
    are modelled. *)

From S2P Require Import Prelude System FtpCmds.

(** * Formatting

    The conversions that the log lines of the repository use: flags [-] and [0], a
    width, and [d], [i], [u], [X], [s], [c]. An argument that is missing or of the wrong
    kind is undefined behaviour; so is a conversion that does not exist. *)

Inductive argument : Type :=
| Int (z : Z)
| Str (s : bytes).

(** A directive that is being read: its flags and its width. *)
Record directive := Directive { left_flag : bool; zero_flag : bool; width : nat }.
Definition no_flags : directive := Directive false false 0.

Definition PERCENT : Z := 37.

Definition fmt_X (z : Z) : bytes := match drop_while (fun d => d =? 48) (fmt_08X z) with [] => [48] | ds => ds end.

Definition pad (d : directive) (text : bytes) : bytes :=
  if left_flag d then left_justified (width d) text else replicate (width d - length text) SP ++ text.

(** The zeros go between the sign and the digits. *)
Definition pad_number (d : directive) (negative : bool) (digits : bytes) : bytes :=
  if zero_flag d && negb (left_flag d) then
    (if negative then 45 :: zero_padded (width d - 1) digits else zero_padded (width d) digits)
  else pad d (if negative then 45 :: digits else digits).

Definition convert (d : directive) (conversion : Z) (a : argument) : outcome bytes :=
  match a with
  | Int z =>
      if (conversion =? 100) || (conversion =? 105) then Done (pad_number d (s32 z <? 0) (fmt_u (Z.abs (s32 z))))
      else if conversion =? 117 then Done (pad_number d false (fmt_u (u32 z)))
      else if conversion =? 88 then Done (pad_number d false (fmt_X z))
      else if conversion =? 99 then Done (pad d [u8 z])
      else Undefined
  | Str s => if conversion =? 115 then Done (pad d s) else Undefined
  end.

Definition spec_next (d : directive) (c : Z) : option directive :=
  if c =? 45 then Some (Directive true (zero_flag d) (width d))
  else if (c =? 48) && (width d =? 0)%nat then Some (Directive (left_flag d) true 0)
  else if is_digit c then Some (Directive (left_flag d) (zero_flag d) (width d * 10 + Z.to_nat (c - 48)))
  else None.

(** What [vsnprintf] formats, before it cuts it to the size of the buffer. *)
Fixpoint vformat (reading : option directive) (s : bytes) (args : list argument) : outcome bytes :=
  match s, reading with
  | [], None => Done []
  | [], Some _ => Undefined
  | c :: s, None =>
      if c =? PERCENT then vformat (Some no_flags) s args else text ← vformat None s args; mret (c :: text)
  | c :: s, Some d =>
      if c =? PERCENT then
        if left_flag d || zero_flag d || negb (width d =? 0)%nat then Undefined
        else text ← vformat None s args; mret (PERCENT :: text)
      else match spec_next d c, args with
      | Some d, _ => vformat (Some d) s args
      | None, a :: args => shown ← convert d c a; text ← vformat None s args; mret (shown ++ text)
      | None, [] => Undefined
      end
  end.

(** * The log *)

(** The callbacks: the repository registers one function. *)
Inductive log_cb : Type := LOG_cb.

Record logger := Logger { logfd : Z; info_log_cb : ptr log_cb; debug_log_cb : ptr log_cb }.
Definition logger_initial : logger := Logger (-1) NULL NULL.

Definition set_logfd (v : Z) (l : logger) : logger := Logger v (info_log_cb l) (debug_log_cb l).

Definition LOG_BUFFER : Z := 256.

Section logging.
Context `{Sdk} (ENABLE_LOGGING : Z).

(** [buff] holds the text that fits and its terminator; [len] is the length of the
    whole text, and that many bytes of [buff] are written. *)
Definition LOG (str : bytes) (arglist : list argument) : M logger unit :=
  if ENABLE_LOGGING =? 1 then
    fd ← gets logfd;
    (if fd =? -1 then
       fd ← sys (sceIoOpen (Some (lit "ux0:dump/vitacompanion.txt"))
                   (Z.lor (Z.lor SCE_O_APPEND SCE_O_CREAT) SCE_O_WRONLY) 438);
       modify (set_logfd fd)
     else mret tt);;
    text ← lift (vformat None str arglist);
    let buff := snprintf LOG_BUFFER text ++ [NUL] in
    let len := snprintf_ret text in
    if LOG_BUFFER <? len then lift Undefined
    else fd ← gets logfd; sys (sceIoWrite fd (take (Z.to_nat len) buff));; mret tt
  else mret tt.

Definition log_func (cb : ptr log_cb) (s : bytes) (argptr : list argument) : M logger unit :=
  match cb with
  | Some LOG_cb => text ← lift (vformat None s argptr); LOG (snprintf LOG_BUFFER text) []
  | NULL => mret tt
  end.

Definition INFO (s : bytes) (args : list argument) : M logger unit := cb ← gets info_log_cb; log_func cb s args.
Definition DEBUG (s : bytes) (args : list argument) : M logger unit := cb ← gets debug_log_cb; log_func cb s args.

Definition ftpvita_set_info_log_cb (cb : ptr log_cb) : M logger unit :=
  modify (fun l => Logger (logfd l) cb (debug_log_cb l)).
Definition ftpvita_set_debug_log_cb (cb : ptr log_cb) : M logger unit :=
  modify (fun l => Logger (logfd l) (info_log_cb l) cb).

(** The logging sections of [start_services] and of [module_start]. *)
Definition start_services_logging : M logger unit :=
  LOG (lit "do_net_connected" ++ [10]) [];;
  if ENABLE_LOGGING =? 1 then
    ftpvita_set_info_log_cb (Some LOG_cb);; ftpvita_set_debug_log_cb (Some LOG_cb)
  else mret tt.

Definition module_start_logging : M logger unit :=
  if ENABLE_LOGGING =? 1 then
    fd ← sys (sceIoOpen (Some (lit "ux0:dump/vitacompanion_log.txt"))
                (Z.lor (Z.lor SCE_O_TRUNC SCE_O_CREAT) SCE_O_WRONLY) 438);
    sys (sceIoClose fd);; mret tt
  else mret tt.
End logging.

(** As built. *)
Definition ENABLE_LOGGING : Z := 0.

(** * What is logged *)

(** A text without [%] is its own format; without arguments every directive but [%%] is
    undefined, and [%%] makes the text shorter. *)
Lemma vformat_plain s args : PERCENT ∉ s -> vformat None s args = Done s.
Proof.
  induction s as [|c s IH]; [done|]. intros [Hc Hs]%not_elem_of_cons. cbn [vformat].
  destruct (Z.eqb_spec c PERCENT); [congruence|]. by rewrite IH.
Qed.

Lemma vformat_no_arguments s d : vformat d s [] <> NoFuel /\ forall t, vformat d s [] = Done t -> (length t <= length s)%nat.
Proof.
  revert d. induction s as [|c s IH]; intros [d|]; cbn [vformat]; try by (split; [done|intros t [= <-]]).
  - destruct (c =? PERCENT).
    + destruct (_ || _); [done|]. destruct (IH None) as [Hn Hl]. destruct (vformat None s []) as [t| |]; [|done..].
      split; [done|]. intros ? [= <-]. specialize (Hl t eq_refl). cbn. lia.
    + destruct (spec_next d c) as [d'|]; [|done]. destruct (IH (Some d')) as [Hn Hl]. split; [done|]. intros t Ht. specialize (Hl t Ht). cbn. lia.
  - destruct (c =? PERCENT).
    + destruct (IH (Some no_flags)) as [Hn Hl]. split; [done|]. intros t Ht. specialize (Hl t Ht). cbn. lia.
    + destruct (IH None) as [Hn Hl]. destruct (vformat None s []) as [t| |]; [|done..].
      split; [done|]. intros ? [= <-]. specialize (Hl t eq_refl). cbn. lia.
Qed.

Lemma vformat_prefix p s args : PERCENT ∉ p -> vformat None (p ++ s) args = (text ← vformat None s args; mret (p ++ text)).
Proof.
  induction p as [|c p IH]; intros Hp; cbn [app]; [by destruct (vformat None s args)|].
  apply not_elem_of_cons in Hp as [Hc Hp]. cbn [vformat]. destruct (Z.eqb_spec c PERCENT); [congruence|].
  rewrite IH by done. by destruct (vformat None s args).
Qed.

Lemma directive_undefined p c s : PERCENT ∉ p -> c <> PERCENT -> spec_next no_flags c = None ->
  vformat None (p ++ PERCENT :: c :: s) [] = Undefined.
Proof.
  intros Hp Hc Hd. rewrite vformat_prefix by done. cbn [vformat]. rewrite Z.eqb_refl. destruct (Z.eqb_spec c PERCENT); [done|].
  by rewrite Hd.
Qed.

Section properties.
Context `{Sdk}.
Implicit Types (l : logger) (env : environment) (h : history).

(** As built, nothing is logged: the calls do nothing, and neither callback is set. *)
Theorem logging_off s args env l h :
  LOG ENABLE_LOGGING s args env l h = Done (tt, l, h) /\
  module_start_logging ENABLE_LOGGING env l h = Done (tt, l, h) /\
  start_services_logging ENABLE_LOGGING env l h = Done (tt, l, h) /\
  (info_log_cb l = NULL -> INFO ENABLE_LOGGING s args env l h = Done (tt, l, h)) /\
  (debug_log_cb l = NULL -> DEBUG ENABLE_LOGGING s args env l h = Done (tt, l, h)).
Proof.
  split_and!; [done..| |]; intros E; unfold INFO, DEBUG; cbv [mbind M_bind gets]; by rewrite E.
Qed.

(** With logging, [LOG] writes the text in one call, to the file that the first call
    opened; it reads past its buffer when the text is longer than the buffer. *)
Lemma LOG_run s args t env l h :
  vformat None s args = Done t ->
  let open := sceIoOpen (Some (lit "ux0:dump/vitacompanion.txt")) (Z.lor (Z.lor SCE_O_APPEND SCE_O_CREAT) SCE_O_WRONLY) 438 in
  let first := logfd l =? -1 in
  let fd := if first then env h open else logfd l in
  let h' := if first then Ev open (env h open) :: h else h in
  let c := sceIoWrite fd (take (length t) (snprintf LOG_BUFFER t ++ [NUL])) in
  LOG 1 s args env l h =
    if LOG_BUFFER <? Z.of_nat (length t) then Undefined
    else Done (tt, (if first then set_logfd fd l else l), Ev c (env h' c) :: h').
Proof.
  intros Et open first fd h' c. unfold LOG. rewrite Z.eqb_refl. cbv [mbind M_bind gets]. unfold c, h', fd. clear c h' fd. fold first.
  destruct first; cbv [sys modify lift mret M_ret]; rewrite Et; unfold snprintf_ret; rewrite Nat2Z.id; by destruct (_ <? _).
Qed.

(** A message goes through two formats: the text that [log_func] made, cut to the
    buffer, is the format that [LOG] reads. With nothing to convert it is written as it
    is; a directive in it takes an argument that was not passed. *)
Theorem info_is_formatted_twice s args t env l h :
  info_log_cb l = Some LOG_cb -> logfd l <> -1 -> vformat None s args = Done t ->
  let shown := snprintf LOG_BUFFER t in
  INFO 1 s args env l h =
    match vformat None shown [] with
    | Done text => let c := sceIoWrite (logfd l) text in Done (tt, l, Ev c (env h c) :: h)
    | _ => Undefined
    end /\
  (PERCENT ∉ shown -> vformat None shown [] = Done shown) /\
  (forall p c rest, shown = p ++ PERCENT :: c :: rest -> PERCENT ∉ p -> c <> PERCENT -> spec_next no_flags c = None ->
     vformat None shown [] = Undefined).
Proof.
  intros Ecb Hfd Et shown. split_and!; [|apply vformat_plain|intros p c rest -> Hp Hc Hd; by apply directive_undefined].
  unfold INFO, log_func. cbv [mbind M_bind gets]. rewrite Ecb. cbv [lift]. rewrite Et. fold shown.
  assert (length shown <= 255)%nat as Hl by (unfold shown, snprintf, LOG_BUFFER; rewrite length_take; lia).
  destruct (vformat_no_arguments shown None) as [Hn Hlen]. destruct (vformat None shown []) as [text| |] eqn:E; [|unfold LOG|done].
  - specialize (Hlen text eq_refl). rewrite (LOG_run _ _ _ _ _ _ E). destruct (Z.eqb_spec (logfd l) (-1)); [done|].
    replace (LOG_BUFFER <? _) with false by (unfold LOG_BUFFER; lia).
    replace (snprintf LOG_BUFFER text) with text by (unfold snprintf, LOG_BUFFER; by rewrite take_ge by lia).
    by rewrite take_app_length.
  - rewrite Z.eqb_refl. cbv [mbind M_bind gets]. destruct (Z.eqb_spec (logfd l) (-1)); [done|]. cbv [mret M_ret lift]. by rewrite E.
Qed.
End properties.

(** What a client sends is logged with [%s], so a directive in it reaches [LOG]. *)
Example client_directive_undefined :
  INFO (H := demo_sdk) 1 (9 :: lit "%i> %s") [Int 0; Str (lit "USER %s")] silent (Logger 5 (Some LOG_cb) (Some LOG_cb)) [] = Undefined.
Proof. vm_compute. reflexivity. Qed.

Example client_line_logged :
  INFO (H := demo_sdk) 1 (9 :: lit "%i> %s") [Int 0; Str (lit "NOOP")] silent (Logger 5 (Some LOG_cb) (Some LOG_cb)) [] =
    Done (tt, Logger 5 (Some LOG_cb) (Some LOG_cb), [Ev (sceIoWrite 5 (9 :: lit "0> NOOP")) 0]).
Proof. vm_compute. reflexivity. Qed.

Example long_line_overruns :
  LOG (H := demo_sdk) 1 (lit "%s") [Str (replicate 300 65)] silent (Logger 5 NULL NULL) [] = Undefined.
Proof. vm_compute. reflexivity. Qed.

Example log_formats :
  vformat None (lit "ret=0x%08X %-2d|%04X %u %c") [Int (-1); Int 7; Int 1338; Int (2 ^ 32 - 1); Int 65] =
    Done (lit "ret=0xFFFFFFFF 7 |053A 4294967295 A").
Proof. vm_compute. reflexivity. Qed.
